(** * The procman deputy (bot2-procman/src/deputy/procman_deputy.c)

    A shallow embedding of the deputy's event handlers: the reconciler
    [procman_deputy_order_received], [start_cmd], [stop_cmd], the child-exit
    handler, the resource sampler and the introspection tick.

    The deputy is a single-threaded program over one global record
    ([global_pmd]) that talks to the operating system, to glib and to LCM.
    It is modelled as a state monad over a [machine]: the deputy record, the
    number of answers already taken from the environment, and the trace of
    what the deputy did to the outside world (messages published, processes
    forked and signalled, watches added and removed).  What the outside world
    answers (the clock, fork, kill, waitpid, /proc readings) is read from a
    fixed environment [os_t], one answer for each call, in call order.

    Diagnostics written to stderr/stdout ([dbgt], [perror], [printf]) are
    not part of the model, but for the one [dbgt] whose format is no
    literal: [dbgt (buf)] of [pipe_data_ready], where the format is a text
    made of the command and of the answer of the environment.  The [float]
    fields [cpu_load] and [cpu_usage] hold the rational that the stored
    [float] stands for: the quotients of the sampler are computed as IEEE 754
    has them (binary64 division, then the conversion to binary32, both to
    the nearest number and to the even one on a tie), with the functions of
    Stdlib's [SpecFloat]. *)

From Stdlib Require Import ZArith List String Ascii Bool Lia QArith Qpower SpecFloat.
From Stdlib Require DecimalString.
Import ListNotations.

Open Scope string_scope.
Open Scope list_scope.
Open Scope Z_scope.

(** ** Machine integers *)

Module CInt.

  (** Two's complement reading of the low [bits] bits of [x]. *)
Definition wrap_signed (bits x : Z) : Z :=
    (x + 2 ^ (bits - 1)) mod 2 ^ bits - 2 ^ (bits - 1).

Definition int32 (x : Z) : Z := wrap_signed 32 x.
Definition int64 (x : Z) : Z := wrap_signed 64 x.
Definition uint64 (x : Z) : Z := x mod 2 ^ 64.

Definition INT_MAX : Z := 2147483647.
Definition INT64_MAX : Z := 9223372036854775807.
Definition INT64_MIN : Z := -9223372036854775808.

  (** [x ++] on an [int]. *)
Definition incr (x : Z) : Z := int32 (x + 1).

Definition in_int32 (x : Z) : Prop := - 2147483648 <= x <= INT_MAX.
Definition in_int64 (x : Z) : Prop := INT64_MIN <= x <= INT64_MAX.

End CInt.

(** ** Floating point *)

(** [(double) n] of a [uint64_t] [n]. *)
Definition double_of_uint64 (n : Z) : spec_float := binary_normalize 53 1024 n 0 false.

(** What the assignment of a [double] to a [float] field stores. *)
Definition float_of_double (x : spec_float) : spec_float :=
  match x with
  | S754_finite s m e => binary_round 24 128 s m e
  | _ => x
  end.

(** The number that a floating point number stands for, [m * 2 ^ e] with
    its sign; 0 for an infinity and for what is no number. *)
Definition float_value (x : spec_float) : Q :=
  match x with
  | S754_finite s m e =>
      let n := if s then Zneg m else Zpos m in
      match e with
      | Zneg p => Qmake n (2 ^ p)
      | _ => inject_Z (n * 2 ^ e)
      end
  | _ => 0%Q
  end.

(** ** Text *)

Definition LF : string := String (ascii_of_nat 10) EmptyString.

(** A [string] stands for a C string, which ends at its first NUL, so it
    holds none; the bytes read from a pipe are the one text that may.
    [c_str s] is what a [char *] to the bytes of [s], with a NUL after the
    last one, is as a C string. *)
Fixpoint c_str (s : string) : string :=
  match s with
  | EmptyString => EmptyString
  | String c rest => if Ascii.eqb c zero then EmptyString else String c (c_str rest)
  end.

(** [%d] *)
Definition fmt_d (z : Z) : string :=
  DecimalString.NilZero.string_of_int (Z.to_int z).

(** What [vsnprintf (buf, sizeof buf, ...)] leaves in a 256 byte buffer. *)
Definition vsnprintf_256 (s : string) : string := substring 0 255 s.

(** ** Records of the sampler (procinfo.h) *)

Module Proc.
  (** [proc_cpu_mem_t]: the fields the deputy reads. *)
Record t : Type := mk { user : Z; system : Z; vsize : Z; rss : Z }.
Definition zero : t := mk 0 0 0 0.
End Proc.

Module Sys.
  (** [sys_cpu_mem_t] *)
Record t : Type := mk {
    user : Z; user_low : Z; system : Z; idle : Z;
    memtotal : Z; memfree : Z; swaptotal : Z; swapfree : Z }.
Definition zero : t := mk 0 0 0 0 0 0 0 0.
End Sys.

(** ** Child handles *)

(** [pmd_cmd_moreinfo_t], the deputy's private part of a handle. *)
Record pmd_cmd_moreinfo_t : Type := mk_moreinfo {
  stdout_ioc : option Z;       (* GIOChannel on that fd, or NULL *)
  stdout_sid : Z;              (* glib source id of the watch *)
  actual_runid : Z;
  sheriff_id : Z;
  cpu_time0 : Proc.t;          (* cpu_time[0], the previous sample *)
  cpu_time1 : Proc.t;          (* cpu_time[1], the current sample *)
  cpu_usage : Q;               (* a float: the number it stands for *)
  group : string;
  nickname : string;
  num_kills_sent : Z;
  last_kill_time : Z;
  remove_requested : bool }.

(** [calloc (1, sizeof (pmd_cmd_moreinfo_t))] *)
Definition calloc_moreinfo : pmd_cmd_moreinfo_t :=
  mk_moreinfo None 0 0 0 Proc.zero Proc.zero 0%Q EmptyString EmptyString 0 0 false.

(** [procman_cmd_t] (procman.h), with the fields the deputy uses.  [user]
    points to the handle's [pmd_cmd_moreinfo_t]; the deputy attaches it right
    after [procman_add_cmd] and never reads a handle without it. *)
Record procman_cmd_t : Type := mk_cmd {
  cmd_str : string;            (* cmd->str *)
  argv : list string;
  pid : Z;
  stdout_fd : Z;
  exit_status : Z;
  user : pmd_cmd_moreinfo_t }.

(** A handle whose [user] pointer is NULL: what is left of a
    [procman_cmd_t] once [remove_all_cmds] has freed its record. *)
Record bare_cmd_t : Type := mk_bare {
  bare_str : string;
  bare_argv : list string;
  bare_pid : Z;
  bare_stdout_fd : Z;
  bare_exit_status : Z }.

(** [free (mi->group); free (mi->nickname); free (mi); cmd->user = NULL] *)
Definition free_user (p : procman_cmd_t) : bare_cmd_t :=
  mk_bare (cmd_str p) (argv p) (pid p) (stdout_fd p) (exit_status p).

Inductive procman_cmd_status_t : Type :=
| PROCMAN_CMD_STOPPED
| PROCMAN_CMD_RUNNING.

Definition set_user (p : procman_cmd_t) (mi : pmd_cmd_moreinfo_t) : procman_cmd_t :=
  mk_cmd (cmd_str p) (argv p) (pid p) (stdout_fd p) (exit_status p) mi.

Definition set_pid (p : procman_cmd_t) (v : Z) : procman_cmd_t :=
  mk_cmd (cmd_str p) (argv p) v (stdout_fd p) (exit_status p) (user p).

Definition set_stdout_fd (p : procman_cmd_t) (v : Z) : procman_cmd_t :=
  mk_cmd (cmd_str p) (argv p) (pid p) v (exit_status p) (user p).

Definition set_exit_status (p : procman_cmd_t) (v : Z) : procman_cmd_t :=
  mk_cmd (cmd_str p) (argv p) (pid p) (stdout_fd p) v (user p).

Definition set_watch (mi : pmd_cmd_moreinfo_t) (ioc : option Z) (sid : Z) : pmd_cmd_moreinfo_t :=
  mk_moreinfo ioc sid (actual_runid mi) (sheriff_id mi) (cpu_time0 mi)
    (cpu_time1 mi) (cpu_usage mi) (group mi) (nickname mi) (num_kills_sent mi)
    (last_kill_time mi) (remove_requested mi).

Definition set_actual_runid (mi : pmd_cmd_moreinfo_t) (v : Z) : pmd_cmd_moreinfo_t :=
  mk_moreinfo (stdout_ioc mi) (stdout_sid mi) v (sheriff_id mi) (cpu_time0 mi)
    (cpu_time1 mi) (cpu_usage mi) (group mi) (nickname mi) (num_kills_sent mi)
    (last_kill_time mi) (remove_requested mi).

Definition set_sheriff_id (mi : pmd_cmd_moreinfo_t) (v : Z) : pmd_cmd_moreinfo_t :=
  mk_moreinfo (stdout_ioc mi) (stdout_sid mi) (actual_runid mi) v (cpu_time0 mi)
    (cpu_time1 mi) (cpu_usage mi) (group mi) (nickname mi) (num_kills_sent mi)
    (last_kill_time mi) (remove_requested mi).

Definition set_cpu (mi : pmd_cmd_moreinfo_t) (t0 t1 : Proc.t) (u : Q) : pmd_cmd_moreinfo_t :=
  mk_moreinfo (stdout_ioc mi) (stdout_sid mi) (actual_runid mi) (sheriff_id mi) t0
    t1 u (group mi) (nickname mi) (num_kills_sent mi)
    (last_kill_time mi) (remove_requested mi).

Definition set_group (mi : pmd_cmd_moreinfo_t) (v : string) : pmd_cmd_moreinfo_t :=
  mk_moreinfo (stdout_ioc mi) (stdout_sid mi) (actual_runid mi) (sheriff_id mi)
    (cpu_time0 mi) (cpu_time1 mi) (cpu_usage mi) v (nickname mi) (num_kills_sent mi)
    (last_kill_time mi) (remove_requested mi).

Definition set_nickname (mi : pmd_cmd_moreinfo_t) (v : string) : pmd_cmd_moreinfo_t :=
  mk_moreinfo (stdout_ioc mi) (stdout_sid mi) (actual_runid mi) (sheriff_id mi)
    (cpu_time0 mi) (cpu_time1 mi) (cpu_usage mi) (group mi) v (num_kills_sent mi)
    (last_kill_time mi) (remove_requested mi).

Definition set_kills (mi : pmd_cmd_moreinfo_t) (n t : Z) : pmd_cmd_moreinfo_t :=
  mk_moreinfo (stdout_ioc mi) (stdout_sid mi) (actual_runid mi) (sheriff_id mi)
    (cpu_time0 mi) (cpu_time1 mi) (cpu_usage mi) (group mi) (nickname mi) n t
    (remove_requested mi).

Definition set_remove_requested (mi : pmd_cmd_moreinfo_t) (v : bool) : pmd_cmd_moreinfo_t :=
  mk_moreinfo (stdout_ioc mi) (stdout_sid mi) (actual_runid mi) (sheriff_id mi)
    (cpu_time0 mi) (cpu_time1 mi) (cpu_usage mi) (group mi) (nickname mi)
    (num_kills_sent mi) (last_kill_time mi) v.

(** ** LCM messages (lcmtypes/bot_procman_*.h) *)

Module SheriffCmd.
  (** [bot_procman_sheriff_cmd_t]: one command record of an order. *)
Record t : Type := mk {
    name : string;
    nickname : string;
    group : string;
    desired_runid : Z;
    force_quit : bool;
    sheriff_id : Z }.
End SheriffCmd.

Module Orders.
  (** [bot_procman_orders_t]; [ncmds] is the length of [cmds]. *)
Record t : Type := mk {
    utime : Z;
    host : string;
    sheriff_name : string;
    cmds : list SheriffCmd.t }.
End Orders.

Module Printf.
  (** [bot_procman_printf_t] *)
Record t : Type := mk {
    deputy_name : string;
    sheriff_id : Z;
    text : string;
    utime : Z }.
End Printf.

Module DeputyCmd.
  (** [bot_procman_deputy_cmd_t] *)
Record t : Type := mk {
    name : string;
    nickname : string;
    actual_runid : Z;
    pid : Z;
    exit_code : Z;
    sheriff_id : Z;
    group : string;
    cpu_usage : Q;
    mem_vsize_bytes : Z;
    mem_rss_bytes : Z }.
End DeputyCmd.

Module Info.
  (** [bot_procman_info_t]; [ncmds] is the length of [cmds]. *)
Record t : Type := mk {
    utime : Z;
    host : string;
    cpu_load : Q;
    phys_mem_total_bytes : Z;
    phys_mem_free_bytes : Z;
    swap_total_bytes : Z;
    swap_free_bytes : Z;
    cmds : list DeputyCmd.t }.
End Info.

(** ** The deputy record *)

(** [procman_deputy_t].  The command list of the process manager
    ([procman_get_cmds (s->pm)]) is kept in two parts: [pm] has the handles
    whose [user] points to their record, in list order, and [unrecorded]
    the handles whose [user] is NULL.  Only [remove_all_cmds] makes handles
    of the second kind, and the main loop is told to quit right after: no
    handler of the deputy is written to meet one (each of them reads
    [cmd->user] of every handle it visits). *)
Record procman_deputy_t : Type := mk_deputy {
  pm : list procman_cmd_t;
  unrecorded : list bare_cmd_t;
  hostname : string;
  norders_slm : Z;
  norders_forme_slm : Z;
  nstale_orders_slm : Z;
  observed_sheriffs_slm : list string;
  last_sheriff_name : option string;
  sys_cpu_time0 : Sys.t;       (* cpu_time[0] *)
  sys_cpu_time1 : Sys.t;       (* cpu_time[1] *)
  cpu_load : Q;                (* a float: the number it stands for *)
  verbose : bool }.

Definition set_pm (s : procman_deputy_t) (l : list procman_cmd_t) : procman_deputy_t :=
  mk_deputy l (unrecorded s) (hostname s) (norders_slm s) (norders_forme_slm s)
    (nstale_orders_slm s) (observed_sheriffs_slm s) (last_sheriff_name s)
    (sys_cpu_time0 s) (sys_cpu_time1 s) (cpu_load s) (verbose s).

Definition set_unrecorded (s : procman_deputy_t) (l : list bare_cmd_t) : procman_deputy_t :=
  mk_deputy (pm s) l (hostname s) (norders_slm s) (norders_forme_slm s)
    (nstale_orders_slm s) (observed_sheriffs_slm s) (last_sheriff_name s)
    (sys_cpu_time0 s) (sys_cpu_time1 s) (cpu_load s) (verbose s).

Definition set_counters (s : procman_deputy_t) (n f st : Z) : procman_deputy_t :=
  mk_deputy (pm s) (unrecorded s) (hostname s) n f st (observed_sheriffs_slm s)
    (last_sheriff_name s) (sys_cpu_time0 s) (sys_cpu_time1 s) (cpu_load s)
    (verbose s).

Definition set_sheriffs (s : procman_deputy_t) (obs : list string)
    (last : option string) : procman_deputy_t :=
  mk_deputy (pm s) (unrecorded s) (hostname s) (norders_slm s) (norders_forme_slm s)
    (nstale_orders_slm s) obs last (sys_cpu_time0 s) (sys_cpu_time1 s)
    (cpu_load s) (verbose s).

Definition set_sys_cpu (s : procman_deputy_t) (t0 t1 : Sys.t) (load : Q) : procman_deputy_t :=
  mk_deputy (pm s) (unrecorded s) (hostname s) (norders_slm s) (norders_forme_slm s)
    (nstale_orders_slm s) (observed_sheriffs_slm s) (last_sheriff_name s)
    t0 t1 load (verbose s).

(** ** The outside world *)

Module OS.
  (** The answers of the environment.  Each deputy call that asks the
      environment something takes the answer at the index of the call. *)
Record t : Type := mk {
    gettimeofday : nat -> Z * Z;                (* tv_sec, tv_usec *)
    fork : nat -> Z * Z;                        (* pid (<= 0: failure), read end of the pipe *)
    kill : nat -> Z;                            (* 0, or -errno *)
    waitpid : nat -> Z * Z;                     (* pid (<= 0: none), wait status *)
    poll_in : nat -> bool;                      (* POLLIN in revents *)
    read : nat -> Z * string * Z;               (* bytes read (< 0: error), the buffer, errno *)
    read_sys_cpu_mem : nat -> Z * (Sys.t -> Sys.t);     (* status, effect on the buffer *)
    read_proc_cpu_mem : nat -> Z * (Proc.t -> Proc.t);  (* status, effect on the buffer *)
    io_add_watch : nat -> Z;                    (* source id *)
    strerror : Z -> string;
    strsignal : Z -> string;
    split_str : string -> list string }.        (* the command tokenizer *)
End OS.

Definition SIGKILL : Z := 9.
Definition SIGTERM : Z := 15.
Definition SIGCHLD : Z := 17.

(** What the deputy does to the outside world. *)
Inductive event : Type :=
| PMD_PRINTF (msg : Printf.t)                  (* published on PMD_PRINTF *)
| PMD_INFO (msg : Info.t)                      (* published on PMD_INFO *)
| Forked (name : string) (result : Z)          (* a spawn attempt and the pid it gave *)
| Killed (pid signum : Z)                      (* kill (pid, signum) *)
| WatchAdded (fd source : Z)                   (* g_io_add_watch *)
| WatchRemoved (source : Z)                    (* g_source_remove *)
| PipeClosed (fd : Z)
| MainLoopQuit
| Dbgt (fmt : string).                         (* dbgt (fmt), where fmt is no literal *)

Record machine : Type := mk_machine {
  pmd : procman_deputy_t;                      (* global_pmd *)
  os_calls : nat;                              (* answers taken from the environment *)
  trace : list event;                          (* oldest first *)
  quit : bool }.                               (* g_main_loop_quit was called *)

(** ** The state monad of the handlers *)

Definition M (A : Type) : Type := machine -> A * machine.

Definition ret {A : Type} (a : A) : M A := fun m => (a, m).

Definition bind {A B : Type} (c : M A) (k : A -> M B) : M B :=
  fun m => let (a, m') := c m in k a m'.

Declare Scope deputy_scope.
Delimit Scope deputy_scope with deputy.
Notation "x <- c ;; k" := (bind c (fun x => k))
  (at level 61, c at next level, right associativity) : deputy_scope.
Notation "' pat <- c ;; k" := (bind c (fun x => match x with pat => k end))
  (at level 61, pat pattern, c at next level, right associativity) : deputy_scope.
Notation "c ;; k" := (bind c (fun _ => k))
  (at level 61, right associativity) : deputy_scope.
Open Scope deputy_scope.

Definition get_pmd : M procman_deputy_t := fun m => (pmd m, m).

Definition modify_pmd (f : procman_deputy_t -> procman_deputy_t) : M unit :=
  fun m => (tt, mk_machine (f (pmd m)) (os_calls m) (trace m) (quit m)).

Definition emit (e : event) : M unit :=
  fun m => (tt, mk_machine (pmd m) (os_calls m) (trace m ++ [e]) (quit m)).

Definition when (b : bool) (c : M unit) : M unit := if b then c else ret tt.

(** glib's [GIOCondition] bits *)
Definition G_IO_IN : Z := 1.
Definition G_IO_PRI : Z := 2.
Definition G_IO_OUT : Z := 4.
Definition G_IO_ERR : Z := 8.
Definition G_IO_HUP : Z := 16.
Definition G_IO_NVAL : Z := 32.

Definition has_condition (condition bit : Z) : bool :=
  negb (Z.land condition bit =? 0).

(** <sys/wait.h>, as glibc defines them on Linux *)
Definition WTERMSIG (status : Z) : Z := Z.land status 127.
Definition WIFSIGNALED (status : Z) : bool :=
  (1 <=? WTERMSIG status) && (WTERMSIG status <=? 126).
Definition WCOREDUMP (status : Z) : bool := negb (Z.land status 128 =? 0).

Section Deputy.

Variable os : OS.t.

(** [PROCMAN_MAX_MESSAGE_AGE_USEC] of procman.h *)
Variable PROCMAN_MAX_MESSAGE_AGE_USEC : Z.

(** The jiffy counters of procinfo.h are unsigned integers of this many
    bits. *)
Variable jiffy_bits : Z.

(** One question to the environment. *)
Definition ask {A : Type} (answer : OS.t -> nat -> A) : M A :=
  fun m => (answer os (os_calls m),
            mk_machine (pmd m) (S (os_calls m)) (trace m) (quit m)).

Definition timestamp_now : M Z :=
  '(tv_sec, tv_usec) <- ask OS.gettimeofday ;;
  ret (CInt.int64 (tv_sec * 1000000 + tv_usec)).

Definition transmit_str (sid : Z) (str : string) : M unit :=
  s <- get_pmd ;;
  utime <- timestamp_now ;;
  emit (PMD_PRINTF (Printf.mk (hostname s) sid str utime)).

(** [formatted] is the text the format and its arguments give; [len] is its
    length, and the buffer keeps the first 255 bytes. *)
Definition printf_and_transmit (sid : Z) (formatted : string) : M unit :=
  if (String.length formatted =? 0)%nat then ret tt
  else
    s <- get_pmd ;;
    utime <- timestamp_now ;;
    emit (PMD_PRINTF (Printf.mk (hostname s) sid (vsnprintf_256 formatted) utime)).

(** invoked when a child process writes something to its stdout/stderr fd *)
Definition pipe_data_ready (condition : Z) (cmd : procman_cmd_t) : M bool :=
  let mi := user cmd in
  when (has_condition condition G_IO_IN)
    ('(bytes_read, data, errno) <- ask OS.read ;;
     if bytes_read <? 0 then
       (* snprintf (buf, sizeof (buf), ...) *)
       let buf :=
         substring 0 1023
           ("procman [" ++ cmd_str cmd ++ "] read: " ++ OS.strerror os errno
            ++ " (" ++ fmt_d errno ++ ")" ++ LF) in
       emit (Dbgt buf) ;;
       transmit_str (sheriff_id mi) buf
     else if bytes_read =? 0 then ret tt
     else
       (* buf[bytes_read] = '\0' *)
       transmit_str (sheriff_id mi)
         (c_str (substring 0 (Z.to_nat bytes_read) data))) ;;
  when (has_condition condition G_IO_ERR)
    (transmit_str (sheriff_id mi) ("procman deputy: detected G_IO_ERR." ++ LF)) ;;
  when (has_condition condition G_IO_HUP)
    (transmit_str (sheriff_id mi)
       ("procman deputy: detected G_IO_HUP.  end of output" ++ LF)) ;;
  when (has_condition condition G_IO_NVAL)
    (transmit_str (sheriff_id mi)
       ("procman deputy: detected G_IO_NVAL.  end of output" ++ LF)) ;;
  when (has_condition condition G_IO_PRI)
    (transmit_str (sheriff_id mi)
       ("procman deputy: unexpected G_IO_PRI... wtf?" ++ LF)) ;;
  when (has_condition condition G_IO_OUT)
    (transmit_str (sheriff_id mi)
       ("procman deputy: unexpected G_IO_OUT... wtf?" ++ LF)) ;;
  ret (negb (has_condition condition G_IO_HUP || has_condition condition G_IO_NVAL)).

(** *** The process manager (procman.c) *)

(** Modelled from the spec: [procman_get_cmd_status] of procman.c is not
    among the sources.  "Compute current runtime status: RUNNING iff
    pid != 0, else STOPPED." *)
Definition procman_get_cmd_status (p : procman_cmd_t) : procman_cmd_status_t :=
  if pid p =? 0 then PROCMAN_CMD_STOPPED else PROCMAN_CMD_RUNNING.

(** Modelled from the spec: [procman_add_cmd] of procman.c is not among the
    sources.  "add(name) -> handle: allocate new handle, assign argv by
    tokenizing name; does not spawn."  The handle is put at the end of the
    command list; it is built with the [user] record the deputy attaches to
    it right after the call. *)
Definition procman_add_cmd (name : string) (mi : pmd_cmd_moreinfo_t) : M procman_cmd_t :=
  let p := mk_cmd name (OS.split_str os name) 0 (-1) 0 mi in
  modify_pmd (fun s => set_pm s (pm s ++ [p])) ;;
  ret p.

(** Modelled from the spec: [procman_cmd_change_str] of procman.c is not
    among the sources.  "change_name(handle, new_name): mutates stored name
    and re-tokenizes argv; does NOT affect the running pid". *)
Definition procman_cmd_change_str (p : procman_cmd_t) (name : string) : procman_cmd_t :=
  mk_cmd name (OS.split_str os name) (pid p) (stdout_fd p) (exit_status p) (user p).

(** Modelled from the spec: [procman_start_cmd] of procman.c is not among
    the sources.  "start(handle): pipe; fork; child closes read end, dups
    write end to stdout+stderr, execs argv; parent records pid and
    stdout_fd.  Fails with SpawnFailed on fork/exec error; on failure pid
    stays 0." *)
Definition procman_start_cmd (p : procman_cmd_t) : M (Z * procman_cmd_t) :=
  '(child, fd) <- ask OS.fork ;;
  emit (Forked (cmd_str p) child) ;;
  if child <=? 0 then ret (-1, p)
  else ret (0, set_stdout_fd (set_pid p child) fd).

(** Modelled from the spec: [procman_kill_cmd] of procman.c is not among
    the sources.  "kill(handle, signal): send signal to pid; fails with
    NotRunning if pid == 0."  The status is 0 or a negated errno. *)
Definition procman_kill_cmd (p : procman_cmd_t) (signum : Z) : M Z :=
  if pid p =? 0 then ret (-22)
  else
    status <- ask OS.kill ;;
    emit (Killed (pid p) signum) ;;
    ret status.

(** Modelled from the spec: [procman_close_dead_pipes] of procman.c is not
    among the sources.  "close_dead_pipes(handle): drain stdout_fd of
    remaining data, then close it." *)
Definition procman_close_dead_pipes (p : procman_cmd_t) : M procman_cmd_t :=
  if stdout_fd p <? 0 then ret p
  else emit (PipeClosed (stdout_fd p)) ;; ret (set_stdout_fd p (-1)).

(** *** start_cmd, stop_cmd *)

Definition start_cmd (cmd : procman_cmd_t) (desired_runid : Z) : M (Z * procman_cmd_t) :=
  '(status, cmd) <- procman_start_cmd cmd ;;
  if negb (status =? 0) then
    printf_and_transmit 0 ("couldn't start [" ++ cmd_str cmd ++ "]" ++ LF) ;;
    printf_and_transmit (sheriff_id (user cmd))
      ("ERROR!  couldn't start [" ++ cmd_str cmd ++ "]" ++ LF) ;;
    ret (-1, cmd)
  else
    (* add stdout for this process to IO watch list *)
    source <- ask OS.io_add_watch ;;
    emit (WatchAdded (stdout_fd cmd) source) ;;
    let gh := set_watch (user cmd) (Some (stdout_fd cmd)) source in
    let gh := set_actual_runid gh desired_runid in
    let gh := set_kills gh 0 0 in
    ret (0, set_user cmd gh).

Definition stop_cmd (cmd : procman_cmd_t) : M (Z * procman_cmd_t) :=
  if pid cmd =? 0 then ret (0, cmd)
  else
    let gh := user cmd in
    (* Try killing no faster than 1 Hz *)
    now <- timestamp_now ;;
    if negb (last_kill_time gh =? 0)
       && (now <? CInt.int64 (last_kill_time gh + 900000))
    then ret (0, cmd)
    else
      status <- (if 5 <? num_kills_sent gh
                 then procman_kill_cmd cmd SIGKILL
                 else procman_kill_cmd cmd SIGTERM) ;;
      let gh := set_kills gh (CInt.incr (num_kills_sent gh)) now in
      when (negb (status =? 0))
        (printf_and_transmit (sheriff_id gh)
           ("kill: " ++ OS.strerror os (CInt.int32 (- status)) ++ LF)) ;;
      ret (status, set_user cmd gh).

(** Modelled from the spec: [procman_remove_cmd] of procman.c is not among
    the sources.  "remove(handle): requires pid == 0; detaches and frees."
    [None] is the handle gone from the command list; a running handle is
    left where it is. *)
Definition procman_remove_cmd (p : procman_cmd_t) : option procman_cmd_t :=
  if pid p =? 0 then None else Some p.

(** A pass over the command list.  [body] answers what becomes of each
    handle: [Some p'] is the handle as the pass leaves it, [None] is the
    handle removed from the list.  No [body] below looks at the list
    itself, so the list is stored back when the pass is over. *)
Fixpoint for_each_cmd (body : procman_cmd_t -> M (option procman_cmd_t))
    (cmds : list procman_cmd_t) : M (list procman_cmd_t) :=
  match cmds with
  | [] => ret []
  | p :: rest =>
      r <- body p ;;
      rest' <- for_each_cmd body rest ;;
      ret (match r with Some p' => p' :: rest' | None => rest' end)
  end.

(** The loop of [remove_all_cmds], lines 293-306; the first component is
    true when every [stop_cmd] returned 0.  Every handle loses its record
    (lines 301-304), also the one that still runs and that
    [procman_remove_cmd] therefore leaves in the command list: the second
    component has these handles, in list order. *)
Fixpoint remove_cmds (toremove : list procman_cmd_t) : M (bool * list bare_cmd_t) :=
  match toremove with
  | [] => ret (true, [])
  | cmd :: rest =>
      '(st, cmd) <- (if pid cmd =? 0 then ret (0, cmd) else stop_cmd cmd) ;;
      '(ok, rest') <- remove_cmds rest ;;
      ret ((st =? 0) && ok,
           match procman_remove_cmd cmd with
           | Some kept => free_user kept :: rest'
           | None => rest'
           end)
  end.

Definition remove_all_cmds : M Z :=
  s <- get_pmd ;;
  '(ok, kept) <- remove_cmds (pm s) ;;
  modify_pmd (fun s => set_unrecorded (set_pm s []) (unrecorded s ++ kept)) ;;
  ret (if ok then 0 else -1).

Definition deputy_cmd_of (cmd : procman_cmd_t) : DeputyCmd.t :=
  let mi := user cmd in
  DeputyCmd.mk (cmd_str cmd) (nickname mi) (actual_runid mi) (pid cmd)
    (exit_status cmd) (sheriff_id mi) (group mi) (cpu_usage mi)
    (Proc.vsize (cpu_time1 mi)) (Proc.rss (cpu_time1 mi)).

Definition transmit_proc_info : M unit :=
  s <- get_pmd ;;
  utime <- timestamp_now ;;
  emit (PMD_INFO
          (Info.mk utime (hostname s) (cpu_load s)
             (Sys.memtotal (sys_cpu_time1 s)) (Sys.memfree (sys_cpu_time1 s))
             (Sys.swaptotal (sys_cpu_time1 s)) (Sys.swapfree (sys_cpu_time1 s))
             (map deputy_cmd_of (pm s)))).

(** *** Child exits *)

(** The first handle with that pid, with the handles before and after it. *)
Fixpoint split_at_pid (child : Z) (cmds : list procman_cmd_t)
    : option (list procman_cmd_t * procman_cmd_t * list procman_cmd_t) :=
  match cmds with
  | [] => None
  | p :: rest =>
      if pid p =? child then Some ([], p, rest)
      else match split_at_pid child rest with
           | Some (before, q, after) => Some (p :: before, q, after)
           | None => None
           end
  end.

(** Modelled from the spec: [procman_check_for_dead_children] of procman.c
    is not among the sources.  "reap_one() -> handle?: nonblocking waitpid
    over owned children; fills exit_status, zeroes pid.  Returns the reaped
    handle or none."  The handle comes with its place in the command
    list. *)
Definition procman_check_for_dead_children
    : M (option (list procman_cmd_t * procman_cmd_t * list procman_cmd_t)) :=
  '(child, status) <- ask OS.waitpid ;;
  if child <=? 0 then ret None
  else
    s <- get_pmd ;;
    match split_at_pid child (pm s) with
    | None => ret None
    | Some (before, p, after) =>
        let p := set_exit_status (set_pid p 0) status in
        modify_pmd (fun s => set_pm s (before ++ p :: after)) ;;
        ret (Some (before, p, after))
    end.

(** The body of the loop of [check_for_dead_children] for one dead child,
    up to the removal of its handle. *)
Definition bury (before : list procman_cmd_t) (cmd : procman_cmd_t)
    (after : list procman_cmd_t) : M unit :=
  let mi := user cmd in
  readable <- ask OS.poll_in ;;
  when readable (_ <- pipe_data_ready G_IO_IN cmd ;; ret tt) ;;
  (* did the child terminate with a signal? *)
  when (WIFSIGNALED (exit_status cmd))
    (printf_and_transmit (sheriff_id mi)
       (OS.strsignal os (WTERMSIG (exit_status cmd)) ++ LF) ;;
     when (WCOREDUMP (exit_status cmd))
       (printf_and_transmit (sheriff_id mi) ("Core dumped." ++ LF))) ;;
  (* cleanup the glib hooks if necessary *)
  cmd <- match stdout_ioc mi with
         | Some _ =>
             emit (WatchRemoved (stdout_sid mi)) ;;
             procman_close_dead_pipes (set_user cmd (set_watch mi None 0))
         | None => ret cmd
         end ;;
  (* remove ? *)
  let kept := if remove_requested (user cmd) then procman_remove_cmd cmd
              else Some cmd in
  modify_pmd (fun s =>
    set_pm s (match kept with
              | Some cmd => before ++ cmd :: after
              | None => before ++ after
              end)).

Fixpoint bury_all (fuel : nat) (before : list procman_cmd_t)
    (cmd : procman_cmd_t) (after : list procman_cmd_t) : M unit :=
  bury before cmd after ;;
  next <- procman_check_for_dead_children ;;
  transmit_proc_info ;;
  match next, fuel with
  | Some (before, cmd, after), S fuel => bury_all fuel before cmd after
  | _, _ => ret tt
  end.

(** Every turn of the loop zeroes the pid of one more handle, so the
    length of the command list bounds the turns. *)
Definition check_for_dead_children : M unit :=
  first <- procman_check_for_dead_children ;;
  match first with
  | None => ret tt
  | Some (before, cmd, after) =>
      bury_all (List.length before + List.length after) before cmd after
  end.

Definition glib_handle_signal (signal : Z) : M unit :=
  if signal =? SIGCHLD then
    (* a child process died.  check to see which one, and cleanup its
       remains. *)
    check_for_dead_children
  else
    (* quit was requested.  kill all processes and quit *)
    _ <- remove_all_cmds ;;
    emit MainLoopQuit ;;
    fun m => (tt, mk_machine (pmd m) (os_calls m) (trace m) true).

(** *** The resource sampler *)

(** A sum of jiffy counters as the unsigned arithmetic of their type
    computes it, stored in a [uint64_t]. *)
Definition jiffies (sum : Z) : Z := CInt.uint64 (sum mod 2 ^ jiffy_bits).

(** [(double) used / ellapsed], as the [float] field it is assigned to
    holds it *)
Definition ratio (used ellapsed : Z) : Q :=
  float_value
    (float_of_double
       (SFdiv 53 1024 (double_of_uint64 used) (double_of_uint64 ellapsed))).

(** The body of the loop of [update_cpu_times] for one handle. *)
Definition sample_cmd (ellapsed_jiffies : Z) (cmd : procman_cmd_t)
    : M (option procman_cmd_t) :=
  let mi := user cmd in
  mi <- (if negb (pid cmd =? 0) then
           '(status, fill) <- ask OS.read_proc_cpu_mem ;;
           let pa := fill (cpu_time1 mi) in
           let pb := cpu_time0 mi in
           if negb (status =? 0) then
             ret (set_cpu mi pb (Proc.mk (Proc.user pa) (Proc.system pa) 0 0) 0%Q)
           else
             let used_jiffies :=
               jiffies (Proc.user pa - Proc.user pb
                        + Proc.system pa - Proc.system pb) in
             if (ellapsed_jiffies =? 0) || (Proc.user pb =? 0)
                || (Proc.system pb =? 0)
             then ret (set_cpu mi pb pa 0%Q)
             else ret (set_cpu mi pb pa (ratio used_jiffies ellapsed_jiffies))
         else
           let pa := cpu_time1 mi in
           ret (set_cpu mi (cpu_time0 mi)
                  (Proc.mk (Proc.user pa) (Proc.system pa) 0 0) 0%Q)) ;;
  (* memcpy (&mi->cpu_time[0], &mi->cpu_time[1], ...) *)
  ret (Some (set_user cmd (set_cpu mi (cpu_time1 mi) (cpu_time1 mi) (cpu_usage mi)))).

Definition ellapsed_of (a b : Sys.t) : Z :=
  jiffies (Sys.user a - Sys.user b + Sys.user_low a - Sys.user_low b
           + Sys.system a - Sys.system b + Sys.idle a - Sys.idle b).

Definition loaded_of (a b : Sys.t) : Z :=
  jiffies (Sys.user a - Sys.user b + Sys.user_low a - Sys.user_low b
           + Sys.system a - Sys.system b).

Definition update_cpu_times : M unit :=
  '(status, fill) <- ask OS.read_sys_cpu_mem ;;
  s <- get_pmd ;;
  let a := fill (sys_cpu_time1 s) in
  let b := sys_cpu_time0 s in
  let ellapsed_jiffies := ellapsed_of a b in
  let loaded_jiffies := loaded_of a b in
  modify_pmd (fun s =>
    set_sys_cpu s b a
      (if ellapsed_jiffies =? 0 then 0%Q
       else ratio loaded_jiffies ellapsed_jiffies)) ;;
  cmds <- for_each_cmd (sample_cmd ellapsed_jiffies) (pm s) ;;
  modify_pmd (fun s => set_pm s cmds) ;;
  (* memcpy (&s->cpu_time[0], &s->cpu_time[1], ...) *)
  modify_pmd (fun s => set_sys_cpu s (sys_cpu_time1 s) (sys_cpu_time1 s) (cpu_load s)).

Definition one_second_timeout : M unit :=
  update_cpu_times ;;
  transmit_proc_info.

(** The MARK line goes to stderr; what is left is the reading of the
    deputy's own counters and the reset. *)
Definition introspection_timeout : M unit :=
  _ <- ask OS.read_proc_cpu_mem ;;
  modify_pmd (fun s => set_counters s 0 0 0) ;;
  modify_pmd (fun s => set_sheriffs s [] (last_sheriff_name s)).

(** *** The reconciler *)

Definition procmd_orders_find_cmd (a : Orders.t) (sid : Z) : option SheriffCmd.t :=
  find (fun c => sid =? SheriffCmd.sheriff_id c) (Orders.cmds a).

Definition find_local_cmd (s : procman_deputy_t) (sid : Z) : option procman_cmd_t :=
  find (fun cand => sheriff_id (user cand) =? sid) (pm s).

Definition _set_command_group (p : procman_cmd_t) (g : string) : procman_cmd_t :=
  set_user p (set_group (user p) g).

Definition _set_command_nickname (p : procman_cmd_t) (n : string) : procman_cmd_t :=
  set_user p (set_nickname (user p) n).

(** The writes through [p] and [mi] reach the handle [find_local_cmd]
    returned, the first of the list with that sheriff_id (a handle added by
    [procman_add_cmd] is the first with its sheriff_id as well).  [store]
    puts the handle back in its place. *)
Fixpoint store (sid : Z) (p' : procman_cmd_t) (cmds : list procman_cmd_t)
    : list procman_cmd_t :=
  match cmds with
  | [] => []
  | p :: rest =>
      if sheriff_id (user p) =? sid then p' :: rest
      else p :: store sid p' rest
  end.

(** check if we've seen this sheriff since the last MARK, and remember the
    most recently observed one *)
Definition observe_sheriff (name : string) (s : procman_deputy_t) : procman_deputy_t :=
  let observed :=
    if existsb (String.eqb name) (observed_sheriffs_slm s)
    then observed_sheriffs_slm s
    else name :: observed_sheriffs_slm s in
  let last :=
    match last_sheriff_name s with
    | Some l => if String.eqb name l then Some l else None
    | None => None
    end in
  set_sheriffs s observed
    (match last with Some l => Some l | None => Some name end).

(** The loop "attempt to carry out the orders", lines 648-718, takes one
    command record at a time.  Its body is cut in four: [locate] (lines
    657-674), [sync_identity] (lines 681-703), [transition] (lines 705-717)
    and the write of the handle back to its place. *)

(** do we already have this command somewhere?  if not, then create it. *)
Definition locate (cmd : SheriffCmd.t) (action_taken : bool)
    : M (procman_cmd_t * bool) :=
  s <- get_pmd ;;
  match find_local_cmd s (SheriffCmd.sheriff_id cmd) with
  | Some p => ret (p, action_taken)
  | None =>
      let mi := set_sheriff_id calloc_moreinfo (SheriffCmd.sheriff_id cmd) in
      let mi := set_group mi (SheriffCmd.group cmd) in
      let mi := set_nickname mi (SheriffCmd.nickname cmd) in
      p <- procman_add_cmd (SheriffCmd.name cmd) mi ;;
      ret (p, true)
  end.

Definition sync_identity (cmd : SheriffCmd.t) (p : procman_cmd_t)
    (action_taken : bool) : procman_cmd_t * bool :=
  (* rename a command?  does not kill a running command, so effect does
     not apply until command is restarted. *)
  let '(p, action_taken) :=
    if negb (String.eqb (cmd_str p) (SheriffCmd.name cmd))
    then (procman_cmd_change_str p (SheriffCmd.name cmd), true)
    else (p, action_taken) in
  (* change a command's nickname? *)
  let '(p, action_taken) :=
    if negb (String.eqb (nickname (user p)) (SheriffCmd.nickname cmd))
    then (_set_command_nickname p (SheriffCmd.nickname cmd), true)
    else (p, action_taken) in
  (* change the group of a command? *)
  if negb (String.eqb (group (user p)) (SheriffCmd.group cmd))
  then (_set_command_group p (SheriffCmd.group cmd), true)
  else (p, action_taken).

Definition set_runid (p : procman_cmd_t) (runid : Z) : procman_cmd_t :=
  set_user p (set_actual_runid (user p) runid).

Definition transition (cmd : SheriffCmd.t) (cmd_status : procman_cmd_status_t)
    (p : procman_cmd_t) (action_taken : bool) : M (procman_cmd_t * bool) :=
  match cmd_status with
  | PROCMAN_CMD_STOPPED =>
      if negb (actual_runid (user p) =? SheriffCmd.desired_runid cmd)
         && negb (SheriffCmd.force_quit cmd)
      then
        '(_, p) <- start_cmd p (SheriffCmd.desired_runid cmd) ;;
        ret (set_runid p (SheriffCmd.desired_runid cmd), true)
      else
        ret (set_runid p (SheriffCmd.desired_runid cmd), action_taken)
  | PROCMAN_CMD_RUNNING =>
      if SheriffCmd.force_quit cmd
         || negb (SheriffCmd.desired_runid cmd =? actual_runid (user p))
      then
        '(_, p) <- stop_cmd p ;;
        ret (p, true)
      else
        ret (set_runid p (SheriffCmd.desired_runid cmd), action_taken)
  end.

Definition put_back (p : procman_cmd_t) : M unit :=
  modify_pmd (fun s => set_pm s (store (sheriff_id (user p)) p (pm s))).

Definition carry_out (cmd : SheriffCmd.t) (action_taken : bool) : M bool :=
  '(p, action_taken) <- locate cmd action_taken ;;
  (* check if the command needs to be started or stopped *)
  let cmd_status := procman_get_cmd_status p in
  let '(p, action_taken) := sync_identity cmd p action_taken in
  '(p, action_taken) <- transition cmd cmd_status p action_taken ;;
  put_back p ;;
  ret action_taken.

Fixpoint carry_out_all (cmds : list SheriffCmd.t) (action_taken : bool) : M bool :=
  match cmds with
  | [] => ret action_taken
  | cmd :: rest =>
      action_taken <- carry_out cmd action_taken ;;
      carry_out_all rest action_taken
  end.

(** A managed command that does not appear in the orders. *)
Definition orphaned (orders : Orders.t) (p : procman_cmd_t) : bool :=
  match procmd_orders_find_cmd orders (sheriff_id (user p)) with
  | Some _ => false
  | None => true
  end.

(** "cull orphaned commands": what the two loops of lines 722-757 do to one
    handle of the list.  The first loop puts the orphans in [toremove], in
    list order, and changes nothing; the second one takes them in that order
    and touches no other handle.  So the two loops are one pass over the
    list, which leaves alone the handles the order names. *)
Definition cull (orders : Orders.t) (p : procman_cmd_t) : M (option procman_cmd_t) :=
  if orphaned orders p then
    if negb (pid p =? 0) then
      let p := set_user p (set_remove_requested (user p) true) in
      '(_, p) <- stop_cmd p ;;
      ret (Some p)
    else
      ret (procman_remove_cmd p)
  else ret (Some p).

Definition stale_text (now utime : Z) : string :=
  "ignoring stale orders (utime "
  ++ fmt_d (CInt.int32 (Z.quot (CInt.int64 (now - utime)) 1000000))
  ++ " seconds ago). You may want to check the system clocks!" ++ LF.

Fixpoint report_stale (now utime : Z) (cmds : list SheriffCmd.t) : M unit :=
  match cmds with
  | [] => ret tt
  | cmd :: rest =>
      printf_and_transmit (SheriffCmd.sheriff_id cmd) (stale_text now utime) ;;
      report_stale now utime rest
  end.

Definition procman_deputy_order_received (orders : Orders.t) : M unit :=
  modify_pmd (fun s =>
    set_counters s (CInt.incr (norders_slm s)) (norders_forme_slm s)
      (nstale_orders_slm s)) ;;
  s <- get_pmd ;;
  (* ignore orders for other deputies *)
  if negb (String.eqb (Orders.host orders) (hostname s)) then ret tt
  else
    modify_pmd (fun s =>
      set_counters s (norders_slm s) (CInt.incr (norders_forme_slm s))
        (nstale_orders_slm s)) ;;
    (* ignore stale orders (where utime is too long ago) *)
    now <- timestamp_now ;;
    if PROCMAN_MAX_MESSAGE_AGE_USEC <? CInt.int64 (now - Orders.utime orders) then
      report_stale now (Orders.utime orders) (Orders.cmds orders) ;;
      modify_pmd (fun s =>
        set_counters s (norders_slm s) (norders_forme_slm s)
          (CInt.incr (nstale_orders_slm s)))
    else
      modify_pmd (observe_sheriff (Orders.sheriff_name orders)) ;;
      (* attempt to carry out the orders *)
      action_taken <- carry_out_all (Orders.cmds orders) false ;;
      (* if there are any commands being managed that did not appear in the
         orders, then stop and remove those commands *)
      s <- get_pmd ;;
      let toremove := filter (orphaned orders) (pm s) in
      cmds <- for_each_cmd (cull orders) (pm s) ;;
      modify_pmd (fun s => set_pm s cmds) ;;
      let action_taken :=
        match toremove with [] => action_taken | _ :: _ => true end in
      when action_taken transmit_proc_info.

(** *** The main loop *)

(** What the glib main loop hands to the deputy. *)
Inductive input : Type :=
| OrdersMsg (orders : Orders.t)               (* a message on PMD_ORDERS *)
| Signal (signum : Z)                          (* a signal read from the signal pipe *)
| OneSecond                                    (* the 1000 ms timer *)
| Introspection                                (* the 120000 ms timer *)
| PipeReady (source condition : Z).            (* a stdout watch fired *)

(** The handle a stdout watch was added for. *)
Definition watched_by (source : Z) (p : procman_cmd_t) : bool :=
  match stdout_ioc (user p) with
  | Some _ => stdout_sid (user p) =? source
  | None => false
  end.

Definition dispatch (i : input) : M unit :=
  match i with
  | OrdersMsg orders => procman_deputy_order_received orders
  | Signal signum => glib_handle_signal signum
  | OneSecond => one_second_timeout
  | Introspection => introspection_timeout
  | PipeReady source condition =>
      s <- get_pmd ;;
      match find (watched_by source) (pm s) with
      | Some cmd =>
          keep <- pipe_data_ready condition cmd ;;
          when (negb keep) (emit (WatchRemoved source))
      | None => ret tt
      end
  end.

(** One turn of the main loop; nothing is dispatched once the loop was
    told to quit. *)
Definition step (m : machine) (i : input) : machine :=
  if quit m then m else snd (dispatch i m).

Definition run (m : machine) (inputs : list input) : machine :=
  fold_left step inputs m.

End Deputy.

(** [main]: the deputy record is zeroed, then given its name. *)
Definition boot (name : string) (verbosity : bool) : machine :=
  mk_machine
    (mk_deputy [] [] name 0 0 0 [] None Sys.zero Sys.zero 0%Q verbosity)
    0 [] false.

(** * Vocabulary of the statements *)

(** The time the [i]-th answer of the environment gives to [timestamp_now]. *)
Definition clock (os : OS.t) (i : nat) : Z :=
  CInt.int64 (fst (OS.gettimeofday os i) * 1000000 + snd (OS.gettimeofday os i)).

(** The machine after one answer was taken. *)
Definition asked (m : machine) : machine :=
  mk_machine (pmd m) (S (os_calls m)) (trace m) (quit m).

Definition emitted (m : machine) (evs : list event) : machine :=
  mk_machine (pmd m) (os_calls m) (trace m ++ evs) (quit m).

(** The signal [stop_cmd] picks. *)
Definition signal_for (kills_sent : Z) : Z :=
  if 5 <? kills_sent then SIGKILL else SIGTERM.

Definition rate_limited (os : OS.t) (cmd : procman_cmd_t) (m : machine) : bool :=
  negb (last_kill_time (user cmd) =? 0)
  && (clock os (os_calls m) <? CInt.int64 (last_kill_time (user cmd) + 900000)).

(** The handle after a signal was sent at [now]. *)
Definition signalled (cmd : procman_cmd_t) (now : Z) : procman_cmd_t :=
  set_user cmd (set_kills (user cmd) (CInt.incr (num_kills_sent (user cmd))) now).

Definition kill_report (os : OS.t) (cmd : procman_cmd_t) (m : machine) : list event :=
  let status := OS.kill os (S (os_calls m)) in
  if status =? 0 then []
  else [PMD_PRINTF (Printf.mk (hostname (pmd m)) (sheriff_id (user cmd))
                      (vsnprintf_256 ("kill: " ++ OS.strerror os (CInt.int32 (- status)) ++ LF))
                      (clock os (S (S (os_calls m)))))].

(** The signals of a trace, oldest first: (pid, signal). *)
Fixpoint signals_sent (evs : list event) : list (Z * Z) :=
  match evs with
  | [] => []
  | Killed p s :: rest => (p, s) :: signals_sent rest
  | _ :: rest => signals_sent rest
  end.

(** The spawn attempts of a trace, oldest first: (command, pid given). *)
Fixpoint spawns (evs : list event) : list (string * Z) :=
  match evs with
  | [] => []
  | Forked n r :: rest => (n, r) :: spawns rest
  | _ :: rest => spawns rest
  end.

(** [stop_cmd] called [n] times in a row on one handle. *)
Fixpoint stop_repeatedly (os : OS.t) (n : nat) (cmd : procman_cmd_t) : M procman_cmd_t :=
  match n with
  | O => ret cmd
  | S n => '(_, cmd) <- stop_cmd os cmd ;; stop_repeatedly os n cmd
  end.

Definition has_sid (sid : Z) (p : procman_cmd_t) : bool := sheriff_id (user p) =? sid.

(** The handle a command record is about, as [locate] finds or creates it,
    and the machine [locate] leaves. *)
Definition located (os : OS.t) (cmd : SheriffCmd.t) (m : machine) : procman_cmd_t :=
  fst (fst (locate os cmd false m)).

Definition staged (os : OS.t) (cmd : SheriffCmd.t) (m : machine) : machine :=
  snd (locate os cmd false m).

(** The same handle once its name, nickname and group follow the record. *)
Definition subject (os : OS.t) (cmd : SheriffCmd.t) (m : machine) : procman_cmd_t :=
  fst (sync_identity os cmd (located os cmd m) false).

Definition fresh_handle (os : OS.t) (cmd : SheriffCmd.t) : procman_cmd_t :=
  mk_cmd (SheriffCmd.name cmd) (OS.split_str os (SheriffCmd.name cmd)) 0 (-1) 0
    (set_nickname
       (set_group (set_sheriff_id calloc_moreinfo (SheriffCmd.sheriff_id cmd))
          (SheriffCmd.group cmd))
       (SheriffCmd.nickname cmd)).

(** The handle after a successful [start_cmd]. *)
Definition started (cmd : procman_cmd_t) (child fd source want : Z) : procman_cmd_t :=
  let cmd := set_stdout_fd (set_pid cmd child) fd in
  set_user cmd
    (set_kills (set_actual_runid (set_watch (user cmd) (Some fd) source) want) 0 0).

Definition couldnt_start (os : OS.t) (cmd : procman_cmd_t) (m : machine) : list event :=
  [ PMD_PRINTF (Printf.mk (hostname (pmd m)) 0
      (vsnprintf_256 ("couldn't start [" ++ cmd_str cmd ++ "]" ++ LF))
      (clock os (S (os_calls m))));
    PMD_PRINTF (Printf.mk (hostname (pmd m)) (sheriff_id (user cmd))
      (vsnprintf_256 ("ERROR!  couldn't start [" ++ cmd_str cmd ++ "]" ++ LF))
      (clock os (S (S (os_calls m))))) ].

(** The transition [carry_out] makes for a command record. *)
Definition transitioned (os : OS.t) (cmd : SheriffCmd.t) (m : machine)
    : procman_cmd_t * bool * machine :=
  transition os cmd (procman_get_cmd_status (located os cmd m)) (subject os cmd m)
    false (staged os cmd m).

(** The watches a trace adds, oldest first: (fd, source id). *)
Fixpoint watches_added (evs : list event) : list (Z * Z) :=
  match evs with
  | [] => []
  | WatchAdded fd source :: rest => (fd, source) :: watches_added rest
  | _ :: rest => watches_added rest
  end.

(** The handle with the name of the record. *)
Definition renamed (os : OS.t) (cmd : SheriffCmd.t) (p : procman_cmd_t) : procman_cmd_t :=
  fst (sync_identity os cmd p false).

Definition for_me (orders : Orders.t) (m : machine) : bool :=
  (Orders.host orders =? hostname (pmd m))%string.

(** The staleness test of [procman_deputy_order_received], on the time
    the clock gives when the order arrives. *)
Definition stale (os : OS.t) (max_age : Z) (orders : Orders.t) (m : machine) : bool :=
  max_age <? CInt.int64 (clock os (os_calls m) - Orders.utime orders).

(** The machine when the order is taken for this deputy: both counters
    are up and the clock was read. *)
Definition taken (m : machine) : machine :=
  mk_machine
    (set_counters (pmd m) (CInt.incr (norders_slm (pmd m)))
       (CInt.incr (norders_forme_slm (pmd m))) (nstale_orders_slm (pmd m)))
    (S (os_calls m)) (trace m) (quit m).

(** The machine when the loop over the command records begins. *)
Definition accepted (orders : Orders.t) (m : machine) : machine :=
  mk_machine (observe_sheriff (Orders.sheriff_name orders) (pmd (taken m)))
    (S (os_calls m)) (trace m) (quit m).

(** The rest of [procman_deputy_order_received] for an order that is
    carried out. *)
Definition carried_out (os : OS.t) (orders : Orders.t) : M unit :=
  action_taken <- carry_out_all os (Orders.cmds orders) false ;;
  s <- get_pmd ;;
  cmds <- for_each_cmd (cull os orders) (pm s) ;;
  modify_pmd (fun s' => set_pm s' cmds) ;;
  when (match filter (orphaned orders) (pm s) with
        | [] => action_taken
        | _ :: _ => true
        end)
    (transmit_proc_info os).

(** The lines [report_stale] publishes when the next answer of the
    environment is the [first]. *)
Fixpoint stale_lines (os : OS.t) (host : string) (now utime : Z) (first : nat)
    (cmds : list SheriffCmd.t) : list event :=
  match cmds with
  | [] => []
  | cmd :: rest =>
      PMD_PRINTF (Printf.mk host (SheriffCmd.sheriff_id cmd)
                    (vsnprintf_256 (stale_text now utime)) (clock os first))
      :: stale_lines os host now utime (S first) rest
  end.

(** orders seen, orders for this deputy, stale orders, since the last MARK *)
Definition counters (s : procman_deputy_t) : Z * Z * Z :=
  (norders_slm s, norders_forme_slm s, nstale_orders_slm s).

Definition counters_ordered (s : procman_deputy_t) : Prop :=
  0 <= nstale_orders_slm s <= norders_forme_slm s
  /\ norders_forme_slm s <= norders_slm s.

(** No interval between two introspection ticks brings more orders than
    an [int] counts, [k] orders being counted already. *)
Fixpoint few_orders (k : Z) (inputs : list input) : bool :=
  match inputs with
  | [] => true
  | OrdersMsg _ :: rest => (k <? CInt.INT_MAX) && few_orders (k + 1) rest
  | Introspection :: rest => few_orders 0 rest
  | _ :: rest => few_orders k rest
  end.

(** The [float] that IEEE 754 makes of the quotient of [used] by
    [ellapsed]: both are converted to binary64, divided there, and the
    quotient is converted to binary32; each step gives the nearest number
    of its format, the even one on a tie. *)
Definition stored_quotient (used ellapsed : Z) : spec_float :=
  let quotient :=
    SFdiv 53 1024 (binary_normalize 53 1024 used 0 false)
      (binary_normalize 53 1024 ellapsed 0 false) in
  match quotient with
  | S754_finite s m e => binary_round 24 128 s m e
  | _ => quotient
  end.

(** A zero or a finite number, no infinity and no NaN. *)
Definition is_number (x : spec_float) : Prop :=
  match x with
  | S754_zero _ | S754_finite _ _ _ => True
  | _ => False
  end.

(** The rational that a number [x] is: [m * 2 ^ e], with its sign. *)
Definition number_of (x : spec_float) : Q :=
  match x with
  | S754_finite s m e => ((if s then - (1) else 1) * inject_Z (Zpos m) * (2 # 1) ^ e)%Q
  | _ => 0%Q
  end.

(** [x] is a number between 0 and [2 ^ k]. *)
Definition at_most (k : Z) (x : spec_float) : Prop :=
  match x with
  | S754_zero false => True
  | S754_finite false m e => e <= k /\ Zpos m <= 2 ^ (k - e)
  | _ => False
  end.

(** [m / 2 ^ n] rounded to the nearest integer, to the even one on a tie,
    as [n] steps of [shr_1] and [round_nearest_even] compute it. *)
Definition rounded (m n : Z) : Z :=
  match n with
  | Zpos p =>
      let mrs := iter_pos shr_1 p (Build_shr_record m false false) in
      round_nearest_even (shr_m mrs) (loc_of_shr_record mrs)
  | _ => m
  end.

(** Two readings of the system counters, [b] and then [a], between which
    no counter went back and whose distance fits the counters and a
    [uint64_t]. *)
Definition valid_samples (bits : Z) (a b : Sys.t) : Prop :=
  Sys.user b <= Sys.user a /\ Sys.user_low b <= Sys.user_low a
  /\ Sys.system b <= Sys.system a /\ Sys.idle b <= Sys.idle a
  /\ (Sys.user a - Sys.user b) + (Sys.user_low a - Sys.user_low b)
     + (Sys.system a - Sys.system b) + (Sys.idle a - Sys.idle b)
     < Z.min (2 ^ bits) (2 ^ 64).

(** What one tick of the sampler makes of the handle [p], when the system
    counters moved by [ellapsed]. *)
Definition sampled (os : OS.t) (bits ellapsed : Z) (p p' : procman_cmd_t) : Prop :=
  cpu_time0 (user p') = cpu_time1 (user p')
  /\ (pid p = 0 -> cpu_usage (user p') = 0%Q)
  /\ (pid p <> 0 ->
      exists k,
        let status := fst (OS.read_proc_cpu_mem os k) in
        let pa := snd (OS.read_proc_cpu_mem os k) (cpu_time1 (user p)) in
        let pb := cpu_time0 (user p) in
        (status <> 0 -> cpu_usage (user p') = 0%Q)
        /\ (status = 0 ->
            (ellapsed = 0 \/ Proc.user pb = 0 \/ Proc.system pb = 0 ->
             cpu_usage (user p') = 0%Q)
            /\ (ellapsed <> 0 -> Proc.user pb <> 0 -> Proc.system pb <> 0 ->
                let used := jiffies bits (Proc.user pa - Proc.user pb
                                          + Proc.system pa - Proc.system pb) in
                is_number (stored_quotient used ellapsed)
                /\ (cpu_usage (user p') == number_of (stored_quotient used ellapsed))%Q))).

(** The orphan as the cull marks it. *)
Definition marked (p : procman_cmd_t) : procman_cmd_t :=
  set_user p (set_remove_requested (user p) true).

(** [p'] is what a call of [stop_cmd] makes of the marked orphan [p]. *)
Definition stopped_orphan (os : OS.t) (p p' : procman_cmd_t) : Prop :=
  exists mid, p' = snd (fst (stop_cmd os (marked p) mid)).

Definition running_orphan (orders : Orders.t) (p : procman_cmd_t) : bool :=
  orphaned orders p && negb (pid p =? 0).

Definition named (orders : Orders.t) (p : procman_cmd_t) : bool :=
  negb (orphaned orders p).

(** [evolves R N old new]: the list [new] is [old] with some handles
    removed, the others changed along [R] and kept in their order, and
    handles that satisfy [N] added at the end. *)
Inductive evolves (R : procman_cmd_t -> procman_cmd_t -> Prop)
    (N : procman_cmd_t -> Prop) : list procman_cmd_t -> list procman_cmd_t -> Prop :=
| evolves_new news : Forall N news -> evolves R N [] news
| evolves_keep p p' l l' : R p p' -> evolves R N l l' -> evolves R N (p :: l) (p' :: l')
| evolves_drop p l l' : evolves R N l l' -> evolves R N (p :: l) l'.

(** The handle kept its sheriff_id and its run id. *)
Definition same_runid (p p' : procman_cmd_t) : Prop :=
  sheriff_id (user p') = sheriff_id (user p)
  /\ actual_runid (user p') = actual_runid (user p).

Definition nothing (p : procman_cmd_t) : Prop := False.

(** The list moves without a change of any run id. *)
Definition quietly : list procman_cmd_t -> list procman_cmd_t -> Prop :=
  evolves same_runid nothing.

(** The handle when its glib hooks are cleaned up. *)
Definition unhooked (os : OS.t) (cmd : procman_cmd_t) : M procman_cmd_t :=
  match stdout_ioc (user cmd) with
  | Some _ =>
      emit (WatchRemoved (stdout_sid (user cmd))) ;;
      procman_close_dead_pipes (set_user cmd (set_watch (user cmd) None 0))
  | None => ret cmd
  end.

(** The order has a record for [sid] that asks for the run id [want]. *)
Definition asks_runid (orders : Orders.t) (sid want : Z) : Prop :=
  exists rec,
    In rec (Orders.cmds orders)
    /\ SheriffCmd.sheriff_id rec = sid /\ SheriffCmd.desired_runid rec = want.

(** The handle kept its sheriff_id, and its run id unless the order asked
    for the one it has now. *)
Definition runid_follows (orders : Orders.t) (p p' : procman_cmd_t) : Prop :=
  sheriff_id (user p') = sheriff_id (user p)
  /\ (actual_runid (user p') = actual_runid (user p)
      \/ asks_runid orders (sheriff_id (user p)) (actual_runid (user p'))).

(** The record has the reconciler call [stop_cmd] on the handle: the
    handle runs, and the record has force_quit or another run id than the
    handle. *)
Definition asks_stop (rec : SheriffCmd.t) (p : procman_cmd_t) : bool :=
  negb (pid p =? 0)
  && (SheriffCmd.force_quit rec
      || negb (SheriffCmd.desired_runid rec =? actual_runid (user p))).

(** The run id the reconciler leaves to the handle [p] when it carries
    out the record. *)
Definition runid_after (rec : SheriffCmd.t) (p : procman_cmd_t) : Z :=
  if asks_stop rec p then actual_runid (user p) else SheriffCmd.desired_runid rec.

(** The turn of the main loop carries out the order: the loop was not
    told to quit, the order is for this deputy and it is not stale. *)
Definition carries_out (os : OS.t) (max_age : Z) (m : machine) (i : input)
    (orders : Orders.t) : Prop :=
  i = OrdersMsg orders /\ quit m = false
  /\ for_me orders m = true /\ stale os max_age orders m = false.

(** A computation that does not change [proj] of the deputy record. *)
Definition preserves {X A : Type} (proj : procman_deputy_t -> X) (c : M A) : Prop :=
  forall m, proj (pmd (snd (c m))) = proj (pmd m).

(** ** Scenarios *)

Module Scenario.

(** An environment where the clock gives one more second at each answer,
    every fork and kill succeeds, no child dies and the system counters
    read 10 user, 5 system and 85 idle jiffies. *)
Definition os : OS.t :=
  OS.mk (fun n => (1700000000 + Z.of_nat n, 0))
        (fun n => (100 + Z.of_nat n, 7))
        (fun _ => 0) (fun _ => (0, 0)) (fun _ => false) (fun _ => (0, EmptyString, 0))
        (fun _ => (0, fun _ => Sys.mk 10 0 5 85 1000 500 0 0))
        (fun _ => (0, fun t => t))
        (fun n => Z.of_nat n) (fun _ => "error") (fun _ => "signal")
        (fun s => [s]).

(** The same, but no fork succeeds. *)
Definition os_no_fork : OS.t :=
  OS.mk (OS.gettimeofday os) (fun _ => (-1, -1)) (OS.kill os) (OS.waitpid os)
        (OS.poll_in os) (OS.read os) (OS.read_sys_cpu_mem os)
        (OS.read_proc_cpu_mem os) (OS.io_add_watch os) (OS.strerror os)
        (OS.strsignal os) (OS.split_str os).

Definition max_age : Z := 60000000.

Definition sleep60 (child : Z) (kills last : Z) : procman_cmd_t :=
  mk_cmd "sleep 60" ["sleep 60"] child 7 0
    (mk_moreinfo (Some 7) 2 1 1 Proc.zero Proc.zero 0%Q "g" "s" kills last false).

(** Handles 2 (running) and 3 (not running). *)
Definition top : procman_cmd_t :=
  mk_cmd "top" ["top"] 102 8 0
    (mk_moreinfo (Some 8) 3 1 2 Proc.zero Proc.zero 0%Q "g" "t" 0 0 false).

Definition ls : procman_cmd_t :=
  mk_cmd "ls" ["ls"] 0 (-1) 0
    (mk_moreinfo None 0 1 3 Proc.zero Proc.zero 0%Q "g" "l" 0 0 false).

(** A deputy named H that manages [sleep60], [top] and [ls]. *)
Definition busy : machine :=
  mk_machine
    (mk_deputy [sleep60 101 0 0; top; ls] [] "H" 1 1 0 ["sheriff"] (Some "sheriff")
       Sys.zero Sys.zero 0%Q false)
    0 [] false.

Definition rec_sleep (name : string) (runid : Z) (force : bool) : SheriffCmd.t :=
  SheriffCmd.mk name "s" "g" runid force 1.

(** An order for H, sent at the time of the first answer of the clock. *)
Definition order (cmds : list SheriffCmd.t) : Orders.t :=
  Orders.mk 1700000000000000 "H" "sheriff" cmds.

(** An order for H that is one hour old. *)
Definition old_order (cmds : list SheriffCmd.t) : Orders.t :=
  Orders.mk 1699996400000000 "H" "sheriff" cmds.

Definition order_for_other_host : Orders.t :=
  Orders.mk 1700000000000000 "other" "sheriff" [rec_sleep "sleep 60" 1 false].

End Scenario.

(** ** Vocabulary of the further properties *)

(** The sheriff_ids of a command list, in list order. *)
Definition sids (cmds : list procman_cmd_t) : list Z :=
  map (fun p => sheriff_id (user p)) cmds.

(** The handle has the name, nickname, group and sheriff_id of the record. *)
Definition follows (rec : SheriffCmd.t) (p : procman_cmd_t) : Prop :=
  cmd_str p = SheriffCmd.name rec
  /\ nickname (user p) = SheriffCmd.nickname rec
  /\ group (user p) = SheriffCmd.group rec
  /\ sheriff_id (user p) = SheriffCmd.sheriff_id rec.

(** No record of the list but [rec] has the sheriff_id of [rec]. *)
Definition only_record (rec : SheriffCmd.t) (cmds : list SheriffCmd.t) : Prop :=
  forall r, In r cmds ->
            SheriffCmd.sheriff_id r = SheriffCmd.sheriff_id rec -> r = rec.

(** The handle is as the record wants it: the same name, nickname and
    group, the run id asked for, and not asked to quit while it runs. *)
Definition settled (rec : SheriffCmd.t) (p : procman_cmd_t) : Prop :=
  follows rec p
  /\ actual_runid (user p) = SheriffCmd.desired_runid rec
  /\ (pid p <> 0 -> SheriffCmd.force_quit rec = false).

(** The record asks for a start of a handle that was just made: the run
    id of such a handle is 0. *)
Definition asks_start (rec : SheriffCmd.t) : bool :=
  negb (0 =? SheriffCmd.desired_runid rec) && negb (SheriffCmd.force_quit rec).

(** A computation that adds no event selected by [sel] to the trace. *)
Definition silent {A : Type} (sel : event -> bool) (c : M A) : Prop :=
  forall m, filter sel (trace (snd (c m))) = filter sel (trace m).

Definition is_info (e : event) : bool :=
  match e with PMD_INFO _ => true | _ => false end.

Definition is_printf (e : event) : bool :=
  match e with PMD_PRINTF _ => true | _ => false end.

Definition any_event (e : event) : bool := true.

(** The record asks for another name, nickname or group than the handle
    has. *)
Definition renames (rec : SheriffCmd.t) (p : procman_cmd_t) : bool :=
  negb (cmd_str p =? SheriffCmd.name rec)%string
  || negb (nickname (user p) =? SheriffCmd.nickname rec)%string
  || negb (group (user p) =? SheriffCmd.group rec)%string.

(** The record asks for a start of the stopped handle, or for a stop of
    the running one. *)
Definition switches (rec : SheriffCmd.t) (p : procman_cmd_t) : bool :=
  if pid p =? 0
  then negb (actual_runid (user p) =? SheriffCmd.desired_runid rec)
       && negb (SheriffCmd.force_quit rec)
  else SheriffCmd.force_quit rec
       || negb (SheriffCmd.desired_runid rec =? actual_runid (user p)).

(** The record makes the reconciler act on the command list of [m]. *)
Definition acts (m : machine) (rec : SheriffCmd.t) : bool :=
  match find_local_cmd (pmd m) (SheriffCmd.sheriff_id rec) with
  | None => true
  | Some p => renames rec p || switches rec p
  end.

(** The order changes something of the command list of [m]. *)
Definition changes (orders : Orders.t) (m : machine) : bool :=
  existsb (acts m) (Orders.cmds orders)
  || existsb (orphaned orders) (pm (pmd m)).

(** The line is published by the deputy [host] under the sheriff_id [sid]. *)
Definition tagged (host : string) (sid : Z) (line : Printf.t) : Prop :=
  Printf.deputy_name line = host /\ Printf.sheriff_id line = sid.

(** A computation that publishes the texts [texts], in this order, as
    PMD_PRINTF lines of the deputy [host] under [sid], lets out nothing
    else and leaves the deputy record as it is. *)
Definition says {A : Type} (host : string) (sid : Z) (texts : list string)
    (c : M A) : Prop :=
  forall m, hostname (pmd m) = host ->
    exists lines,
      trace (snd (c m)) = trace m ++ map PMD_PRINTF lines
      /\ Forall (tagged host sid) lines
      /\ map Printf.text lines = texts
      /\ pmd (snd (c m)) = pmd m.

(** [text] is the C string at the start of [bytes]: the bytes up to the
    first NUL, or all of them if there is none. *)
Definition c_string_of (bytes text : string) : Prop :=
  (exists tail,
     bytes = (text ++ tail)%string
     /\ (tail = EmptyString \/ exists t, tail = String zero t))
  /\ forall i, get i text <> Some zero.

(** The entry of a PMD_INFO message for the handle [p], which the sampler
    has just seen. *)
Definition listed_as (p : procman_cmd_t) (c : DeputyCmd.t) : Prop :=
  DeputyCmd.name c = cmd_str p
  /\ DeputyCmd.nickname c = nickname (user p)
  /\ DeputyCmd.group c = group (user p)
  /\ DeputyCmd.sheriff_id c = sheriff_id (user p)
  /\ DeputyCmd.actual_runid c = actual_runid (user p)
  /\ DeputyCmd.pid c = pid p
  /\ DeputyCmd.exit_code c = exit_status p
  /\ (pid p = 0 ->
      DeputyCmd.cpu_usage c = 0%Q
      /\ DeputyCmd.mem_vsize_bytes c = 0 /\ DeputyCmd.mem_rss_bytes c = 0).

(** The sheriffs seen since the last MARK and the sheriff of the last
    order carried out. *)
Definition sheriffs (s : procman_deputy_t) : list string * option string :=
  (observed_sheriffs_slm s, last_sheriff_name s).

(** The handle kept what the sheriff decides of it: name, arguments,
    nickname, group, sheriff_id, run id and removal mark. *)
Definition same_command (p p' : procman_cmd_t) : Prop :=
  cmd_str p' = cmd_str p /\ argv p' = argv p
  /\ nickname (user p') = nickname (user p)
  /\ group (user p') = group (user p)
  /\ sheriff_id (user p') = sheriff_id (user p)
  /\ actual_runid (user p') = actual_runid (user p)
  /\ remove_requested (user p') = remove_requested (user p).

(** The same command, with the process and the watch it had. *)
Definition untouched (p p' : procman_cmd_t) : Prop :=
  same_command p p'
  /\ pid p' = pid p /\ stdout_ioc (user p') = stdout_ioc (user p).

(** The same command, with the process and the watch it had or with
    neither. *)
Definition settles (p p' : procman_cmd_t) : Prop :=
  same_command p p'
  /\ ((pid p' = pid p /\ stdout_ioc (user p') = stdout_ioc (user p))
      \/ (pid p' = 0 /\ stdout_ioc (user p') = None)).

(** What is left of the handle [p] once its record is freed. *)
Definition bare_of (p : procman_cmd_t) (b : bare_cmd_t) : Prop :=
  bare_str b = cmd_str p /\ bare_argv b = argv p /\ bare_pid b = pid p
  /\ bare_stdout_fd b = stdout_fd p /\ bare_exit_status b = exit_status p.

(** The handle runs exactly when its output is watched. *)
Definition watched_iff_running (p : procman_cmd_t) : Prop :=
  pid p = 0 <-> stdout_ioc (user p) = None.

(** The handles that run. *)
Definition running (cmds : list procman_cmd_t) : list procman_cmd_t :=
  filter (fun p => negb (pid p =? 0)) cmds.

(** What every handler leaves of a handle it keeps: the sheriff_id, the
    removal mark once it is set, and a watch exactly on the handles that
    run. *)
Definition orderly (p p' : procman_cmd_t) : Prop :=
  sheriff_id (user p') = sheriff_id (user p)
  /\ (remove_requested (user p) = true -> remove_requested (user p') = true)
  /\ (watched_iff_running p -> watched_iff_running p').

(** The lines the deputy publishes for a child that died with the wait
    status [st]. *)
Definition death_notice (os : OS.t) (st : Z) : list string :=
  if WIFSIGNALED st
  then substring 0 255 (OS.strsignal os (WTERMSIG st) ++ LF)
       :: (if WCOREDUMP st then [("Core dumped." ++ LF)%string] else [])
  else [].

(** What the cleanup of the glib hooks of a handle lets out. *)
Definition unhooking (cmd : procman_cmd_t) : list event :=
  match stdout_ioc (user cmd) with
  | Some _ =>
      WatchRemoved (stdout_sid (user cmd))
      :: (if stdout_fd cmd <? 0 then [] else [PipeClosed (stdout_fd cmd)])
  | None => []
  end.

(** The signal [stop_cmd] sends to the handle, with its pid. *)
Definition kill_of (p : procman_cmd_t) : Z * Z :=
  (pid p, signal_for (num_kills_sent (user p))).

Definition is_kill (e : event) : bool :=
  match e with Killed _ _ => true | _ => false end.

(** The PMD_INFO messages of the trace and the handles that run, counted
    together. *)
Definition reports_and_children (m : machine) : nat :=
  List.length (filter is_info (trace m)) + List.length (running (pm (pmd m))).

(** A signal the deputy may send: SIGTERM or SIGKILL, to a pid other than
    0. *)
Definition fair_signal (s : Z * Z) : Prop :=
  fst s <> 0 /\ (snd s = SIGTERM \/ snd s = SIGKILL).

(** A kill that is no [fair_signal]. *)
Definition foul_signal (e : event) : bool :=
  match e with
  | Killed p signum => (p =? 0) || negb ((signum =? SIGTERM) || (signum =? SIGKILL))
  | _ => false
  end.

Definition is_fork (e : event) : bool :=
  match e with Forked _ _ => true | _ => false end.

Definition is_new_watch (e : event) : bool :=
  match e with WatchAdded _ _ => true | _ => false end.

Definition is_quit (e : event) : bool :=
  match e with MainLoopQuit => true | _ => false end.

(** ** Further scenarios *)

Module Worlds.

(** [Scenario.os], but no kill succeeds: each gives -ESRCH. *)
Definition os_no_kill : OS.t :=
  OS.mk (OS.gettimeofday Scenario.os) (OS.fork Scenario.os) (fun _ => -3)
        (OS.waitpid Scenario.os) (OS.poll_in Scenario.os) (OS.read Scenario.os)
        (OS.read_sys_cpu_mem Scenario.os) (OS.read_proc_cpu_mem Scenario.os)
        (OS.io_add_watch Scenario.os) (OS.strerror Scenario.os)
        (OS.strsignal Scenario.os) (OS.split_str Scenario.os).

(** [Scenario.os], but every read gives the six bytes of a line. *)
Definition os_output : OS.t :=
  OS.mk (OS.gettimeofday Scenario.os) (OS.fork Scenario.os) (OS.kill Scenario.os)
        (OS.waitpid Scenario.os) (OS.poll_in Scenario.os)
        (fun _ => (6, "hello" ++ LF, 0)%string)
        (OS.read_sys_cpu_mem Scenario.os) (OS.read_proc_cpu_mem Scenario.os)
        (OS.io_add_watch Scenario.os) (OS.strerror Scenario.os)
        (OS.strsignal Scenario.os) (OS.split_str Scenario.os).

(** [Scenario.os], but every read gives six bytes, the third of them a
    NUL. *)
Definition os_nul_output : OS.t :=
  OS.mk (OS.gettimeofday Scenario.os) (OS.fork Scenario.os) (OS.kill Scenario.os)
        (OS.waitpid Scenario.os) (OS.poll_in Scenario.os)
        (fun _ => (6, "hi" ++ String zero ("lo" ++ LF), 0)%string)
        (OS.read_sys_cpu_mem Scenario.os) (OS.read_proc_cpu_mem Scenario.os)
        (OS.io_add_watch Scenario.os) (OS.strerror Scenario.os)
        (OS.strsignal Scenario.os) (OS.split_str Scenario.os).

(** [Scenario.os], but there is something to read at every poll and every
    read fails with EIO. *)
Definition os_read_error : OS.t :=
  OS.mk (OS.gettimeofday Scenario.os) (OS.fork Scenario.os) (OS.kill Scenario.os)
        (OS.waitpid Scenario.os) (fun _ => true)
        (fun _ => (-1, EmptyString, 5))
        (OS.read_sys_cpu_mem Scenario.os) (OS.read_proc_cpu_mem Scenario.os)
        (OS.io_add_watch Scenario.os) (OS.strerror Scenario.os)
        (OS.strsignal Scenario.os) (OS.split_str Scenario.os).

(** [Scenario.os], but the first answer says that the child 101 was
    killed (wait status 9) and the later ones that no child is dead. *)
Definition os_child_died : OS.t :=
  OS.mk (OS.gettimeofday Scenario.os) (OS.fork Scenario.os) (OS.kill Scenario.os)
        (fun n => match n with O => (101, 9) | S _ => (0, 0) end)
        (OS.poll_in Scenario.os) (OS.read Scenario.os)
        (OS.read_sys_cpu_mem Scenario.os) (OS.read_proc_cpu_mem Scenario.os)
        (OS.io_add_watch Scenario.os) (OS.strerror Scenario.os)
        (OS.strsignal Scenario.os) (OS.split_str Scenario.os).

(** A handle whose child was reaped after a segmentation fault with a core
    dump (wait status 11 + 128). *)
Definition crashed : procman_cmd_t :=
  mk_cmd "sleep 60" ["sleep 60"] 0 7 139
    (mk_moreinfo (Some 7) 2 1 1 Proc.zero Proc.zero 0%Q "g" "s" 0 0 false).

(** The deputy H right after the reaping of [crashed]. *)
Definition mourning : machine :=
  mk_machine
    (mk_deputy [crashed; Scenario.top; Scenario.ls] [] "H" 1 1 0 ["sheriff"]
       (Some "sheriff") Sys.zero Sys.zero 0%Q false)
    0 [] false.

(** [Scenario.os], but the counters of every child read 7 user and 3
    system jiffies. *)
Definition os_sampling : OS.t :=
  OS.mk (OS.gettimeofday Scenario.os) (OS.fork Scenario.os) (OS.kill Scenario.os)
        (OS.waitpid Scenario.os) (OS.poll_in Scenario.os) (OS.read Scenario.os)
        (OS.read_sys_cpu_mem Scenario.os)
        (fun _ => (0, fun _ => Proc.mk 7 3 4096 512))
        (OS.io_add_watch Scenario.os) (OS.strerror Scenario.os)
        (OS.strsignal Scenario.os) (OS.split_str Scenario.os).

(** A handle whose child had used 4 user and 2 system jiffies at the last
    tick. *)
Definition measured : procman_cmd_t :=
  mk_cmd "sleep 60" ["sleep 60"] 101 7 0
    (mk_moreinfo (Some 7) 2 1 1 (Proc.mk 4 2 4096 512) (Proc.mk 4 2 4096 512) 0%Q
       "g" "s" 0 0 false).

(** The deputy H with that handle, before the first reading of the system
    counters. *)
Definition ticking : machine :=
  mk_machine
    (mk_deputy [measured] [] "H" 1 1 0 ["sheriff"] (Some "sheriff")
       Sys.zero Sys.zero 0%Q false)
    0 [] false.

End Worlds.

(** * Properties *)

Lemma timestamp_now_eq os m :
  timestamp_now os m = (clock os (os_calls m), asked m).
Proof.
  unfold timestamp_now, clock, bind, ask, ret, asked.
  destruct (OS.gettimeofday os (os_calls m)); reflexivity.
Qed.

Lemma bind_eq {A B : Type} (c : M A) (k : A -> M B) m :
  bind c k m = k (fst (c m)) (snd (c m)).
Proof. unfold bind. destruct (c m). reflexivity. Qed.

Lemma int32_small x : CInt.in_int32 x -> CInt.int32 x = x.
Proof.
  unfold CInt.in_int32, CInt.INT_MAX, CInt.int32, CInt.wrap_signed. intros H.
  change (2 ^ (32 - 1)) with 2147483648. change (2 ^ 32) with 4294967296.
  rewrite Z.mod_small; lia.
Qed.

Lemma int64_small x : CInt.in_int64 x -> CInt.int64 x = x.
Proof.
  unfold CInt.in_int64, CInt.INT64_MAX, CInt.INT64_MIN, CInt.int64, CInt.wrap_signed. intros H.
  change (2 ^ (64 - 1)) with 9223372036854775808. change (2 ^ 64) with 18446744073709551616.
  rewrite Z.mod_small; lia.
Qed.

Lemma int64_range x : CInt.in_int64 (CInt.int64 x).
Proof.
  unfold CInt.in_int64, CInt.INT64_MAX, CInt.INT64_MIN, CInt.int64, CInt.wrap_signed.
  change (2 ^ (64 - 1)) with 9223372036854775808. change (2 ^ 64) with 18446744073709551616.
  pose proof (Z.mod_pos_bound (x + 9223372036854775808) 18446744073709551616). lia.
Qed.

Lemma incr_small x : 0 <= x < CInt.INT_MAX -> CInt.incr x = x + 1.
Proof.
  intros H. unfold CInt.incr. apply int32_small.
  unfold CInt.in_int32, CInt.INT_MAX in *. lia.
Qed.

Lemma printf_and_transmit_eq os sid c rest m :
  printf_and_transmit os sid (String c rest) m =
  (tt, emitted (asked m)
         [PMD_PRINTF (Printf.mk (hostname (pmd m)) sid
                        (vsnprintf_256 (String c rest)) (clock os (os_calls m)))]).
Proof.
  unfold printf_and_transmit. cbn [String.length Nat.eqb].
  unfold bind, get_pmd. rewrite timestamp_now_eq. reflexivity.
Qed.

Lemma stop_cmd_not_running os cmd m :
  pid cmd = 0 -> stop_cmd os cmd m = (0, cmd, m).
Proof. intros H. unfold stop_cmd. rewrite H. reflexivity. Qed.

Lemma stop_cmd_limited os cmd m :
  pid cmd <> 0 -> rate_limited os cmd m = true ->
  stop_cmd os cmd m = (0, cmd, asked m).
Proof.
  intros Hp Hl. unfold stop_cmd.
  destruct (Z.eqb_spec (pid cmd) 0) as [|_]; [contradiction|].
  unfold bind at 1. rewrite timestamp_now_eq.
  unfold rate_limited in Hl. rewrite Hl. reflexivity.
Qed.

Lemma stop_cmd_signals os cmd m :
  pid cmd <> 0 -> rate_limited os cmd m = false ->
  stop_cmd os cmd m =
  (OS.kill os (S (os_calls m)),
   signalled cmd (clock os (os_calls m)),
   mk_machine (pmd m)
     (if OS.kill os (S (os_calls m)) =? 0 then S (S (os_calls m)) else S (S (S (os_calls m))))
     (trace m ++ Killed (pid cmd) (signal_for (num_kills_sent (user cmd)))
                 :: kill_report os cmd m)
     (quit m)).
Proof.
  intros Hp Hl. unfold stop_cmd.
  destruct (Z.eqb_spec (pid cmd) 0) as [|_]; [contradiction|].
  unfold bind at 1. rewrite timestamp_now_eq.
  unfold rate_limited in Hl. rewrite Hl.
  unfold signal_for, kill_report, signalled.
  assert (K : forall sig, procman_kill_cmd os cmd sig (asked m) =
     (OS.kill os (S (os_calls m)),
      mk_machine (pmd m) (S (S (os_calls m))) (trace m ++ [Killed (pid cmd) sig]) (quit m))).
  { intros sig. unfold procman_kill_cmd.
    destruct (Z.eqb_spec (pid cmd) 0) as [|_]; [contradiction|]. reflexivity. }
  unfold bind.
  destruct (5 <? num_kills_sent (user cmd)); rewrite K;
    destruct (OS.kill os (S (os_calls m)) =? 0) eqn:E; cbn [negb when ret].
  all: try reflexivity.
  all: unfold LF; cbn [append]; rewrite printf_and_transmit_eq; cbn; unfold emitted, asked; cbn;
       rewrite <- app_assoc; reflexivity.
Qed.

Lemma signals_sent_app a b : signals_sent (a ++ b) = signals_sent a ++ signals_sent b.
Proof.
  induction a as [|e a IH]; [reflexivity|].
  destruct e; cbn; rewrite ?IH; reflexivity.
Qed.

Lemma spawns_app a b : spawns (a ++ b) = spawns a ++ spawns b.
Proof.
  induction a as [|e a IH]; [reflexivity|].
  destruct e; cbn; rewrite ?IH; reflexivity.
Qed.

Lemma kill_report_quiet os cmd m :
  signals_sent (kill_report os cmd m) = [] /\ spawns (kill_report os cmd m) = [].
Proof. unfold kill_report. destruct (_ =? 0); split; reflexivity. Qed.

Lemma rate_limited_spec os cmd m :
  CInt.INT64_MIN <= last_kill_time (user cmd) <= CInt.INT64_MAX - 900000 ->
  rate_limited os cmd m = true <->
  last_kill_time (user cmd) <> 0
  /\ clock os (os_calls m) < last_kill_time (user cmd) + 900000.
Proof.
  intros R. unfold rate_limited.
  rewrite int64_small
    by (unfold CInt.in_int64, CInt.INT64_MAX, CInt.INT64_MIN in *; lia).
  rewrite andb_true_iff, negb_true_iff, Z.eqb_neq, Z.ltb_lt. tauto.
Qed.

Lemma stop_cmd_step os cmd m :
  pid cmd <> 0 -> rate_limited os cmd m = false ->
  exists status m',
    stop_cmd os cmd m = (status, signalled cmd (clock os (os_calls m)), m')
    /\ signals_sent (trace m')
       = signals_sent (trace m) ++ [(pid cmd, signal_for (num_kills_sent (user cmd)))]
    /\ spawns (trace m') = spawns (trace m)
    /\ pmd m' = pmd m
    /\ (os_calls m < os_calls m' <= os_calls m + 3)%nat.
Proof.
  intros Hp Hl. rewrite (stop_cmd_signals os cmd m Hp Hl).
  eexists _, _. split; [reflexivity|]. cbn [trace pmd os_calls].
  destruct (kill_report_quiet os cmd m) as [Hk Hs].
  rewrite signals_sent_app, spawns_app. cbn [signals_sent spawns]. rewrite Hk, Hs.
  rewrite app_nil_r. repeat split; try reflexivity.
  all: destruct (_ =? 0); lia.
Qed.

(** From a handle that was sent [k] signals, [n] more calls more than
    900 ms apart send the signals for the counts [k], ..., [k + n - 1]. *)
Lemma escalation os n : forall cmd m (from upto k : nat),
  pid cmd <> 0 ->
  num_kills_sent (user cmd) = Z.of_nat k ->
  (Z.of_nat k + Z.of_nat n <= CInt.INT_MAX) ->
  (from <= os_calls m)%nat ->
  (os_calls m + 3 * n <= upto + 3)%nat ->
  (last_kill_time (user cmd) = 0
   \/ exists i, (from <= i < os_calls m)%nat /\ last_kill_time (user cmd) = clock os i) ->
  (forall i j, (from <= i < j)%nat -> (j <= upto)%nat ->
               clock os i + 900000 < clock os j) ->
  signals_sent (trace (snd (stop_repeatedly os n cmd m)))
  = signals_sent (trace m)
    ++ map (fun j => (pid cmd, signal_for (Z.of_nat j))) (seq k n).
Proof.
  induction n as [|n IH]; intros cmd m from upto k Hp Hk Hn Hfrom Hupto Hlast Hclock.
  - cbn. rewrite app_nil_r. reflexivity.
  - assert (Hl : rate_limited os cmd m = false).
    { unfold rate_limited. destruct Hlast as [H0 | (i & Hi & Hlast)].
      - rewrite H0. reflexivity.
      - apply andb_false_iff. right. apply Z.ltb_ge.
        assert (Hc : clock os i + 900000 < clock os (os_calls m))
          by (apply Hclock; lia).
        pose proof (int64_range (fst (OS.gettimeofday os (os_calls m)) * 1000000
                                 + snd (OS.gettimeofday os (os_calls m)))) as R1.
        pose proof (int64_range (fst (OS.gettimeofday os i) * 1000000
                                 + snd (OS.gettimeofday os i))) as R2.
        fold (clock os (os_calls m)) in R1. fold (clock os i) in R2.
        rewrite Hlast. rewrite int64_small; [lia|].
        unfold CInt.in_int64, CInt.INT64_MAX, CInt.INT64_MIN in *. lia. }
    destruct (stop_cmd_step os cmd m Hp Hl) as (status & m' & E & Hsig & _ & _ & Hcalls).
    cbn [stop_repeatedly]. unfold bind at 1. rewrite E.
    rewrite (IH (signalled cmd (clock os (os_calls m))) m' from upto (S k)).
    + rewrite Hsig, <- app_assoc. cbn [seq map app]. rewrite Hk. reflexivity.
    + exact Hp.
    + cbn. rewrite Hk. rewrite incr_small by (unfold CInt.INT_MAX in *; lia). lia.
    + lia.
    + lia.
    + lia.
    + right. exists (os_calls m). split; [lia | reflexivity].
    + exact Hclock.
Qed.

(** C2. One call of [stop_cmd]: a handle that does not run is left alone;
    within 900 000 microseconds of the last signal nothing is sent and the
    handle is unchanged; otherwise SIGTERM is sent while at most 5 signals
    were sent and SIGKILL after that, the count goes up by one and the time
    of the signal is kept.  So the 7th of the calls that follow a spawn more
    than 900 ms apart sends SIGKILL. *)
Theorem stop_cmd_escalates os cmd m
  (no_overflow : CInt.INT64_MIN <= last_kill_time (user cmd) <= CInt.INT64_MAX - 900000) :
  let now := clock os (os_calls m) in
  let gh := user cmd in
  (pid cmd = 0 -> stop_cmd os cmd m = (0, cmd, m))
  /\ (pid cmd <> 0 -> last_kill_time gh <> 0 -> now < last_kill_time gh + 900000 ->
      exists m', stop_cmd os cmd m = (0, cmd, m')
                 /\ trace m' = trace m /\ pmd m' = pmd m)
  /\ (pid cmd <> 0 -> last_kill_time gh = 0 \/ last_kill_time gh + 900000 <= now ->
      exists status cmd' m',
        stop_cmd os cmd m = (status, cmd', m')
        /\ signals_sent (trace m')
           = signals_sent (trace m)
             ++ [(pid cmd, if num_kills_sent gh <=? 5 then SIGTERM else SIGKILL)]
        /\ num_kills_sent (user cmd') = CInt.incr (num_kills_sent gh)
        /\ (0 <= num_kills_sent gh < CInt.INT_MAX ->
            num_kills_sent (user cmd') = num_kills_sent gh + 1)
        /\ last_kill_time (user cmd') = now
        /\ pid cmd' = pid cmd)
  /\ (pid cmd <> 0 -> num_kills_sent gh = 0 -> last_kill_time gh = 0 ->
      (forall i j, (os_calls m <= i < j)%nat -> (j <= os_calls m + 18)%nat ->
                   clock os i + 900000 < clock os j) ->
      signals_sent (trace (snd (stop_repeatedly os 7 cmd m)))
      = signals_sent (trace m)
        ++ [(pid cmd, SIGTERM); (pid cmd, SIGTERM); (pid cmd, SIGTERM);
            (pid cmd, SIGTERM); (pid cmd, SIGTERM); (pid cmd, SIGTERM);
            (pid cmd, SIGKILL)]).
Proof.
  intros now gh. repeat split.
  - apply stop_cmd_not_running.
  - intros Hp H0 Hnow. exists (asked m). split; [|split; reflexivity].
    apply stop_cmd_limited; [exact Hp|].
    apply rate_limited_spec; [exact no_overflow | split; assumption].
  - intros Hp Hfree.
    assert (Hl : rate_limited os cmd m = false).
    { destruct (rate_limited os cmd m) eqn:E; [|reflexivity].
      apply rate_limited_spec in E; [|exact no_overflow].
      subst now gh. destruct E as [E1 E2]. destruct Hfree; [contradiction | lia]. }
    destruct (stop_cmd_step os cmd m Hp Hl) as (status & m' & E & Hsig & _).
    exists status, (signalled cmd now), m'. split; [exact E|].
    split.
    { rewrite Hsig. unfold signal_for. subst gh.
      destruct (Z.ltb_spec 5 (num_kills_sent (user cmd)));
        destruct (Z.leb_spec (num_kills_sent (user cmd)) 5); try lia; reflexivity. }
    split; [reflexivity|]. split; [apply incr_small|]. split; reflexivity.
  - intros Hp Hk Hlast Hclock.
    apply (escalation os 7 cmd m (os_calls m) (os_calls m + 18) 0 Hp Hk).
    + unfold CInt.INT_MAX. lia.
    + apply le_n.
    + lia.
    + left. exact Hlast.
    + exact Hclock.
Qed.

Lemma scenario_clock (n : nat) :
  (n <= 1000)%nat -> clock Scenario.os n = (1700000000 + Z.of_nat n) * 1000000.
Proof.
  intros H. unfold clock, Scenario.os. cbn [OS.gettimeofday fst snd].
  rewrite int64_small; [lia|].
  unfold CInt.in_int64, CInt.INT64_MAX, CInt.INT64_MIN. lia.
Qed.

Lemma stop_cmd_escalates_witness :
  stop_cmd Scenario.os (Scenario.sleep60 0 0 0) (boot "H" false)
  = (0, Scenario.sleep60 0 0 0, boot "H" false)
  /\ signals_sent
       (trace (snd (stop_repeatedly Scenario.os 7 (Scenario.sleep60 101 0 0)
                      (boot "H" false))))
     = signals_sent (trace (boot "H" false))
       ++ [(101, SIGTERM); (101, SIGTERM); (101, SIGTERM); (101, SIGTERM);
           (101, SIGTERM); (101, SIGTERM); (101, SIGKILL)].
Proof.
  assert (R : CInt.INT64_MIN <= 0 <= CInt.INT64_MAX - 900000)
    by (unfold CInt.INT64_MIN, CInt.INT64_MAX; lia).
  split.
  - exact (proj1 (stop_cmd_escalates Scenario.os (Scenario.sleep60 0 0 0)
                    (boot "H" false) R) eq_refl).
  - refine (proj2 (proj2 (proj2 (stop_cmd_escalates Scenario.os
                     (Scenario.sleep60 101 0 0) (boot "H" false) R))) _ eq_refl eq_refl _).
    + discriminate.
    + intros i j Hij Hj. change (os_calls (boot "H" false)) with 0%nat in *.
      rewrite !scenario_clock by lia. lia.
Defined.

(** ** Lists of handles *)

Lemma find_local_cmd_sid s sid p :
  find_local_cmd s sid = Some p -> sheriff_id (user p) = sid.
Proof.
  unfold find_local_cmd. intros H. apply find_some in H.
  destruct H as [_ H]. apply Z.eqb_eq in H. exact H.
Qed.

Lemma find_app_new {A : Type} (f : A -> bool) l x :
  find f l = None -> f x = true -> find f (l ++ [x]) = Some x.
Proof.
  induction l as [|y l IH]; cbn; intros Hn Hx.
  - rewrite Hx. reflexivity.
  - destruct (f y); [discriminate | auto].
Qed.

Lemma find_store sid p' l :
  sheriff_id (user p') = sid ->
  find (has_sid sid) l <> None ->
  find (has_sid sid) (store sid p' l) = Some p'.
Proof.
  intros Hs. induction l as [|q l IH]; cbn; intros Hf; [congruence|].
  unfold has_sid in *. destruct (sheriff_id (user q) =? sid) eqn:E.
  - cbn. rewrite Hs, Z.eqb_refl. reflexivity.
  - cbn. rewrite E. auto.
Qed.

(** [store] leaves the handles of other sheriff_ids alone. *)
Lemma filter_store (keep : procman_cmd_t -> bool) sid p' l :
  sheriff_id (user p') = sid ->
  (forall q, sheriff_id (user q) = sid -> keep q = false) ->
  filter keep (store sid p' l) = filter keep l.
Proof.
  intros Hs Hk. induction l as [|q l IH]; [reflexivity|].
  cbn. destruct (Z.eqb_spec (sheriff_id (user q)) sid) as [E|E].
  - cbn. rewrite (Hk p' Hs), (Hk q E). reflexivity.
  - cbn. rewrite IH. reflexivity.
Qed.

Lemma store_length sid p' l : List.length (store sid p' l) = List.length l.
Proof.
  induction l as [|q l IH]; [reflexivity|].
  cbn. destruct (_ =? _); cbn; congruence.
Qed.

(** ** The pieces of [carry_out] *)

Lemma locate_eq os cmd a m :
  locate os cmd a m =
  match find_local_cmd (pmd m) (SheriffCmd.sheriff_id cmd) with
  | Some p => (p, a, m)
  | None => (fresh_handle os cmd, true,
             mk_machine (set_pm (pmd m) (pm (pmd m) ++ [fresh_handle os cmd]))
               (os_calls m) (trace m) (quit m))
  end.
Proof.
  unfold locate, bind, get_pmd.
  destruct (find_local_cmd (pmd m) (SheriffCmd.sheriff_id cmd)); reflexivity.
Qed.

Lemma locate_any_flag os cmd a m :
  fst (fst (locate os cmd a m)) = located os cmd m
  /\ snd (locate os cmd a m) = staged os cmd m.
Proof.
  unfold located, staged. rewrite !locate_eq.
  destruct (find_local_cmd _ _); split; reflexivity.
Qed.

Lemma staged_facts os cmd m :
  find_local_cmd (pmd (staged os cmd m)) (SheriffCmd.sheriff_id cmd)
  = Some (located os cmd m)
  /\ trace (staged os cmd m) = trace m
  /\ os_calls (staged os cmd m) = os_calls m
  /\ quit (staged os cmd m) = quit m.
Proof.
  unfold staged, located. rewrite locate_eq.
  destruct (find_local_cmd (pmd m) (SheriffCmd.sheriff_id cmd)) eqn:E; cbn.
  - repeat split. exact E.
  - repeat split. unfold find_local_cmd in *. cbn.
    apply find_app_new; [exact E|]. cbn. apply Z.eqb_refl.
Qed.

Lemma located_sid os cmd m :
  sheriff_id (user (located os cmd m)) = SheriffCmd.sheriff_id cmd.
Proof.
  destruct (staged_facts os cmd m) as [H _].
  apply find_local_cmd_sid in H. exact H.
Qed.

Lemma sync_identity_any_flag os cmd p a :
  fst (sync_identity os cmd p a) = fst (sync_identity os cmd p false).
Proof.
  unfold sync_identity.
  destruct (negb (cmd_str p =? SheriffCmd.name cmd)%string);
  match goal with |- context [negb (nickname (user ?q) =? _)%string] =>
    destruct (negb (nickname (user q) =? SheriffCmd.nickname cmd)%string) end;
  match goal with |- context [negb (group (user ?q) =? _)%string] =>
    destruct (negb (group (user q) =? SheriffCmd.group cmd)%string) end;
  reflexivity.
Qed.

(** [sync_identity] touches the name, the argv, the nickname and the group
    only. *)
Lemma sync_identity_frame os cmd p a :
  let p' := fst (sync_identity os cmd p a) in
  pid p' = pid p /\ stdout_fd p' = stdout_fd p /\ exit_status p' = exit_status p
  /\ sheriff_id (user p') = sheriff_id (user p)
  /\ actual_runid (user p') = actual_runid (user p)
  /\ num_kills_sent (user p') = num_kills_sent (user p)
  /\ last_kill_time (user p') = last_kill_time (user p)
  /\ remove_requested (user p') = remove_requested (user p)
  /\ stdout_ioc (user p') = stdout_ioc (user p)
  /\ stdout_sid (user p') = stdout_sid (user p).
Proof.
  unfold sync_identity.
  destruct (negb (cmd_str p =? SheriffCmd.name cmd)%string);
  match goal with |- context [negb (nickname (user ?q) =? _)%string] =>
    destruct (negb (nickname (user q) =? SheriffCmd.nickname cmd)%string) end;
  match goal with |- context [negb (group (user ?q) =? _)%string] =>
    destruct (negb (group (user q) =? SheriffCmd.group cmd)%string) end;
  cbn; repeat split.
Qed.

(** The name, nickname and group of the handle are those of the record. *)
Lemma sync_identity_result os cmd p a :
  let p' := fst (sync_identity os cmd p a) in
  cmd_str p' = SheriffCmd.name cmd
  /\ nickname (user p') = SheriffCmd.nickname cmd
  /\ group (user p') = SheriffCmd.group cmd.
Proof.
  unfold sync_identity.
  destruct (String.eqb_spec (cmd_str p) (SheriffCmd.name cmd)) as [E1|E1]; cbn [negb];
  match goal with |- context [negb (nickname (user ?q) =? _)%string] =>
    destruct (String.eqb_spec (nickname (user q)) (SheriffCmd.nickname cmd)) as [E2|E2] end;
  cbn [negb];
  match goal with |- context [negb (group (user ?q) =? _)%string] =>
    destruct (String.eqb_spec (group (user q)) (SheriffCmd.group cmd)) as [E3|E3] end;
  cbn in *; repeat split; assumption.
Qed.

Lemma subject_sid os cmd m :
  sheriff_id (user (subject os cmd m)) = SheriffCmd.sheriff_id cmd.
Proof.
  unfold subject.
  destruct (sync_identity_frame os cmd (located os cmd m) false) as (_ & _ & _ & H & _).
  rewrite H. apply located_sid.
Qed.

(** ** [start_cmd] *)

Arguments timestamp_now : simpl never.
Arguments printf_and_transmit : simpl never.
Arguments vsnprintf_256 : simpl never.
Arguments clock : simpl never.
Arguments CInt.int64 : simpl never.
Arguments CInt.int32 : simpl never.
Arguments CInt.incr : simpl never.

Lemma start_cmd_fails os cmd want m :
  fst (OS.fork os (os_calls m)) <= 0 ->
  start_cmd os cmd want m =
  (-1, cmd,
   mk_machine (pmd m) (S (S (S (os_calls m))))
     (trace m ++ Forked (cmd_str cmd) (fst (OS.fork os (os_calls m)))
              :: couldnt_start os cmd m)
     (quit m)).
Proof.
  intros H. unfold start_cmd, procman_start_cmd, bind, ask, emit, ret. cbn.
  destruct (OS.fork os (os_calls m)) as [child fd]. cbn in *.
  destruct (Z.leb_spec child 0) as [_|]; [|lia]. cbn.
  rewrite !printf_and_transmit_eq. cbn. unfold emitted, asked, couldnt_start. cbn.
  rewrite <- !app_assoc. reflexivity.
Qed.

Lemma start_cmd_succeeds os cmd want m :
  0 < fst (OS.fork os (os_calls m)) ->
  start_cmd os cmd want m =
  (0,
   started cmd (fst (OS.fork os (os_calls m))) (snd (OS.fork os (os_calls m)))
     (OS.io_add_watch os (S (os_calls m))) want,
   mk_machine (pmd m) (S (S (os_calls m)))
     (trace m ++ [Forked (cmd_str cmd) (fst (OS.fork os (os_calls m)));
                  WatchAdded (snd (OS.fork os (os_calls m)))
                    (OS.io_add_watch os (S (os_calls m)))])
     (quit m)).
Proof.
  intros H. unfold start_cmd, procman_start_cmd, bind, ask, emit, ret. cbn.
  destruct (OS.fork os (os_calls m)) as [child fd]. cbn in *.
  destruct (Z.leb_spec child 0) as [|_]; [lia|]. cbn.
  rewrite <- !app_assoc. reflexivity.
Qed.

(** What [start_cmd] does in either case: one spawn attempt, no signal, the
    deputy record untouched. *)
Lemma start_cmd_frame os cmd want m :
  let r := start_cmd os cmd want m in
  pmd (snd r) = pmd m
  /\ quit (snd r) = quit m
  /\ sheriff_id (user (snd (fst r))) = sheriff_id (user cmd)
  /\ spawns (trace (snd r))
     = spawns (trace m) ++ [(cmd_str cmd, fst (OS.fork os (os_calls m)))]
  /\ signals_sent (trace (snd r)) = signals_sent (trace m).
Proof.
  destruct (Z.leb_spec (fst (OS.fork os (os_calls m))) 0) as [H|H].
  - rewrite (start_cmd_fails os cmd want m H). cbn.
    rewrite spawns_app, signals_sent_app. cbn. rewrite app_nil_r. repeat split.
  - rewrite (start_cmd_succeeds os cmd want m H). cbn.
    rewrite spawns_app, signals_sent_app. cbn. rewrite app_nil_r. repeat split.
Qed.

(** What [stop_cmd] does in every case: no spawn, at most one signal, the
    deputy record untouched, and of the handle only the kill count and the
    time of the last kill may change. *)
Lemma stop_cmd_frame os cmd m :
  let r := stop_cmd os cmd m in
  pmd (snd r) = pmd m
  /\ quit (snd r) = quit m
  /\ spawns (trace (snd r)) = spawns (trace m)
  /\ (exists n t, snd (fst r) = set_user cmd (set_kills (user cmd) n t)).
Proof.
  assert (Same : cmd = set_user cmd
                   (set_kills (user cmd) (num_kills_sent (user cmd))
                      (last_kill_time (user cmd))))
    by (destruct cmd as [? ? ? ? ? []]; reflexivity).
  destruct (Z.eq_dec (pid cmd) 0) as [Hp|Hp].
  - rewrite (stop_cmd_not_running os cmd m Hp). cbn. repeat split.
    eexists _, _. exact Same.
  - destruct (rate_limited os cmd m) eqn:Hl.
    + rewrite (stop_cmd_limited os cmd m Hp Hl). cbn. repeat split.
      eexists _, _. exact Same.
    + rewrite (stop_cmd_signals os cmd m Hp Hl). cbn.
      destruct (kill_report_quiet os cmd m) as [_ Hs].
      rewrite spawns_app. cbn. rewrite Hs, app_nil_r. repeat split.
      eexists _, _. reflexivity.
Qed.

(** ** [transition] and [carry_out] *)

Arguments start_cmd : simpl never.
Arguments stop_cmd : simpl never.

Lemma transition_any_flag os cmd st p a m :
  fst (fst (transition os cmd st p a m)) = fst (fst (transition os cmd st p false m))
  /\ snd (transition os cmd st p a m) = snd (transition os cmd st p false m).
Proof.
  unfold transition, bind, ret. destruct st.
  - destruct (_ && _).
    + destruct (start_cmd os p (SheriffCmd.desired_runid cmd) m) as [[? ?] ?].
      split; reflexivity.
    + split; reflexivity.
  - destruct (_ || _).
    + destruct (stop_cmd os p m) as [[? ?] ?]. split; reflexivity.
    + split; reflexivity.
Qed.

(** [transition] keeps the deputy record and the sheriff_id of the handle. *)
Lemma transition_frame os cmd st p a m :
  let r := transition os cmd st p a m in
  pmd (snd r) = pmd m /\ quit (snd r) = quit m
  /\ sheriff_id (user (fst (fst r))) = sheriff_id (user p).
Proof.
  unfold transition, bind, ret. destruct st.
  - destruct (_ && _).
    + pose proof (start_cmd_frame os p (SheriffCmd.desired_runid cmd) m) as (H1 & H2 & H3 & _).
      destruct (start_cmd os p (SheriffCmd.desired_runid cmd) m) as [[? ?] ?].
      cbn in *. auto.
    + cbn. auto.
  - destruct (_ || _).
    + pose proof (stop_cmd_frame os p m) as (H1 & H2 & _ & (n & t & H3)).
      destruct (stop_cmd os p m) as [[? ?] ?]. cbn in *. subst. auto.
    + cbn. auto.
Qed.

Lemma carry_out_machine os cmd a m :
  snd (carry_out os cmd a m)
  = snd (put_back (fst (fst (transitioned os cmd m))) (snd (transitioned os cmd m))).
Proof.
  unfold carry_out, transitioned, subject. unfold bind at 1.
  destruct (locate_any_flag os cmd a m) as [L1 L2].
  destruct (locate os cmd a m) as [[p0 a0] m1]. cbn in L1, L2. subst.
  pose proof (sync_identity_any_flag os cmd (located os cmd m) a0) as S1.
  destruct (sync_identity os cmd (located os cmd m) a0) as [p a1]. cbn in S1.
  rewrite <- S1. unfold bind at 1.
  destruct (transition_any_flag os cmd
              (procman_get_cmd_status (located os cmd m)) p a1 (staged os cmd m))
    as [T1 T2].
  destruct (transition os cmd (procman_get_cmd_status (located os cmd m)) p a1
              (staged os cmd m)) as [[p' a2] m2].
  cbn in T1, T2. rewrite <- T1, <- T2. unfold bind, ret.
  destruct (put_back p' m2). reflexivity.
Qed.

(** After [carry_out], the handle the transition gave is the handle of
    that sheriff_id in the command list; the trace and the answers taken
    are those of the transition. *)
Lemma carry_out_result os cmd a m :
  let t := transitioned os cmd m in
  let m' := snd (carry_out os cmd a m) in
  find_local_cmd (pmd m') (SheriffCmd.sheriff_id cmd) = Some (fst (fst t))
  /\ trace m' = trace (snd t)
  /\ os_calls m' = os_calls (snd t)
  /\ quit m' = quit m
  /\ pm (pmd m')
     = store (SheriffCmd.sheriff_id cmd) (fst (fst t)) (pm (pmd (staged os cmd m))).
Proof.
  intros t m'. subst m'. rewrite carry_out_machine. fold t.
  pose proof (transition_frame os cmd (procman_get_cmd_status (located os cmd m))
                (subject os cmd m) false (staged os cmd m)) as (F1 & F2 & F3).
  fold (transitioned os cmd m) in F1, F2, F3. fold t in F1, F2, F3.
  rewrite subject_sid in F3.
  destruct (staged_facts os cmd m) as (G1 & _ & _ & G4).
  unfold put_back, modify_pmd. cbn. rewrite F3, F1.
  split; [|repeat split; congruence].
  unfold find_local_cmd. cbn.
  apply find_store; [exact F3|].
  unfold find_local_cmd in G1. unfold has_sid. rewrite G1. discriminate.
Qed.

Lemma set_runid_same p : set_runid p (actual_runid (user p)) = p.
Proof. destruct p as [? ? ? ? ? []]. reflexivity. Qed.

Lemma subject_pid os cmd m : pid (subject os cmd m) = pid (located os cmd m).
Proof. unfold subject. apply (sync_identity_frame os cmd (located os cmd m) false). Qed.

(** The four ways [transition] can go, by the pid and the runids of the
    handle and the [force_quit] of the record. *)
Lemma transitioned_cases os cmd m :
  let p := subject os cmd m in
  let m1 := staged os cmd m in
  let want := SheriffCmd.desired_runid cmd in
  transitioned os cmd m =
  if pid p =? 0 then
    if negb (actual_runid (user p) =? want) && negb (SheriffCmd.force_quit cmd)
    then (set_runid (snd (fst (start_cmd os p want m1))) want, true,
          snd (start_cmd os p want m1))
    else (set_runid p want, false, m1)
  else
    if SheriffCmd.force_quit cmd || negb (want =? actual_runid (user p))
    then (snd (fst (stop_cmd os p m1)), true, snd (stop_cmd os p m1))
    else (set_runid p want, false, m1).
Proof.
  intros p m1 want. unfold transitioned, transition, procman_get_cmd_status.
  rewrite <- subject_pid. fold p m1 want.
  destruct (pid p =? 0).
  - destruct (_ && _); [|reflexivity]. unfold bind, ret.
    destruct (start_cmd os p want m1) as [[? ?] ?]. reflexivity.
  - destruct (_ || _); [|reflexivity]. unfold bind, ret.
    destruct (stop_cmd os p m1) as [[? ?] ?]. reflexivity.
Qed.

(** The loop takes the records in their order: the machine a record
    meets is the one the records before it leave. *)
Lemma carry_out_all_app os before rest : forall a m,
  carry_out_all os (before ++ rest) a m
  = carry_out_all os rest (fst (carry_out_all os before a m))
      (snd (carry_out_all os before a m)).
Proof.
  induction before as [|c before IH]; intros a m; [reflexivity|].
  cbn [app carry_out_all]. unfold bind.
  destruct (carry_out os c a m) as [a1 m1]. apply IH.
Qed.

(** C1. The loop body of the reconciler, for one command record: a stopped
    command whose run id differs and that is not to be force-quit is started
    (one spawn attempt, no signal) and its actual run id is the desired one
    afterwards, whatever the start gave; a stopped command to be force-quit
    is not started and its actual run id is the desired one afterwards; a
    stopped command with the desired run id is left as it is; a running
    command that is to be force-quit or whose run id differs is handed to
    [stop_cmd], which sends it the signal of its kill count unless the last
    one is less than 900 ms old, and keeps its run id; a running command
    with the desired run id is left as it is, with no signal and no
    spawn. *)
Theorem reconciler_transition_table os cmd a m :
  let p := subject os cmd m in
  let m1 := staged os cmd m in
  let m' := snd (carry_out os cmd a m) in
  let want := SheriffCmd.desired_runid cmd in
  let handle := find_local_cmd (pmd m') (SheriffCmd.sheriff_id cmd) in
  (pid p = 0 -> SheriffCmd.force_quit cmd = false -> want <> actual_runid (user p) ->
     exists status p' m2 h,
       start_cmd os p want m1 = (status, p', m2)
       /\ handle = Some h
       /\ h = set_runid p' want
       /\ actual_runid (user h) = want
       /\ pid h = pid p'
       /\ trace m' = trace m2
       /\ spawns (trace m')
          = spawns (trace m) ++ [(cmd_str p, fst (OS.fork os (os_calls m)))]
       /\ signals_sent (trace m') = signals_sent (trace m))
  /\ (pid p = 0 -> SheriffCmd.force_quit cmd = true ->
      exists h,
        handle = Some h
        /\ h = set_runid p want
        /\ actual_runid (user h) = want
        /\ pid h = 0
        /\ trace m' = trace m /\ os_calls m' = os_calls m)
  /\ (pid p = 0 -> SheriffCmd.force_quit cmd = false -> want = actual_runid (user p) ->
      handle = Some p /\ trace m' = trace m /\ os_calls m' = os_calls m)
  /\ (pid p <> 0 ->
      SheriffCmd.force_quit cmd = true \/ want <> actual_runid (user p) ->
      exists status p' m2,
        stop_cmd os p m1 = (status, p', m2)
        /\ handle = Some p'
        /\ trace m' = trace m2
        /\ spawns (trace m') = spawns (trace m)
        /\ signals_sent (trace m')
           = signals_sent (trace m)
             ++ (if rate_limited os p m1 then []
                 else [(pid p, signal_for (num_kills_sent (user p)))])
        /\ actual_runid (user p') = actual_runid (user p)
        /\ pid p' = pid p)
  /\ (pid p <> 0 -> SheriffCmd.force_quit cmd = false -> want = actual_runid (user p) ->
      handle = Some p
      /\ trace m' = trace m /\ os_calls m' = os_calls m).
Proof.
  intros p m1 m' want handle.
  destruct (carry_out_result os cmd a m) as (R1 & R2 & R3 & _).
  fold m' in R1, R2, R3. fold handle in R1.
  pose proof (transitioned_cases os cmd m) as T. cbv zeta in T.
  fold p m1 want in T.
  destruct (staged_facts os cmd m) as (_ & S2 & S3 & _). fold m1 in S2, S3.
  pose proof (start_cmd_frame os p want m1) as (_ & _ & _ & F4 & F5).
  pose proof (stop_cmd_frame os p m1) as (_ & _ & G3 & (n & t & G4)).
  assert (Sig : pid p <> 0 ->
                signals_sent (trace (snd (stop_cmd os p m1)))
                = signals_sent (trace m)
                  ++ (if rate_limited os p m1 then []
                      else [(pid p, signal_for (num_kills_sent (user p)))])).
  { intros Hp. destruct (rate_limited os p m1) eqn:Lim.
    - rewrite (stop_cmd_limited os p m1 Hp Lim). cbn. rewrite S2. symmetry. apply app_nil_r.
    - destruct (stop_cmd_step os p m1 Hp Lim) as (st & m2 & E & Sg & _).
      rewrite E. cbn [snd]. rewrite Sg, S2. reflexivity. }
  rewrite S2 in F4, F5, G3. rewrite S3 in F4.
  pose proof (set_runid_same p) as Same.
  clearbody p m1 m' want handle.
  rewrite T in R1, R2, R3. clear T.
  assert (Start : pid p = 0 -> SheriffCmd.force_quit cmd = false ->
                  want <> actual_runid (user p) ->
                  exists status p' m2 h,
                    start_cmd os p want m1 = (status, p', m2)
                    /\ handle = Some h
                    /\ h = set_runid p' want
                    /\ actual_runid (user h) = want
                    /\ pid h = pid p'
                    /\ trace m' = trace m2
                    /\ spawns (trace m')
                       = spawns (trace m) ++ [(cmd_str p, fst (OS.fork os (os_calls m)))]
                    /\ signals_sent (trace m') = signals_sent (trace m)).
  { intros Hp Hq Hw. rewrite Hp, Hq in *. cbn [Z.eqb] in *.
    destruct (Z.eqb_spec (actual_runid (user p)) want) as [E|_]; [congruence|].
    cbn [negb andb] in *.
    destruct (start_cmd os p want m1) as [[status p'] m2]. cbn in *.
    exists status, p', m2, (set_runid p' want). rewrite R2.
    repeat split; try assumption; reflexivity. }
  assert (Forced : pid p = 0 -> SheriffCmd.force_quit cmd = true ->
                 exists h,
                   handle = Some h
                   /\ h = set_runid p want
                   /\ actual_runid (user h) = want
                   /\ pid h = 0
                   /\ trace m' = trace m /\ os_calls m' = os_calls m).
  { intros Hp Hq. rewrite Hp, Hq in *. cbn [Z.eqb] in *.
    rewrite andb_false_r in *. cbn in *.
    exists (set_runid p want).
    repeat split; try congruence; try reflexivity; exact Hp. }
  assert (Idle : SheriffCmd.force_quit cmd = false -> want = actual_runid (user p) ->
                 handle = Some p /\ trace m' = trace m /\ os_calls m' = os_calls m).
  { intros Hq Hw. subst want. rewrite Hq, Z.eqb_refl in *. cbn in *.
    rewrite Same in *. destruct (pid p =? 0); cbn in *; repeat split; congruence. }
  assert (Stop : pid p <> 0 ->
                 SheriffCmd.force_quit cmd = true \/ want <> actual_runid (user p) ->
                 exists status p' m2,
                   stop_cmd os p m1 = (status, p', m2)
                   /\ handle = Some p'
                   /\ trace m' = trace m2
                   /\ spawns (trace m') = spawns (trace m)
                   /\ signals_sent (trace m')
                      = signals_sent (trace m)
                        ++ (if rate_limited os p m1 then []
                            else [(pid p, signal_for (num_kills_sent (user p)))])
                   /\ actual_runid (user p') = actual_runid (user p)
                   /\ pid p' = pid p).
  { intros Hp Hq. specialize (Sig Hp).
    destruct (Z.eqb_spec (pid p) 0) as [|_]; [contradiction|].
    assert (C : SheriffCmd.force_quit cmd || negb (want =? actual_runid (user p)) = true).
    { destruct Hq as [Hq|Hq]; [rewrite Hq; reflexivity|].
      apply orb_true_iff. right. apply negb_true_iff, Z.eqb_neq. exact Hq. }
    rewrite C in *.
    destruct (stop_cmd os p m1) as [[status p'] m2]. cbn in *.
    exists status, p', m2. rewrite R2. subst p'. repeat split; auto. }
  split; [exact Start|]. split; [exact Forced|].
  split; [intros _; exact Idle|]. split; [exact Stop|]. intros _; exact Idle.
Qed.

Lemma watches_added_app a b : watches_added (a ++ b) = watches_added a ++ watches_added b.
Proof.
  induction a as [|e a IH]; [reflexivity|].
  destruct e; cbn; rewrite ?IH; reflexivity.
Qed.

Lemma error_text_prefix name :
  exists rest,
    vsnprintf_256 ("ERROR!  couldn't start [" ++ name ++ "]" ++ LF)
    = ("ERROR!  couldn't start [" ++ rest)%string.
Proof.
  exists (substring 0 231 (name ++ "]" ++ LF)). reflexivity.
Qed.

(** C7. When the start of a command fails, [start_cmd] publishes a
    "couldn't start" line under the sheriff_id of the command, leaves the
    deputy's command list and the handle as they are (so the pid stays as it
    was, 0 for a stopped command) and adds no stdout watch; the reconciler
    then keeps the handle in the list, not running and unwatched. *)
Theorem start_failure_is_reported os cmd want m
  (fork_fails : fst (OS.fork os (os_calls m)) <= 0) :
  (exists m' first second,
     start_cmd os cmd want m = (-1, cmd, m')
     /\ trace m' = trace m ++ [Forked (cmd_str cmd) (fst (OS.fork os (os_calls m)));
                               PMD_PRINTF first; PMD_PRINTF second]
     /\ Printf.sheriff_id second = sheriff_id (user cmd)
     /\ (exists rest, Printf.text second = ("ERROR!  couldn't start [" ++ rest)%string)
     /\ pmd m' = pmd m
     /\ watches_added (trace m') = watches_added (trace m))
  /\ (forall rec a,
        pid (subject os rec m) = 0 ->
        SheriffCmd.force_quit rec = false ->
        SheriffCmd.desired_runid rec <> actual_runid (user (subject os rec m)) ->
        let m' := snd (carry_out os rec a m) in
        exists p',
          find_local_cmd (pmd m') (SheriffCmd.sheriff_id rec) = Some p'
          /\ pid p' = 0
          /\ stdout_ioc (user p') = stdout_ioc (user (subject os rec m))
          /\ watches_added (trace m') = watches_added (trace m)
          /\ exists second rest,
               In (PMD_PRINTF second) (trace m')
               /\ Printf.sheriff_id second = SheriffCmd.sheriff_id rec
               /\ Printf.text second = ("ERROR!  couldn't start [" ++ rest)%string).
Proof.
  split.
  - rewrite (start_cmd_fails os cmd want m fork_fails). unfold couldnt_start.
    eexists _, _, _. split; [reflexivity|]. cbn.
    split; [reflexivity|]. split; [reflexivity|]. split; [apply error_text_prefix|].
    split; [reflexivity|]. rewrite watches_added_app. cbn. apply app_nil_r.
  - intros rec a Hp Hq Hw m'.
    destruct (carry_out_result os rec a m) as (R1 & R2 & _). fold m' in R1, R2.
    pose proof (transitioned_cases os rec m) as T. cbv zeta in T.
    rewrite Hp, Hq in T. cbn [Z.eqb] in T.
    destruct (Z.eqb_spec (actual_runid (user (subject os rec m)))
                (SheriffCmd.desired_runid rec)) as [E|_]; [congruence|].
    cbn [negb andb] in T.
    destruct (staged_facts os rec m) as (_ & S2 & S3 & _).
    assert (F : fst (OS.fork os (os_calls (staged os rec m))) <= 0)
      by (rewrite S3; exact fork_fails).
    rewrite (start_cmd_fails os _ _ _ F) in T. cbn [fst snd] in T.
    rewrite T in R1, R2. cbn [fst snd trace] in R1, R2.
    eexists. split; [exact R1|]. split; [exact Hp|]. split; [reflexivity|].
    rewrite R2, S2. split.
    + rewrite watches_added_app. cbn. apply app_nil_r.
    + destruct (error_text_prefix (cmd_str (subject os rec m))) as [rest Hrest].
      eexists _, rest. split; [|split].
      * apply in_or_app. right. right. right. left. reflexivity.
      * cbn. apply subject_sid.
      * cbn. exact Hrest.
Qed.

(** C10. A successful [start_cmd] sets the kill count and the time of the
    last kill to 0 and the run id to the desired one; so whenever [stop_cmd]
    is next called on the handle it is not held back by the 900 ms limit and
    sends SIGTERM, the first signal of a new escalation. *)
Theorem start_resets_escalation os cmd want m
  (fork_succeeds : 0 < fst (OS.fork os (os_calls m))) :
  exists cmd' m',
    start_cmd os cmd want m = (0, cmd', m')
    /\ num_kills_sent (user cmd') = 0
    /\ last_kill_time (user cmd') = 0
    /\ actual_runid (user cmd') = want
    /\ pid cmd' = fst (OS.fork os (os_calls m))
    /\ forall later,
         exists status cmd'' after,
           stop_cmd os cmd' later = (status, cmd'', after)
           /\ signals_sent (trace after)
              = signals_sent (trace later) ++ [(pid cmd', SIGTERM)]
           /\ num_kills_sent (user cmd'') = 1
           /\ last_kill_time (user cmd'') = clock os (os_calls later).
Proof.
  rewrite (start_cmd_succeeds os cmd want m fork_succeeds).
  eexists _, _. split; [reflexivity|]. cbn.
  repeat (split; [reflexivity|]).
  intros later.
  match goal with |- context [stop_cmd os ?c later] => set (cmd' := c) end.
  assert (Hp : pid cmd' <> 0) by (cbn; lia).
  assert (Hl : rate_limited os cmd' later = false) by reflexivity.
  destruct (stop_cmd_step os cmd' later Hp Hl) as (status & after & E & Hsig & _).
  exists status, (signalled cmd' (clock os (os_calls later))), after.
  split; [exact E|]. split; [exact Hsig|]. split; reflexivity.
Qed.

(** ** Renaming *)

Lemma located_found os cmd m p0 :
  find_local_cmd (pmd m) (SheriffCmd.sheriff_id cmd) = Some p0 ->
  located os cmd m = p0 /\ staged os cmd m = m.
Proof.
  intros H. unfold located, staged. rewrite locate_eq, H. split; reflexivity.
Qed.

(** One command record that finds its handle running, with the run id it
    asks for and no force_quit: the handle takes the name, nickname and
    group of the record and nothing else happens. *)
Lemma carry_out_steady os cmd a m p0 :
  find_local_cmd (pmd m) (SheriffCmd.sheriff_id cmd) = Some p0 ->
  pid p0 <> 0 ->
  SheriffCmd.desired_runid cmd = actual_runid (user p0) ->
  SheriffCmd.force_quit cmd = false ->
  let m' := snd (carry_out os cmd a m) in
  find_local_cmd (pmd m') (SheriffCmd.sheriff_id cmd) = Some (renamed os cmd p0)
  /\ trace m' = trace m /\ os_calls m' = os_calls m /\ quit m' = quit m
  /\ pm (pmd m') = store (SheriffCmd.sheriff_id cmd) (renamed os cmd p0) (pm (pmd m)).
Proof.
  intros Hf Hp Hw Hq m'.
  destruct (located_found os cmd m p0 Hf) as [L1 L2].
  destruct (carry_out_result os cmd a m) as (R1 & R2 & R3 & R4 & R5).
  fold m' in R1, R2, R3, R4, R5.
  pose proof (transitioned_cases os cmd m) as T. cbv zeta in T.
  pose proof (sync_identity_frame os cmd p0 false) as (F1 & _ & _ & _ & F5 & _).
  unfold subject in T. rewrite L1, L2 in T. fold (renamed os cmd p0) in T, F1, F5.
  rewrite F1, F5, Hq, Hw, Z.eqb_refl in T.
  destruct (Z.eqb_spec (pid p0) 0) as [|_]; [contradiction|]. cbn in T.
  rewrite <- F5, set_runid_same in T.
  rewrite T in R1, R2, R3, R5. rewrite L2 in R5. cbn in *. auto.
Qed.

Lemma renamed_facts os cmd p :
  let p' := renamed os cmd p in
  cmd_str p' = SheriffCmd.name cmd
  /\ (cmd_str p <> SheriffCmd.name cmd -> argv p' = OS.split_str os (SheriffCmd.name cmd))
  /\ pid p' = pid p
  /\ sheriff_id (user p') = sheriff_id (user p)
  /\ actual_runid (user p') = actual_runid (user p)
  /\ num_kills_sent (user p') = num_kills_sent (user p)
  /\ last_kill_time (user p') = last_kill_time (user p).
Proof.
  intros p'. subst p'. unfold renamed.
  destruct (sync_identity_result os cmd p false) as (N1 & _).
  destruct (sync_identity_frame os cmd p false) as (F1 & _ & _ & F4 & F5 & F6 & F7 & _).
  repeat split; try assumption.
  intros Hn. unfold sync_identity.
  destruct (String.eqb_spec (cmd_str p) (SheriffCmd.name cmd)) as [|_]; [contradiction|].
  cbn [negb].
  match goal with |- context [negb (nickname (user ?q) =? _)%string] =>
    destruct (negb (nickname (user q) =? SheriffCmd.nickname cmd)%string) end;
  match goal with |- context [negb (group (user ?q) =? _)%string] =>
    destruct (negb (group (user q) =? SheriffCmd.group cmd)%string) end;
  reflexivity.
Qed.

(** ** What a handler leaves alone *)

Create HintDb preserves.

Section Preserves.

Context {X : Type} (proj : procman_deputy_t -> X).

Lemma preserves_ret {A : Type} (a : A) : preserves proj (ret a).
Proof. intros m. reflexivity. Qed.

Lemma preserves_bind {A B : Type} (c : M A) (k : A -> M B) :
  preserves proj c -> (forall a, preserves proj (k a)) -> preserves proj (bind c k).
Proof.
  intros Hc Hk m. unfold bind. specialize (Hc m).
  destruct (c m) as [a m1]. cbn in Hc. rewrite <- Hc. apply Hk.
Qed.

Lemma preserves_ask os {A : Type} (answer : OS.t -> nat -> A) : preserves proj (ask os answer).
Proof. intros m. reflexivity. Qed.

Lemma preserves_emit e : preserves proj (emit e).
Proof. intros m. reflexivity. Qed.

Lemma preserves_get_pmd : preserves proj get_pmd.
Proof. intros m. reflexivity. Qed.

Lemma preserves_modify_pmd f :
  (forall s, proj (f s) = proj s) -> preserves proj (modify_pmd f).
Proof. intros H m. cbn. apply H. Qed.

Lemma preserves_when b c : preserves proj c -> preserves proj (when b c).
Proof. intros H. destruct b; [exact H | apply preserves_ret]. Qed.

Lemma preserves_timestamp_now os : preserves proj (timestamp_now os).
Proof. intros m. rewrite timestamp_now_eq. reflexivity. Qed.

#[local] Hint Resolve preserves_ret preserves_ask preserves_emit preserves_get_pmd
  preserves_timestamp_now : preserves.

(** Peel the binds of a handler, closing what the hints close. *)
Ltac preserve :=
  repeat first
    [ solve [auto with preserves]
    | simple apply preserves_when
    | simple apply preserves_bind; [|intros ?] ].

Lemma preserves_transmit_str os sid str : preserves proj (transmit_str os sid str).
Proof. unfold transmit_str. preserve. Qed.

Lemma preserves_printf_and_transmit os sid text : preserves proj (printf_and_transmit os sid text).
Proof. unfold printf_and_transmit. destruct (_ =? _)%nat; preserve. Qed.

#[local] Hint Resolve preserves_transmit_str preserves_printf_and_transmit : preserves.

Lemma preserves_pipe_data_ready os condition cmd : preserves proj (pipe_data_ready os condition cmd).
Proof.
  unfold pipe_data_ready. preserve.
  destruct a as [[bytes data] errno].
  destruct (bytes <? 0); [preserve|]. destruct (bytes =? 0); preserve.
Qed.

Lemma preserves_start_cmd os cmd want : preserves proj (start_cmd os cmd want).
Proof.
  intros m. destruct (Z.leb_spec (fst (OS.fork os (os_calls m))) 0) as [H|H].
  - rewrite (start_cmd_fails os cmd want m H). reflexivity.
  - rewrite (start_cmd_succeeds os cmd want m H). reflexivity.
Qed.

Lemma preserves_stop_cmd os cmd : preserves proj (stop_cmd os cmd).
Proof.
  intros m. destruct (stop_cmd_frame os cmd m) as [H _]. rewrite H. reflexivity.
Qed.

Lemma preserves_for_each_cmd body cmds :
  (forall p, preserves proj (body p)) -> preserves proj (for_each_cmd body cmds).
Proof.
  intros Hb. induction cmds as [|p rest IH]; cbn [for_each_cmd]; preserve.
Qed.

Lemma preserves_transmit_proc_info os : preserves proj (transmit_proc_info os).
Proof. unfold transmit_proc_info. preserve. Qed.

#[local] Hint Resolve preserves_pipe_data_ready preserves_start_cmd preserves_stop_cmd
  preserves_for_each_cmd preserves_transmit_proc_info : preserves.

Lemma preserves_cull os orders p : preserves proj (cull os orders p).
Proof.
  unfold cull. destruct (orphaned orders p); [|preserve].
  destruct (negb (pid p =? 0)); preserve. destruct a. preserve.
Qed.

Lemma preserves_sample_cmd os bits ellapsed cmd : preserves proj (sample_cmd os bits ellapsed cmd).
Proof.
  unfold sample_cmd. preserve.
  destruct (negb (pid cmd =? 0)); preserve. destruct a as [status fill].
  destruct (negb (status =? 0)); [preserve|]. destruct (_ || _); preserve.
Qed.

Lemma preserves_remove_cmds os cmds : preserves proj (remove_cmds os cmds).
Proof.
  induction cmds as [|p rest IH]; cbn [remove_cmds]; preserve.
  - destruct (pid p =? 0); preserve.
  - destruct a. preserve. destruct a. preserve.
Qed.

Lemma preserves_report_stale os now utime cmds : preserves proj (report_stale os now utime cmds).
Proof. induction cmds as [|c rest IH]; cbn [report_stale]; preserve. Qed.

#[local] Hint Resolve preserves_cull preserves_sample_cmd preserves_remove_cmds
  preserves_report_stale : preserves.

(** From here on [proj] does not look at the command list, the samples or
    the load. *)
Hypothesis proj_set_pm : forall s l, proj (set_pm s l) = proj s.
Hypothesis proj_set_sys_cpu : forall s t0 t1 load, proj (set_sys_cpu s t0 t1 load) = proj s.

Lemma preserves_set_pm (f : procman_deputy_t -> list procman_cmd_t) :
  preserves proj (modify_pmd (fun s => set_pm s (f s))).
Proof. apply preserves_modify_pmd. intros s. apply proj_set_pm. Qed.

#[local] Hint Resolve preserves_set_pm : preserves.

Lemma preserves_carry_out os cmd a : preserves proj (carry_out os cmd a).
Proof.
  unfold carry_out. preserve.
  - unfold locate. preserve.
    destruct (find_local_cmd _ _); preserve. unfold procman_add_cmd. preserve.
  - destruct a0 as [p a0]. destruct (sync_identity os cmd p a0) as [p1 a1]. preserve.
    + unfold transition. destruct (procman_get_cmd_status p).
      * destruct (_ && _); preserve. destruct a2. preserve.
      * destruct (_ || _); preserve. destruct a2. preserve.
    + destruct a2. unfold put_back. preserve.
Qed.

Lemma preserves_carry_out_all os cmds : forall a, preserves proj (carry_out_all os cmds a).
Proof.
  induction cmds as [|c rest IH]; intros a; cbn [carry_out_all]; preserve.
  apply preserves_carry_out.
Qed.

Lemma preserves_reap os : preserves proj (procman_check_for_dead_children os).
Proof.
  unfold procman_check_for_dead_children. preserve. destruct a as [child status].
  destruct (child <=? 0); preserve.
  destruct (split_at_pid child (pm a)) as [[[before p] after]|]; preserve.
Qed.

Lemma preserves_bury os before cmd after : preserves proj (bury os before cmd after).
Proof.
  unfold bury. preserve.
  destruct (stdout_ioc (user cmd)); preserve.
  unfold procman_close_dead_pipes. destruct (_ <? 0); preserve.
Qed.

#[local] Hint Resolve preserves_reap preserves_bury preserves_carry_out_all : preserves.

Lemma preserves_bury_all os fuel : forall before cmd after,
  preserves proj (bury_all os fuel before cmd after).
Proof.
  induction fuel as [|fuel IH]; intros before cmd after; cbn [bury_all]; preserve.
  - destruct a0 as [[[b c] a0]|]; preserve.
  - destruct a0 as [[[b c] a0]|]; preserve.
Qed.

Lemma preserves_check_for_dead_children os : preserves proj (check_for_dead_children os).
Proof.
  unfold check_for_dead_children. preserve.
  destruct a as [[[b c] a]|]; preserve. apply preserves_bury_all.
Qed.

Lemma preserves_update_cpu_times os bits : preserves proj (update_cpu_times os bits).
Proof.
  unfold update_cpu_times. preserve. destruct a as [status fill]. preserve.
  all: apply preserves_modify_pmd; intros s; apply proj_set_sys_cpu.
Qed.

(** The shutdown also moves handles to the list of those without record. *)
Hypothesis proj_set_unrecorded : forall s l, proj (set_unrecorded s l) = proj s.

Lemma preserves_remove_all_cmds os : preserves proj (remove_all_cmds os).
Proof.
  unfold remove_all_cmds. preserve. destruct a0. preserve.
  apply preserves_modify_pmd. intros s.
  rewrite proj_set_unrecorded. apply proj_set_pm.
Qed.

End Preserves.

(** ** The three ways of an order *)

Lemma order_for_other os max_age orders m :
  for_me orders m = false ->
  procman_deputy_order_received os max_age orders m =
  (tt, mk_machine
         (set_counters (pmd m) (CInt.incr (norders_slm (pmd m)))
            (norders_forme_slm (pmd m)) (nstale_orders_slm (pmd m)))
         (os_calls m) (trace m) (quit m)).
Proof.
  unfold for_me. intros H. unfold procman_deputy_order_received.
  unfold bind at 1. unfold modify_pmd at 1. unfold bind at 1, get_pmd at 1.
  cbn [pmd set_counters hostname]. rewrite H. reflexivity.
Qed.

Lemma order_stale os max_age orders m :
  for_me orders m = true -> stale os max_age orders m = true ->
  snd (procman_deputy_order_received os max_age orders m) =
  let reported :=
    snd (report_stale os (clock os (os_calls m)) (Orders.utime orders)
           (Orders.cmds orders) (taken m)) in
  mk_machine
    (set_counters (pmd reported) (norders_slm (pmd reported))
       (norders_forme_slm (pmd reported))
       (CInt.incr (nstale_orders_slm (pmd reported))))
    (os_calls reported) (trace reported) (quit reported).
Proof.
  unfold for_me, stale. intros H Hs. unfold procman_deputy_order_received.
  unfold bind at 1. unfold modify_pmd at 1. unfold bind at 1, get_pmd at 1.
  cbn [pmd set_counters hostname]. rewrite H. cbn [negb].
  unfold bind at 1. unfold modify_pmd at 1. unfold bind at 1.
  rewrite timestamp_now_eq. cbn [os_calls asked]. rewrite Hs.
  unfold bind. unfold taken.
  cbn [pmd os_calls trace quit asked set_counters norders_slm norders_forme_slm
       nstale_orders_slm].
  destruct (report_stale os _ _ _ _) as [[] reported]. reflexivity.
Qed.

Lemma order_fresh os max_age orders m :
  for_me orders m = true -> stale os max_age orders m = false ->
  procman_deputy_order_received os max_age orders m
  = carried_out os orders (accepted orders m).
Proof.
  unfold for_me, stale. intros H Hs. unfold procman_deputy_order_received.
  unfold bind at 1. unfold modify_pmd at 1. unfold bind at 1, get_pmd at 1.
  cbn [pmd set_counters hostname]. rewrite H. cbn [negb].
  unfold bind at 1. unfold modify_pmd at 1. unfold bind at 1.
  rewrite timestamp_now_eq. cbn [os_calls asked]. rewrite Hs.
  unfold bind at 1. unfold modify_pmd at 1. reflexivity.
Qed.

(** ** Stale orders *)

Lemma report_stale_eq os now utime cmds : forall m,
  report_stale os now utime cmds m =
  (tt, mk_machine (pmd m) (os_calls m + List.length cmds)
         (trace m ++ stale_lines os (hostname (pmd m)) now utime (os_calls m) cmds)
         (quit m)).
Proof.
  induction cmds as [|c rest IH]; intros m; cbn [report_stale stale_lines List.length].
  - rewrite app_nil_r, Nat.add_0_r. destruct m; reflexivity.
  - unfold bind. unfold stale_text at 1. cbn [append].
    rewrite printf_and_transmit_eq. rewrite IH.
    cbn [emitted asked pmd os_calls trace quit].
    rewrite <- app_assoc. cbn [app]. rewrite Nat.add_succ_r. reflexivity.
Qed.

Lemma stale_lines_shape os host now utime cmds : forall first,
  Forall2 (fun cmd line =>
             exists utime',
               line = PMD_PRINTF (Printf.mk host (SheriffCmd.sheriff_id cmd)
                                    (vsnprintf_256 (stale_text now utime)) utime'))
    cmds (stale_lines os host now utime first cmds).
Proof.
  induction cmds as [|c rest IH]; intros first; cbn [stale_lines]; constructor.
  - eexists. reflexivity.
  - apply IH.
Qed.

Lemma stale_lines_quiet os host now utime cmds : forall first,
  spawns (stale_lines os host now utime first cmds) = []
  /\ signals_sent (stale_lines os host now utime first cmds) = [].
Proof.
  induction cmds as [|c rest IH]; intros first; cbn; [split; reflexivity | apply IH].
Qed.

(** C5. An order for this deputy whose utime is more than the maximal
    message age before the time of its arrival is dropped: the count of
    stale orders goes up by one, one line is published for each command
    record of the order, under the sheriff_id of the record, and nothing is
    spawned, nothing is signalled and the command list is as it was.  The
    line says "ignoring stale orders", gives the age of the order in
    seconds as the [(int)] cast leaves it, and ends with "You may want to
    check the system clocks!"; the deputy keeps its first 255 bytes. *)
Theorem stale_order_is_dropped os max_age orders m
  (mine : Orders.host orders = hostname (pmd m))
  (no_overflow : CInt.INT64_MIN <= clock os (os_calls m) - Orders.utime orders
                 <= CInt.INT64_MAX)
  (old : clock os (os_calls m) - Orders.utime orders > max_age) :
  let now := clock os (os_calls m) in
  let m' := snd (procman_deputy_order_received os max_age orders m) in
  let seconds := Z.quot (now - Orders.utime orders) 1000000 in
  let shown := (seconds + 2 ^ 31) mod 2 ^ 32 - 2 ^ 31 in
  let text :=
    substring 0 255
      ("ignoring stale orders (utime "
       ++ DecimalString.NilZero.string_of_int (Z.to_int shown)
       ++ " seconds ago). You may want to check the system clocks!" ++ LF) in
  nstale_orders_slm (pmd m') = CInt.incr (nstale_orders_slm (pmd m))
  /\ (0 <= nstale_orders_slm (pmd m) < CInt.INT_MAX ->
      nstale_orders_slm (pmd m') = nstale_orders_slm (pmd m) + 1)
  /\ (exists lines,
        trace m' = trace m ++ lines
        /\ Forall2 (fun cmd line =>
                      exists utime',
                        line = PMD_PRINTF
                                 (Printf.mk (hostname (pmd m)) (SheriffCmd.sheriff_id cmd)
                                    text utime'))
             (Orders.cmds orders) lines)
  /\ spawns (trace m') = spawns (trace m)
  /\ signals_sent (trace m') = signals_sent (trace m)
  /\ pm (pmd m') = pm (pmd m).
Proof.
  intros now m' seconds shown text.
  assert (Hme : for_me orders m = true)
    by (unfold for_me; rewrite mine; apply String.eqb_refl).
  assert (Hst : stale os max_age orders m = true).
  { unfold stale. rewrite int64_small by exact no_overflow. apply Z.ltb_lt. lia. }
  assert (Text : vsnprintf_256 (stale_text now (Orders.utime orders)) = text).
  { unfold vsnprintf_256, stale_text. rewrite int64_small by exact no_overflow.
    reflexivity. }
  clearbody text. subst m'. rewrite (order_stale os max_age orders m Hme Hst). cbv zeta.
  rewrite report_stale_eq.
  cbn [snd pmd trace taken set_counters nstale_orders_slm pm hostname os_calls].
  destruct (stale_lines_quiet os (hostname (pmd m)) now (Orders.utime orders)
              (Orders.cmds orders) (S (os_calls m))) as [Q1 Q2].
  split; [reflexivity|]. split; [apply incr_small|].
  split; [eexists; split; [reflexivity | rewrite <- Text; apply stale_lines_shape]|].
  fold now. rewrite spawns_app, signals_sent_app, Q1, Q2, !app_nil_r.
  repeat split.
Qed.

(** ** The order counters *)

Lemma counters_set_pm s l : counters (set_pm s l) = counters s.
Proof. reflexivity. Qed.

Lemma counters_set_sys_cpu s t0 t1 load : counters (set_sys_cpu s t0 t1 load) = counters s.
Proof. reflexivity. Qed.

Lemma incr_differs x : CInt.incr x <> x.
Proof.
  unfold CInt.incr, CInt.int32, CInt.wrap_signed.
  change (2 ^ (32 - 1)) with 2147483648. change (2 ^ 32) with 4294967296.
  pose proof (Z.mod_pos_bound (x + 1 + 2147483648) 4294967296 eq_refl) as B.
  intros E.
  destruct (Z_le_gt_dec (- 2147483648) x) as [L|L];
    [destruct (Z_lt_le_dec x 2147483647) as [U|U]|]; try lia.
  - rewrite Z.mod_small in E; lia.
  - assert (x = 2147483647) by lia. subst x. vm_compute in E. discriminate.
Qed.

Lemma carried_out_counters os orders m :
  counters (pmd (snd (carried_out os orders m))) = counters (pmd m).
Proof.
  revert m. change (preserves counters (carried_out os orders)).
  unfold carried_out.
  apply preserves_bind;
    [apply preserves_carry_out_all; exact counters_set_pm|intros a].
  apply preserves_bind; [apply preserves_get_pmd|intros s].
  apply preserves_bind;
    [apply preserves_for_each_cmd; intros p; apply preserves_cull|intros l].
  apply preserves_bind; [apply preserves_modify_pmd; reflexivity|intros _].
  apply preserves_when, preserves_transmit_proc_info.
Qed.

(** The counters after an order, by the way the order goes. *)
Lemma order_counters os max_age orders m :
  counters (pmd (snd (procman_deputy_order_received os max_age orders m))) =
  let n := norders_slm (pmd m) in
  let f := norders_forme_slm (pmd m) in
  let st := nstale_orders_slm (pmd m) in
  if for_me orders m then
    if stale os max_age orders m then (CInt.incr n, CInt.incr f, CInt.incr st)
    else (CInt.incr n, CInt.incr f, st)
  else (CInt.incr n, f, st).
Proof.
  cbv zeta. destruct (for_me orders m) eqn:Hme.
  - destruct (stale os max_age orders m) eqn:Hst.
    + rewrite (order_stale os max_age orders m Hme Hst). cbv zeta.
      rewrite report_stale_eq. reflexivity.
    + rewrite (order_fresh os max_age orders m Hme Hst).
      rewrite carried_out_counters. reflexivity.
  - rewrite (order_for_other os max_age orders m Hme). reflexivity.
Qed.

(** Each handler but the reconciler and the introspection tick leaves the
    counters alone; the tick zeroes them. *)
Lemma dispatch_counters os max_age bits i m :
  counters (pmd (snd (dispatch os max_age bits i m))) =
  match i with
  | OrdersMsg orders =>
      counters (pmd (snd (procman_deputy_order_received os max_age orders m)))
  | Introspection => (0, 0, 0)
  | _ => counters (pmd m)
  end.
Proof.
  destruct i as [orders|signum| | |source condition]; cbn [dispatch].
  - reflexivity.
  - revert m. change (preserves counters (glib_handle_signal os signum)).
    unfold glib_handle_signal. destruct (signum =? SIGCHLD).
    + apply preserves_check_for_dead_children; exact counters_set_pm.
    + apply preserves_bind;
        [apply preserves_remove_all_cmds; [exact counters_set_pm|reflexivity]|intros _].
      apply preserves_bind; [apply preserves_emit|intros _]. intros m. reflexivity.
  - revert m. change (preserves counters (one_second_timeout os bits)).
    unfold one_second_timeout.
    apply preserves_bind;
      [apply preserves_update_cpu_times;
         [exact counters_set_pm | exact counters_set_sys_cpu]|intros _].
    apply preserves_transmit_proc_info.
  - reflexivity.
  - revert m.
    change (preserves counters (dispatch os max_age bits (PipeReady source condition))).
    cbn [dispatch]. apply preserves_bind; [apply preserves_get_pmd|intros s].
    destruct (find (watched_by source) (pm s)); [|apply preserves_ret].
    apply preserves_bind; [apply preserves_pipe_data_ready|intros keep].
    apply preserves_when, preserves_emit.
Qed.

Lemma run_after_quit os max_age bits inputs : forall m,
  quit m = true -> run os max_age bits m inputs = m.
Proof.
  induction inputs as [|i rest IH]; intros m Hq; [reflexivity|].
  cbn [run fold_left]. unfold step at 2. rewrite Hq. apply IH. exact Hq.
Qed.

Lemma run_counters os max_age bits inputs : forall m (k : Z),
  counters_ordered (pmd m) -> norders_slm (pmd m) <= k -> 0 <= k ->
  few_orders k inputs = true ->
  counters_ordered (pmd (run os max_age bits m inputs)).
Proof.
  induction inputs as [|i rest IH]; intros m k Hord Hn Hk Hfew.
  - exact Hord.
  - destruct (quit m) eqn:Hq; [rewrite run_after_quit by exact Hq; exact Hord|].
    cbn [run fold_left]. fold (run os max_age bits (step os max_age bits m i) rest).
    assert (Next : exists k',
               few_orders k' rest = true /\ 0 <= k'
               /\ counters_ordered (pmd (step os max_age bits m i))
               /\ norders_slm (pmd (step os max_age bits m i)) <= k').
    { unfold step. rewrite Hq.
      pose proof (dispatch_counters os max_age bits i m) as D.
      pose proof (order_counters os max_age) as O; cbv zeta in O.
      unfold counters_ordered, counters in *.
      destruct Hord as [[H1 H2] H3].
      destruct i as [orders| | | |]; cbn [few_orders] in Hfew;
        try (apply andb_true_iff in Hfew; destruct Hfew as [Hlt Hfew];
             apply Z.ltb_lt in Hlt);
        try rewrite O in D;
        try (destruct (for_me orders m); [destruct (stale os max_age orders m)|]);
        pose proof (f_equal (fun c => fst (fst c)) D) as D1;
        pose proof (f_equal (fun c => snd (fst c)) D) as D2;
        pose proof (f_equal snd D) as D3;
        cbn [fst snd] in D1, D2, D3; rewrite ?D1, ?D2, ?D3;
        rewrite ?incr_small by (unfold CInt.INT_MAX in *; lia).
      all: first [ exists (k + 1); split; [exact Hfew|]; lia
                 | exists 0; split; [exact Hfew|]; lia
                 | exists k; split; [exact Hfew|]; lia ]. }
    destruct Next as (k' & F & K & C & N). apply (IH _ k'); assumption.
Qed.

(** C6. Every order counts as seen; it counts as an order for this deputy
    exactly when its host is the name of the deputy, and an order for another
    host changes nothing but the count of orders seen; the count of stale
    orders moves only with the count of orders for this deputy.  So, as long
    as no interval between two introspection ticks brings more orders than
    an [int] counts, at any point of a run the stale orders are at most the
    orders for this deputy, which are at most the orders seen. *)
Theorem order_counters_stay_ordered os max_age bits :
  (forall orders m,
     let m' := snd (procman_deputy_order_received os max_age orders m) in
     norders_slm (pmd m') = CInt.incr (norders_slm (pmd m))
     /\ (norders_forme_slm (pmd m') = CInt.incr (norders_forme_slm (pmd m))
         <-> Orders.host orders = hostname (pmd m))
     /\ (Orders.host orders <> hostname (pmd m) ->
         m' = mk_machine
                (set_counters (pmd m) (CInt.incr (norders_slm (pmd m)))
                   (norders_forme_slm (pmd m)) (nstale_orders_slm (pmd m)))
                (os_calls m) (trace m) (quit m))
     /\ (nstale_orders_slm (pmd m') <> nstale_orders_slm (pmd m) ->
         nstale_orders_slm (pmd m') = CInt.incr (nstale_orders_slm (pmd m))
         /\ norders_forme_slm (pmd m') = CInt.incr (norders_forme_slm (pmd m))))
  /\ (forall name verbosity inputs,
        few_orders 0 inputs = true ->
        let s := pmd (run os max_age bits (boot name verbosity) inputs) in
        nstale_orders_slm s <= norders_forme_slm s
        /\ norders_forme_slm s <= norders_slm s).
Proof.
  split.
  - intros orders m m'.
    pose proof (order_counters os max_age orders m) as O. cbv zeta in O.
    fold m' in O. unfold counters in O.
    pose proof (f_equal (fun c => fst (fst c)) O) as O1.
    pose proof (f_equal (fun c => snd (fst c)) O) as O2.
    pose proof (f_equal snd O) as O3.
    cbn [fst snd] in O1, O2, O3. clear O.
    pose proof (incr_differs (norders_forme_slm (pmd m))) as Df.
    assert (Me : for_me orders m = true <-> Orders.host orders = hostname (pmd m))
      by apply String.eqb_eq.
    destruct (for_me orders m) eqn:Hme.
    + assert (E : Orders.host orders = hostname (pmd m)) by (apply Me; reflexivity).
      destruct (stale os max_age orders m); cbn [fst snd] in O1, O2, O3;
        repeat split; try tauto; try congruence.
    + assert (E : Orders.host orders <> hostname (pmd m))
        by (intros E; apply Me in E; discriminate).
      cbn [fst snd] in O1, O2, O3.
      split; [exact O1|]. split; [split; intros; [congruence|contradiction]|].
      split; [|intros; congruence].
      intros _. subst m'. rewrite (order_for_other os max_age orders m Hme). reflexivity.
  - intros name verbosity inputs Hfew s.
    assert (I : counters_ordered s).
    { apply (run_counters os max_age bits inputs (boot name verbosity) 0);
        [|cbn; lia|lia|exact Hfew].
      unfold counters_ordered. cbn. lia. }
    unfold counters_ordered in I. lia.
Qed.

(** ** IEEE 754 rounding *)

(** *** Digits *)

Lemma digits2_log2 p : Zpos (digits2_pos p) = Z.log2 (Zpos p) + 1.
Proof.
  assert (S : forall q, digits2_pos q = Pos.size q)
    by (induction q as [q IH|q IH|]; cbn; rewrite ?IH; reflexivity).
  destruct p as [p|p|]; cbn; rewrite ?S; lia.
Qed.

Lemma Zdigits2_log2 m : 0 < m -> Zdigits2 m = Z.log2 m + 1.
Proof. destruct m as [|p|p]; try lia. intros _. apply digits2_log2. Qed.

Lemma Zdigits2_nonneg m : 0 <= Zdigits2 m.
Proof. destruct m; cbn; lia. Qed.

Lemma Zdigits2_bounds m : 0 < m -> 2 ^ (Zdigits2 m - 1) <= m < 2 ^ Zdigits2 m.
Proof.
  intros H. rewrite (Zdigits2_log2 m H).
  replace (Z.log2 m + 1 - 1) with (Z.log2 m) by lia.
  exact (Z.log2_spec m H).
Qed.

Lemma Zdigits2_le m k : 0 <= m -> 0 <= k -> m <= 2 ^ k -> Zdigits2 m <= k + 1.
Proof.
  intros Hm Hk H. destruct (Z.eq_dec m 0) as [->|N]; [cbn; lia|].
  rewrite Zdigits2_log2 by lia.
  assert (Z.log2 m < k + 1); [|lia].
  apply Z.log2_lt_pow2; [lia|].
  rewrite Z.pow_add_r by lia. change (2 ^ 1) with 2. lia.
Qed.

Lemma Zdigits2_lt m k : 0 <= m -> 0 <= k -> m < 2 ^ k -> Zdigits2 m <= k.
Proof.
  intros Hm Hk H. destruct (Z.eq_dec m 0) as [->|N]; [cbn; lia|].
  rewrite Zdigits2_log2 by lia.
  assert (Z.log2 m < k); [|lia].
  apply Z.log2_lt_pow2; lia.
Qed.

Lemma Zdigits2_ge m k : 0 <= k -> 2 ^ k <= m -> k + 1 <= Zdigits2 m.
Proof.
  intros Hk H. assert (0 < m) by (pose proof (Z.pow_pos_nonneg 2 k); lia).
  rewrite Zdigits2_log2 by lia.
  assert (k <= Z.log2 m); [|lia]. apply Z.log2_le_pow2; lia.
Qed.

Lemma Zdigits2_mono a b : 0 <= a <= b -> Zdigits2 a <= Zdigits2 b.
Proof.
  intros H. destruct (Z.eq_dec a 0) as [->|N]; [apply Zdigits2_nonneg|].
  rewrite !Zdigits2_log2 by lia. pose proof (Z.log2_le_mono a b). lia.
Qed.

(** *** Shifts to the right *)

Lemma iter_pos_iter {A : Type} (f : A -> A) p : forall x, iter_pos f p x = Pos.iter f x p.
Proof.
  induction p as [p IH|p IH|]; intros x; cbn [iter_pos Pos.iter].
  - rewrite !IH, !Pos.iter_swap. reflexivity.
  - rewrite !IH. reflexivity.
  - reflexivity.
Qed.

Lemma shr_1_spec mrs :
  0 <= shr_m mrs ->
  shr_m (shr_1 mrs) = shr_m mrs / 2
  /\ shr_r (shr_1 mrs) = Z.odd (shr_m mrs)
  /\ shr_s (shr_1 mrs) = shr_r mrs || shr_s mrs.
Proof.
  destruct mrs as [m r s]. cbn [shr_m shr_r shr_s]. intros H.
  destruct m as [|[p|p|]|p]; try lia; cbn [shr_1 shr_m shr_r shr_s];
    (split; [|split; reflexivity]).
  - reflexivity.
  - apply (Z.div_unique _ _ _ 1); lia.
  - apply (Z.div_unique _ _ _ 0); lia.
  - reflexivity.
Qed.

Lemma shr_iter_m p : forall mrs,
  0 <= shr_m mrs -> shr_m (Pos.iter shr_1 mrs p) = shr_m mrs / 2 ^ Zpos p.
Proof.
  induction p as [|p IH] using Pos.peano_ind; intros mrs H.
  - cbn [Pos.iter]. change (2 ^ 1) with 2. apply shr_1_spec. exact H.
  - rewrite Pos.iter_succ.
    assert (0 <= shr_m (Pos.iter shr_1 mrs p))
      by (rewrite IH by exact H; apply Z.div_pos; [exact H | apply Z.pow_pos_nonneg; lia]).
    rewrite (proj1 (shr_1_spec _ H0)), IH by exact H.
    rewrite Pos2Z.inj_succ, Z.pow_succ_r by lia.
    rewrite Z.div_div by (try apply Z.pow_pos_nonneg; lia).
    f_equal. lia.
Qed.

Lemma mod_pow2_succ m j :
  0 <= j -> m mod 2 ^ (j + 1) = m mod 2 ^ j + 2 ^ j * ((m / 2 ^ j) mod 2).
Proof.
  intros H. rewrite Z.pow_add_r by lia. change (2 ^ 1) with 2.
  apply Z.rem_mul_r; [|lia]. pose proof (Z.pow_pos_nonneg 2 j). lia.
Qed.

Lemma odd_mod2 x : Z.odd x = negb (x mod 2 =? 0).
Proof.
  rewrite Zmod_odd. destruct (Z.odd x); reflexivity.
Qed.

Lemma shr_iter_flags p m :
  0 <= m ->
  let mrs := Pos.iter shr_1 (Build_shr_record m false false) p in
  shr_r mrs = Z.odd (m / 2 ^ (Zpos p - 1))
  /\ shr_s mrs = negb (m mod 2 ^ (Zpos p - 1) =? 0).
Proof.
  intros H. induction p as [|p IH] using Pos.peano_ind; cbv zeta.
  - cbn [Pos.iter]. destruct (shr_1_spec (Build_shr_record m false false) H) as (_ & R & S).
    rewrite R, S. cbn [shr_m shr_r shr_s]. change (1 - 1) with 0.
    rewrite Z.pow_0_r, Z.div_1_r, Z.mod_1_r. split; reflexivity.
  - rewrite Pos.iter_succ. cbv zeta in IH. destruct IH as [R S].
    set (mrs := Pos.iter shr_1 (Build_shr_record m false false) p) in *.
    assert (M : shr_m mrs = m / 2 ^ Zpos p) by (apply (shr_iter_m p (Build_shr_record m false false)); exact H).
    assert (P : 0 <= shr_m mrs)
      by (rewrite M; apply Z.div_pos; [exact H | apply Z.pow_pos_nonneg; lia]).
    destruct (shr_1_spec mrs P) as (_ & R' & S'). rewrite R', S', R, S, M.
    replace (Z.pos (Pos.succ p) - 1) with (Zpos p) by lia.
    split; [reflexivity|].
    set (j := Zpos p - 1). assert (0 <= j) by lia.
    replace (Zpos p) with (j + 1) by lia.
    rewrite mod_pow2_succ by lia. rewrite odd_mod2.
    pose proof (Z.pow_pos_nonneg 2 j ltac:(lia) ltac:(lia)).
    pose proof (Z.mod_pos_bound m (2 ^ j) ltac:(lia)).
    pose proof (Z.mod_pos_bound (m / 2 ^ j) 2 ltac:(lia)).
    destruct (Z.eqb_spec ((m / 2 ^ j) mod 2) 0) as [E|E];
      destruct (Z.eqb_spec (m mod 2 ^ j) 0) as [E'|E']; cbn [negb orb];
      symmetry; [apply negb_false_iff | apply negb_true_iff ..];
      [apply Z.eqb_eq | apply Z.eqb_neq ..]; nia.
Qed.

Lemma round_nearest_even_bounds m l : m <= round_nearest_even m l <= m + 1.
Proof.
  destruct l as [|[]]; cbn [round_nearest_even]; try lia.
  destruct (Z.even m); lia.
Qed.

(** *** Rounding to the nearest, ties to even *)

Lemma rounded_eq m p :
  0 <= m ->
  rounded m (Zpos p)
  = m / 2 ^ Zpos p
    + (if Z.odd (m / 2 ^ (Zpos p - 1))
          && (negb (m mod 2 ^ (Zpos p - 1) =? 0) || Z.odd (m / 2 ^ Zpos p))
       then 1 else 0).
Proof.
  intros H. unfold rounded. rewrite iter_pos_iter.
  destruct (shr_iter_flags p m H) as [R S]. cbv zeta in R, S.
  pose proof (shr_iter_m p (Build_shr_record m false false) H) as M. cbn [shr_m] in M.
  destruct (Pos.iter shr_1 (Build_shr_record m false false) p) as [q r s].
  cbn [shr_m shr_r shr_s] in *. subst q r s.
  destruct (Z.odd (m / 2 ^ (Zpos p - 1)));
    destruct (negb (m mod 2 ^ (Zpos p - 1) =? 0));
    cbn [loc_of_shr_record round_nearest_even andb orb]; try lia.
  rewrite <- Z.negb_odd. destruct (Z.odd (m / 2 ^ Zpos p)); cbn; lia.
Qed.

Lemma rounded_bounds m n :
  0 <= m -> m / 2 ^ Z.max 0 n <= rounded m n <= m / 2 ^ Z.max 0 n + 1.
Proof.
  intros H. destruct n as [|p|p].
  - cbn. rewrite Z.div_1_r. lia.
  - rewrite rounded_eq by exact H. replace (Z.max 0 (Zpos p)) with (Zpos p) by lia.
    destruct (_ && _); lia.
  - cbn. rewrite Z.div_1_r. lia.
Qed.

Lemma rounded_exact m n :
  0 <= m -> m mod 2 ^ Z.max 0 n = 0 -> rounded m n = m / 2 ^ Z.max 0 n.
Proof.
  intros H E. destruct n as [|p|p]; try (cbn; rewrite Z.div_1_r; reflexivity).
  rewrite rounded_eq by exact H. replace (Z.max 0 (Zpos p)) with (Zpos p) in * by lia.
  replace (Zpos p) with (Zpos p - 1 + 1) in E by lia.
  rewrite mod_pow2_succ in E by lia.
  set (j := Zpos p - 1) in *. assert (0 <= j) by lia.
  pose proof (Z.pow_pos_nonneg 2 j ltac:(lia) ltac:(lia)).
  pose proof (Z.mod_pos_bound m (2 ^ j) ltac:(lia)).
  pose proof (Z.mod_pos_bound (m / 2 ^ j) 2 ltac:(lia)).
  rewrite odd_mod2.
  destruct (Z.eqb_spec ((m / 2 ^ j) mod 2) 0) as [E1|E1]; cbn [negb andb]; [lia|nia].
Qed.

Lemma rounded_mono m m' n : 0 <= m <= m' -> rounded m n <= rounded m' n.
Proof.
  intros H. destruct n as [|p|p]; try (cbn; lia).
  rewrite !rounded_eq by lia.
  set (j := Zpos p - 1). assert (Hj : 0 <= j) by lia.
  replace (Zpos p) with (j + 1) by lia.
  pose proof (Z.pow_pos_nonneg 2 j ltac:(lia) ltac:(lia)) as Pj.
  assert (D : forall x, x / 2 ^ (j + 1) = x / 2 ^ j / 2).
  { intros x. rewrite Z.pow_add_r by lia. change (2 ^ 1) with 2.
    rewrite Z.div_div by lia. reflexivity. }
  rewrite !D.
  assert (Hh : m / 2 ^ j <= m' / 2 ^ j) by (apply Z.div_le_mono; lia).
  set (h := m / 2 ^ j) in *. set (h' := m' / 2 ^ j) in *.
  assert (Hq : h / 2 <= h' / 2) by (apply Z.div_le_mono; lia).
  pose proof (Z.div_mod m (2 ^ j) ltac:(lia)) as Em.
  pose proof (Z.div_mod m' (2 ^ j) ltac:(lia)) as Em'.
  pose proof (Z.mod_pos_bound m (2 ^ j) ltac:(lia)) as Bm.
  pose proof (Z.mod_pos_bound m' (2 ^ j) ltac:(lia)) as Bm'.
  fold h in Em. fold h' in Em'.
  pose proof (Z.div_mod h 2 ltac:(lia)) as Eh.
  pose proof (Z.div_mod h' 2 ltac:(lia)) as Eh'.
  pose proof (Z.mod_pos_bound h 2 ltac:(lia)) as Bh.
  pose proof (Z.mod_pos_bound h' 2 ltac:(lia)) as Bh'.
  destruct (Z.eq_dec (h / 2) (h' / 2)) as [Eq|Ne].
  - rewrite <- Eq. rewrite !odd_mod2.
    destruct (Z.eqb_spec (h mod 2) 0) as [E1|E1]; cbn [negb andb];
      [destruct (_ && _); lia|].
    assert (h' = h) by lia.
    destruct (Z.eqb_spec (h' mod 2) 0) as [E2|E2]; [rewrite H0 in E2; contradiction|].
    cbn [negb andb].
    destruct (Z.eqb_spec (m mod 2 ^ j) 0) as [E3|E3]; cbn [negb orb].
    + destruct (negb ((h / 2) mod 2 =? 0)); [rewrite orb_true_r; lia|].
      destruct (_ || _); lia.
    + destruct (Z.eqb_spec (m' mod 2 ^ j) 0) as [E4|E4]; [nia|]. cbn. lia.
  - destruct (_ && _); destruct (_ && _); lia.
Qed.

(** *** [binary_round_aux] *)

Section Rounding.

Variables prec emax : Z.
Hypothesis prec_pos : 0 < prec.
Hypothesis prec_lt_emax : prec < emax.

Lemma fexp_le x k :
  x <= k + 1 -> 3 - emax - prec <= k -> fexp prec emax x <= k.
Proof. unfold fexp, emin. lia. Qed.

Lemma fexp_le_emax x k :
  x <= k + 1 -> k < emax -> fexp prec emax x <= emax - prec.
Proof. unfold fexp, emin. lia. Qed.

Lemma shr_record_of_loc_m m l : shr_m (shr_record_of_loc m l) = m.
Proof. destruct l as [|[]]; reflexivity. Qed.

Lemma shr_spec mrs e n :
  0 <= shr_m mrs ->
  shr_m (fst (shr mrs e n)) = shr_m mrs / 2 ^ Z.max 0 n
  /\ snd (shr mrs e n) = e + Z.max 0 n.
Proof.
  intros H. destruct n as [|p|p]; cbn [shr fst snd].
  - cbn. rewrite Z.div_1_r. split; lia.
  - rewrite iter_pos_iter, shr_iter_m by exact H.
    replace (Z.max 0 (Zpos p)) with (Zpos p) by lia. split; reflexivity.
  - cbn. rewrite Z.div_1_r. split; lia.
Qed.

Lemma binary_round_aux_eq sx mx ex lx :
  binary_round_aux prec emax sx mx ex lx =
  let r1 := shr_fexp prec emax mx ex lx in
  let m2 := round_nearest_even (shr_m (fst r1)) (loc_of_shr_record (fst r1)) in
  let r2 := shr_fexp prec emax m2 (snd r1) loc_Exact in
  match shr_m (fst r2) with
  | Z0 => S754_zero sx
  | Zpos m =>
      if snd r2 <=? emax - prec then S754_finite sx m (snd r2) else S754_infinity sx
  | Zneg _ => S754_nan
  end.
Proof.
  unfold binary_round_aux. destruct (shr_fexp prec emax mx ex lx) as [mrs' e'].
  cbn [fst snd].
  destruct (shr_fexp prec emax _ e' loc_Exact) as [mrs'' e'']. reflexivity.
Qed.

(** One stage of [binary_round_aux]: the shift to the exponent of the
    format and the rounding, for a value that is at most [2 ^ k]. *)
Lemma round_stage mx ex lx k :
  0 <= mx -> ex <= k -> 3 - emax - prec <= k ->
  (mx < 2 ^ (k - ex) \/ (mx = 2 ^ (k - ex) /\ lx = loc_Exact)) ->
  let r1 := shr_fexp prec emax mx ex lx in
  let m2 := round_nearest_even (shr_m (fst r1)) (loc_of_shr_record (fst r1)) in
  ex <= snd r1 <= k
  /\ (snd r1 = ex \/ snd r1 = fexp prec emax (Zdigits2 mx + ex))
  /\ shr_m (fst r1) = mx / 2 ^ (snd r1 - ex)
  /\ 0 <= shr_m (fst r1) <= m2 /\ m2 <= 2 ^ (k - snd r1).
Proof.
  intros Hm He Hk Hb. cbv zeta. unfold shr_fexp.
  set (n := fexp prec emax (Zdigits2 mx + ex) - ex).
  assert (Hle : mx <= 2 ^ (k - ex)) by (destruct Hb as [?|[? _]]; lia).
  pose proof (Zdigits2_le mx (k - ex) Hm ltac:(lia) Hle) as Hd.
  pose proof (fexp_le (Zdigits2 mx + ex) k ltac:(lia) Hk) as Hf.
  pose proof (shr_spec (shr_record_of_loc mx lx) ex n) as S.
  rewrite shr_record_of_loc_m in S. destruct (S Hm) as [M E]. clear S.
  set (j := Z.max 0 n) in *.
  assert (Hj : 0 <= j) by lia.
  pose proof (Z.pow_pos_nonneg 2 j ltac:(lia) Hj) as Pj.
  rewrite E.
  assert (Hpow : 2 ^ (k - ex) = 2 ^ (k - (ex + j)) * 2 ^ j).
  { rewrite <- Z.pow_add_r by lia. f_equal. lia. }
  replace (ex + j - ex) with j by lia.
  split; [lia|]. split; [lia|]. split; [exact M|].
  assert (P1 : 0 <= mx / 2 ^ j) by (apply Z.div_pos; lia).
  pose proof (round_nearest_even_bounds (shr_m (fst (shr (shr_record_of_loc mx lx) ex n)))
                (loc_of_shr_record (fst (shr (shr_record_of_loc mx lx) ex n)))) as B.
  split; [lia|].
  destruct Hb as [Hlt|[Heq ->]].
  - assert (mx / 2 ^ j < 2 ^ (k - (ex + j))); [|lia].
    apply Z.div_lt_upper_bound; [lia|]. rewrite Z.mul_comm, <- Hpow. exact Hlt.
  - clear B M. cbn [shr_record_of_loc].
    assert (R : round_nearest_even
                  (shr_m (fst (shr (Build_shr_record mx false false) ex n)))
                  (loc_of_shr_record (fst (shr (Build_shr_record mx false false) ex n)))
                = rounded mx n).
    { unfold rounded, shr. destruct n; reflexivity. }
    rewrite R, rounded_exact; fold j.
    + rewrite Heq, Hpow, Z.div_mul by lia. lia.
    + exact Hm.
    + rewrite Heq, Hpow. apply Z.mod_mul. lia.
Qed.

(** [binary_round_aux] on a value that is at most [2 ^ k]: the result is
    a zero or a finite number that is at most [2 ^ k]. *)
Lemma round_aux_le mx ex lx k :
  0 <= mx -> ex <= k -> ex <= emax - prec -> k < emax -> 3 - emax - prec <= k ->
  (mx < 2 ^ (k - ex) \/ (mx = 2 ^ (k - ex) /\ lx = loc_Exact)) ->
  match binary_round_aux prec emax false mx ex lx with
  | S754_zero false => True
  | S754_finite false m e => ex <= e <= k /\ Zpos m <= 2 ^ (k - e)
  | _ => False
  end.
Proof.
  intros Hm He Hx Hk Hmin Hb. rewrite binary_round_aux_eq. cbv zeta.
  destruct (round_stage mx ex lx k Hm He Hmin Hb) as (E1 & F1 & _ & P1 & B1).
  cbv zeta in E1, F1, P1, B1.
  set (e1 := snd (shr_fexp prec emax mx ex lx)) in *.
  set (m2 := round_nearest_even _ _) in *.
  assert (Hle : mx <= 2 ^ (k - ex)) by (destruct Hb as [?|[? _]]; lia).
  pose proof (Zdigits2_le mx (k - ex) Hm ltac:(lia) Hle) as Hd.
  pose proof (fexp_le_emax (Zdigits2 mx + ex) k ltac:(lia) Hk) as Hf.
  assert (X1 : e1 <= emax - prec) by lia.
  assert (Hb2 : m2 < 2 ^ (k - e1) \/ (m2 = 2 ^ (k - e1) /\ loc_Exact = loc_Exact)).
  { destruct (Z.eq_dec m2 (2 ^ (k - e1))) as [Q|Q]; [right; split; [exact Q|reflexivity]|left; lia]. }
  destruct (round_stage m2 e1 loc_Exact k ltac:(lia) ltac:(lia) Hmin Hb2)
    as (E2 & F2 & _ & P2 & B2).
  cbv zeta in E2, F2, P2, B2.
  set (r2 := shr_fexp prec emax m2 e1 loc_Exact) in *.
  pose proof (Zdigits2_le m2 (k - e1) ltac:(lia) ltac:(lia) B1) as Hd2.
  pose proof (fexp_le_emax (Zdigits2 m2 + e1) k ltac:(lia) Hk) as Hf2.
  destruct (shr_m (fst r2)) as [|m|m] eqn:M; [exact I| |lia].
  destruct (Z.leb_spec (snd r2) (emax - prec)) as [_|Over]; [|lia].
  split; lia.
Qed.

End Rounding.

(** *** Alignment *)

Lemma iter_xO mx d : Zpos (Pos.iter xO mx d) = Zpos mx * 2 ^ Zpos d.
Proof.
  induction d as [|d IH] using Pos.peano_ind.
  - cbn [Pos.iter]. change (2 ^ 1) with 2. lia.
  - rewrite Pos.iter_succ, Pos2Z.inj_xO, IH, Pos2Z.inj_succ, Z.pow_succ_r by lia. lia.
Qed.

Lemma shl_align_spec mx ex ex' :
  let r := shl_align mx ex ex' in
  snd r = Z.min ex ex' /\ Zpos (fst r) = Zpos mx * 2 ^ (ex - snd r).
Proof.
  unfold shl_align. destruct (ex' - ex) as [|d|d] eqn:E; cbn [fst snd].
  - replace (Z.min ex ex') with ex by lia. rewrite Z.sub_diag. cbn. split; lia.
  - replace (Z.min ex ex') with ex by lia. rewrite Z.sub_diag. cbn. split; lia.
  - replace (Z.min ex ex') with ex' by lia. split; [reflexivity|].
    rewrite iter_xO. f_equal. f_equal. lia.
Qed.

Lemma Zdigits2_eq m k : 0 < k -> 2 ^ (k - 1) <= m < 2 ^ k -> Zdigits2 m = k.
Proof.
  intros Hk [L U].
  assert (0 < 2 ^ (k - 1)) by (apply Z.pow_pos_nonneg; lia).
  pose proof (Zdigits2_lt m k ltac:(lia) ltac:(lia) U).
  pose proof (Zdigits2_ge m (k - 1) ltac:(lia) L). lia.
Qed.

Lemma Zdigits2_shift m k : 0 < m -> 0 <= k -> Zdigits2 (m * 2 ^ k) = Zdigits2 m + k.
Proof.
  intros Hm Hk. destruct (Zdigits2_bounds m Hm) as [L U].
  assert (D : 0 < Zdigits2 m).
  { destruct m; try lia. cbn. lia. }
  assert (P : 0 < 2 ^ k) by (apply Z.pow_pos_nonneg; lia).
  apply Zdigits2_eq; [lia|].
  replace (Zdigits2 m + k - 1) with (Zdigits2 m - 1 + k) by lia.
  rewrite !Z.pow_add_r by lia. split; nia.
Qed.

Section Normal.

Variables prec emax : Z.
Hypothesis prec_pos : 0 < prec.
Hypothesis prec_lt_emax : prec < emax.

(** The shift of [shr_fexp] on an exact value, and the rounding after it. *)
Lemma shr_fexp_exact m e n :
  0 <= m -> fexp prec emax (Zdigits2 m + e) - e = n ->
  let r := shr_fexp prec emax m e loc_Exact in
  shr_m (fst r) = m / 2 ^ Z.max 0 n
  /\ snd r = e + Z.max 0 n
  /\ round_nearest_even (shr_m (fst r)) (loc_of_shr_record (fst r)) = rounded m n.
Proof.
  intros Hm F. cbv zeta. unfold shr_fexp. rewrite F.
  destruct (shr_spec (shr_record_of_loc m loc_Exact) e n) as [M E];
    [rewrite shr_record_of_loc_m; exact Hm|].
  rewrite shr_record_of_loc_m in M. split; [exact M|]. split; [exact E|].
  unfold rounded, shr. cbn [shr_record_of_loc]. destruct n; reflexivity.
Qed.

(** [binary_round_aux] on an exact value with at least [prec] digits, in
    the range of the normal numbers. *)
Lemma round_aux_normal mx ex :
  0 < mx ->
  let n := Zdigits2 mx - prec in
  0 <= n -> 3 - emax - prec <= ex + n -> ex + n + 1 <= emax - prec ->
  exists m e,
    binary_round_aux prec emax false mx ex loc_Exact = S754_finite false m e
    /\ ex + n <= e <= ex + n + 1
    /\ Zpos m * 2 ^ (e - ex - n) = rounded mx n
    /\ 2 ^ (prec - 1) <= Zpos m < 2 ^ prec.
Proof.
  intros Hm n Hn Hmin Hmax. rewrite binary_round_aux_eq. cbv zeta.
  assert (F1 : fexp prec emax (Zdigits2 mx + ex) - ex = n)
    by (unfold fexp, emin, n; lia).
  assert (Pn : 0 < 2 ^ n) by (apply Z.pow_pos_nonneg; lia).
  assert (Pp : 0 < 2 ^ (prec - 1)) by (apply Z.pow_pos_nonneg; lia).
  assert (P2 : 2 ^ prec = 2 * 2 ^ (prec - 1)).
  { rewrite <- Z.pow_succ_r by lia. f_equal. lia. }
  destruct (shr_fexp_exact mx ex n ltac:(lia) F1) as (_ & E1 & R1).
  cbv zeta in E1, R1. rewrite R1, E1. clear R1 E1.
  replace (Z.max 0 n) with n by lia.
  pose proof (rounded_bounds mx n ltac:(lia)) as B.
  replace (Z.max 0 n) with n in B by lia.
  destruct (Zdigits2_bounds mx Hm) as [L U].
  assert (Q : 2 ^ (prec - 1) <= mx / 2 ^ n < 2 ^ prec).
  { split.
    - apply Z.div_le_lower_bound; [lia|]. rewrite <- Z.pow_add_r by lia.
      replace (n + (prec - 1)) with (Zdigits2 mx - 1) by (unfold n; lia). exact L.
    - apply Z.div_lt_upper_bound; [lia|]. rewrite <- Z.pow_add_r by lia.
      replace (n + prec) with (Zdigits2 mx) by (unfold n; lia). exact U. }
  set (m2 := rounded mx n) in *.
  destruct (Z.eq_dec m2 (2 ^ prec)) as [Top|Top].
  - assert (D : Zdigits2 m2 = prec + 1).
    { apply Zdigits2_eq; [lia|]. replace (prec + 1 - 1) with prec by lia.
      assert (2 ^ (prec + 1) = 2 * 2 ^ prec)
        by (rewrite <- Z.pow_succ_r by lia; f_equal; lia).
      lia. }
    assert (F2 : fexp prec emax (Zdigits2 m2 + (ex + n)) - (ex + n) = 1)
      by (unfold fexp, emin; lia).
    destruct (shr_fexp_exact m2 (ex + n) 1 ltac:(lia) F2) as (M2 & E2 & _).
    cbv zeta in M2, E2. rewrite M2, E2.
    change (Z.max 0 1) with 1. change (2 ^ 1) with 2.
    rewrite Top, P2, Z.mul_comm, Z.div_mul by lia.
    destruct (2 ^ (prec - 1)) as [|h|h] eqn:H; try lia.
    destruct (Z.leb_spec (ex + n + 1) (emax - prec)) as [_|O]; [|lia].
    exists h, (ex + n + 1). split; [reflexivity|].
    split; [lia|]. split; [|lia].
    replace (ex + n + 1 - ex - n) with 1 by lia. change (2 ^ 1) with 2. lia.
  - assert (D : Zdigits2 m2 = prec) by (apply Zdigits2_eq; lia).
    assert (F2 : fexp prec emax (Zdigits2 m2 + (ex + n)) - (ex + n) = 0)
      by (unfold fexp, emin; lia).
    destruct (shr_fexp_exact m2 (ex + n) 0 ltac:(lia) F2) as (M2 & E2 & _).
    cbv zeta in M2, E2. rewrite M2, E2.
    change (Z.max 0 0) with 0. change (2 ^ 0) with 1. rewrite Z.div_1_r, Z.add_0_r.
    destruct m2 as [|h|h] eqn:H; try lia.
    destruct (Z.leb_spec (ex + n) (emax - prec)) as [_|O]; [|lia].
    exists h, (ex + n). split; [reflexivity|].
    split; [lia|]. split; [|lia].
    replace (ex + n - ex - n) with 0 by lia. cbn. lia.
Qed.

End Normal.

(** *** [(double)] of a [uint64_t] *)

Lemma double_of_uint64_spec a :
  0 < a < 2 ^ 64 ->
  exists m e,
    double_of_uint64 a = S754_finite false m e
    /\ 2 ^ 52 <= Zpos m < 2 ^ 53 /\ -52 <= e <= 12
    /\ Zpos m * 2 ^ (e + 52)
       = rounded a (Zdigits2 a - 53) * 2 ^ (Z.max 0 (Zdigits2 a - 53) + 52).
Proof.
  intros [Ha Hb]. destruct a as [|p|p]; try lia.
  unfold double_of_uint64, binary_normalize, binary_round.
  change (Zpos (digits2_pos p)) with (Zdigits2 (Zpos p)).
  set (a := Zpos p) in *. set (d := Zdigits2 a).
  assert (D : 1 <= d <= 64).
  { split.
    - unfold d, a. cbn. lia.
    - apply Zdigits2_lt; lia. }
  assert (F : fexp 53 1024 (d + 0) = d - 53) by (unfold fexp, emin; lia).
  rewrite F.
  pose proof (shl_align_spec p 0 (d - 53)) as S. cbv zeta in S.
  destruct (shl_align p 0 (d - 53)) as [mz ez]. cbn [fst snd] in S.
  destruct S as [Ez Mz]. fold a in Mz.
  assert (Dz : Zdigits2 (Zpos mz) = d + (0 - ez)).
  { rewrite Mz. apply Zdigits2_shift; lia. }
  destruct (round_aux_normal 53 1024 eq_refl (Zpos mz) ez eq_refl)
    as (m & e & R & E & V & B); try (rewrite Dz; lia).
  rewrite Dz in E, V.
  exists m, e. split; [exact R|]. split; [exact B|]. split; [lia|].
  destruct (Z.le_gt_cases 53 d) as [Big|Small].
  - assert (ez = 0) by lia. clear Ez. subst ez.
    assert (Mz' : Zpos mz = a) by (rewrite Mz; change (2 ^ (0 - 0)) with 1; lia).
    replace (d + (0 - 0) - 53) with (d - 53) in * by lia.
    rewrite Mz' in V. rewrite <- V.
    replace (Z.max 0 (d - 53)) with (d - 53) by lia.
    rewrite <- Z.mul_assoc, <- Z.pow_add_r by lia. f_equal. f_equal. lia.
  - assert (ez = d - 53) by lia. clear Ez. subst ez.
    replace (d + (0 - (d - 53)) - 53) with 0 in * by lia.
    replace (Z.max 0 (d - 53)) with 0 by lia.
    assert (RR : rounded a (d - 53) = a).
    { unfold rounded. destruct (d - 53) eqn:X; try reflexivity. lia. }
    rewrite RR. unfold rounded in V. rewrite Mz in V.
    assert (P : Zpos m * 2 ^ (e + 52) = Zpos m * 2 ^ (e - (d - 53) - 0) * 2 ^ (d - 1)).
    { rewrite <- Z.mul_assoc, <- Z.pow_add_r by lia. f_equal. f_equal. lia. }
    rewrite P, V, <- Z.mul_assoc, <- Z.pow_add_r by lia. f_equal. f_equal. lia.
Qed.

(** The conversion is monotone. *)
Lemma scaled_mono a b :
  0 < a <= b ->
  rounded a (Zdigits2 a - 53) * 2 ^ (Z.max 0 (Zdigits2 a - 53) + 52)
  <= rounded b (Zdigits2 b - 53) * 2 ^ (Z.max 0 (Zdigits2 b - 53) + 52).
Proof.
  intros [Ha Hab].
  pose proof (Zdigits2_mono a b ltac:(lia)) as Dm.
  destruct (Zdigits2_bounds a Ha) as [La Ua].
  destruct (Zdigits2_bounds b ltac:(lia)) as [Lb Ub].
  set (da := Zdigits2 a) in *. set (db := Zdigits2 b) in *.
  assert (Da : 1 <= da) by (unfold da; destruct a; try lia; cbn; lia).
  pose proof (rounded_bounds a (da - 53) ltac:(lia)) as Ra.
  pose proof (rounded_bounds b (db - 53) ltac:(lia)) as Rb.
  destruct (Z.eq_dec da db) as [E|E].
  - rewrite <- E in *. apply Z.mul_le_mono_nonneg_r.
    + apply Z.pow_nonneg. lia.
    + apply rounded_mono. lia.
  - assert (Lt : da < db) by lia.
    rewrite !Z.pow_add_r, !Z.mul_assoc by lia.
    apply Z.mul_le_mono_nonneg_r; [apply Z.pow_nonneg; lia|].
    destruct (Z.le_gt_cases db 53) as [Small|Big].
    + replace (Z.max 0 (da - 53)) with 0 in * by lia.
      replace (Z.max 0 (db - 53)) with 0 in * by lia.
      assert (Xa : rounded a (da - 53) = a).
      { unfold rounded. destruct (da - 53) eqn:X; try reflexivity; lia. }
      assert (Xb : rounded b (db - 53) = b).
      { unfold rounded. destruct (db - 53) eqn:X; try reflexivity; lia. }
      rewrite Xa, Xb. change (2 ^ 0) with 1. lia.
    + replace (Z.max 0 (db - 53)) with (db - 53) in * by lia.
      set (nb := db - 53) in *. set (na := Z.max 0 (da - 53)) in *.
      assert (Pa : 0 < 2 ^ na) by (apply Z.pow_pos_nonneg; lia).
      assert (Pb : 0 < 2 ^ nb) by (apply Z.pow_pos_nonneg; lia).
      assert (Top : rounded a (da - 53) * 2 ^ na <= 2 ^ (Z.max da 53)).
      { destruct (Z.le_gt_cases da 53) as [S|B].
        - replace na with 0 in * by lia. change (2 ^ 0) with 1 in *.
          rewrite Z.div_1_r in Ra. replace (Z.max da 53) with 53 by lia.
          assert (2 ^ da <= 2 ^ 53) by (apply Z.pow_le_mono_r; lia). lia.
        - replace (Z.max da 53) with (53 + na) by lia. rewrite Z.pow_add_r by lia.
          apply Z.mul_le_mono_nonneg_r; [lia|].
          assert (a / 2 ^ na < 2 ^ 53); [|lia].
          apply Z.div_lt_upper_bound; [lia|]. rewrite <- Z.pow_add_r by lia.
          replace (na + 53) with da by lia. exact Ua. }
      assert (Bot : 2 ^ (db - 1) <= rounded b (db - 53) * 2 ^ nb).
      { replace (db - 1) with (52 + nb) by lia. rewrite Z.pow_add_r by lia.
        apply Z.mul_le_mono_nonneg_r; [lia|].
        assert (2 ^ 52 <= b / 2 ^ nb); [|fold nb; lia].
        apply Z.div_le_lower_bound; [lia|]. rewrite <- Z.pow_add_r by lia.
        replace (nb + 52) with (db - 1) by lia. exact Lb. }
      assert (2 ^ (Z.max da 53) <= 2 ^ (db - 1)) by (apply Z.pow_le_mono_r; lia).
      fold nb in Bot. lia.
Qed.

(** *** The division and the [float] *)

Lemma new_location_zero n : new_location n 0 = loc_Exact.
Proof. unfold new_location, new_location_even, new_location_odd. destruct (Z.even n); reflexivity. Qed.

Lemma SFdiv_core_eq ma ea mb eb :
  2 ^ 52 <= Zpos ma < 2 ^ 53 -> 2 ^ 52 <= Zpos mb < 2 ^ 53 ->
  -52 <= ea <= 12 -> -52 <= eb <= 12 ->
  SFdiv_core_binary 53 1024 (Zpos ma) ea (Zpos mb) eb
  = (Zpos ma * 2 ^ 53 / Zpos mb, ea - eb - 53,
     new_location (Zpos mb) ((Zpos ma * 2 ^ 53) mod Zpos mb)).
Proof.
  intros Ha Hb Ea Eb. unfold SFdiv_core_binary.
  rewrite (Zdigits2_eq (Zpos ma) 53), (Zdigits2_eq (Zpos mb) 53) by (cbn; lia).
  assert (F : Z.min (fexp 53 1024 (53 + ea - (53 + eb))) (ea - eb) = ea - eb - 53)
    by (unfold fexp, emin; lia).
  rewrite F. replace (ea - eb - (ea - eb - 53)) with 53 by lia.
  cbv iota. rewrite Z.shiftl_mul_pow2 by lia.
  unfold Z.div, Z.modulo.
  destruct (Z.div_eucl (Zpos ma * 2 ^ 53) (Zpos mb)) as [q r]. reflexivity.
Qed.

Lemma SFdiv_le k ma ea mb eb :
  0 <= k < 1024 ->
  2 ^ 52 <= Zpos ma < 2 ^ 53 -> 2 ^ 52 <= Zpos mb < 2 ^ 53 ->
  -52 <= ea <= 12 -> -52 <= eb <= 12 ->
  Zpos ma * 2 ^ (ea + 52) <= Zpos mb * 2 ^ (eb + 52) * 2 ^ k ->
  at_most k (SFdiv 53 1024 (S754_finite false ma ea) (S754_finite false mb eb)).
Proof.
  intros Hk Ha Hb Ea Eb Le. unfold SFdiv. rewrite SFdiv_core_eq by assumption.
  cbn [xorb].
  assert (Ee : ea <= eb + k).
  { destruct (Z.le_gt_cases ea (eb + k)) as [L|G]; [exact L|exfalso].
    assert (P : 2 ^ (ea + 52) = 2 ^ (ea - eb - k - 1) * 2 * (2 ^ (eb + 52) * 2 ^ k)).
    { replace (ea + 52) with ((ea - eb - k - 1) + 1 + ((eb + 52) + k)) at 1 by lia.
      rewrite !Z.pow_add_r by lia. reflexivity. }
    assert (0 < 2 ^ (ea - eb - k - 1)) by (apply Z.pow_pos_nonneg; lia).
    assert (0 < 2 ^ (eb + 52) * 2 ^ k)
      by (apply Z.mul_pos_pos; apply Z.pow_pos_nonneg; lia).
    rewrite P in Le. rewrite <- Z.mul_assoc in Le. nia. }
  set (j := eb + k - ea) in *.
  assert (Pj : 0 < 2 ^ j) by (apply Z.pow_pos_nonneg; lia).
  assert (Le' : Zpos ma <= Zpos mb * 2 ^ j).
  { assert (P : 2 ^ (eb + 52) * 2 ^ k = 2 ^ j * 2 ^ (ea + 52)).
    { rewrite <- !Z.pow_add_r by lia. f_equal. lia. }
    assert (0 < 2 ^ (ea + 52)) by (apply Z.pow_pos_nonneg; lia).
    rewrite <- Z.mul_assoc, P in Le. nia. }
  set (q := Zpos ma * 2 ^ 53 / Zpos mb).
  set (r := (Zpos ma * 2 ^ 53) mod Zpos mb).
  assert (DE : Zpos ma * 2 ^ 53 = Zpos mb * q + r) by (apply Z.div_mod; lia).
  assert (Rr : 0 <= r < Zpos mb) by (apply Z.mod_pos_bound; lia).
  assert (Pw : 2 ^ (k - (ea - eb - 53)) = 2 ^ j * 2 ^ 53).
  { rewrite <- Z.pow_add_r by lia. f_equal. lia. }
  assert (Q0 : 0 <= q) by (apply Z.div_pos; lia).
  assert (Qle : q <= 2 ^ j * 2 ^ 53) by nia.
  assert (Hc : q < 2 ^ (k - (ea - eb - 53))
               \/ (q = 2 ^ (k - (ea - eb - 53))
                   /\ new_location (Zpos mb) r = loc_Exact)).
  { rewrite Pw. destruct (Z.eq_dec q (2 ^ j * 2 ^ 53)) as [T|T]; [right|left; lia].
    split; [exact T|]. assert (E0 : r = 0) by nia. rewrite E0.
    apply new_location_zero. }
  pose proof (round_aux_le 53 1024 eq_refl eq_refl q (ea - eb - 53)
                (new_location (Zpos mb) r) k Q0 ltac:(lia) ltac:(lia) ltac:(lia)
                ltac:(lia) Hc) as R.
  unfold at_most.
  destruct (binary_round_aux 53 1024 false q (ea - eb - 53) (new_location (Zpos mb) r))
    as [[|]|[|]| |[|] m e]; try exact R.
  split; [lia|apply R].
Qed.

Lemma float_of_double_le k x : 0 <= k < 128 -> at_most k x -> at_most k (float_of_double x).
Proof.
  intros Hk.
  destruct x as [[|]|[|]| |[|] m e]; cbn [at_most float_of_double]; try tauto.
  intros [He Hm]. unfold binary_round.
  pose proof (shl_align_spec m e (fexp 24 128 (Zpos (digits2_pos m) + e))) as S.
  cbv zeta in S.
  destruct (shl_align m e (fexp 24 128 (Zpos (digits2_pos m) + e))) as [mz ez].
  cbn [fst snd] in S. destruct S as [Ez Mz].
  assert (Le : ez <= e) by lia.
  assert (Pw : 2 ^ (k - ez) = 2 ^ (k - e) * 2 ^ (e - ez)).
  { rewrite <- Z.pow_add_r by lia. f_equal. lia. }
  assert (Pp : 0 < 2 ^ (e - ez)) by (apply Z.pow_pos_nonneg; lia).
  assert (Ex : ez <= 104).
  { change (Zpos (digits2_pos m)) with (Zdigits2 (Zpos m)) in Ez.
    pose proof (Zdigits2_le (Zpos m) (k - e) ltac:(lia) ltac:(lia) Hm) as D.
    unfold fexp, emin in Ez. lia. }
  assert (Hc : Zpos mz < 2 ^ (k - ez)
               \/ (Zpos mz = 2 ^ (k - ez) /\ loc_Exact = loc_Exact)).
  { destruct (Z.eq_dec (Zpos mz) (2 ^ (k - ez))) as [T|T];
      [right; split; [exact T|reflexivity]|left]. rewrite Pw in *. nia. }
  pose proof (round_aux_le 24 128 eq_refl eq_refl (Zpos mz) ez loc_Exact k
                ltac:(lia) ltac:(lia) ltac:(lia) ltac:(lia) ltac:(lia) Hc) as R.
  destruct (binary_round_aux 24 128 false (Zpos mz) ez loc_Exact)
    as [[|]|[|]| |[|] m' e']; try exact R.
  split; [lia|apply R].
Qed.

Lemma float_value_range x : at_most 0 x -> (0 <= float_value x <= 1)%Q.
Proof.
  destruct x as [[|]|[|]| |[|] m e]; cbn [at_most float_value]; try tauto.
  - intros _. split; discriminate.
  - intros [He Hm]. destruct e as [|p|p]; try lia.
    + change (2 ^ (0 - 0)) with 1 in Hm. assert (m = 1%positive) by lia. subst m.
      split; discriminate.
    + change (0 - Zneg p) with (Zpos p) in Hm.
      unfold Qle. cbn [Qnum Qden]. rewrite Pos2Z.inj_pow. split; lia.
Qed.

Lemma at_most_number k x : at_most k x -> is_number x.
Proof. destruct x as [[|]|[|]| |[|] m e]; cbn; tauto. Qed.

(** [float_value] is the number [m * 2 ^ e]. *)
Lemma float_value_number x : (float_value x == number_of x)%Q.
Proof.
  destruct x as [s|s| |s m e]; cbn [float_value number_of]; try reflexivity.
  set (n := if s then Zneg m else Zpos m).
  assert (N : ((if s then - (1) else 1) * inject_Z (Zpos m) == inject_Z n)%Q).
  { unfold n. destruct s.
    - unfold Qeq. cbn. lia.
    - unfold Qeq. cbn. lia. }
  rewrite N. destruct e as [|p|p].
  - cbn. rewrite Z.mul_1_r. unfold Qeq. cbn. lia.
  - rewrite inject_Z_mult. apply Qmult_comp; [reflexivity|].
    rewrite Zpower_Qpower by lia. reflexivity.
  - rewrite Qmake_Qdiv. unfold Qdiv. apply Qmult_comp; [reflexivity|].
    rewrite Pos2Z.inj_pow. rewrite Zpower_Qpower by lia.
    change (Zneg p) with (- Zpos p). rewrite Qpower_opp. reflexivity.
Qed.

Lemma ratio_stored used ellapsed :
  ratio used ellapsed = float_value (stored_quotient used ellapsed).
Proof. reflexivity. Qed.

Lemma double_of_uint64_zero : double_of_uint64 0 = S754_zero false.
Proof. reflexivity. Qed.

Lemma stored_quotient_le k a b :
  0 <= k < 128 -> 0 <= a < 2 ^ 64 -> 0 < b < 2 ^ 64 -> a <= b * 2 ^ k ->
  (k = 0 \/ k = 64) ->
  at_most k (stored_quotient a b).
Proof.
  intros Hk Ha Hb Le K.
  change (stored_quotient a b)
    with (float_of_double (SFdiv 53 1024 (double_of_uint64 a) (double_of_uint64 b))).
  apply float_of_double_le; [exact Hk|].
  destruct (double_of_uint64_spec b Hb) as (mb & eb & Eb & Bb & Xb & Vb).
  rewrite Eb.
  destruct (Z.eq_dec a 0) as [->|Nz].
  - rewrite double_of_uint64_zero. exact I.
  - destruct (double_of_uint64_spec a ltac:(lia)) as (ma & ea & Ea & Ba & Xa & Va).
    rewrite Ea. apply SFdiv_le; try assumption; [lia|].
    rewrite Va, Vb. destruct K as [->| ->].
    + change (2 ^ 0) with 1 in *. rewrite Z.mul_1_r. apply scaled_mono. lia.
    + pose proof (scaled_mono a (2 ^ 64 - 1) ltac:(lia)) as Top.
      pose proof (scaled_mono 1 b ltac:(lia)) as Bot.
      assert (T : rounded (2 ^ 64 - 1) (Zdigits2 (2 ^ 64 - 1) - 53)
                  * 2 ^ (Z.max 0 (Zdigits2 (2 ^ 64 - 1) - 53) + 52) = 2 ^ 116)
        by (vm_compute; reflexivity).
      assert (B : rounded 1 (Zdigits2 1 - 53) * 2 ^ (Z.max 0 (Zdigits2 1 - 53) + 52)
                  = 2 ^ 52) by (vm_compute; reflexivity).
      rewrite T in Top. rewrite B in Bot.
      change (2 ^ 116) with (2 ^ 52 * 2 ^ 64) in Top.
      assert (0 < 2 ^ 64) by lia. nia.
Qed.

(** The quotient of two [uint64_t] that the code stores in a [float] is a
    number, and it lies between 0 and 1 when the dividend is at most the
    divisor. *)
Lemma ratio_range a b : 0 <= a <= b -> 0 < b < 2 ^ 64 -> (0 <= ratio a b <= 1)%Q.
Proof.
  intros Ha Hb. rewrite ratio_stored. apply float_value_range.
  apply stored_quotient_le; lia.
Qed.

Lemma stored_quotient_number a b :
  0 <= a < 2 ^ 64 -> 0 < b < 2 ^ 64 -> is_number (stored_quotient a b).
Proof.
  intros Ha Hb. apply (at_most_number 64). apply stored_quotient_le; lia.
Qed.

(** ** The sampler *)

Lemma jiffies_range bits x : 0 <= jiffies bits x < 2 ^ 64.
Proof. unfold jiffies, CInt.uint64. apply Z.mod_pos_bound. lia. Qed.

Lemma sample_cmd_sampled os bits ellapsed p m :
  0 <= ellapsed < 2 ^ 64 ->
  exists p', fst (sample_cmd os bits ellapsed p m) = Some p'
             /\ sampled os bits ellapsed p p'.
Proof.
  intros Range. unfold sample_cmd, bind, ret, ask.
  destruct (Z.eqb_spec (pid p) 0) as [Hp|Hp]; cbn [negb].
  - eexists. split; [reflexivity|]. unfold sampled. cbn.
    split; [reflexivity|]. split; [reflexivity|]. contradiction.
  - destruct (OS.read_proc_cpu_mem os (os_calls m)) as [status fill] eqn:E.
    destruct (Z.eqb_spec status 0) as [Hs|Hs]; cbn [negb].
    + destruct (Z.eqb_spec ellapsed 0) as [He|He];
        [|destruct (Z.eqb_spec (Proc.user (cpu_time0 (user p))) 0) as [Hu|Hu];
          [|destruct (Z.eqb_spec (Proc.system (cpu_time0 (user p))) 0) as [Hy|Hy]]];
        cbn [orb].
      all: eexists; (split; [reflexivity|]); unfold sampled;
           cbn [fst snd user set_user set_cpu cpu_time0 cpu_time1 cpu_usage];
           (split; [reflexivity|]); (split; [contradiction|]); intros _;
           exists (os_calls m); rewrite E; cbn [fst snd];
           split; [contradiction|]; intros _.
      * split; [reflexivity|]. contradiction.
      * split; [reflexivity|]. contradiction.
      * split; [reflexivity|]. contradiction.
      * split; [intuition lia|]. intros _ _ _. split.
        -- apply stored_quotient_number; [apply jiffies_range|lia].
        -- rewrite ratio_stored. apply float_value_number.
    + eexists. split; [reflexivity|]. unfold sampled. cbn.
      split; [reflexivity|]. split; [contradiction|]. intros _.
      exists (os_calls m). rewrite E. cbn. split; [reflexivity|]. contradiction.
Qed.

Lemma for_each_sampled os bits ellapsed cmds :
  0 <= ellapsed < 2 ^ 64 ->
  forall m,
  Forall2 (sampled os bits ellapsed) cmds
    (fst (for_each_cmd (sample_cmd os bits ellapsed) cmds m)).
Proof.
  intros Range.
  induction cmds as [|p rest IH]; intros m; cbn [for_each_cmd].
  - constructor.
  - unfold bind at 1.
    destruct (sample_cmd_sampled os bits ellapsed p m Range) as (p' & E & S).
    destruct (sample_cmd os bits ellapsed p m) as [r m1]. cbn in E. subst r.
    unfold bind, ret. specialize (IH m1).
    destruct (for_each_cmd (sample_cmd os bits ellapsed) rest m1) as [rest' m2].
    cbn in *. constructor; assumption.
Qed.

Lemma update_cpu_times_eq os bits m :
  let a := snd (OS.read_sys_cpu_mem os (os_calls m)) (sys_cpu_time1 (pmd m)) in
  let b := sys_cpu_time0 (pmd m) in
  let ellapsed := ellapsed_of bits a b in
  let load := if ellapsed =? 0 then 0%Q else ratio (loaded_of bits a b) ellapsed in
  let m1 := mk_machine (set_sys_cpu (pmd m) b a load) (S (os_calls m)) (trace m) (quit m) in
  let m' := snd (update_cpu_times os bits m) in
  cpu_load (pmd m') = load
  /\ sys_cpu_time0 (pmd m') = a /\ sys_cpu_time1 (pmd m') = a
  /\ pm (pmd m') = fst (for_each_cmd (sample_cmd os bits ellapsed) (pm (pmd m)) m1).
Proof.
  intros a b ellapsed load m1 m'.
  assert (R : exists m2,
             pmd m2 = pmd m1
             /\ m' = mk_machine
                       (set_sys_cpu
                          (set_pm (pmd m2)
                             (fst (for_each_cmd (sample_cmd os bits ellapsed)
                                     (pm (pmd m)) m1)))
                          (sys_cpu_time1 (pmd m2)) (sys_cpu_time1 (pmd m2))
                          (cpu_load (pmd m2)))
                       (os_calls m2) (trace m2) (quit m2)).
  { subst m'. unfold update_cpu_times. unfold bind at 1, ask at 1.
    subst a. destruct (OS.read_sys_cpu_mem os (os_calls m)) as [status fill].
    cbn [snd] in *. unfold bind at 1, get_pmd at 1. cbn [pmd].
    unfold bind at 1, modify_pmd at 1. cbn [pmd os_calls trace quit].
    fold b. fold ellapsed. fold load. fold m1.
    unfold bind at 1.
    pose proof (preserves_for_each_cmd (fun s => s)
                  (sample_cmd os bits ellapsed) (pm (pmd m))
                  (fun p => preserves_sample_cmd (fun s => s) os bits ellapsed p) m1) as P.
    destruct (for_each_cmd (sample_cmd os bits ellapsed) (pm (pmd m)) m1) as [cmds m2].
    cbn [fst snd] in *. exists m2. split; [exact P|]. reflexivity. }
  destruct R as (m2 & P & R). rewrite R. cbn. rewrite P. cbn. auto.
Qed.

Lemma jiffies_small bits x : 0 <= x < Z.min (2 ^ bits) (2 ^ 64) -> jiffies bits x = x.
Proof.
  intros H. unfold jiffies, CInt.uint64.
  rewrite (Z.mod_small x (2 ^ bits)) by lia. apply Z.mod_small. lia.
Qed.

(** C9. One tick of the sampler: the load is 0 when the system counters
    did not move; otherwise it is loaded/elapsed as floating point computes
    it (both counts converted to [double], divided there, the quotient
    converted to [float], each step to the nearest number and to the even one
    on a tie), which is a number and lies between 0 and 1 for two valid
    samples; the usage of a running child whose counters could be read is 0
    when the system counters did not move or the previous user or system
    count of the child is 0, and used/elapsed, computed the same way,
    otherwise; it is 0 for a child that does not run or whose counters could
    not be read. *)
Theorem sampler_ratios os bits m :
  let a := snd (OS.read_sys_cpu_mem os (os_calls m)) (sys_cpu_time1 (pmd m)) in
  let b := sys_cpu_time0 (pmd m) in
  let ellapsed := ellapsed_of bits a b in
  let loaded := loaded_of bits a b in
  let m' := snd (update_cpu_times os bits m) in
  (ellapsed = 0 -> cpu_load (pmd m') = 0%Q)
  /\ (ellapsed <> 0 ->
      is_number (stored_quotient loaded ellapsed)
      /\ (cpu_load (pmd m') == number_of (stored_quotient loaded ellapsed))%Q)
  /\ (valid_samples bits a b -> (0 <= cpu_load (pmd m') <= 1)%Q)
  /\ Forall2 (sampled os bits ellapsed) (pm (pmd m)) (pm (pmd m')).
Proof.
  intros a b ellapsed loaded m'.
  destruct (update_cpu_times_eq os bits m) as (L & _ & _ & P).
  fold a b ellapsed loaded m' in L, P.
  assert (Re : 0 <= ellapsed < 2 ^ 64) by apply jiffies_range.
  assert (Rl : 0 <= loaded < 2 ^ 64) by apply jiffies_range.
  split; [|split; [|split]].
  - intros E. rewrite L, E. reflexivity.
  - intros E. rewrite L. destruct (Z.eqb_spec ellapsed 0); [contradiction|].
    split.
    + apply stored_quotient_number; lia.
    + rewrite ratio_stored. apply float_value_number.
  - intros (V1 & V2 & V3 & V4 & V5). rewrite L.
    destruct (Z.eqb_spec ellapsed 0) as [E|E].
    + split; discriminate.
    + assert (B : 0 < Z.min (2 ^ bits) (2 ^ 64)) by lia.
      apply ratio_range; [|lia].
      unfold loaded, ellapsed, ellapsed_of, loaded_of.
      rewrite !jiffies_small by lia. lia.
  - rewrite P. apply for_each_sampled. exact Re.
Qed.

(** ** Orphans *)

Lemma orphaned_spec orders p :
  orphaned orders p = true
  <-> ~ In (sheriff_id (user p)) (map SheriffCmd.sheriff_id (Orders.cmds orders)).
Proof.
  unfold orphaned, procmd_orders_find_cmd.
  destruct (find _ (Orders.cmds orders)) as [c|] eqn:E.
  - apply find_some in E. destruct E as [Hin Heq]. apply Z.eqb_eq in Heq.
    split; [discriminate|]. intros H. exfalso. apply H. rewrite Heq.
    apply in_map. exact Hin.
  - split; [|reflexivity]. intros _ Hin. apply in_map_iff in Hin.
    destruct Hin as (c & Hc & Hin).
    pose proof (find_none _ _ E c Hin) as N. cbn in N.
    rewrite Hc, Z.eqb_refl in N. discriminate.
Qed.

Lemma orphaned_by_sid orders p q :
  sheriff_id (user p) = sheriff_id (user q) -> orphaned orders p = orphaned orders q.
Proof. unfold orphaned. intros H. rewrite H. reflexivity. Qed.

Lemma named_not_orphaned orders cmd q :
  In cmd (Orders.cmds orders) ->
  sheriff_id (user q) = SheriffCmd.sheriff_id cmd -> orphaned orders q = false.
Proof.
  intros Hin Hs. destruct (orphaned orders q) eqn:E; [|reflexivity].
  apply orphaned_spec in E. exfalso. apply E. rewrite Hs. apply in_map. exact Hin.
Qed.

(** [carry_out] leaves the handles of other sheriff_ids as they are and
    where they are. *)
Lemma carry_out_keeps (keep : procman_cmd_t -> bool) os cmd a m :
  (forall q, sheriff_id (user q) = SheriffCmd.sheriff_id cmd -> keep q = false) ->
  filter keep (pm (pmd (snd (carry_out os cmd a m)))) = filter keep (pm (pmd m)).
Proof.
  intros Hk.
  destruct (carry_out_result os cmd a m) as (R1 & _ & _ & _ & R5).
  apply find_local_cmd_sid in R1. rewrite R5.
  rewrite (filter_store keep _ _ _ R1 Hk).
  unfold staged. rewrite locate_eq.
  destruct (find_local_cmd (pmd m) (SheriffCmd.sheriff_id cmd)); [reflexivity|].
  cbn. rewrite filter_app. cbn. rewrite Hk by reflexivity. apply app_nil_r.
Qed.

Lemma carry_out_all_keeps (keep : procman_cmd_t -> bool) os cmds : forall a m,
  (forall cmd q, In cmd cmds ->
                 sheriff_id (user q) = SheriffCmd.sheriff_id cmd -> keep q = false) ->
  filter keep (pm (pmd (snd (carry_out_all os cmds a m)))) = filter keep (pm (pmd m)).
Proof.
  induction cmds as [|c rest IH]; intros a m Hk; [reflexivity|].
  cbn [carry_out_all]. unfold bind.
  pose proof (carry_out_keeps keep os c a m (fun q => Hk c q (or_introl eq_refl))) as K.
  destruct (carry_out os c a m) as [a1 m1]. cbn in K.
  rewrite IH; [exact K|]. intros cmd q Hin. apply Hk. right. exact Hin.
Qed.

Lemma stopped_orphan_facts os p p' :
  stopped_orphan os p p' ->
  sheriff_id (user p') = sheriff_id (user p)
  /\ pid p' = pid p /\ remove_requested (user p') = true
  /\ actual_runid (user p') = actual_runid (user p).
Proof.
  intros (mid & E).
  destruct (stop_cmd_frame os (marked p) mid) as (_ & _ & _ & (n & t & F)).
  rewrite <- E in F. rewrite F. unfold marked. cbn. repeat split.
Qed.

Lemma cull_orphan_stopped os orders p m :
  orphaned orders p = true -> pid p <> 0 ->
  cull os orders p m
  = (Some (snd (fst (stop_cmd os (marked p) m))), snd (stop_cmd os (marked p) m)).
Proof.
  intros Ho Hp. unfold cull. rewrite Ho.
  destruct (Z.eqb_spec (pid p) 0) as [|_]; [contradiction|]. cbn [negb].
  fold (marked p). unfold bind, ret.
  destruct (stop_cmd os (marked p) m) as [[st p1] m1]. reflexivity.
Qed.

Lemma cull_orphan_removed os orders p m :
  orphaned orders p = true -> pid p = 0 -> cull os orders p m = (None, m).
Proof.
  intros Ho Hp. unfold cull, procman_remove_cmd. rewrite Ho, Hp. reflexivity.
Qed.

Lemma cull_named os orders p m :
  orphaned orders p = false -> cull os orders p m = (Some p, m).
Proof. intros Ho. unfold cull. rewrite Ho. reflexivity. Qed.

Lemma cull_pass os orders cmds : forall m l' m',
  for_each_cmd (cull os orders) cmds m = (l', m') ->
  Forall2 (stopped_orphan os) (filter (running_orphan orders) cmds)
    (filter (orphaned orders) l')
  /\ filter (named orders) l' = filter (named orders) cmds.
Proof.
  induction cmds as [|p rest IH]; intros m l' m' E; cbn [for_each_cmd] in E.
  - injection E as <- _. cbn. split; [constructor | reflexivity].
  - unfold bind, ret in E. cbn [filter].
    assert (Np : named orders p = negb (orphaned orders p)) by reflexivity.
    assert (Rp : running_orphan orders p
                 = orphaned orders p && negb (pid p =? 0)) by reflexivity.
    rewrite Np, Rp. clear Np Rp.
    destruct (orphaned orders p) eqn:Ho; cbn [andb negb].
    + destruct (Z.eqb_spec (pid p) 0) as [Hp|Hp]; cbn [negb].
      * rewrite (cull_orphan_removed os orders p m Ho Hp) in E.
        destruct (for_each_cmd (cull os orders) rest m) as [rest' m2] eqn:R.
        injection E as <- _. exact (IH _ _ _ R).
      * rewrite (cull_orphan_stopped os orders p m Ho Hp) in E.
        destruct (for_each_cmd (cull os orders) rest
                    (snd (stop_cmd os (marked p) m))) as [rest' m2] eqn:R.
        injection E as <- _. destruct (IH _ _ _ R) as [IH1 IH2].
        assert (S : stopped_orphan os p (snd (fst (stop_cmd os (marked p) m))))
          by (exists m; reflexivity).
        destruct (stopped_orphan_facts os p _ S) as (Hs & _).
        cbn [filter].
        assert (Nq : named orders (snd (fst (stop_cmd os (marked p) m))) = false)
          by (unfold named; rewrite (orphaned_by_sid orders _ p Hs), Ho; reflexivity).
        rewrite Nq, (orphaned_by_sid orders _ p Hs), Ho.
        split; [constructor; assumption | exact IH2].
    + rewrite (cull_named os orders p m Ho) in E.
      destruct (for_each_cmd (cull os orders) rest m) as [rest' m2] eqn:R.
      injection E as <- _. destruct (IH _ _ _ R) as [IH1 IH2].
      cbn [filter].
      assert (Nq : named orders p = true) by (unfold named; rewrite Ho; reflexivity).
      rewrite Nq, Ho. split; [exact IH1 | f_equal; exact IH2].
Qed.

(** The command list after an order that is carried out. *)
Lemma carried_out_list os orders m :
  pm (pmd (snd (carried_out os orders m)))
  = fst (for_each_cmd (cull os orders)
           (pm (pmd (snd (carry_out_all os (Orders.cmds orders) false m))))
           (snd (carry_out_all os (Orders.cmds orders) false m))).
Proof.
  unfold carried_out. unfold bind at 1.
  destruct (carry_out_all os (Orders.cmds orders) false m) as [a m1]. cbn [fst snd].
  unfold bind at 1, get_pmd at 1. unfold bind at 1.
  destruct (for_each_cmd (cull os orders) (pm (pmd m1)) m1) as [l m2]. cbn [fst snd].
  unfold bind at 1, modify_pmd at 1.
  pose proof (preserves_transmit_proc_info pm os) as T.
  match goal with |- pm (pmd (snd (when ?b ?c ?mm))) = _ =>
    pose proof (preserves_when pm b c T mm) as W; rewrite W end.
  reflexivity.
Qed.

Lemma transmit_proc_info_eq os m :
  transmit_proc_info os m =
  (tt, emitted (asked m)
         [PMD_INFO
            (Info.mk (clock os (os_calls m)) (hostname (pmd m)) (cpu_load (pmd m))
               (Sys.memtotal (sys_cpu_time1 (pmd m))) (Sys.memfree (sys_cpu_time1 (pmd m)))
               (Sys.swaptotal (sys_cpu_time1 (pmd m))) (Sys.swapfree (sys_cpu_time1 (pmd m)))
               (map deputy_cmd_of (pm (pmd m))))]).
Proof.
  unfold transmit_proc_info. rewrite !bind_eq. unfold get_pmd.
  rewrite timestamp_now_eq. reflexivity.
Qed.




(** ** A rename within a whole order *)

Lemma find_filter_sub {A : Type} (f g : A -> bool) l :
  (forall x, f x = true -> g x = true) -> find f (filter g l) = find f l.
Proof.
  intros H. induction l as [|x l IH]; [reflexivity|]. cbn.
  destruct (g x) eqn:G; cbn; destruct (f x) eqn:F; auto.
  rewrite (H x F) in G. discriminate.
Qed.

Lemma find_by_filter {A : Type} (f : A -> bool) l l' :
  filter f l = filter f l' -> find f l = find f l'.
Proof.
  intros H.
  rewrite <- (find_filter_sub f f l), <- (find_filter_sub f f l') by auto.
  rewrite H. reflexivity.
Qed.

(** A record for another sheriff_id does not touch the handle of [sid]. *)
Lemma carry_out_other os cmd a m sid :
  SheriffCmd.sheriff_id cmd <> sid ->
  find_local_cmd (pmd (snd (carry_out os cmd a m))) sid = find_local_cmd (pmd m) sid.
Proof.
  intros H. unfold find_local_cmd. apply find_by_filter.
  apply (carry_out_keeps (fun q => sheriff_id (user q) =? sid)).
  intros q Hq. apply Z.eqb_neq. congruence.
Qed.

Lemma renamed_again os cmd p : renamed os cmd (renamed os cmd p) = renamed os cmd p.
Proof.
  destruct (sync_identity_result os cmd p false) as (N1 & N2 & N3).
  fold (renamed os cmd p) in N1, N2, N3.
  unfold renamed at 1. unfold sync_identity.
  rewrite N1, String.eqb_refl. cbn [negb]. rewrite N2, String.eqb_refl. cbn [negb].
  rewrite N3, String.eqb_refl. reflexivity.
Qed.

(** The loop of the reconciler over records of which those for the
    sheriff_id of [rec] are all [rec], a record its running handle [p0]
    already has the run id of. *)
Lemma carry_out_all_steady os rec p0 cmds : forall a m,
  (forall r, In r cmds ->
             SheriffCmd.sheriff_id r = SheriffCmd.sheriff_id rec -> r = rec) ->
  pid p0 <> 0 ->
  SheriffCmd.desired_runid rec = actual_runid (user p0) ->
  SheriffCmd.force_quit rec = false ->
  let after := snd (carry_out_all os cmds a m) in
  let handle m := find_local_cmd (pmd m) (SheriffCmd.sheriff_id rec) in
  (handle m = Some (renamed os rec p0) -> handle after = Some (renamed os rec p0))
  /\ (handle m = Some p0 -> In rec cmds -> handle after = Some (renamed os rec p0))
  /\ (handle m = Some p0 -> ~ In rec cmds -> handle after = Some p0).
Proof.
  induction cmds as [|c rest IH]; intros a m Once Hp Hw Hq after handle.
  - subst after. cbn. repeat split; try tauto.
  - subst after. cbn [carry_out_all]. unfold bind.
    destruct (carry_out os c a m) as [a1 m1] eqn:C.
    assert (Once' : forall r, In r rest ->
                      SheriffCmd.sheriff_id r = SheriffCmd.sheriff_id rec -> r = rec)
      by (intros r Hr; apply Once; right; exact Hr).
    destruct (IH a1 m1 Once' Hp Hw Hq) as (I1 & I2 & I3). fold handle in I1, I2, I3.
    destruct (renamed_facts os rec p0) as (_ & _ & F3 & _ & F5 & _).
    assert (Hp' : pid (renamed os rec p0) <> 0) by (rewrite F3; exact Hp).
    assert (Hw' : SheriffCmd.desired_runid rec = actual_runid (user (renamed os rec p0)))
      by (rewrite F5; exact Hw).
    destruct (Z.eq_dec (SheriffCmd.sheriff_id c) (SheriffCmd.sheriff_id rec)) as [E|E].
    + assert (c = rec) by (apply Once; [left; reflexivity | exact E]). subst c.
      assert (Step1 : handle m = Some p0 -> handle m1 = Some (renamed os rec p0)).
      { intros H. pose proof (carry_out_steady os rec a m p0 H Hp Hw Hq) as (S & _).
        rewrite C in S. exact S. }
      assert (Step2 : handle m = Some (renamed os rec p0) ->
                      handle m1 = Some (renamed os rec p0)).
      { intros H.
        pose proof (carry_out_steady os rec a m _ H Hp' Hw' Hq) as (S & _).
        rewrite C, renamed_again in S. exact S. }
      repeat split; intros; auto. exfalso. cbn in *. tauto.
    + assert (Same : handle m1 = handle m).
      { pose proof (carry_out_other os c a m _ E) as O. rewrite C in O. exact O. }
      rewrite <- Same. repeat split; intros; auto.
      * destruct H0 as [H0|H0]; [congruence|auto].
      * apply I3; [assumption|]. cbn in *. tauto.
Qed.

(** C8. A command record that finds its handle running, with another name
    but with the run id the record asks for and no force_quit: carrying out
    the record stores the new name and its argv and does nothing to the
    outside world, no signal and no spawn; and when the order holds no other
    record for that sheriff_id, the handle after the whole order has the new
    name, the pid, run id and watch it had, and was sent no signal. *)
Theorem rename_does_not_restart os max_age rec p0 m
  (found : find_local_cmd (pmd m) (SheriffCmd.sheriff_id rec) = Some p0)
  (runs : pid p0 <> 0)
  (new_name : cmd_str p0 <> SheriffCmd.name rec)
  (same_runid : SheriffCmd.desired_runid rec = actual_runid (user p0))
  (no_quit : SheriffCmd.force_quit rec = false) :
  let p' := renamed os rec p0 in
  (cmd_str p' = SheriffCmd.name rec
   /\ argv p' = OS.split_str os (SheriffCmd.name rec)
   /\ pid p' = pid p0
   /\ actual_runid (user p') = actual_runid (user p0)
   /\ num_kills_sent (user p') = num_kills_sent (user p0)
   /\ last_kill_time (user p') = last_kill_time (user p0)
   /\ stdout_ioc (user p') = stdout_ioc (user p0))
  /\ (forall a,
        let m' := snd (carry_out os rec a m) in
        find_local_cmd (pmd m') (SheriffCmd.sheriff_id rec) = Some p'
        /\ trace m' = trace m /\ os_calls m' = os_calls m)
  /\ (forall orders,
        Orders.host orders = hostname (pmd m) ->
        stale os max_age orders m = false ->
        In rec (Orders.cmds orders) ->
        (forall r, In r (Orders.cmds orders) ->
                   SheriffCmd.sheriff_id r = SheriffCmd.sheriff_id rec -> r = rec) ->
        find_local_cmd
          (pmd (snd (procman_deputy_order_received os max_age orders m)))
          (SheriffCmd.sheriff_id rec) = Some p').
Proof.
  intros p'. split; [|split].
  - destruct (renamed_facts os rec p0) as (F1 & F2 & F3 & _ & F5 & F6 & F7).
    destruct (sync_identity_frame os rec p0 false) as (_ & _ & _ & _ & _ & _ & _ & _ & G & _).
    repeat split; auto.
  - intros a m'.
    destruct (carry_out_steady os rec a m p0 found runs same_runid no_quit)
      as (S1 & S2 & S3 & _).
    auto.
  - intros orders mine fresh listed once.
    assert (Hme : for_me orders m = true)
      by (unfold for_me; rewrite mine; apply String.eqb_refl).
    rewrite (order_fresh os max_age orders m Hme fresh).
    unfold find_local_cmd. rewrite carried_out_list.
    set (after_loop := snd (carry_out_all os (Orders.cmds orders) false
                              (accepted orders m))).
    destruct (cull_pass os orders (pm (pmd after_loop)) after_loop _ _
                (surjective_pairing _)) as [_ C].
    set (is_it := fun cand => sheriff_id (user cand) =? SheriffCmd.sheriff_id rec).
    rewrite <- (find_filter_sub is_it (named orders)), C,
      (find_filter_sub is_it (named orders)).
    + destruct (carry_out_all_steady os rec p0 (Orders.cmds orders) false
                  (accepted orders m) once runs same_runid no_quit) as (_ & L & _).
      apply L; [exact found | exact listed].
    + intros q Hq. apply Z.eqb_eq in Hq. unfold named.
      rewrite (named_not_orphaned orders rec q listed Hq). reflexivity.
    + intros q Hq. apply Z.eqb_eq in Hq. unfold named.
      rewrite (named_not_orphaned orders rec q listed Hq). reflexivity.
Qed.

(** ** How the command list moves *)

Section Evolves.

Variable R : procman_cmd_t -> procman_cmd_t -> Prop.
Variable N : procman_cmd_t -> Prop.
Hypothesis R_refl : forall p, R p p.
Hypothesis R_trans : forall p q r, R p q -> R q r -> R p r.
Hypothesis N_closed : forall p q, N p -> R p q -> N q.

Lemma evolves_refl l : evolves R N l l.
Proof.
  induction l as [|p l IH]; [apply evolves_new; constructor|].
  apply evolves_keep; [apply R_refl | exact IH].
Qed.

Lemma evolves_add l news : Forall N news -> evolves R N l (l ++ news).
Proof.
  intros H. induction l as [|p l IH]; [apply evolves_new; exact H|].
  cbn. apply evolves_keep; [apply R_refl | exact IH].
Qed.

Lemma evolves_all_new l l' : Forall N l -> evolves R N l l' -> Forall N l'.
Proof.
  intros H E. induction E as [news Hn|p p' l l' Hr E IH|p l l' E IH].
  - exact Hn.
  - inversion H; subst. constructor; [eapply N_closed; eassumption | auto].
  - inversion H; subst. auto.
Qed.

Lemma evolves_trans l1 l2 l3 :
  evolves R N l1 l2 -> evolves R N l2 l3 -> evolves R N l1 l3.
Proof.
  intros E. revert l3.
  induction E as [news Hn|p p' l l' Hr E IH|p l l' E IH]; intros l3 E2.
  - apply evolves_new. exact (evolves_all_new _ _ Hn E2).
  - inversion E2; subst.
    + apply evolves_keep; [eapply R_trans; eassumption | auto].
    + apply evolves_drop. auto.
  - apply evolves_drop. auto.
Qed.

Lemma evolves_zip_keep before p p' after :
  R p p' -> evolves R N (before ++ p :: after) (before ++ p' :: after).
Proof.
  intros H. induction before as [|q before IH]; cbn.
  - apply evolves_keep; [exact H | apply evolves_refl].
  - apply evolves_keep; [apply R_refl | exact IH].
Qed.

Lemma evolves_zip_drop before p after :
  evolves R N (before ++ p :: after) (before ++ after).
Proof.
  induction before as [|q before IH]; cbn.
  - apply evolves_drop, evolves_refl.
  - apply evolves_keep; [apply R_refl | exact IH].
Qed.

(** [store] on a list that has a handle of that sheriff_id. *)
Lemma evolves_store sid p0 p' l :
  find (has_sid sid) l = Some p0 -> R p0 p' -> evolves R N l (store sid p' l).
Proof.
  intros Hf Hr. induction l as [|q l IH]; [discriminate|].
  cbn in *. unfold has_sid in Hf. destruct (sheriff_id (user q) =? sid).
  - injection Hf as ->. apply evolves_keep; [exact Hr | apply evolves_refl].
  - apply evolves_keep; [apply R_refl | auto].
Qed.

(** A pass whose body removes a handle or changes it along [R]. *)
Lemma evolves_pass (body : procman_cmd_t -> M (option procman_cmd_t)) :
  (forall p m p', fst (body p m) = Some p' -> R p p') ->
  forall cmds m, evolves R N cmds (fst (for_each_cmd body cmds m)).
Proof.
  intros Hb. induction cmds as [|p rest IH]; intros m; cbn [for_each_cmd].
  - apply evolves_new. constructor.
  - unfold bind, ret. specialize (Hb p m).
    destruct (body p m) as [r m1]. specialize (IH m1).
    destruct (for_each_cmd body rest m1) as [rest' m2]. cbn [fst] in *.
    destruct r as [p'|]; [apply evolves_keep; auto | apply evolves_drop; exact IH].
Qed.

End Evolves.

Lemma evolves_mono (R R' : procman_cmd_t -> procman_cmd_t -> Prop)
    (N N' : procman_cmd_t -> Prop) l l' :
  (forall p p', In p l -> R p p' -> R' p p') -> (forall p, N p -> N' p) ->
  evolves R N l l' -> evolves R' N' l l'.
Proof.
  intros HR HN E. induction E as [news Hn|p p' l l' Hr E IH|p l l' E IH].
  - apply evolves_new. eapply Forall_impl; eassumption.
  - apply evolves_keep; [apply HR; [left; reflexivity | exact Hr]|].
    apply IH. intros q q' Hq. apply HR. right. exact Hq.
  - apply evolves_drop. apply IH. intros q q' Hq. apply HR. right. exact Hq.
Qed.

Lemma same_runid_refl p : same_runid p p.
Proof. split; reflexivity. Qed.

Lemma same_runid_trans p q r : same_runid p q -> same_runid q r -> same_runid p r.
Proof. unfold same_runid. intros [] []. split; congruence. Qed.

Lemma nothing_closed p q : nothing p -> same_runid p q -> nothing q.
Proof. intros []. Qed.

Lemma quietly_refl l : quietly l l.
Proof. apply evolves_refl. exact same_runid_refl. Qed.

Lemma quietly_trans l1 l2 l3 : quietly l1 l2 -> quietly l2 l3 -> quietly l1 l3.
Proof.
  apply evolves_trans; [exact same_runid_trans | exact nothing_closed].
Qed.

Lemma sample_cmd_same os bits ellapsed p m p' :
  fst (sample_cmd os bits ellapsed p m) = Some p' -> same_runid p p'.
Proof.
  unfold sample_cmd, bind, ret, ask.
  destruct (negb (pid p =? 0)).
  - destruct (OS.read_proc_cpu_mem os (os_calls m)) as [status fill].
    destruct (negb (status =? 0)).
    + cbn. intros E. injection E as <-. split; reflexivity.
    + destruct (_ || _); cbn; intros E; injection E as <-; split; reflexivity.
  - cbn. intros E. injection E as <-. split; reflexivity.
Qed.

Lemma update_cpu_times_quietly os bits m :
  quietly (pm (pmd m)) (pm (pmd (snd (update_cpu_times os bits m)))).
Proof.
  destruct (update_cpu_times_eq os bits m) as (_ & _ & _ & P). rewrite P.
  unfold quietly. apply evolves_pass.
  intros p m0 p'. apply sample_cmd_same.
Qed.

Lemma stop_cmd_same os p m : same_runid p (snd (fst (stop_cmd os p m))).
Proof.
  destruct (stop_cmd_frame os p m) as (_ & _ & _ & (n & t & F)).
  rewrite F. split; reflexivity.
Qed.

Lemma evolves_drop_all R N cmds : evolves R N cmds [].
Proof.
  induction cmds as [|p rest IH]; [apply evolves_new; constructor | apply evolves_drop, IH].
Qed.

Lemma remove_all_cmds_list os m : pm (pmd (snd (remove_all_cmds os m))) = [].
Proof.
  unfold remove_all_cmds. rewrite !bind_eq. unfold get_pmd. cbn [fst snd].
  destruct (fst (remove_cmds os (pm (pmd m)) m)) as [ok kept].
  rewrite bind_eq. reflexivity.
Qed.

Lemma remove_all_cmds_quietly os m :
  quietly (pm (pmd m)) (pm (pmd (snd (remove_all_cmds os m)))).
Proof. rewrite remove_all_cmds_list. apply evolves_drop_all. Qed.

Lemma split_at_pid_eq child cmds before p after :
  split_at_pid child cmds = Some (before, p, after) -> cmds = before ++ p :: after.
Proof.
  revert before. induction cmds as [|q rest IH]; intros before H; [discriminate|].
  cbn in H. destruct (pid q =? child).
  - injection H as <- <- <-. reflexivity.
  - destruct (split_at_pid child rest) as [[[b c] a]|]; [|discriminate].
    injection H as <- <- <-. cbn. f_equal. apply IH. reflexivity.
Qed.

(** What the reaping answers: nothing, and the list is as it was; or a
    handle with its place in the list as the reaping leaves it. *)
Lemma reap_spec os m :
  let r := procman_check_for_dead_children os m in
  quietly (pm (pmd m)) (pm (pmd (snd r)))
  /\ match fst r with
     | None => True
     | Some (before, cmd, after) => pm (pmd (snd r)) = before ++ cmd :: after
     end.
Proof.
  unfold procman_check_for_dead_children, bind, ask, ret.
  destruct (OS.waitpid os (os_calls m)) as [child status].
  destruct (child <=? 0); [split; [apply quietly_refl | exact I]|].
  unfold get_pmd. cbn [pmd].
  destruct (split_at_pid child (pm (pmd m))) as [[[before p] after]|] eqn:E;
    [|split; [apply quietly_refl | exact I]].
  apply split_at_pid_eq in E. cbn. rewrite E. split; [|reflexivity].
  unfold quietly. apply evolves_zip_keep; [exact same_runid_refl | split; reflexivity].
Qed.

Lemma unhooked_same os cmd m : same_runid cmd (fst (unhooked os cmd m)).
Proof.
  unfold unhooked. destruct (stdout_ioc (user cmd)); [|apply same_runid_refl].
  unfold bind, emit, procman_close_dead_pipes. cbn.
  destruct (stdout_fd cmd <? 0); cbn; split; reflexivity.
Qed.

Lemma bury_spec os before cmd after m :
  pm (pmd m) = before ++ cmd :: after ->
  quietly (pm (pmd m)) (pm (pmd (snd (bury os before cmd after m)))).
Proof.
  intros H. rewrite H. unfold quietly, bury. fold (unhooked os cmd).
  rewrite !bind_eq. unfold modify_pmd. cbn [snd pmd pm set_pm].
  match goal with |- context [unhooked os cmd ?mm] =>
    pose proof (unhooked_same os cmd mm) as C;
    destruct (unhooked os cmd mm) as [cmd' m3] end.
  cbn [fst] in *.
  destruct (remove_requested (user cmd')).
  - unfold procman_remove_cmd. destruct (pid cmd' =? 0).
    + apply evolves_zip_drop. exact same_runid_refl.
    + apply evolves_zip_keep; [exact same_runid_refl | exact C].
  - apply evolves_zip_keep; [exact same_runid_refl | exact C].
Qed.

Lemma transmit_proc_info_list os m :
  pm (pmd (snd (transmit_proc_info os m))) = pm (pmd m).
Proof. apply (preserves_transmit_proc_info pm os m). Qed.

Lemma bury_all_quietly os fuel : forall before cmd after m,
  pm (pmd m) = before ++ cmd :: after ->
  quietly (pm (pmd m)) (pm (pmd (snd (bury_all os fuel before cmd after m)))).
Proof.
  induction fuel as [|fuel IH]; intros before cmd after m H; cbn [bury_all].
  all: rewrite !bind_eq.
  all: pose proof (bury_spec os before cmd after m H) as B.
  all: set (m1 := snd (bury os before cmd after m)) in *.
  all: destruct (reap_spec os m1) as [Q Z].
  all: set (next := fst (procman_check_for_dead_children os m1)) in *.
  all: set (m2 := snd (procman_check_for_dead_children os m1)) in *.
  all: pose proof (transmit_proc_info_list os m2) as T.
  all: set (m3 := snd (transmit_proc_info os m2)) in *.
  all: assert (Q3 : quietly (pm (pmd m)) (pm (pmd m3)))
         by (rewrite T; eapply quietly_trans; eassumption).
  - destruct next as [[[b c] a]|]; exact Q3.
  - destruct next as [[[b c] a]|]; [|exact Q3].
    eapply quietly_trans; [exact Q3|]. apply IH. rewrite T. exact Z.
Qed.

Lemma check_for_dead_children_quietly os m :
  quietly (pm (pmd m)) (pm (pmd (snd (check_for_dead_children os m)))).
Proof.
  unfold check_for_dead_children. rewrite bind_eq.
  destruct (reap_spec os m) as [Q Z].
  destruct (fst (procman_check_for_dead_children os m)) as [[[b c] a]|]; [|exact Q].
  eapply quietly_trans; [exact Q|]. apply bury_all_quietly. exact Z.
Qed.

(** Every handler but the reconciler moves the list without a change of
    any run id. *)
Lemma dispatch_quietly os max_age bits i m :
  (forall orders, i <> OrdersMsg orders) ->
  quietly (pm (pmd m)) (pm (pmd (snd (dispatch os max_age bits i m)))).
Proof.
  intros Hi. destruct i as [orders|signum| | |source condition]; cbn [dispatch].
  - exfalso. exact (Hi orders eq_refl).
  - unfold glib_handle_signal. destruct (signum =? SIGCHLD).
    + apply check_for_dead_children_quietly.
    + rewrite !bind_eq. cbn [snd pmd]. apply remove_all_cmds_quietly.
  - unfold one_second_timeout. rewrite bind_eq, transmit_proc_info_list.
    apply update_cpu_times_quietly.
  - apply quietly_refl.
  - rewrite bind_eq. cbn [get_pmd fst snd].
    destruct (find (watched_by source) (pm (pmd m))) as [cmd|]; [|apply quietly_refl].
    rewrite bind_eq.
    rewrite (preserves_when pm _ _ (preserves_emit pm _)).
    rewrite (preserves_pipe_data_ready pm os condition cmd m).
    apply quietly_refl.
Qed.

(** ** Sheriff ids through an order *)

Lemma evolves_sids_incl (R : procman_cmd_t -> procman_cmd_t -> Prop) l l' :
  (forall p p', R p p' -> sheriff_id (user p') = sheriff_id (user p)) ->
  evolves R nothing l l' -> incl (sids l') (sids l).
Proof.
  intros HR E. induction E as [news Hn|p p' l l' Hr E IH|p l l' E IH].
  - destruct news as [|x news]; [intros y []|]. inversion Hn as [|? ? []].
  - cbn. rewrite (HR _ _ Hr). intros y [<-|Hy]; [left; reflexivity|].
    right. apply IH. exact Hy.
  - cbn. intros y Hy. right. apply IH. exact Hy.
Qed.

Lemma evolves_sids_unique (R : procman_cmd_t -> procman_cmd_t -> Prop) l l' :
  (forall p p', R p p' -> sheriff_id (user p') = sheriff_id (user p)) ->
  evolves R nothing l l' -> NoDup (sids l) -> NoDup (sids l').
Proof.
  intros HR E. induction E as [news Hn|p p' l l' Hr E IH|p l l' E IH]; intros U.
  - destruct news as [|x news]; [constructor|]. inversion Hn as [|? ? []].
  - cbn in *. inversion U as [|? ? Hnot U']; subst. rewrite (HR _ _ Hr).
    constructor; [|auto]. intros Hin. apply Hnot.
    exact (evolves_sids_incl R l l' HR E _ Hin).
  - cbn in U. inversion U; subst. auto.
Qed.

Lemma sids_store sid p' l :
  sheriff_id (user p') = sid -> sids (store sid p' l) = sids l.
Proof.
  intros Hs. induction l as [|q l IH]; [reflexivity|]. cbn.
  destruct (Z.eqb_spec (sheriff_id (user q)) sid) as [E|E]; cbn.
  - rewrite Hs, E. reflexivity.
  - f_equal. exact IH.
Qed.

Lemma find_local_cmd_none s sid :
  find_local_cmd s sid = None -> ~ In sid (sids (pm s)).
Proof.
  unfold find_local_cmd, sids. intros H Hin. apply in_map_iff in Hin.
  destruct Hin as (p & Hp & Hin). pose proof (find_none _ _ H p Hin) as N.
  cbn in N. rewrite Hp, Z.eqb_refl in N. discriminate.
Qed.

(** The sheriff_ids after one command record: those before, and that of
    the record at the end when no handle had it. *)
Lemma carry_out_sids os cmd a m :
  sids (pm (pmd (snd (carry_out os cmd a m)))) =
  match find_local_cmd (pmd m) (SheriffCmd.sheriff_id cmd) with
  | Some _ => sids (pm (pmd m))
  | None => sids (pm (pmd m)) ++ [SheriffCmd.sheriff_id cmd]
  end.
Proof.
  destruct (carry_out_result os cmd a m) as (R1 & _ & _ & _ & R5).
  apply find_local_cmd_sid in R1. rewrite R5, (sids_store _ _ _ R1).
  unfold staged. rewrite locate_eq.
  destruct (find_local_cmd (pmd m) (SheriffCmd.sheriff_id cmd)); [reflexivity|].
  cbn. unfold sids. rewrite map_app. reflexivity.
Qed.

Lemma carry_out_unique os cmd a m :
  NoDup (sids (pm (pmd m))) -> NoDup (sids (pm (pmd (snd (carry_out os cmd a m))))).
Proof.
  intros U. rewrite carry_out_sids.
  destruct (find_local_cmd (pmd m) (SheriffCmd.sheriff_id cmd)) eqn:F; [exact U|].
  apply find_local_cmd_none in F.
  apply NoDup_app; [exact U | constructor; [intros [] | constructor]|].
  intros x Hx [<-|[]]. exact (F Hx).
Qed.

Lemma carry_out_all_unique os cmds : forall a m,
  NoDup (sids (pm (pmd m))) ->
  NoDup (sids (pm (pmd (snd (carry_out_all os cmds a m))))).
Proof.
  induction cmds as [|c rest IH]; intros a m U; [exact U|].
  cbn [carry_out_all]. rewrite bind_eq. apply IH, carry_out_unique, U.
Qed.

Lemma same_runid_sid p p' : same_runid p p' -> sheriff_id (user p') = sheriff_id (user p).
Proof. intros [S _]. exact S. Qed.

(** ** Run ids *)

Lemma runid_follows_refl orders p : runid_follows orders p p.
Proof. split; [reflexivity | left; reflexivity]. Qed.

Lemma runid_follows_trans orders p q r :
  runid_follows orders p q -> runid_follows orders q r -> runid_follows orders p r.
Proof.
  unfold runid_follows. intros [S1 H1] [S2 H2]. split; [congruence|].
  destruct H2 as [H2|H2]; [rewrite H2; exact H1|]. right. rewrite <- S1. exact H2.
Qed.

Lemma same_runid_follows orders p p' : same_runid p p' -> runid_follows orders p p'.
Proof. intros [S A]. split; [exact S | left; exact A]. Qed.

Lemma store_app_new sid p' l x :
  find (has_sid sid) l = None -> has_sid sid x = true ->
  store sid p' (l ++ [x]) = l ++ [p'].
Proof.
  intros Hn Hx. induction l as [|q l IH]; cbn in *.
  - unfold has_sid in Hx. rewrite Hx. reflexivity.
  - unfold has_sid in Hn. destruct (sheriff_id (user q) =? sid); [discriminate|].
    f_equal. apply IH. exact Hn.
Qed.

(** The run id the transition leaves: the one the handle had, or the one
    the record asks for; the latter for a handle that did not run. *)
Lemma transitioned_runid os cmd m :
  let p' := fst (fst (transitioned os cmd m)) in
  sheriff_id (user p') = SheriffCmd.sheriff_id cmd
  /\ (actual_runid (user p') = actual_runid (user (located os cmd m))
      \/ actual_runid (user p') = SheriffCmd.desired_runid cmd)
  /\ (pid (located os cmd m) = 0 ->
      actual_runid (user p') = SheriffCmd.desired_runid cmd).
Proof.
  intros p'.
  pose proof (transition_frame os cmd (procman_get_cmd_status (located os cmd m))
                (subject os cmd m) false (staged os cmd m)) as (_ & _ & F3).
  fold (transitioned os cmd m) in F3. fold p' in F3. rewrite subject_sid in F3.
  split; [exact F3|].
  pose proof (transitioned_cases os cmd m) as T. cbv zeta in T.
  pose proof (sync_identity_frame os cmd (located os cmd m) false)
    as (_ & _ & _ & _ & A & _).
  fold (subject os cmd m) in A. rewrite subject_pid in T.
  subst p'. rewrite T. clear T.
  destruct (pid (located os cmd m) =? 0) eqn:Hp.
  - apply Z.eqb_eq in Hp. destruct (_ && _); cbn; auto.
  - apply Z.eqb_neq in Hp. destruct (_ || _); cbn.
    + destruct (stop_cmd_same os (subject os cmd m) (staged os cmd m)) as [_ S].
      rewrite S, A. split; [left; reflexivity | contradiction].
    + split; [right; reflexivity | contradiction].
Qed.

Lemma cull_same os orders p m p' :
  fst (cull os orders p m) = Some p' -> same_runid p p'.
Proof.
  destruct (orphaned orders p) eqn:Ho.
  - destruct (Z.eq_dec (pid p) 0) as [Hp|Hp].
    + rewrite (cull_orphan_removed os orders p m Ho Hp). discriminate.
    + rewrite (cull_orphan_stopped os orders p m Ho Hp). cbn.
      intros E. injection E as <-.
      destruct (stop_cmd_same os (marked p) m) as [S A]. split; [exact S | exact A].
  - rewrite (cull_named os orders p m Ho). cbn. intros E. injection E as <-.
    apply same_runid_refl.
Qed.

(** *** Where a handle comes from *)

Lemma find_local_cmd_unique s p :
  NoDup (sids (pm s)) -> In p (pm s) ->
  find_local_cmd s (sheriff_id (user p)) = Some p.
Proof.
  unfold find_local_cmd. generalize (pm s) as l.
  induction l as [|q l IH]; intros U Hin; [contradiction|].
  cbn in *. inversion U as [|? ? Hnot U']; subst.
  destruct Hin as [->|Hin]; [rewrite Z.eqb_refl; reflexivity|].
  destruct (Z.eqb_spec (sheriff_id (user q)) (sheriff_id (user p))) as [E|_];
    [|exact (IH U' Hin)].
  exfalso. apply Hnot. rewrite E. unfold sids. apply in_map_iff.
  exists p. split; [reflexivity | exact Hin].
Qed.

(** A handle of the new list comes from one of the old list. *)
Lemma evolves_origin (R : procman_cmd_t -> procman_cmd_t -> Prop) l l' :
  evolves R nothing l l' -> forall p', In p' l' -> exists p, In p l /\ R p p'.
Proof.
  intros E. induction E as [news Hn|p p' l l' Hr E IH|p l l' E IH]; intros x Hx.
  - exfalso. exact (proj1 (Forall_forall _ _) Hn x Hx).
  - destruct Hx as [<-|Hx]; [exists p; split; [left; reflexivity | exact Hr]|].
    destruct (IH x Hx) as (q & Hq & Rq). exists q. split; [right; exact Hq | exact Rq].
  - destruct (IH x Hx) as (q & Hq & Rq). exists q. split; [right; exact Hq | exact Rq].
Qed.

(** With unique sheriff_ids it comes from the handle of its sheriff_id. *)
Lemma evolves_found (R : procman_cmd_t -> procman_cmd_t -> Prop) s l' :
  (forall p p', R p p' -> sheriff_id (user p') = sheriff_id (user p)) ->
  NoDup (sids (pm s)) -> evolves R nothing (pm s) l' ->
  forall p', In p' l' ->
    exists p, find_local_cmd s (sheriff_id (user p')) = Some p /\ R p p'.
Proof.
  intros HR U E p' Hin. destruct (evolves_origin R _ _ E p' Hin) as (p & Hp & Rp).
  exists p. split; [|exact Rp]. rewrite (HR _ _ Rp).
  apply find_local_cmd_unique; assumption.
Qed.

Lemma carry_out_by_sid os rec a m sid :
  find_local_cmd (pmd (snd (carry_out os rec a m))) sid
  = if SheriffCmd.sheriff_id rec =? sid
    then Some (fst (fst (transitioned os rec m)))
    else find_local_cmd (pmd m) sid.
Proof.
  destruct (Z.eqb_spec (SheriffCmd.sheriff_id rec) sid) as [<-|N].
  - apply carry_out_result.
  - apply carry_out_other. exact N.
Qed.

Lemma located_is os rec m p :
  find_local_cmd (pmd m) (SheriffCmd.sheriff_id rec) = Some p -> located os rec m = p.
Proof. intros F. unfold located. rewrite locate_eq, F. reflexivity. Qed.

Lemma located_fresh os rec m :
  find_local_cmd (pmd m) (SheriffCmd.sheriff_id rec) = None ->
  located os rec m = fresh_handle os rec.
Proof. intros F. unfold located. rewrite locate_eq, F. reflexivity. Qed.

(** The handle of a sheriff_id through the loop over the records: it
    stays, and moves along a relation every record keeps to. *)
Lemma carry_out_all_tracks (R : procman_cmd_t -> procman_cmd_t -> Prop) os cmds :
  (forall p, R p p) -> (forall p q r, R p q -> R q r -> R p r) ->
  (forall rec m, In rec cmds -> R (located os rec m) (fst (fst (transitioned os rec m)))) ->
  forall a m sid p,
    find_local_cmd (pmd m) sid = Some p ->
    exists p',
      find_local_cmd (pmd (snd (carry_out_all os cmds a m))) sid = Some p' /\ R p p'.
Proof.
  intros Rr Rt. induction cmds as [|c rest IH]; intros Hs a m sid p F;
    cbn [carry_out_all].
  - exists p. split; [exact F | apply Rr].
  - rewrite bind_eq.
    assert (Q : exists q,
               find_local_cmd (pmd (snd (carry_out os c a m))) sid = Some q /\ R p q).
    { rewrite carry_out_by_sid.
      destruct (Z.eqb_spec (SheriffCmd.sheriff_id c) sid) as [E|_].
      - eexists. split; [reflexivity|].
        rewrite <- (located_is os c m p) by (rewrite E; exact F).
        apply Hs. left. reflexivity.
      - exists p. split; [exact F | apply Rr]. }
    destruct Q as (q & Fq & Rq).
    destruct (IH (fun rec m0 Hin => Hs rec m0 (or_intror Hin))
                (fst (carry_out os c a m)) _ sid q Fq) as (p' & F' & R').
    exists p'. split; [exact F' | exact (Rt _ _ _ Rq R')].
Qed.

(** A turn of the main loop carries out an order, or it moves the list
    as the handlers other than the reconciler do; [R] is what all of them
    keep to. *)
Lemma step_tracks (R : procman_cmd_t -> procman_cmd_t -> Prop) os max_age bits m i :
  (forall p, R p p) -> (forall p q r, R p q -> R q r -> R p r) ->
  (forall p p', R p p' -> sheriff_id (user p') = sheriff_id (user p)) ->
  (forall orders rec m0,
     carries_out os max_age m i orders -> In rec (Orders.cmds orders) ->
     R (located os rec m0) (fst (fst (transitioned os rec m0)))) ->
  (forall orders p m0 p',
     carries_out os max_age m i orders ->
     fst (cull os orders p m0) = Some p' -> R p p') ->
  ((forall orders, i <> OrdersMsg orders) ->
   evolves R nothing (pm (pmd m)) (pm (pmd (snd (dispatch os max_age bits i m))))) ->
  NoDup (sids (pm (pmd m))) ->
  forall p', In p' (pm (pmd (step os max_age bits m i))) ->
    match find_local_cmd (pmd m) (sheriff_id (user p')) with
    | Some p => R p p'
    | None =>
        exists orders p1,
          carries_out os max_age m i orders
          /\ find_local_cmd
               (pmd (snd (carry_out_all os (Orders.cmds orders) false (accepted orders m))))
               (sheriff_id (user p')) = Some p1
          /\ R p1 p'
    end.
Proof.
  intros Rr Rt Rs Hrec Hcull Hother U p' Hin.
  assert (Same : forall l, l = pm (pmd m) -> In p' l ->
                 match find_local_cmd (pmd m) (sheriff_id (user p')) with
                 | Some p => R p p'
                 | None =>
                     exists orders p1,
                       carries_out os max_age m i orders
                       /\ find_local_cmd
                            (pmd (snd (carry_out_all os (Orders.cmds orders) false
                                         (accepted orders m))))
                            (sheriff_id (user p')) = Some p1
                       /\ R p1 p'
                 end).
  { intros l -> H. rewrite (find_local_cmd_unique (pmd m) p' U H). apply Rr. }
  unfold step in Hin. destruct (quit m) eqn:Q; [exact (Same _ eq_refl Hin)|].
  destruct i as [orders|signum| | |source condition].
  2-5: match type of Hin with In _ (pm (pmd (snd (dispatch _ _ _ ?i _)))) =>
         assert (E : evolves R nothing (pm (pmd m))
                       (pm (pmd (snd (dispatch os max_age bits i m)))))
           by (apply Hother; intros o Ho; discriminate Ho) end;
       destruct (evolves_found R (pmd m) _ Rs U E p' Hin) as (p & F & Rp);
       rewrite F; exact Rp.
  cbn [dispatch] in Hin.
  destruct (for_me orders m) eqn:Hme;
    [|rewrite (order_for_other os max_age orders m Hme) in Hin;
      exact (Same _ eq_refl Hin)].
  destruct (stale os max_age orders m) eqn:Hst.
  { rewrite (order_stale os max_age orders m Hme Hst) in Hin. cbv zeta in Hin.
    rewrite report_stale_eq in Hin. exact (Same _ eq_refl Hin). }
  assert (C : carries_out os max_age m (OrdersMsg orders) orders)
    by (repeat split; assumption).
  rewrite (order_fresh os max_age orders m Hme Hst), carried_out_list in Hin.
  set (m1 := snd (carry_out_all os (Orders.cmds orders) false (accepted orders m))) in *.
  assert (U1 : NoDup (sids (pm (pmd m1)))) by (apply carry_out_all_unique; exact U).
  assert (E : evolves R nothing (pm (pmd m1))
                (fst (for_each_cmd (cull os orders) (pm (pmd m1)) m1))).
  { apply evolves_pass. intros p m0 q. apply (Hcull orders). exact C. }
  destruct (evolves_found R (pmd m1) _ Rs U1 E p' Hin) as (p1 & F1 & R1).
  destruct (find_local_cmd (pmd m) (sheriff_id (user p'))) as [p|] eqn:F.
  - destruct (carry_out_all_tracks R os (Orders.cmds orders) Rr Rt
                (fun rec m0 Hr => Hrec orders rec m0 C Hr)
                false (accepted orders m) (sheriff_id (user p')) p F)
      as (q & Fq & Rq).
    fold m1 in Fq. rewrite F1 in Fq. injection Fq as <-.
    exact (Rt _ _ _ Rq R1).
  - exists orders, p1. split; [exact C|]. split; [exact F1 | exact R1].
Qed.

(** *** Run ids through the records of an order *)

Lemma transitioned_follows os orders rec m :
  In rec (Orders.cmds orders) ->
  runid_follows orders (located os rec m) (fst (fst (transitioned os rec m))).
Proof.
  intros Hin. destruct (transitioned_runid os rec m) as (T1 & T2 & _).
  rewrite <- (located_sid os rec m) in T1. split; [exact T1|].
  destruct T2 as [T2|T2]; [left; exact T2|].
  right. exists rec. rewrite located_sid. auto.
Qed.

(** A handle the loop over the records makes has the run id a record
    asks for. *)
Lemma carry_out_all_arrives os orders cmds :
  (forall rec, In rec cmds -> In rec (Orders.cmds orders)) ->
  forall a m sid p',
    find_local_cmd (pmd m) sid = None ->
    find_local_cmd (pmd (snd (carry_out_all os cmds a m))) sid = Some p' ->
    asks_runid orders sid (actual_runid (user p')).
Proof.
  induction cmds as [|c rest IH]; intros Hsub a m sid p' F F'; cbn [carry_out_all] in F'.
  - cbn in F'. congruence.
  - rewrite bind_eq in F'.
    pose proof (carry_out_by_sid os c a m sid) as B.
    destruct (Z.eqb_spec (SheriffCmd.sheriff_id c) sid) as [E|_].
    + destruct (carry_out_all_tracks (runid_follows orders) os rest
                  (runid_follows_refl orders) (runid_follows_trans orders)
                  (fun rec m0 Hr => transitioned_follows os orders rec m0
                                      (Hsub rec (or_intror Hr)))
                  (fst (carry_out os c a m)) _ sid _ B) as (q & Fq & S & A).
      rewrite F' in Fq. injection Fq as <-.
      destruct (transitioned_runid os c m) as (T1 & _ & T3).
      rewrite (located_fresh os c m) in T3 by (rewrite E; exact F).
      specialize (T3 eq_refl).
      destruct A as [A|A].
      * exists c. split; [apply Hsub; left; reflexivity|]. split; [exact E|]. congruence.
      * rewrite T1, E in A. exact A.
    + rewrite F in B.
      exact (IH (fun rec Hr => Hsub rec (or_intror Hr)) _ _ sid p' B F').
Qed.

(** What one record does to the run id, and that the same record again
    would do the same. *)
Lemma carry_out_runid os rec a m :
  let p := located os rec m in
  exists p',
    find_local_cmd (pmd (snd (carry_out os rec a m))) (SheriffCmd.sheriff_id rec) = Some p'
    /\ actual_runid (user p') = runid_after rec p
    /\ runid_after rec p' = runid_after rec p.
Proof.
  intros p. destruct (carry_out_result os rec a m) as (R1 & _).
  exists (fst (fst (transitioned os rec m))). split; [exact R1|].
  pose proof (transitioned_cases os rec m) as T. cbv zeta in T. rewrite T. clear T R1.
  pose proof (sync_identity_frame os rec (located os rec m) false)
    as (P & _ & _ & _ & A & _).
  fold (subject os rec m) in P, A. fold p in P, A.
  unfold runid_after, asks_stop. rewrite <- P, <- A.
  set (q := subject os rec m) in *. set (want := SheriffCmd.desired_runid rec).
  destruct (Z.eqb_spec (pid q) 0) as [Hp|Hp]; cbn [negb andb].
  - destruct (Z.eqb_spec (actual_runid (user q)) want) as [E|NE]; cbn [negb andb].
    + cbn [fst]. cbn [set_runid set_user set_actual_runid user actual_runid pid].
      rewrite Hp. cbn. split; reflexivity.
    + destruct (SheriffCmd.force_quit rec) eqn:Fq; cbn [negb andb fst].
      * cbn [set_runid set_user set_actual_runid user actual_runid pid].
        rewrite Hp. cbn. split; reflexivity.
      * cbn [set_runid set_user set_actual_runid user actual_runid pid].
        rewrite Z.eqb_refl. cbn [negb orb]. rewrite andb_false_r. split; reflexivity.
  - destruct (SheriffCmd.force_quit rec || negb (want =? actual_runid (user q))) eqn:C.
    + cbn [fst]. destruct (stop_cmd_frame os q (staged os rec m)) as (_ & _ & _ & (n & t & F)).
      rewrite F. cbn [set_user set_kills user actual_runid pid].
      destruct (Z.eqb_spec (pid q) 0) as [|_]; [contradiction|]. cbn [negb andb].
      rewrite C. split; reflexivity.
    + cbn [fst]. apply orb_false_iff in C. destruct C as [Fq C].
      apply negb_false_iff, Z.eqb_eq in C.
      cbn [set_runid set_user set_actual_runid user actual_runid pid].
      rewrite Fq, Z.eqb_refl. cbn [negb orb]. rewrite andb_false_r. split; reflexivity.
Qed.

(** The run id after the loop over the records when only one of them,
    or the same one several times, is about the handle. *)
Lemma carry_out_all_exact os rec cmds :
  (forall r, In r cmds ->
             SheriffCmd.sheriff_id r = SheriffCmd.sheriff_id rec -> r = rec) ->
  forall a m p,
    find_local_cmd (pmd m) (SheriffCmd.sheriff_id rec) = Some p ->
    exists h,
      find_local_cmd (pmd (snd (carry_out_all os cmds a m))) (SheriffCmd.sheriff_id rec)
      = Some h
      /\ runid_after rec h = runid_after rec p
      /\ (In rec cmds \/ actual_runid (user p) = runid_after rec p ->
          actual_runid (user h) = runid_after rec p).
Proof.
  induction cmds as [|c rest IH]; intros Only a m p F; cbn [carry_out_all].
  - exists p. split; [exact F|]. split; [reflexivity|]. intros [[]|E]. exact E.
  - rewrite bind_eq.
    assert (Only' : forall r, In r rest ->
                      SheriffCmd.sheriff_id r = SheriffCmd.sheriff_id rec -> r = rec)
      by (intros r Hr; apply Only; right; exact Hr).
    destruct (Z.eq_dec (SheriffCmd.sheriff_id c) (SheriffCmd.sheriff_id rec)) as [E|NE].
    + assert (c = rec) by (apply Only; [left; reflexivity | exact E]). subst c.
      destruct (carry_out_runid os rec a m) as (h1 & F1 & A1 & J1).
      cbv zeta in A1, J1. rewrite (located_is os rec m p F) in A1, J1.
      destruct (IH Only' (fst (carry_out os rec a m)) _ h1 F1) as (h & Fh & Jh & Ah).
      exists h. split; [exact Fh|]. split; [congruence|].
      intros _. rewrite <- J1. apply Ah. right. congruence.
    + rewrite <- (carry_out_other os c a m _ NE) in F.
      destruct (IH Only' (fst (carry_out os c a m)) _ p F) as (h & Fh & Jh & Ah).
      exists h. split; [exact Fh|]. split; [exact Jh|].
      intros [[->|Hin]|E]; [contradiction NE; reflexivity | apply Ah; left; exact Hin
                           | apply Ah; right; exact E].
Qed.

Lemma carry_out_all_exact_new os rec cmds :
  (forall r, In r cmds ->
             SheriffCmd.sheriff_id r = SheriffCmd.sheriff_id rec -> r = rec) ->
  forall a m,
    find_local_cmd (pmd m) (SheriffCmd.sheriff_id rec) = None -> In rec cmds ->
    exists h,
      find_local_cmd (pmd (snd (carry_out_all os cmds a m))) (SheriffCmd.sheriff_id rec)
      = Some h
      /\ actual_runid (user h) = SheriffCmd.desired_runid rec.
Proof.
  induction cmds as [|c rest IH]; intros Only a m F Hin; [contradiction|].
  cbn [carry_out_all]. rewrite bind_eq.
  assert (Only' : forall r, In r rest ->
                    SheriffCmd.sheriff_id r = SheriffCmd.sheriff_id rec -> r = rec)
    by (intros r Hr; apply Only; right; exact Hr).
  destruct (Z.eq_dec (SheriffCmd.sheriff_id c) (SheriffCmd.sheriff_id rec)) as [E|NE].
  - assert (c = rec) by (apply Only; [left; reflexivity | exact E]). subst c.
    destruct (carry_out_runid os rec a m) as (h1 & F1 & A1 & J1).
    cbv zeta in A1, J1. rewrite (located_fresh os rec m F) in A1, J1.
    change (runid_after rec (fresh_handle os rec)) with (SheriffCmd.desired_runid rec)
      in A1, J1.
    destruct (carry_out_all_exact os rec rest Only' (fst (carry_out os rec a m)) _ h1 F1)
      as (h & Fh & Jh & Ah).
    exists h. split; [exact Fh|]. rewrite <- J1. apply Ah. right. congruence.
  - rewrite <- (carry_out_other os c a m _ NE) in F.
    destruct Hin as [->|Hin]; [contradiction NE; reflexivity|].
    exact (IH Only' _ _ F Hin).
Qed.

(** C3, amended.  The run id of a handle changes only when the reconciler
    carries out a record for its sheriff_id: the record leaves it as it is
    if the handle runs and is handed to [stop_cmd], and sets it to the
    desired run id otherwise, with or without a spawn.  So through a turn of
    the main loop a handle of the command list, taken by its sheriff_id, has
    the run id it had, or the turn carries out an order with a record for
    it that asks for the run id it has now; when the order has only this
    record for it, the run id is the one it had if the record has it
    stopped, and the desired one otherwise; a handle the turn adds has the
    desired run id of a record for it.  Hence no run id decreases in a turn
    unless an order has a record for the handle with a desired run id below
    the one it has. *)
Theorem actual_runid_follows_orders os max_age bits :
  (forall rec a m,
     let p := located os rec m in
     exists p',
       find_local_cmd (pmd (snd (carry_out os rec a m))) (SheriffCmd.sheriff_id rec)
       = Some p'
       /\ actual_runid (user p')
          = if asks_stop rec p then actual_runid (user p)
            else SheriffCmd.desired_runid rec)
  /\ (forall m i p',
        NoDup (sids (pm (pmd m))) ->
        In p' (pm (pmd (step os max_age bits m i))) ->
        let sid := sheriff_id (user p') in
        let runid := actual_runid (user p') in
        match find_local_cmd (pmd m) sid with
        | Some p =>
            (runid = actual_runid (user p)
             \/ exists orders,
                  carries_out os max_age m i orders /\ asks_runid orders sid runid)
            /\ (forall orders rec,
                  carries_out os max_age m i orders ->
                  In rec (Orders.cmds orders) -> SheriffCmd.sheriff_id rec = sid ->
                  only_record rec (Orders.cmds orders) ->
                  runid = if asks_stop rec p then actual_runid (user p)
                          else SheriffCmd.desired_runid rec)
            /\ ((forall orders rec,
                   i = OrdersMsg orders -> In rec (Orders.cmds orders) ->
                   SheriffCmd.sheriff_id rec = sid ->
                   actual_runid (user p) <= SheriffCmd.desired_runid rec) ->
                actual_runid (user p) <= runid)
        | None =>
            (exists orders,
               carries_out os max_age m i orders /\ asks_runid orders sid runid)
            /\ (forall orders rec,
                  carries_out os max_age m i orders ->
                  In rec (Orders.cmds orders) -> SheriffCmd.sheriff_id rec = sid ->
                  only_record rec (Orders.cmds orders) ->
                  runid = SheriffCmd.desired_runid rec)
        end).
Proof.
  split.
  { intros rec a m p. destruct (carry_out_runid os rec a m) as (p' & F & A & _).
    exists p'. split; [exact F | exact A]. }
  intros m i p' U Hin sid runid.
  set (R := fun p q : procman_cmd_t =>
              sheriff_id (user q) = sheriff_id (user p)
              /\ (actual_runid (user q) = actual_runid (user p)
                  \/ exists orders,
                       carries_out os max_age m i orders
                       /\ asks_runid orders (sheriff_id (user p)) (actual_runid (user q)))).
  assert (Rr : forall p, R p p) by (intros p; split; [reflexivity | left; reflexivity]).
  assert (Rt : forall p q r, R p q -> R q r -> R p r).
  { intros p q r [S1 H1] [S2 H2]. split; [congruence|].
    destruct H2 as [H2|H2]; [rewrite H2; exact H1|]. right. rewrite <- S1. exact H2. }
  assert (Rq : forall p q, same_runid p q -> R p q)
    by (intros p q [S A]; split; [exact S | left; exact A]).
  assert (T : match find_local_cmd (pmd m) sid with
              | Some p => R p p'
              | None =>
                  exists orders p1,
                    carries_out os max_age m i orders
                    /\ find_local_cmd
                         (pmd (snd (carry_out_all os (Orders.cmds orders) false
                                      (accepted orders m)))) sid = Some p1
                    /\ R p1 p'
              end).
  { apply (step_tracks R os max_age bits m i Rr Rt); try assumption.
    - intros p q [S _]. exact S.
    - intros orders rec m0 C Hrec.
      destruct (transitioned_follows os orders rec m0 Hrec) as [S A].
      split; [exact S|]. destruct A as [A|A]; [left; exact A|].
      right. exists orders. split; [exact C | exact A].
    - intros orders p m0 q _ E. apply Rq. exact (cull_same os orders p m0 q E).
    - intros Hi. generalize (dispatch_quietly os max_age bits i m Hi).
      apply evolves_mono; [|intros p []]. intros p q _. apply Rq. }
  assert (Mid : forall orders,
            carries_out os max_age m i orders ->
            exists p1,
              find_local_cmd
                (pmd (snd (carry_out_all os (Orders.cmds orders) false
                             (accepted orders m)))) sid = Some p1
              /\ actual_runid (user p1) = runid).
  { intros orders (-> & Q & Hme & Hst).
    unfold step in Hin. rewrite Q in Hin. cbn [dispatch] in Hin.
    rewrite (order_fresh os max_age orders m Hme Hst), carried_out_list in Hin.
    set (m1 := snd (carry_out_all os (Orders.cmds orders) false (accepted orders m)))
      in *.
    assert (U1 : NoDup (sids (pm (pmd m1)))) by (apply carry_out_all_unique; exact U).
    assert (E : quietly (pm (pmd m1))
                  (fst (for_each_cmd (cull os orders) (pm (pmd m1)) m1)))
      by (apply evolves_pass; intros p m0 q; apply cull_same).
    destruct (evolves_found same_runid (pmd m1) _ same_runid_sid U1 E p' Hin)
      as (p1 & F1 & _ & A1).
    exists p1. split; [exact F1 | symmetry; exact A1]. }
  destruct (find_local_cmd (pmd m) sid) as [p|] eqn:F.
  - destruct T as [S A]. pose proof (find_local_cmd_sid _ _ _ F) as Sp.
    rewrite Sp in A. split; [exact A|]. split.
    + intros orders rec C Hrec Hs Only.
      destruct (Mid orders C) as (p1 & F1 & A1).
      destruct (carry_out_all_exact os rec (Orders.cmds orders) Only false
                  (accepted orders m) p) as (h & Fh & _ & Ah);
        [rewrite Hs; exact F|].
      rewrite Hs, F1 in Fh. injection Fh as <-.
      rewrite <- A1. apply Ah. left. exact Hrec.
    + intros Up. destruct A as [A|(orders & (E & _) & rec & Hrec & Hs & Hw)]; [lia|].
      fold runid in Hw. rewrite <- Hw. exact (Up orders rec E Hrec Hs).
  - destruct T as (orders & p1 & C & F1 & S & A). split.
    + exists orders. split; [exact C|].
      pose proof (carry_out_all_arrives os orders (Orders.cmds orders) (fun _ H => H)
                    false (accepted orders m) sid p1 F F1) as Asked.
      destruct A as [A|(orders' & C' & A)].
      * fold runid in A. rewrite A. exact Asked.
      * destruct C as (E & _). destruct C' as (E' & _). rewrite E in E'.
        injection E' as <-. rewrite (find_local_cmd_sid _ _ _ F1) in A. exact A.
    + intros orders' rec C' Hrec Hs Only.
      destruct (Mid orders' C') as (q & Fq & Aq).
      destruct (carry_out_all_exact_new os rec (Orders.cmds orders') Only false
                  (accepted orders' m)) as (h & Fh & Ah);
        [rewrite Hs; exact F | exact Hrec|].
      rewrite Hs, Fq in Fh. injection Fh as <-. congruence.
Qed.

(** ** The theorems at work *)

Lemma reconciler_transition_table_witness :
  let rec := Scenario.rec_sleep "sleep 60" 1 false in
  let m' := snd (carry_out Scenario.os rec false (boot "H" false)) in
  let forced := Scenario.rec_sleep "sleep 60" 5 true in
  let m'' := snd (carry_out Scenario.os forced false (boot "H" false)) in
  (pid (subject Scenario.os rec (boot "H" false)) = 0
   /\ SheriffCmd.force_quit rec = false
   /\ SheriffCmd.desired_runid rec
      <> actual_runid (user (subject Scenario.os rec (boot "H" false)))
   /\ (exists h,
         find_local_cmd (pmd m') 1 = Some h
         /\ actual_runid (user h) = 1 /\ pid h = 100)
   /\ spawns (trace m') = [("sleep 60", 100)]
   /\ signals_sent (trace m') = [])
  /\ (pid (subject Scenario.os forced (boot "H" false)) = 0
      /\ SheriffCmd.force_quit forced = true
      /\ (exists h,
            find_local_cmd (pmd m'') 1 = Some h
            /\ actual_runid (user h) = 5 /\ pid h = 0)
      /\ trace m'' = []).
Proof.
  intros rec m' forced m''.
  assert (Differs : SheriffCmd.desired_runid rec
                    <> actual_runid (user (subject Scenario.os rec (boot "H" false))))
    by discriminate.
  split.
  - split; [reflexivity|]. split; [reflexivity|]. split; [exact Differs|].
    destruct (proj1 (reconciler_transition_table Scenario.os rec false (boot "H" false))
                eq_refl eq_refl Differs)
      as (status & p' & m2 & h & St & H & _ & A & P & _ & S & K).
    split; [|split; [exact S | exact K]].
    exists h. split; [exact H|]. split; [exact A|].
    rewrite P. injection St as _ <- _. reflexivity.
  - split; [reflexivity|]. split; [reflexivity|].
    destruct (proj1 (proj2 (reconciler_transition_table Scenario.os forced false
                              (boot "H" false))) eq_refl eq_refl)
      as (h & H & _ & A & P & T & _).
    split; [|exact T].
    exists h. split; [exact H|]. split; [exact A | exact P].
Defined.

Lemma actual_runid_follows_orders_witness :
  let stop := OrdersMsg (Scenario.order [Scenario.rec_sleep "sleep 60" 2 false]) in
  let m' := step Scenario.os Scenario.max_age 32 Scenario.busy stop in
  let forced := OrdersMsg (Scenario.order [Scenario.rec_sleep "sleep 60" 5 true]) in
  let m'' := step Scenario.os Scenario.max_age 32 (boot "H" false) forced in
  NoDup (sids (pm (pmd Scenario.busy)))
  /\ find_local_cmd (pmd Scenario.busy) 1 = Some (Scenario.sleep60 101 0 0)
  /\ (forall p', In p' (pm (pmd m')) -> sheriff_id (user p') = 1 ->
                 actual_runid (user p') = 1)
  /\ (forall p', In p' (pm (pmd m'')) -> sheriff_id (user p') = 1 ->
                 actual_runid (user p') = 5).
Proof.
  intros stop m' forced m''.
  assert (U : NoDup (sids (pm (pmd Scenario.busy)))).
  { repeat (constructor; [cbn; intuition discriminate|]). constructor. }
  assert (U0 : NoDup (sids (pm (pmd (boot "H" false))))) by constructor.
  split; [exact U|]. split; [reflexivity|]. split.
  - intros p' Hin Hs.
    pose proof (proj2 (actual_runid_follows_orders Scenario.os Scenario.max_age 32)
                  Scenario.busy stop p' U Hin) as T.
    cbv zeta in T. rewrite Hs in T.
    change (find_local_cmd (pmd Scenario.busy) 1) with (Some (Scenario.sleep60 101 0 0))
      in T.
    destruct T as (_ & Exact & _).
    refine (Exact (Scenario.order [Scenario.rec_sleep "sleep 60" 2 false])
              (Scenario.rec_sleep "sleep 60" 2 false) _ _ _ _).
    + repeat split.
    + left. reflexivity.
    + reflexivity.
    + intros r [<-|[]] _. reflexivity.
  - intros p' Hin Hs.
    pose proof (proj2 (actual_runid_follows_orders Scenario.os Scenario.max_age 32)
                  (boot "H" false) forced p' U0 Hin) as T.
    cbv zeta in T. rewrite Hs in T.
    change (find_local_cmd (pmd (boot "H" false)) 1) with (@None procman_cmd_t) in T.
    destruct T as (_ & Exact).
    refine (Exact (Scenario.order [Scenario.rec_sleep "sleep 60" 5 true])
              (Scenario.rec_sleep "sleep 60" 5 true) _ _ _ _).
    + repeat split.
    + left. reflexivity.
    + reflexivity.
    + intros r [<-|[]] _. reflexivity.
Defined.

(** C3 as it is stated does not hold: the first order below takes the run
    id of a new handle from 0 to 5 and the second one takes it from 5 down to
    3, and neither spawns anything, the command being force-quit. *)
Lemma actual_runid_set_without_spawn :
  let first := OrdersMsg (Scenario.order [Scenario.rec_sleep "sleep 60" 5 true]) in
  let second := OrdersMsg (Scenario.order [Scenario.rec_sleep "sleep 60" 3 true]) in
  let m1 := run Scenario.os Scenario.max_age 32 (boot "H" false) [first] in
  let m2 := run Scenario.os Scenario.max_age 32 (boot "H" false) [first; second] in
  map (fun p => (sheriff_id (user p), actual_runid (user p), pid p)) (pm (pmd m1))
  = [(1, 5, 0)]
  /\ map (fun p => (sheriff_id (user p), actual_runid (user p), pid p)) (pm (pmd m2))
     = [(1, 3, 0)]
  /\ spawns (trace m2) = [].
Proof. vm_compute. repeat split. Qed.


Lemma stale_order_is_dropped_witness :
  let orders := Scenario.old_order [Scenario.rec_sleep "sleep 60" 2 false] in
  let m' := snd (procman_deputy_order_received Scenario.os Scenario.max_age orders
                   Scenario.busy) in
  clock Scenario.os 0 - Orders.utime orders > Scenario.max_age
  /\ nstale_orders_slm (pmd m') = 1
  /\ pm (pmd m') = pm (pmd Scenario.busy)
  /\ spawns (trace m') = [] /\ signals_sent (trace m') = []
  /\ exists utime',
       trace m'
       = [PMD_PRINTF
            (Printf.mk "H" 1
               ("ignoring stale orders (utime 3600 seconds ago). "
                ++ "You may want to check the system clocks!" ++ LF)
               utime')].
Proof.
  intros orders m'.
  assert (Mine : Orders.host orders = hostname (pmd Scenario.busy)) by reflexivity.
  assert (Range : CInt.INT64_MIN <= clock Scenario.os (os_calls Scenario.busy)
                                    - Orders.utime orders <= CInt.INT64_MAX)
    by (vm_compute; split; discriminate).
  assert (Old : clock Scenario.os (os_calls Scenario.busy) - Orders.utime orders
                > Scenario.max_age) by (vm_compute; reflexivity).
  split; [exact Old|].
  destruct (stale_order_is_dropped Scenario.os Scenario.max_age orders Scenario.busy
              Mine Range Old) as (_ & N & (lines & T & L) & S & K & P).
  split; [apply N; vm_compute; split; [discriminate | reflexivity]|].
  split; [exact P|]. split; [exact S|]. split; [exact K|].
  inversion L as [|rec line recs lines' (utime' & Line) Rest]; subst.
  inversion Rest; subst.
  exists utime'. exact T.
Defined.

Lemma order_counters_stay_ordered_witness :
  let inputs := [ OrdersMsg (Scenario.order [Scenario.rec_sleep "sleep 60" 1 false]);
                  OrdersMsg Scenario.order_for_other_host;
                  Introspection;
                  OrdersMsg (Scenario.old_order []) ] in
  let s := pmd (run Scenario.os Scenario.max_age 32 (boot "H" false) inputs) in
  few_orders 0 inputs = true
  /\ nstale_orders_slm s <= norders_forme_slm s
  /\ norders_forme_slm s <= norders_slm s.
Proof.
  intros inputs s. split; [reflexivity|].
  exact (proj2 (order_counters_stay_ordered Scenario.os Scenario.max_age 32)
           "H" false inputs eq_refl).
Defined.

Lemma start_failure_is_reported_witness :
  fst (OS.fork Scenario.os_no_fork 0) <= 0
  /\ exists m' first second,
       start_cmd Scenario.os_no_fork Scenario.ls 2 Scenario.busy = (-1, Scenario.ls, m')
       /\ trace m' = trace Scenario.busy ++ [Forked "ls" (-1); PMD_PRINTF first;
                                             PMD_PRINTF second]
       /\ Printf.sheriff_id second = 3
       /\ (exists rest, Printf.text second = ("ERROR!  couldn't start [" ++ rest)%string)
       /\ pmd m' = pmd Scenario.busy
       /\ watches_added (trace m') = watches_added (trace Scenario.busy).
Proof.
  assert (Fails : fst (OS.fork Scenario.os_no_fork (os_calls Scenario.busy)) <= 0)
    by (vm_compute; discriminate).
  split; [exact Fails|].
  exact (proj1 (start_failure_is_reported Scenario.os_no_fork Scenario.ls 2
                  Scenario.busy Fails)).
Defined.

Lemma rename_does_not_restart_witness :
  let rec := Scenario.rec_sleep "sleep 120" 1 false in
  let p0 := Scenario.sleep60 101 0 0 in
  let m' := snd (procman_deputy_order_received Scenario.os Scenario.max_age
                   (Scenario.order [rec]) Scenario.busy) in
  find_local_cmd (pmd Scenario.busy) 1 = Some p0
  /\ cmd_str p0 <> SheriffCmd.name rec
  /\ find_local_cmd (pmd m') 1 = Some (renamed Scenario.os rec p0)
  /\ cmd_str (renamed Scenario.os rec p0) = "sleep 120"
  /\ pid (renamed Scenario.os rec p0) = 101.
Proof.
  intros rec p0 m'.
  assert (Found : find_local_cmd (pmd Scenario.busy) (SheriffCmd.sheriff_id rec)
                  = Some p0) by reflexivity.
  assert (Runs : pid p0 <> 0) by discriminate.
  assert (New : cmd_str p0 <> SheriffCmd.name rec) by discriminate.
  split; [exact Found|]. split; [exact New|].
  destruct (rename_does_not_restart Scenario.os Scenario.max_age rec p0 Scenario.busy
              Found Runs New eq_refl eq_refl) as ((N & _ & P & _) & _ & O).
  split; [|split; [exact N | exact P]].
  apply (O (Scenario.order [rec])).
  - reflexivity.
  - vm_compute. reflexivity.
  - left. reflexivity.
  - intros r [<-|[]] _. reflexivity.
Defined.

Lemma sampler_ratios_witness :
  let a := Sys.mk 10 0 5 85 1000 500 0 0 in
  let m' := snd (update_cpu_times Worlds.os_sampling 32 Worlds.ticking) in
  valid_samples 32 a Sys.zero
  /\ loaded_of 32 a Sys.zero = 15 /\ ellapsed_of 32 a Sys.zero = 100
  /\ stored_quotient 15 100 = S754_finite false 10066330 (-26)
  /\ (cpu_load (pmd m') == 10066330 # 67108864)%Q
  /\ (0 <= cpu_load (pmd m') <= 1)%Q
  /\ stored_quotient 4 100 = S754_finite false 10737418 (-28)
  /\ exists p', pm (pmd m') = [p']
                /\ (cpu_usage (user p') == 10737418 # 268435456)%Q.
Proof.
  intros a m'.
  assert (V : valid_samples 32 a Sys.zero).
  { unfold valid_samples. cbn. repeat split; try discriminate. }
  split; [exact V|]. split; [reflexivity|]. split; [reflexivity|].
  split; [reflexivity|].
  pose proof (sampler_ratios Worlds.os_sampling 32 Worlds.ticking) as T.
  cbv zeta in T.
  split; [|split; [exact (proj1 (proj2 (proj2 T)) V)|split; [reflexivity|]]].
  - assert (E : ellapsed_of 32 a Sys.zero <> 0) by discriminate.
    exact (proj2 (proj1 (proj2 T) E)).
  - pose proof (proj2 (proj2 (proj2 T))) as F. fold m' in F.
    assert (L : exists p', pm (pmd m') = [p']) by (eexists; reflexivity).
    destruct L as (p' & L). exists p'. split; [exact L|].
    rewrite L in F. change (pm (pmd Worlds.ticking)) with [Worlds.measured] in F.
    inversion F as [|p0 q0 l0 l1 S _]. subst.
    destruct S as (_ & _ & S).
    destruct (S ltac:(discriminate)) as (k & _ & S2).
    cbv zeta in S2.
    exact (proj2 (proj2 (S2 eq_refl) ltac:(discriminate) ltac:(discriminate)
                    ltac:(discriminate))).
Defined.

(** C9 as it is stated does not hold: with 15 loaded jiffies out of 100 the
    load that the tick stores is not 15/100, which no [float] is, but
    10066330 / 2 ^ 26, the [float] next to it. *)
Lemma cpu_load_is_rounded :
  let a := Sys.mk 10 0 5 85 1000 500 0 0 in
  let m' := snd (update_cpu_times Scenario.os 32 Scenario.busy) in
  snd (OS.read_sys_cpu_mem Scenario.os 0) (sys_cpu_time1 (pmd Scenario.busy)) = a
  /\ sys_cpu_time0 (pmd Scenario.busy) = Sys.zero
  /\ loaded_of 32 a Sys.zero = 15 /\ ellapsed_of 32 a Sys.zero = 100
  /\ cpu_load (pmd m') = 10066330 # 67108864
  /\ ~ (cpu_load (pmd m') == 15 # 100)%Q.
Proof. vm_compute. repeat split. discriminate. Qed.

Lemma start_resets_escalation_witness :
  0 < fst (OS.fork Scenario.os 0)
  /\ exists cmd' m',
       start_cmd Scenario.os Scenario.ls 2 Scenario.busy = (0, cmd', m')
       /\ num_kills_sent (user cmd') = 0
       /\ last_kill_time (user cmd') = 0
       /\ actual_runid (user cmd') = 2.
Proof.
  assert (Ok : 0 < fst (OS.fork Scenario.os (os_calls Scenario.busy)))
    by (vm_compute; reflexivity).
  split; [exact Ok|].
  destruct (start_resets_escalation Scenario.os Scenario.ls 2 Scenario.busy Ok)
    as (cmd' & m' & E & K & L & A & _).
  exists cmd', m'. auto.
Defined.

(** * Further properties *)

(** ** Sheriff ids are unique *)

Lemma order_received_unique os max_age orders m :
  NoDup (sids (pm (pmd m))) ->
  NoDup (sids (pm (pmd (snd (procman_deputy_order_received os max_age orders m))))).
Proof.
  intros U. destruct (for_me orders m) eqn:Hme.
  - destruct (stale os max_age orders m) eqn:Hst.
    + rewrite (order_stale os max_age orders m Hme Hst). cbv zeta.
      rewrite report_stale_eq. exact U.
    + rewrite (order_fresh os max_age orders m Hme Hst), carried_out_list.
      apply (evolves_sids_unique same_runid _ _ same_runid_sid
               (evolves_pass same_runid nothing (cull os orders)
                  (cull_same os orders) _ _)).
      apply carry_out_all_unique. exact U.
  - rewrite (order_for_other os max_age orders m Hme). exact U.
Qed.

Lemma step_unique os max_age bits m i :
  NoDup (sids (pm (pmd m))) -> NoDup (sids (pm (pmd (step os max_age bits m i)))).
Proof.
  intros U. unfold step. destruct (quit m); [exact U|].
  destruct i as [orders|signum| | |source condition].
  - cbn [dispatch]. apply order_received_unique. exact U.
  - refine (evolves_sids_unique same_runid _ _ same_runid_sid
              (dispatch_quietly os max_age bits (Signal signum) m _) U).
    intros o Ho; discriminate Ho.
  - refine (evolves_sids_unique same_runid _ _ same_runid_sid
              (dispatch_quietly os max_age bits OneSecond m _) U).
    intros o Ho; discriminate Ho.
  - refine (evolves_sids_unique same_runid _ _ same_runid_sid
              (dispatch_quietly os max_age bits Introspection m _) U).
    intros o Ho; discriminate Ho.
  - refine (evolves_sids_unique same_runid _ _ same_runid_sid
              (dispatch_quietly os max_age bits (PipeReady source condition) m _) U).
    intros o Ho; discriminate Ho.
Qed.

Lemma run_unique os max_age bits inputs : forall m,
  NoDup (sids (pm (pmd m))) -> NoDup (sids (pm (pmd (run os max_age bits m inputs)))).
Proof.
  induction inputs as [|i rest IH]; intros m U; [exact U|].
  cbn [run fold_left]. apply IH, step_unique, U.
Qed.

(** X1. No two handles of the command list have the same sheriff_id:
    this holds of the empty list of [main], and a turn of the main loop
    that finds the sheriff_ids of the list all different leaves them all
    different; so it holds at any point of a run. *)
Theorem sheriff_ids_stay_unique os max_age bits :
  (forall m i,
     NoDup (sids (pm (pmd m))) -> NoDup (sids (pm (pmd (step os max_age bits m i)))))
  /\ (forall name verbosity inputs,
        NoDup (sids (pm (pmd (run os max_age bits (boot name verbosity) inputs))))).
Proof.
  split; [intros m i; apply step_unique|].
  intros name verbosity inputs. apply run_unique. constructor.
Qed.

Lemma sheriff_ids_stay_unique_witness :
  NoDup (sids (pm (pmd Scenario.busy)))
  /\ NoDup (sids (pm (pmd (step Scenario.os Scenario.max_age 32 Scenario.busy
                             (OrdersMsg
                                (Scenario.order
                                   [Scenario.rec_sleep "sleep 60" 1 false;
                                    SheriffCmd.mk "xterm" "x" "g" 1 false 9])))))).
Proof.
  assert (U : NoDup (sids (pm (pmd Scenario.busy)))).
  { cbn. repeat (constructor; [cbn; intuition discriminate|]). constructor. }
  split; [exact U|].
  exact (proj1 (sheriff_ids_stay_unique Scenario.os Scenario.max_age 32) _ _ U).
Defined.

(** ** What an order leaves in the command list *)

Lemma transition_identity os cmd st p a m :
  let p' := fst (fst (transition os cmd st p a m)) in
  cmd_str p' = cmd_str p /\ nickname (user p') = nickname (user p)
  /\ group (user p') = group (user p)
  /\ remove_requested (user p') = remove_requested (user p).
Proof.
  unfold transition. destruct st.
  - destruct (_ && _); [|cbn; auto]. rewrite bind_eq.
    destruct (Z_le_gt_dec (fst (OS.fork os (os_calls m))) 0) as [F|F].
    + rewrite (start_cmd_fails os p _ m F). cbn. auto.
    + rewrite (start_cmd_succeeds os p _ m ltac:(lia)). cbn. auto.
  - destruct (_ || _); [|cbn; auto]. rewrite bind_eq.
    destruct (stop_cmd_frame os p m) as (_ & _ & _ & (n & t & E)).
    destruct (stop_cmd os p m) as [[st p1] m1]. cbn in *. subst p1. cbn. auto.
Qed.

Lemma carry_out_follows os rec a m :
  exists p,
    find_local_cmd (pmd (snd (carry_out os rec a m))) (SheriffCmd.sheriff_id rec) = Some p
    /\ follows rec p
    /\ (pid p = 0 -> actual_runid (user p) = SheriffCmd.desired_runid rec).
Proof.
  destruct (carry_out_result os rec a m) as (R1 & _).
  exists (fst (fst (transitioned os rec m))). split; [exact R1|].
  destruct (sync_identity_result os rec (located os rec m) false) as (N1 & N2 & N3).
  fold (subject os rec m) in N1, N2, N3.
  destruct (transition_identity os rec (procman_get_cmd_status (located os rec m))
              (subject os rec m) false (staged os rec m)) as (I1 & I2 & I3 & _).
  fold (transitioned os rec m) in I1, I2, I3.
  destruct (transitioned_runid os rec m) as (T1 & _ & T3).
  split; [unfold follows; repeat split; congruence|].
  intros Hp. destruct (Z.eq_dec (pid (located os rec m)) 0) as [Z|NZ]; [auto|].
  exfalso. revert Hp. rewrite transitioned_cases. rewrite subject_pid.
  destruct (Z.eqb_spec (pid (located os rec m)) 0) as [|_]; [contradiction|].
  destruct (_ || _); cbn [fst snd].
  - destruct (stop_cmd_frame os (subject os rec m) (staged os rec m))
      as (_ & _ & _ & (n & t & E)).
    rewrite E. cbn. rewrite subject_pid. exact NZ.
  - cbn. rewrite subject_pid. exact NZ.
Qed.

(** The loop of the reconciler leaves what the record [rec] makes of its
    handle, when no other record has the sheriff_id of [rec]. *)
Lemma carry_out_all_once os rec (P : procman_cmd_t -> Prop) cmds :
  (forall a m, exists p,
      find_local_cmd (pmd (snd (carry_out os rec a m))) (SheriffCmd.sheriff_id rec)
      = Some p /\ P p) ->
  forall a m,
    only_record rec cmds ->
    (In rec cmds
     \/ exists p, find_local_cmd (pmd m) (SheriffCmd.sheriff_id rec) = Some p /\ P p) ->
    exists p,
      find_local_cmd (pmd (snd (carry_out_all os cmds a m))) (SheriffCmd.sheriff_id rec)
      = Some p /\ P p.
Proof.
  intros HP. induction cmds as [|c rest IH]; intros a m once H.
  - destruct H as [[]|H]. exact H.
  - cbn [carry_out_all]. rewrite bind_eq.
    assert (once' : only_record rec rest)
      by (intros r Hr; apply once; right; exact Hr).
    apply IH; [exact once'|].
    destruct (Z.eq_dec (SheriffCmd.sheriff_id c) (SheriffCmd.sheriff_id rec)) as [E|NE].
    + right. rewrite (once c (or_introl eq_refl) E). apply HP.
    + destruct H as [[->|Hin]|H]; [contradiction NE; reflexivity|left; exact Hin|].
      right. rewrite carry_out_other by exact NE. exact H.
Qed.

(** The cull leaves alone the handle of a record of the order. *)
Lemma named_survives os max_age orders m rec :
  for_me orders m = true -> stale os max_age orders m = false ->
  In rec (Orders.cmds orders) ->
  find_local_cmd (pmd (snd (procman_deputy_order_received os max_age orders m)))
    (SheriffCmd.sheriff_id rec)
  = find_local_cmd
      (pmd (snd (carry_out_all os (Orders.cmds orders) false (accepted orders m))))
      (SheriffCmd.sheriff_id rec).
Proof.
  intros Hme fresh listed.
  rewrite (order_fresh os max_age orders m Hme fresh).
  unfold find_local_cmd. rewrite carried_out_list.
  set (after_loop := snd (carry_out_all os (Orders.cmds orders) false
                            (accepted orders m))).
  destruct (cull_pass os orders (pm (pmd after_loop)) after_loop _ _
              (surjective_pairing _)) as [_ C].
  set (is_it := fun cand => sheriff_id (user cand) =? SheriffCmd.sheriff_id rec).
  rewrite <- (find_filter_sub is_it (named orders)), C,
    (find_filter_sub is_it (named orders)).
  - reflexivity.
  - intros q Hq. apply Z.eqb_eq in Hq. unfold named.
    rewrite (named_not_orphaned orders rec q listed Hq). reflexivity.
  - intros q Hq. apply Z.eqb_eq in Hq. unfold named.
    rewrite (named_not_orphaned orders rec q listed Hq). reflexivity.
Qed.

Lemma find_local_cmd_some s sid :
  In sid (sids (pm s)) -> exists p, find_local_cmd s sid = Some p.
Proof.
  unfold sids, find_local_cmd. intros Hin. apply in_map_iff in Hin.
  destruct Hin as (q & Hq & Hin).
  destruct (find _ (pm s)) as [p|] eqn:F; [exists p; reflexivity|].
  pose proof (find_none _ _ F q Hin) as N. cbn in N.
  rewrite Hq, Z.eqb_refl in N. discriminate.
Qed.

Lemma find_local_cmd_in s sid p :
  find_local_cmd s sid = Some p -> In sid (sids (pm s)).
Proof.
  intros F. pose proof (find_local_cmd_sid _ _ _ F) as Hs.
  unfold find_local_cmd in F. apply find_some in F. destruct F as [Hin _].
  unfold sids. apply in_map_iff. exists p. split; assumption.
Qed.

Lemma carry_out_all_listed os cmds : forall a m sid,
  In sid (map SheriffCmd.sheriff_id cmds) \/ In sid (sids (pm (pmd m))) ->
  In sid (sids (pm (pmd (snd (carry_out_all os cmds a m))))).
Proof.
  induction cmds as [|c rest IH]; intros a m sid H.
  - destruct H as [[]|H]. exact H.
  - cbn [carry_out_all]. rewrite bind_eq. apply IH.
    rewrite carry_out_sids.
    destruct H as [[<-|H]|H].
    + right. destruct (find_local_cmd (pmd m) (SheriffCmd.sheriff_id c)) eqn:F.
      * exact (find_local_cmd_in _ _ _ F).
      * apply in_or_app. right. left. reflexivity.
    + left. exact H.
    + right. destruct (find_local_cmd (pmd m) (SheriffCmd.sheriff_id c));
        [exact H | apply in_or_app; left; exact H].
Qed.

(** X2. When an order is carried out, every one of its command records
    has a handle in the command list afterwards: exactly one, if the
    sheriff_ids of the list were unique before.  If the order has no other
    record for that sheriff_id, the handle has the name, the nickname and
    the group of the record, and if it does not run it has the run id the
    record asks for. *)
Theorem ordered_commands_are_managed os max_age orders m rec
  (mine : for_me orders m = true)
  (fresh : stale os max_age orders m = false)
  (listed : In rec (Orders.cmds orders)) :
  let m' := snd (procman_deputy_order_received os max_age orders m) in
  let sid := SheriffCmd.sheriff_id rec in
  (exists p, find_local_cmd (pmd m') sid = Some p)
  /\ (NoDup (sids (pm (pmd m))) ->
      count_occ Z.eq_dec (sids (pm (pmd m'))) sid = 1%nat)
  /\ (only_record rec (Orders.cmds orders) ->
      exists p,
        find_local_cmd (pmd m') sid = Some p
        /\ follows rec p
        /\ (pid p = 0 -> actual_runid (user p) = SheriffCmd.desired_runid rec)).
Proof.
  intros m' sid.
  assert (E : exists p, find_local_cmd (pmd m') sid = Some p).
  { subst m' sid. rewrite (named_survives os max_age orders m rec mine fresh listed).
    apply find_local_cmd_some, carry_out_all_listed. left.
    apply in_map. exact listed. }
  split; [exact E|split].
  - intros U. apply NoDup_count_occ'.
    + apply order_received_unique. exact U.
    + destruct E as [p E]. exact (find_local_cmd_in _ _ _ E).
  - intros once. subst m' sid.
    rewrite (named_survives os max_age orders m rec mine fresh listed).
    apply (carry_out_all_once os rec
             (fun p => follows rec p
                       /\ (pid p = 0 ->
                           actual_runid (user p) = SheriffCmd.desired_runid rec))).
    + intros a0 m0. apply carry_out_follows.
    + exact once.
    + left. exact listed.
Qed.

Lemma ordered_commands_are_managed_witness :
  let rec := Scenario.rec_sleep "sleep 120" 1 false in
  let orders := Scenario.order [rec] in
  let m' := snd (procman_deputy_order_received Scenario.os Scenario.max_age orders
                   Scenario.busy) in
  for_me orders Scenario.busy = true
  /\ stale Scenario.os Scenario.max_age orders Scenario.busy = false
  /\ In rec (Orders.cmds orders)
  /\ NoDup (sids (pm (pmd Scenario.busy)))
  /\ only_record rec (Orders.cmds orders)
  /\ count_occ Z.eq_dec (sids (pm (pmd m'))) 1 = 1%nat
  /\ exists p, find_local_cmd (pmd m') 1 = Some p /\ follows rec p.
Proof.
  intros rec orders m'.
  assert (Mine : for_me orders Scenario.busy = true) by reflexivity.
  assert (Fresh : stale Scenario.os Scenario.max_age orders Scenario.busy = false)
    by (vm_compute; reflexivity).
  assert (Listed : In rec (Orders.cmds orders)) by (left; reflexivity).
  assert (U : NoDup (sids (pm (pmd Scenario.busy)))).
  { cbn. repeat (constructor; [cbn; intuition discriminate|]). constructor. }
  assert (Once : only_record rec (Orders.cmds orders))
    by (intros r [<-|[]] _; reflexivity).
  destruct (ordered_commands_are_managed Scenario.os Scenario.max_age orders
              Scenario.busy rec Mine Fresh Listed) as (_ & C & F).
  repeat (split; [assumption|]). split; [exact (C U)|].
  destruct (F Once) as (p & Fp & Fo & _). exists p. split; [exact Fp | exact Fo].
Defined.

(** ** Orders that change nothing *)

Lemma store_same sid p l :
  find (has_sid sid) l = Some p -> store sid p l = l.
Proof.
  induction l as [|q l IH]; [discriminate|]. cbn. unfold has_sid at 1.
  destruct (sheriff_id (user q) =? sid); [intros [= ->]; reflexivity|].
  intros F. rewrite (IH F). reflexivity.
Qed.

Lemma set_pm_same m :
  mk_machine (set_pm (pmd m) (pm (pmd m))) (os_calls m) (trace m) (quit m) = m.
Proof. destruct m as [[] ? ? ?]. reflexivity. Qed.

Lemma sync_identity_settled os rec p a :
  follows rec p -> sync_identity os rec p a = (p, a).
Proof.
  intros (F1 & F2 & F3 & _). unfold sync_identity.
  rewrite F1, String.eqb_refl. cbn [negb]. rewrite F2, String.eqb_refl. cbn [negb].
  rewrite F3, String.eqb_refl. reflexivity.
Qed.

Lemma carry_out_settled os rec a m p :
  find_local_cmd (pmd m) (SheriffCmd.sheriff_id rec) = Some p ->
  settled rec p -> carry_out os rec a m = (a, m).
Proof.
  intros F (Fo & Hr & Hq). unfold carry_out. rewrite bind_eq, locate_eq, F.
  cbn [fst snd]. rewrite (sync_identity_settled os rec p a Fo).
  assert (T : transition os rec (procman_get_cmd_status p) p a m = (p, a, m)).
  { unfold transition, procman_get_cmd_status.
    destruct (Z.eqb_spec (pid p) 0) as [Z|NZ].
    - rewrite Hr, Z.eqb_refl. cbn [negb andb]. unfold ret.
      rewrite <- Hr, set_runid_same. reflexivity.
    - rewrite (Hq NZ), Hr, Z.eqb_refl. cbn [negb orb]. unfold ret.
      rewrite <- Hr, set_runid_same. reflexivity. }
  rewrite bind_eq, T. cbn [fst snd]. rewrite bind_eq.
  unfold put_back, modify_pmd, ret. cbn [fst snd].
  destruct Fo as (_ & _ & _ & Fs). rewrite Fs.
  unfold find_local_cmd in F. rewrite (store_same _ _ _ F), set_pm_same.
  reflexivity.
Qed.

Lemma carry_out_all_settled os cmds : forall a m,
  (forall rec, In rec cmds ->
     exists p, find_local_cmd (pmd m) (SheriffCmd.sheriff_id rec) = Some p
               /\ settled rec p) ->
  carry_out_all os cmds a m = (a, m).
Proof.
  induction cmds as [|c rest IH]; intros a m H; [reflexivity|].
  cbn [carry_out_all]. rewrite bind_eq.
  destruct (H c (or_introl eq_refl)) as (p & F & S).
  rewrite (carry_out_settled os c a m p F S). cbn [fst snd].
  apply IH. intros rec Hin. apply H. right. exact Hin.
Qed.

Lemma cull_nothing os orders cmds : forall m,
  Forall (fun p => orphaned orders p = false) cmds ->
  for_each_cmd (cull os orders) cmds m = (cmds, m).
Proof.
  induction cmds as [|p rest IH]; intros m H; [reflexivity|].
  inversion H as [|? ? Hp Hrest]; subst. cbn [for_each_cmd].
  rewrite bind_eq, (cull_named os orders p m Hp). cbn [fst snd].
  rewrite bind_eq, (IH m Hrest). reflexivity.
Qed.

Lemma filter_nothing {A : Type} (f : A -> bool) l :
  Forall (fun x => f x = false) l -> filter f l = [].
Proof.
  induction 1 as [|x l Hx _ IH]; [reflexivity|]. cbn. rewrite Hx. exact IH.
Qed.

(** X3. An order that asks for what is there already changes nothing:
    when every command record finds a handle with its name, nickname,
    group and run id (and does not ask a running one to quit), and every
    handle is named by the order, the order leaves the command list as it
    is and nothing reaches the outside world, no PMD_INFO message either.
    Only the order counters, the sheriffs seen and the clock move. *)
Theorem settled_order_changes_nothing os max_age orders m
  (mine : for_me orders m = true)
  (fresh : stale os max_age orders m = false)
  (as_asked : forall rec, In rec (Orders.cmds orders) ->
     exists p, find_local_cmd (pmd m) (SheriffCmd.sheriff_id rec) = Some p
               /\ settled rec p)
  (all_named : Forall (fun p => orphaned orders p = false) (pm (pmd m))) :
  let m' := snd (procman_deputy_order_received os max_age orders m) in
  m' = accepted orders m
  /\ pm (pmd m') = pm (pmd m)
  /\ trace m' = trace m.
Proof.
  intros m'. assert (E : m' = accepted orders m).
  { subst m'. rewrite (order_fresh os max_age orders m mine fresh).
    unfold carried_out. rewrite bind_eq.
    rewrite (carry_out_all_settled os (Orders.cmds orders) false (accepted orders m))
      by exact as_asked.
    cbn [fst snd]. rewrite !bind_eq. unfold get_pmd. cbn [fst snd].
    change (pm (pmd (accepted orders m))) with (pm (pmd m)).
    rewrite (cull_nothing os orders (pm (pmd m)) _ all_named).
    rewrite (filter_nothing _ _ all_named). unfold when, ret, modify_pmd.
    cbn [fst snd].
    change (pm (pmd m)) with (pm (pmd (accepted orders m))).
    apply set_pm_same. }
  rewrite E. repeat split.
Qed.

Lemma settled_order_changes_nothing_witness :
  let orders :=
    Scenario.order
      [Scenario.rec_sleep "sleep 60" 1 false;
       SheriffCmd.mk "top" "t" "g" 1 false 2;
       SheriffCmd.mk "ls" "l" "g" 1 true 3] in
  let m' := snd (procman_deputy_order_received Scenario.os Scenario.max_age orders
                   Scenario.busy) in
  for_me orders Scenario.busy = true
  /\ stale Scenario.os Scenario.max_age orders Scenario.busy = false
  /\ pm (pmd m') = pm (pmd Scenario.busy) /\ trace m' = [].
Proof.
  intros orders m'.
  assert (Mine : for_me orders Scenario.busy = true) by reflexivity.
  assert (Fresh : stale Scenario.os Scenario.max_age orders Scenario.busy = false)
    by (vm_compute; reflexivity).
  split; [exact Mine|]. split; [exact Fresh|].
  refine (proj2 (settled_order_changes_nothing Scenario.os Scenario.max_age orders
                   Scenario.busy Mine Fresh _ _)).
  - intros rec [<-|[<-|[<-|[]]]]; eexists; (split; [reflexivity|]);
      repeat split; intros; try reflexivity; try contradiction.
  - repeat constructor.
Defined.

(** ** New commands *)

Lemma sync_identity_fresh os rec a :
  sync_identity os rec (fresh_handle os rec) a = (fresh_handle os rec, a).
Proof. apply sync_identity_settled. repeat split. Qed.

Lemma carry_out_unknown os rec a m :
  find_local_cmd (pmd m) (SheriffCmd.sheriff_id rec) = None ->
  carry_out os rec a m =
  let m1 := mk_machine (set_pm (pmd m) (pm (pmd m) ++ [fresh_handle os rec]))
              (os_calls m) (trace m) (quit m) in
  let t := transition os rec PROCMAN_CMD_STOPPED (fresh_handle os rec) true m1 in
  (snd (fst t),
   mk_machine (set_pm (pmd m) (pm (pmd m) ++ [fst (fst t)]))
     (os_calls (snd t)) (trace (snd t)) (quit m)).
Proof.
  intros F. cbv zeta. unfold carry_out. rewrite bind_eq, locate_eq, F. cbn [fst snd].
  rewrite sync_identity_fresh.
  change (procman_get_cmd_status (fresh_handle os rec)) with PROCMAN_CMD_STOPPED.
  rewrite bind_eq.
  set (m1 := mk_machine _ _ _ _).
  destruct (transition_frame os rec PROCMAN_CMD_STOPPED (fresh_handle os rec) true m1)
    as (T1 & T2 & T3).
  destruct (transition os rec PROCMAN_CMD_STOPPED (fresh_handle os rec) true m1)
    as [[p' a'] m2].
  cbn [fst snd] in *. rewrite bind_eq. unfold put_back, modify_pmd, ret. cbn [fst snd].
  rewrite T1, T2, T3. subst m1. cbn [pmd pm set_pm quit].
  rewrite (store_app_new _ p' (pm (pmd m)) (fresh_handle os rec)).
  - destruct (pmd m); reflexivity.
  - exact F.
  - unfold has_sid. cbn. apply Z.eqb_refl.
Qed.

(** X4. A command record whose sheriff_id no handle has makes one handle
    more, at the end of the command list, with the name, nickname, group
    and run id of the record, and counts as an action.  The new handle is
    started only if the record asks for a run id other than 0 and does not
    set force_quit: the run id of a new handle is 0, so a record that asks
    for run id 0 gets a handle that is never spawned. *)
Theorem unknown_command_is_added os rec a m
  (unknown : find_local_cmd (pmd m) (SheriffCmd.sheriff_id rec) = None) :
  let r := carry_out os rec a m in
  let child := fst (OS.fork os (os_calls m)) in
  fst r = true
  /\ (exists p,
        pm (pmd (snd r)) = pm (pmd m) ++ [p]
        /\ follows rec p
        /\ actual_runid (user p) = SheriffCmd.desired_runid rec
        /\ (asks_start rec = false -> pid p = 0 /\ stdout_ioc (user p) = None)
        /\ (asks_start rec = true -> child <= 0 ->
            pid p = 0 /\ stdout_ioc (user p) = None)
        /\ (asks_start rec = true -> 0 < child -> pid p = child))
  /\ (asks_start rec = false -> trace (snd r) = trace m)
  /\ (asks_start rec = true ->
      spawns (trace (snd r)) = spawns (trace m) ++ [(SheriffCmd.name rec, child)])
  /\ signals_sent (trace (snd r)) = signals_sent (trace m).
Proof.
  intros r child. subst r. rewrite (carry_out_unknown os rec a m unknown). cbv zeta.
  set (m1 := mk_machine _ _ _ _).
  unfold transition, asks_start.
  change (actual_runid (user (fresh_handle os rec))) with 0.
  destruct (negb (0 =? SheriffCmd.desired_runid rec) && negb (SheriffCmd.force_quit rec)).
  - rewrite bind_eq.
    subst child.
    destruct (Z_le_gt_dec (fst (OS.fork os (os_calls m))) 0) as [F|F].
    + rewrite (start_cmd_fails os _ _ m1 F). unfold ret, couldnt_start. subst m1.
      cbn [fst snd pmd trace os_calls].
      split; [reflexivity|]. split.
      { eexists. split; [reflexivity|]. repeat split; try discriminate; intros; lia. }
      split; [discriminate|]. split.
      * intros _. rewrite spawns_app. reflexivity.
      * rewrite signals_sent_app. cbn. rewrite app_nil_r. reflexivity.
    + rewrite (start_cmd_succeeds os _ _ m1 ltac:(subst m1; cbn [os_calls]; lia)).
      unfold ret. subst m1. cbn [fst snd pmd trace os_calls].
      split; [reflexivity|]. split.
      { eexists. split; [reflexivity|]. repeat split; try discriminate; intros; lia. }
      split; [discriminate|]. split.
      * intros _. rewrite spawns_app. reflexivity.
      * rewrite signals_sent_app. cbn. rewrite app_nil_r. reflexivity.
  - cbn [fst snd ret]. subst m1. cbn [trace].
    split; [reflexivity|]. split.
    { eexists. split; [reflexivity|]. repeat split; try discriminate. }
    split; [reflexivity|]. split; [discriminate | reflexivity].
Qed.

Lemma unknown_command_is_added_witness :
  let rec := SheriffCmd.mk "xterm" "x" "g" 0 false 9 in
  let r := carry_out Scenario.os rec false Scenario.busy in
  find_local_cmd (pmd Scenario.busy) 9 = None
  /\ fst r = true /\ trace (snd r) = []
  /\ exists p, pm (pmd (snd r)) = pm (pmd Scenario.busy) ++ [p] /\ pid p = 0.
Proof.
  intros rec r.
  assert (U : find_local_cmd (pmd Scenario.busy) (SheriffCmd.sheriff_id rec) = None)
    by reflexivity.
  destruct (unknown_command_is_added Scenario.os rec false Scenario.busy U)
    as (A & (p & L & _ & _ & P & _) & T & _).
  split; [exact U|]. split; [exact A|]. split; [exact (T eq_refl)|].
  exists p. split; [exact L | exact (proj1 (P eq_refl))].
Defined.

(** ** What a handler lets out *)

Section Silent.

Variable sel : event -> bool.

Lemma silent_ret {A : Type} (a : A) : silent sel (ret a).
Proof. intros m. reflexivity. Qed.

Lemma silent_bind {A B : Type} (c : M A) (k : A -> M B) :
  silent sel c -> (forall a, silent sel (k a)) -> silent sel (bind c k).
Proof.
  intros Hc Hk m. rewrite bind_eq, Hk. apply Hc.
Qed.

Lemma silent_ask os {A : Type} (answer : OS.t -> nat -> A) : silent sel (ask os answer).
Proof. intros m. reflexivity. Qed.

Lemma silent_emit e : sel e = false -> silent sel (emit e).
Proof.
  intros H m. cbn. rewrite filter_app. cbn. rewrite H. apply app_nil_r.
Qed.

Lemma silent_get_pmd : silent sel get_pmd.
Proof. intros m. reflexivity. Qed.

Lemma silent_modify_pmd f : silent sel (modify_pmd f).
Proof. intros m. reflexivity. Qed.

Lemma silent_when b c : silent sel c -> silent sel (when b c).
Proof. intros H. destruct b; [exact H | apply silent_ret]. Qed.

Lemma silent_timestamp_now os : silent sel (timestamp_now os).
Proof. intros m. rewrite timestamp_now_eq. reflexivity. Qed.

Create HintDb silent.

#[local] Hint Resolve silent_ret silent_ask silent_get_pmd silent_modify_pmd
  silent_timestamp_now : silent.

#[local] Hint Extern 1 (silent _ (emit _)) => simple apply silent_emit : silent.

(** Peel the binds of a handler, closing what the hints close. *)
Ltac hush :=
  repeat first
    [ solve [auto with silent]
    | simple apply silent_when
    | simple apply silent_bind; [|intros ?] ].

Lemma silent_for_each_cmd body cmds :
  (forall p, silent sel (body p)) -> silent sel (for_each_cmd body cmds).
Proof.
  intros Hb. induction cmds as [|p rest IH]; cbn [for_each_cmd]; hush.
Qed.

Lemma silent_sample_cmd os bits ellapsed cmd : silent sel (sample_cmd os bits ellapsed cmd).
Proof.
  unfold sample_cmd. hush.
  destruct (negb (pid cmd =? 0)); hush. destruct a as [status fill].
  destruct (negb (status =? 0)); [hush|]. destruct (_ || _); hush.
Qed.

Lemma silent_update_cpu_times os bits : silent sel (update_cpu_times os bits).
Proof.
  unfold update_cpu_times. hush. destruct a as [status fill]. hush.
  apply silent_for_each_cmd. intros p. apply silent_sample_cmd.
Qed.

(** From here on [sel] selects no PMD_PRINTF message. *)
Hypothesis no_printf : forall msg, sel (PMD_PRINTF msg) = false.

Lemma silent_transmit_str os sid str : silent sel (transmit_str os sid str).
Proof. unfold transmit_str. hush. Qed.

Lemma silent_printf_and_transmit os sid text : silent sel (printf_and_transmit os sid text).
Proof.
  unfold printf_and_transmit. destruct (_ =? _)%nat; hush.
Qed.

#[local] Hint Resolve silent_transmit_str silent_printf_and_transmit : silent.

(** From here on [sel] selects no diagnostic either. *)
Hypothesis no_dbgt : forall fmt, sel (Dbgt fmt) = false.

Lemma silent_pipe_data_ready os condition cmd : silent sel (pipe_data_ready os condition cmd).
Proof.
  unfold pipe_data_ready. hush.
  destruct a as [[bytes data] errno].
  destruct (bytes <? 0); [hush|]. destruct (bytes =? 0); hush.
Qed.

Lemma silent_report_stale os now utime cmds : silent sel (report_stale os now utime cmds).
Proof. induction cmds as [|c rest IH]; cbn [report_stale]; hush. Qed.

(** From here on [sel] selects no removal of a watch and no closing of a
    pipe. *)
Hypothesis no_unwatch : forall source, sel (WatchRemoved source) = false.
Hypothesis no_close : forall fd, sel (PipeClosed fd) = false.

Lemma silent_reap os : silent sel (procman_check_for_dead_children os).
Proof.
  unfold procman_check_for_dead_children. hush. destruct a as [child status].
  destruct (child <=? 0); hush.
  destruct (split_at_pid child (pm a)) as [[[before p] after]|]; hush.
Qed.

Lemma silent_bury os before cmd after : silent sel (bury os before cmd after).
Proof.
  unfold bury. hush.
  - apply silent_pipe_data_ready.
  - destruct (stdout_ioc (user cmd)); hush.
    unfold procman_close_dead_pipes. destruct (_ <? 0); hush.
Qed.

Lemma silent_watch_fired os source condition :
  silent sel
    (s <- get_pmd ;;
     match find (watched_by source) (pm s) with
     | Some cmd =>
         keep <- pipe_data_ready os condition cmd ;;
         when (negb keep) (emit (WatchRemoved source))
     | None => ret tt
     end).
Proof.
  hush. destruct (find (watched_by source) (pm a)); hush.
  apply silent_pipe_data_ready.
Qed.

(** From here on [sel] selects no PMD_INFO message. *)
Hypothesis no_info : forall msg, sel (PMD_INFO msg) = false.

Lemma silent_transmit_proc_info os : silent sel (transmit_proc_info os).
Proof. unfold transmit_proc_info. hush. Qed.

#[local] Hint Resolve silent_reap silent_bury silent_transmit_proc_info : silent.

Lemma silent_bury_all os fuel : forall before cmd after,
  silent sel (bury_all os fuel before cmd after).
Proof.
  induction fuel as [|fuel IH]; intros before cmd after; cbn [bury_all]; hush.
  - destruct a0 as [[[b c] a0]|]; hush.
  - destruct a0 as [[[b c] a0]|]; hush.
Qed.

Lemma silent_check_for_dead_children os : silent sel (check_for_dead_children os).
Proof.
  unfold check_for_dead_children. hush.
  destruct a as [[[b c] a]|]; hush. apply silent_bury_all.
Qed.

(** The timers, the pipe handler and the handler of SIGCHLD. *)
Lemma silent_dispatch_passive os max_age bits i :
  (forall orders, i <> OrdersMsg orders) ->
  (forall signum, i = Signal signum -> signum = SIGCHLD) ->
  silent sel (dispatch os max_age bits i).
Proof.
  intros Ho Hs. destruct i as [orders|signum| | |source condition]; cbn [dispatch].
  - contradiction (Ho orders eq_refl).
  - unfold glib_handle_signal. rewrite (Hs signum eq_refl), Z.eqb_refl.
    apply silent_check_for_dead_children.
  - unfold one_second_timeout. hush. apply silent_update_cpu_times.
  - unfold introspection_timeout. hush.
  - apply silent_watch_fired.
Qed.

(** From here on [sel] selects no SIGTERM and no SIGKILL sent to a pid
    other than 0, and not the stop of the main loop. *)
Hypothesis kill_ok : forall p signum,
  p <> 0 -> signum = SIGTERM \/ signum = SIGKILL -> sel (Killed p signum) = false.
Hypothesis no_quit : sel MainLoopQuit = false.

Lemma silent_stop_cmd os cmd : silent sel (stop_cmd os cmd).
Proof.
  unfold stop_cmd. destruct (Z.eqb_spec (pid cmd) 0) as [|NZ]; hush.
  destruct (_ && _); hush.
  destruct (5 <? _); unfold procman_kill_cmd;
    (destruct (Z.eqb_spec (pid cmd) 0); [contradiction|]); hush;
    apply silent_emit, kill_ok; auto.
Qed.

#[local] Hint Resolve silent_stop_cmd silent_for_each_cmd : silent.

Lemma silent_cull os orders p : silent sel (cull os orders p).
Proof.
  unfold cull. destruct (orphaned orders p); [|hush].
  destruct (negb (pid p =? 0)); hush. destruct a. hush.
Qed.

Lemma silent_remove_cmds os cmds : silent sel (remove_cmds os cmds).
Proof.
  induction cmds as [|p rest IH]; cbn [remove_cmds]; hush.
  - destruct (pid p =? 0); hush.
  - destruct a. hush. destruct a. hush.
Qed.

Lemma silent_remove_all_cmds os : silent sel (remove_all_cmds os).
Proof.
  unfold remove_all_cmds. hush; [apply silent_remove_cmds|]. destruct a0. hush.
Qed.

(** Every handler but the reconciler. *)
Lemma silent_dispatch_other os max_age bits i :
  (forall orders, i <> OrdersMsg orders) -> silent sel (dispatch os max_age bits i).
Proof.
  intros Ho. destruct i as [orders|signum| | |source condition].
  - contradiction (Ho orders eq_refl).
  - cbn [dispatch]. unfold glib_handle_signal. destruct (signum =? SIGCHLD).
    + apply silent_check_for_dead_children.
    + hush. all: try apply silent_remove_all_cmds.
      all: try (apply silent_emit, no_quit). all: try (intros m; reflexivity).
  - apply silent_dispatch_passive; [exact Ho | intros s Hs; discriminate Hs].
  - apply silent_dispatch_passive; [exact Ho | intros s Hs; discriminate Hs].
  - apply silent_dispatch_passive; [exact Ho | intros s Hs; discriminate Hs].
Qed.

(** From here on [sel] selects no spawn and no new watch. *)
Hypothesis no_fork : forall name result, sel (Forked name result) = false.
Hypothesis no_watch : forall fd source, sel (WatchAdded fd source) = false.

Lemma silent_start_cmd os cmd want : silent sel (start_cmd os cmd want).
Proof.
  unfold start_cmd, procman_start_cmd. hush.
  - destruct a as [child fd]. hush. all: destruct (child <=? 0); hush.
  - destruct a as [status cmd']. destruct (negb (status =? 0)); hush.
Qed.

#[local] Hint Resolve silent_start_cmd : silent.

Lemma silent_carry_out os cmd a : silent sel (carry_out os cmd a).
Proof.
  unfold carry_out. hush.
  - unfold locate, procman_add_cmd. hush.
    destruct (find_local_cmd _ _); hush.
  - destruct a0 as [p a0]. destruct (sync_identity os cmd p a0) as [p1 a1]. hush.
    + unfold transition. destruct (procman_get_cmd_status p).
      * destruct (_ && _); hush. destruct a2. hush.
      * destruct (_ || _); hush. destruct a2. hush.
    + destruct a2. unfold put_back. hush.
Qed.

Lemma silent_carry_out_all os cmds : forall a, silent sel (carry_out_all os cmds a).
Proof.
  induction cmds as [|c rest IH]; intros a; cbn [carry_out_all]; hush.
  apply silent_carry_out.
Qed.

#[local] Hint Resolve silent_carry_out_all silent_cull silent_report_stale : silent.

Lemma silent_order_received os max_age orders :
  silent sel (procman_deputy_order_received os max_age orders).
Proof.
  unfold procman_deputy_order_received. hush.
  destruct (negb _); hush. destruct (_ <? _); hush.
Qed.

Lemma silent_dispatch os max_age bits i : silent sel (dispatch os max_age bits i).
Proof.
  destruct i as [orders|signum| | |source condition];
    [apply silent_order_received|..];
    apply silent_dispatch_other; intros o Ho; discriminate Ho.
Qed.

Lemma silent_step os max_age bits m i :
  filter sel (trace (step os max_age bits m i)) = filter sel (trace m).
Proof. unfold step. destruct (quit m); [reflexivity | apply silent_dispatch]. Qed.

Lemma silent_run os max_age bits inputs : forall m,
  filter sel (trace (run os max_age bits m inputs)) = filter sel (trace m).
Proof.
  induction inputs as [|i rest IH]; intros m; [reflexivity|].
  cbn [run fold_left]. fold (run os max_age bits (step os max_age bits m i) rest).
  rewrite IH. apply silent_step.
Qed.

End Silent.

(** ** Telemetry of an order *)

Lemma sync_identity_flag os rec p a :
  snd (sync_identity os rec p a) = a || renames rec p.
Proof.
  unfold sync_identity, renames.
  destruct (negb (cmd_str p =? SheriffCmd.name rec)%string);
  match goal with |- context [negb (nickname (user ?q) =? _)%string] =>
    change (nickname (user q)) with (nickname (user p));
    destruct (negb (nickname (user p) =? SheriffCmd.nickname rec)%string) end;
  match goal with |- context [negb (group (user ?q) =? _)%string] =>
    change (group (user q)) with (group (user p));
    destruct (negb (group (user p) =? SheriffCmd.group rec)%string) end;
  destruct a; reflexivity.
Qed.

Lemma transition_flag os rec p0 p a m :
  pid p0 = pid p ->
  snd (fst (transition os rec (procman_get_cmd_status p0) p a m))
  = a || switches rec p.
Proof.
  intros Hp. unfold transition, procman_get_cmd_status, switches. rewrite Hp.
  destruct (pid p =? 0).
  - destruct (_ && _).
    + rewrite bind_eq. destruct (start_cmd os p _ m) as [[st p1] m1].
      cbn. rewrite orb_true_r. reflexivity.
    + cbn. rewrite orb_false_r. reflexivity.
  - destruct (_ || _).
    + rewrite bind_eq. destruct (stop_cmd os p m) as [[st p1] m1].
      cbn. rewrite orb_true_r. reflexivity.
    + cbn. rewrite orb_false_r. reflexivity.
Qed.

Lemma switches_frame rec p p' :
  pid p' = pid p -> actual_runid (user p') = actual_runid (user p) ->
  switches rec p' = switches rec p.
Proof. unfold switches. intros -> ->. reflexivity. Qed.

Lemma carry_out_flag os rec a m : fst (carry_out os rec a m) = a || acts m rec.
Proof.
  unfold acts. destruct (find_local_cmd (pmd m) (SheriffCmd.sheriff_id rec)) as [p|] eqn:F.
  - unfold carry_out. rewrite bind_eq, locate_eq, F. cbn [fst snd].
    pose proof (sync_identity_flag os rec p a) as Fl.
    pose proof (sync_identity_any_flag os rec p a) as An.
    destruct (sync_identity_frame os rec p false) as (S1 & _ & _ & _ & S5 & _).
    destruct (sync_identity os rec p a) as [p1 a1]. cbn [fst snd] in Fl, An.
    rewrite <- An in S1, S5.
    rewrite bind_eq.
    pose proof (transition_flag os rec p p1 a1 m (eq_sym S1)) as T.
    destruct (transition os rec (procman_get_cmd_status p) p1 a1 m) as [[p2 a2] m2].
    cbn [fst snd] in *. rewrite bind_eq. cbn [fst snd ret].
    rewrite T, Fl, (switches_frame rec p p1 S1 S5). symmetry. apply orb_assoc.
  - rewrite (carry_out_unknown os rec a m F). cbv zeta. cbn [fst].
    rewrite (transition_flag os rec (fresh_handle os rec) (fresh_handle os rec) true _
               eq_refl).
    rewrite orb_true_r. reflexivity.
Qed.

Lemma acts_other os c a m rec :
  SheriffCmd.sheriff_id c <> SheriffCmd.sheriff_id rec ->
  acts (snd (carry_out os c a m)) rec = acts m rec.
Proof. intros H. unfold acts. rewrite carry_out_other by exact H. reflexivity. Qed.

Lemma existsb_same {A : Type} (f g : A -> bool) l :
  (forall x, In x l -> f x = g x) -> existsb f l = existsb g l.
Proof.
  induction l as [|x l IH]; intros H; [reflexivity|]. cbn.
  rewrite (H x (or_introl eq_refl)), IH; [reflexivity|].
  intros y Hy. apply H. right. exact Hy.
Qed.

Lemma carry_out_all_flag os cmds : forall a m,
  NoDup (map SheriffCmd.sheriff_id cmds) ->
  fst (carry_out_all os cmds a m) = a || existsb (acts m) cmds.
Proof.
  induction cmds as [|c rest IH]; intros a m U; [cbn; rewrite orb_false_r; reflexivity|].
  cbn [carry_out_all existsb]. rewrite bind_eq. cbn [map] in U.
  inversion U as [|? ? Hnot U']; subst.
  rewrite (IH _ _ U'), carry_out_flag, <- orb_assoc. f_equal. f_equal.
  apply existsb_same. intros r Hr. apply acts_other.
  intros E. apply Hnot. rewrite E. apply in_map. exact Hr.
Qed.

Lemma existsb_filter {A : Type} (f : A -> bool) l :
  existsb f l = match filter f l with [] => false | _ :: _ => true end.
Proof.
  induction l as [|x l IH]; [reflexivity|]. cbn. destruct (f x); [reflexivity|exact IH].
Qed.

Lemma hostname_set_pm s l : hostname (set_pm s l) = hostname s.
Proof. reflexivity. Qed.

Lemma hostname_set_sys_cpu s t0 t1 load : hostname (set_sys_cpu s t0 t1 load) = hostname s.
Proof. reflexivity. Qed.

(** X5. An order that is carried out publishes a PMD_INFO message exactly
    when it changes something: when one of its command records finds no
    handle, or another name, nickname or group than it asks for, or starts
    or stops its handle, or when a handle is not named by the order.  The
    message is then the last thing the order does and lists the command
    list as the order leaves it.  The command records are taken to have
    different sheriff_ids. *)
Theorem order_reports_changes os max_age orders m
  (mine : for_me orders m = true)
  (fresh : stale os max_age orders m = false)
  (distinct : NoDup (map SheriffCmd.sheriff_id (Orders.cmds orders))) :
  let m' := snd (procman_deputy_order_received os max_age orders m) in
  (changes orders m = false ->
   filter is_info (trace m') = filter is_info (trace m))
  /\ (changes orders m = true ->
      exists earlier info,
        trace m' = earlier ++ [PMD_INFO info]
        /\ filter is_info earlier = filter is_info (trace m)
        /\ Info.cmds info = map deputy_cmd_of (pm (pmd m'))
        /\ Info.host info = hostname (pmd m)).
Proof.
  intros m'. subst m'. rewrite (order_fresh os max_age orders m mine fresh).
  unfold carried_out. rewrite !bind_eq. unfold get_pmd. cbn [fst snd].
  set (looped := carry_out_all os (Orders.cmds orders) false (accepted orders m)).
  assert (Fl : (match filter (orphaned orders) (pm (pmd (snd looped))) with
                | [] => fst looped
                | _ :: _ => true
                end) = changes orders m).
  { unfold changes. subst looped. rewrite (carry_out_all_flag os _ _ _ distinct).
    rewrite (carry_out_all_keeps (orphaned orders)).
    - change (pm (pmd (accepted orders m))) with (pm (pmd m)).
      rewrite (existsb_filter (orphaned orders)). cbn [orb].
      destruct (filter (orphaned orders) (pm (pmd m)));
        [rewrite orb_false_r | rewrite orb_true_r]; reflexivity.
    - intros cmd q Hin Hs. exact (named_not_orphaned orders cmd q Hin Hs). }
  rewrite Fl.
  set (culled := for_each_cmd (cull os orders) (pm (pmd (snd looped))) (snd looped)).
  assert (Tr : filter is_info (trace (snd culled)) = filter is_info (trace m)).
  { subst culled. rewrite silent_for_each_cmd.
    - subst looped. rewrite silent_carry_out_all; try reflexivity.
    - intros p. apply silent_cull; reflexivity. }
  assert (Ho : hostname (pmd (snd culled)) = hostname (pmd m)).
  { subst culled. rewrite (preserves_for_each_cmd hostname).
    - subst looped.
      rewrite (preserves_carry_out_all hostname hostname_set_pm). reflexivity.
    - intros p. apply preserves_cull. }
  split; intros C; rewrite C; unfold when, modify_pmd.
  - cbn [fst snd ret trace]. exact Tr.
  - unfold transmit_proc_info. rewrite !bind_eq. unfold get_pmd.
    rewrite timestamp_now_eq. cbn [fst snd]. unfold emit. cbn [fst snd trace pmd asked].
    eexists. eexists. split; [reflexivity|]. split; [exact Tr|].
    split; [reflexivity | exact Ho].
Qed.

Lemma order_reports_changes_witness :
  let orders := Scenario.order [Scenario.rec_sleep "sleep 60" 1 false] in
  let m' := snd (procman_deputy_order_received Scenario.os Scenario.max_age orders
                   Scenario.busy) in
  for_me orders Scenario.busy = true
  /\ stale Scenario.os Scenario.max_age orders Scenario.busy = false
  /\ NoDup (map SheriffCmd.sheriff_id (Orders.cmds orders))
  /\ changes orders Scenario.busy = true
  /\ exists earlier info,
       trace m' = earlier ++ [PMD_INFO info]
       /\ map DeputyCmd.sheriff_id (Info.cmds info) = [1; 2].
Proof.
  intros orders m'.
  assert (Mine : for_me orders Scenario.busy = true) by reflexivity.
  assert (Fresh : stale Scenario.os Scenario.max_age orders Scenario.busy = false)
    by (vm_compute; reflexivity).
  assert (U : NoDup (map SheriffCmd.sheriff_id (Orders.cmds orders)))
    by (repeat constructor; intros []).
  assert (C : changes orders Scenario.busy = true) by reflexivity.
  repeat (split; [assumption|]).
  destruct (proj2 (order_reports_changes Scenario.os Scenario.max_age orders
                     Scenario.busy Mine Fresh U) C) as (earlier & info & T & _ & L & _).
  exists earlier, info. split; [exact T|]. rewrite L. vm_compute. reflexivity.
Defined.

(** ** stop_cmd, once more *)

(** X6. After [stop_cmd] has sent a signal at the time [now], a call on
    the same handle at a time before [now + 900000] sends nothing and leaves
    the handle as it is, whatever happened in between: of two calls less
    than 900 ms apart, only the first sends a signal.  This needs [now] to
    be other than 0, the value that stands for "no signal sent yet": after a
    signal sent at time 0 the next call is not held back. *)
Theorem stop_cmd_holds_back os cmd m
  (runs : pid cmd <> 0)
  (due : rate_limited os cmd m = false) :
  let now := clock os (os_calls m) in
  let cmd1 := snd (fst (stop_cmd os cmd m)) in
  signals_sent (trace (snd (stop_cmd os cmd m)))
  = signals_sent (trace m) ++ [(pid cmd, signal_for (num_kills_sent (user cmd)))]
  /\ (now <> 0 -> now <= CInt.INT64_MAX - 900000 ->
      forall later,
        clock os (os_calls later) < now + 900000 ->
        stop_cmd os cmd1 later = (0, cmd1, asked later))
  /\ (now = 0 -> forall later, rate_limited os cmd1 later = false).
Proof.
  intros now cmd1.
  destruct (stop_cmd_step os cmd m runs due) as (status & m1 & E & Sg & _).
  assert (C1 : cmd1 = signalled cmd now) by (subst cmd1; rewrite E; reflexivity).
  assert (L : last_kill_time (user cmd1) = now) by (rewrite C1; reflexivity).
  assert (P : pid cmd1 = pid cmd) by (rewrite C1; reflexivity).
  split; [rewrite E; exact Sg|]. split.
  - intros NZ NO later Hl. apply stop_cmd_limited; [rewrite P; exact runs|].
    assert (R : CInt.in_int64 now) by apply int64_range.
    apply rate_limited_spec; rewrite L.
    + unfold CInt.in_int64 in R. lia.
    + split; [exact NZ | exact Hl].
  - intros Z later. unfold rate_limited. rewrite L, Z. reflexivity.
Qed.

Lemma stop_cmd_holds_back_witness :
  let cmd := Scenario.sleep60 101 0 0 in
  let cmd1 := snd (fst (stop_cmd Scenario.os cmd Scenario.busy)) in
  pid cmd <> 0
  /\ rate_limited Scenario.os cmd Scenario.busy = false
  /\ clock Scenario.os 0 <> 0
  /\ clock Scenario.os 0 <= CInt.INT64_MAX - 900000
  /\ clock Scenario.os (os_calls Scenario.busy) < clock Scenario.os 0 + 900000
  /\ stop_cmd Scenario.os cmd1 Scenario.busy = (0, cmd1, asked Scenario.busy).
Proof.
  intros cmd cmd1.
  assert (Runs : pid cmd <> 0) by discriminate.
  assert (Due : rate_limited Scenario.os cmd Scenario.busy = false) by reflexivity.
  assert (NZ : clock Scenario.os 0 <> 0)
    by (rewrite scenario_clock by lia; discriminate).
  assert (NO : clock Scenario.os 0 <= CInt.INT64_MAX - 900000)
    by (rewrite scenario_clock by lia; discriminate).
  assert (Soon : clock Scenario.os (os_calls Scenario.busy)
                 < clock Scenario.os 0 + 900000)
    by (cbn [os_calls Scenario.busy]; lia).
  repeat (split; [assumption|]).
  destruct (stop_cmd_holds_back Scenario.os cmd Scenario.busy Runs Due) as (_ & H & _).
  exact (H NZ NO Scenario.busy Soon).
Defined.

(** X7. When the kill of [stop_cmd] fails, the error text is published
    in one PMD_PRINTF line under the sheriff_id of the command, [stop_cmd]
    returns the status of the kill, and the attempt counts all the same:
    the kill count goes up and the time of the attempt is kept.  A kill that
    succeeds publishes nothing. *)
Theorem failed_kill_is_reported os cmd m
  (runs : pid cmd <> 0)
  (due : rate_limited os cmd m = false) :
  let r := stop_cmd os cmd m in
  let status := OS.kill os (S (os_calls m)) in
  let signal := Killed (pid cmd) (signal_for (num_kills_sent (user cmd))) in
  fst (fst r) = status
  /\ num_kills_sent (user (snd (fst r))) = CInt.incr (num_kills_sent (user cmd))
  /\ last_kill_time (user (snd (fst r))) = clock os (os_calls m)
  /\ (status = 0 -> trace (snd r) = trace m ++ [signal])
  /\ (status <> 0 ->
      exists line,
        trace (snd r) = trace m ++ [signal; PMD_PRINTF line]
        /\ Printf.sheriff_id line = sheriff_id (user cmd)
        /\ Printf.deputy_name line = hostname (pmd m)
        /\ Printf.text line
           = vsnprintf_256 ("kill: " ++ OS.strerror os (CInt.int32 (- status)) ++ LF)).
Proof.
  intros r status signal. subst r. rewrite (stop_cmd_signals os cmd m runs due).
  cbn [fst snd trace]. fold status. unfold kill_report. fold status.
  split; [reflexivity|]. split; [reflexivity|]. split; [reflexivity|]. split.
  - intros ->. reflexivity.
  - intros NZ. destruct (Z.eqb_spec status 0) as [|_]; [contradiction|].
    eexists. split; [reflexivity|]. repeat split.
Qed.

Lemma failed_kill_is_reported_witness :
  let cmd := Scenario.sleep60 101 0 0 in
  let r := stop_cmd Worlds.os_no_kill cmd Scenario.busy in
  pid cmd <> 0
  /\ rate_limited Worlds.os_no_kill cmd Scenario.busy = false
  /\ fst (fst r) = -3
  /\ num_kills_sent (user (snd (fst r))) = 1
  /\ exists line,
       trace (snd r) = [Killed 101 SIGTERM; PMD_PRINTF line]
       /\ Printf.sheriff_id line = 1.
Proof.
  intros cmd r.
  assert (Runs : pid cmd <> 0) by discriminate.
  assert (Due : rate_limited Worlds.os_no_kill cmd Scenario.busy = false)
    by reflexivity.
  split; [exact Runs|]. split; [exact Due|].
  destruct (failed_kill_is_reported Worlds.os_no_kill cmd Scenario.busy Runs Due)
    as (S & N & _ & _ & F).
  split; [exact S|]. split; [exact N|].
  destruct F as (line & T & I & _); [discriminate|].
  exists line. split; [exact T | exact I].
Defined.

(** ** The output of the children *)

Section Says.

Variable host : string.
Variable sid : Z.

Lemma says_ret {A : Type} (a : A) : says host sid [] (ret a).
Proof.
  intros m _. exists []. split; [symmetry; apply app_nil_r|].
  split; [constructor|]. split; reflexivity.
Qed.

Lemma says_bind {A B : Type} (c : M A) (k : A -> M B) t1 t2 :
  says host sid t1 c -> (forall a, says host sid t2 (k a)) ->
  says host sid (t1 ++ t2) (bind c k).
Proof.
  intros Hc Hk m Hm. rewrite bind_eq.
  destruct (Hc m Hm) as (l1 & T1 & F1 & X1 & P1).
  destruct (Hk (fst (c m)) (snd (c m))) as (l2 & T2 & F2 & X2 & P2);
    [rewrite P1; exact Hm|].
  exists (l1 ++ l2). rewrite T2, T1, !map_app, app_assoc, P2, P1, X1, X2.
  split; [reflexivity|]. split; [apply Forall_app; split; assumption|].
  split; reflexivity.
Qed.

Lemma says_when (b : bool) c t :
  says host sid t c -> says host sid (if b then t else []) (when b c).
Proof. intros H. destruct b; [exact H | apply says_ret]. Qed.

Lemma says_transmit_str os str : says host sid [str] (transmit_str os sid str).
Proof.
  intros m Hm. unfold transmit_str. rewrite !bind_eq. unfold get_pmd.
  rewrite timestamp_now_eq. cbn [fst snd]. unfold emit. cbn [fst snd trace pmd asked].
  exists [Printf.mk (hostname (pmd m)) sid str (clock os (os_calls m))].
  split; [reflexivity|]. split; [|split; reflexivity].
  constructor; [split; [exact Hm | reflexivity] | constructor].
Qed.

End Says.

(** The lines [pipe_data_ready] publishes for the conditions other than
    G_IO_IN. *)
Lemma says_conditions os condition sid host :
  says host sid
    ((if has_condition condition G_IO_ERR
      then [("procman deputy: detected G_IO_ERR." ++ LF)%string] else [])
     ++ (if has_condition condition G_IO_HUP
         then [("procman deputy: detected G_IO_HUP.  end of output" ++ LF)%string] else [])
     ++ (if has_condition condition G_IO_NVAL
         then [("procman deputy: detected G_IO_NVAL.  end of output" ++ LF)%string] else [])
     ++ (if has_condition condition G_IO_PRI
         then [("procman deputy: unexpected G_IO_PRI... wtf?" ++ LF)%string] else [])
     ++ (if has_condition condition G_IO_OUT
         then [("procman deputy: unexpected G_IO_OUT... wtf?" ++ LF)%string] else []))
    (when (has_condition condition G_IO_ERR)
       (transmit_str os sid ("procman deputy: detected G_IO_ERR." ++ LF)) ;;
     when (has_condition condition G_IO_HUP)
       (transmit_str os sid ("procman deputy: detected G_IO_HUP.  end of output" ++ LF)) ;;
     when (has_condition condition G_IO_NVAL)
       (transmit_str os sid ("procman deputy: detected G_IO_NVAL.  end of output" ++ LF)) ;;
     when (has_condition condition G_IO_PRI)
       (transmit_str os sid ("procman deputy: unexpected G_IO_PRI... wtf?" ++ LF)) ;;
     when (has_condition condition G_IO_OUT)
       (transmit_str os sid ("procman deputy: unexpected G_IO_OUT... wtf?" ++ LF)) ;;
     ret (negb (has_condition condition G_IO_HUP || has_condition condition G_IO_NVAL))).
Proof.
  repeat (apply says_bind; [apply says_when, says_transmit_str | intros _]).
  rewrite <- (app_nil_r (if has_condition condition G_IO_OUT then _ else _)).
  apply says_bind; [apply says_when, says_transmit_str | intros _].
  apply says_ret.
Qed.

Lemma c_str_spec s : c_string_of s (c_str s).
Proof.
  split.
  - induction s as [|c rest (tail & E & T)]; cbn [c_str].
    + exists EmptyString. split; [reflexivity | left; reflexivity].
    + destruct (Ascii.eqb_spec c zero) as [->|_].
      * exists (String zero rest). split; [reflexivity | right; exists rest; reflexivity].
      * exists tail. split; [cbn; f_equal; exact E | exact T].
  - induction s as [|c rest IH]; cbn [c_str]; intros i.
    + destruct i; discriminate.
    + destruct (Ascii.eqb_spec c zero) as [->|N]; [destruct i; discriminate|].
      destruct i as [|i]; cbn [get]; [intros E; injection E as E; contradiction | apply IH].
Qed.

(** What [pipe_data_ready] lets out: the read error as the format of a
    diagnostic, then the lines. *)
Lemma pipe_data_ready_spec os condition cmd m :
  let r := pipe_data_ready os condition cmd m in
  let bytes_read := fst (fst (OS.read os (os_calls m))) in
  let data := snd (fst (OS.read os (os_calls m))) in
  let errno := snd (OS.read os (os_calls m)) in
  let buf :=
    substring 0 1023
      ("procman [" ++ cmd_str cmd ++ "] read: " ++ OS.strerror os errno
       ++ " (" ++ fmt_d errno ++ ")" ++ LF) in
  exists lines,
    trace (snd r)
    = trace m
      ++ (if has_condition condition G_IO_IN && (bytes_read <? 0) then [Dbgt buf] else [])
      ++ map PMD_PRINTF lines
    /\ Forall (tagged (hostname (pmd m)) (sheriff_id (user cmd))) lines
    /\ map Printf.text lines
       = ((if has_condition condition G_IO_IN
           then if bytes_read <? 0 then [buf]
                else if bytes_read =? 0 then []
                else [c_str (substring 0 (Z.to_nat bytes_read) data)]
           else [])
          ++ (if has_condition condition G_IO_ERR
              then [("procman deputy: detected G_IO_ERR." ++ LF)%string] else [])
          ++ (if has_condition condition G_IO_HUP
              then [("procman deputy: detected G_IO_HUP.  end of output" ++ LF)%string] else [])
          ++ (if has_condition condition G_IO_NVAL
              then [("procman deputy: detected G_IO_NVAL.  end of output" ++ LF)%string] else [])
          ++ (if has_condition condition G_IO_PRI
              then [("procman deputy: unexpected G_IO_PRI... wtf?" ++ LF)%string] else [])
          ++ (if has_condition condition G_IO_OUT
              then [("procman deputy: unexpected G_IO_OUT... wtf?" ++ LF)%string] else []))
    /\ pmd (snd r) = pmd m.
Proof.
  intros r bytes_read data errno buf. subst r.
  unfold pipe_data_ready. rewrite bind_eq.
  set (first := when (has_condition condition G_IO_IN) _).
  assert (F : exists l1,
             trace (snd (first m))
             = trace m
               ++ (if has_condition condition G_IO_IN && (bytes_read <? 0)
                   then [Dbgt buf] else [])
               ++ map PMD_PRINTF l1
             /\ Forall (tagged (hostname (pmd m)) (sheriff_id (user cmd))) l1
             /\ map Printf.text l1
                = (if has_condition condition G_IO_IN
                   then if bytes_read <? 0 then [buf]
                        else if bytes_read =? 0 then []
                        else [c_str (substring 0 (Z.to_nat bytes_read) data)]
                   else [])
             /\ pmd (snd (first m)) = pmd m).
  { subst first buf bytes_read data errno. unfold when.
    destruct (has_condition condition G_IO_IN); cbn [andb].
    - rewrite bind_eq.
      change (fst (ask os OS.read m)) with (OS.read os (os_calls m)).
      change (snd (ask os OS.read m)) with (asked m).
      destruct (OS.read os (os_calls m)) as [[bytes d] e]. cbn [fst snd].
      destruct (bytes <? 0).
      + rewrite bind_eq. unfold transmit_str. rewrite !bind_eq. unfold get_pmd.
        rewrite timestamp_now_eq. unfold emit. cbn [fst snd trace pmd asked].
        eexists [_]. rewrite <- app_assoc. split; [reflexivity|].
        split; [constructor; [split; reflexivity | constructor]|].
        split; reflexivity.
      + destruct (bytes =? 0).
        * exists []. cbn. rewrite app_nil_r.
          split; [reflexivity|]. split; [constructor|]. split; reflexivity.
        * unfold transmit_str. rewrite !bind_eq. unfold get_pmd.
          rewrite timestamp_now_eq. unfold emit. cbn [fst snd trace pmd asked].
          eexists [_]. split; [reflexivity|].
          split; [constructor; [split; reflexivity | constructor]|].
          split; reflexivity.
    - exists []. cbn. rewrite app_nil_r.
      split; [reflexivity|]. split; [constructor|]. split; reflexivity. }
  destruct F as (l1 & T1 & F1 & X1 & P1).
  destruct (says_conditions os condition (sheriff_id (user cmd)) (hostname (pmd m))
              (snd (first m))) as (l2 & T2 & F2 & X2 & P2); [rewrite P1; reflexivity|].
  exists (l1 ++ l2). rewrite T2, T1, !map_app, X1, X2, P2, P1, <- !app_assoc.
  split; [reflexivity|]. split; [apply Forall_app; split; assumption|].
  split; reflexivity.
Qed.

Lemma pipe_data_ready_keep os condition cmd m :
  fst (pipe_data_ready os condition cmd m)
  = negb (has_condition condition G_IO_HUP || has_condition condition G_IO_NVAL).
Proof. unfold pipe_data_ready. rewrite !bind_eq. reflexivity. Qed.

Lemma c_string_of_unique bytes t1 : forall t2,
  c_string_of bytes t1 -> c_string_of bytes t2 -> t1 = t2.
Proof.
  revert bytes. induction t1 as [|c t1 IH]; intros bytes t2
    ((tail1 & E1 & T1) & N1) ((tail2 & E2 & T2) & N2).
  - cbn in E1. subst tail1. destruct t2 as [|c2 t2]; [reflexivity|].
    exfalso. destruct T1 as [->|(t & ->)]; [discriminate|].
    cbn in E2. injection E2 as <- _. exact (N2 O eq_refl).
  - assert (Hc : c <> zero) by (intros ->; exact (N1 O eq_refl)).
    subst bytes. cbn in E2. destruct t2 as [|c2 t2].
    + exfalso. cbn in E2. subst tail2.
      destruct T2 as [T2|(t & T2)]; [discriminate|].
      injection T2 as -> _. contradiction.
    + cbn in E2. injection E2 as <- E2. f_equal.
      apply (IH (t1 ++ tail1)%string).
      * split; [exists tail1; split; [reflexivity | exact T1]|].
        intros i. exact (N1 (S i)).
      * split; [exists tail2; split; [exact E2 | exact T2]|].
        intros i. exact (N2 (S i)).
Qed.

(** X8. [pipe_data_ready] leaves the deputy record alone and publishes
    PMD_PRINTF lines only, each under the sheriff_id of the command whose
    pipe it is and with the name of this deputy: first what the read gives,
    if the condition has G_IO_IN, then one fixed line for each of G_IO_ERR,
    G_IO_HUP, G_IO_NVAL, G_IO_PRI and G_IO_OUT the condition has, in this
    order.  When bytes were read, the line is the C string at the start of
    the bytes read: it ends before the first NUL among them.  When the read
    fails, the line has the name of the command and the error, cut to 1023
    bytes, and this text is first handed to [dbgt] as its format (line
    175); no other diagnostic has a format that is made at run time.  When
    the read gives 0 bytes, it adds no line.  The watch is kept exactly when
    the condition has neither G_IO_HUP nor G_IO_NVAL. *)
Theorem pipe_output_is_relayed os condition cmd m :
  let r := pipe_data_ready os condition cmd m in
  let bytes_read := fst (fst (OS.read os (os_calls m))) in
  let data := snd (fst (OS.read os (os_calls m))) in
  let errno := snd (OS.read os (os_calls m)) in
  let buf :=
    substring 0 1023
      ("procman [" ++ cmd_str cmd ++ "] read: " ++ OS.strerror os errno
       ++ " (" ++ fmt_d errno ++ ")" ++ LF) in
  let readable := has_condition condition G_IO_IN in
  (fst r = true <->
   has_condition condition G_IO_HUP = false /\ has_condition condition G_IO_NVAL = false)
  /\ pmd (snd r) = pmd m
  /\ (exists lines read_lines,
        trace (snd r)
        = trace m
          ++ (if readable && (bytes_read <? 0) then [Dbgt buf] else [])
          ++ map PMD_PRINTF lines
        /\ Forall (tagged (hostname (pmd m)) (sheriff_id (user cmd))) lines
        /\ map Printf.text lines
           = read_lines
             ++ (if has_condition condition G_IO_ERR
                 then [("procman deputy: detected G_IO_ERR." ++ LF)%string] else [])
             ++ (if has_condition condition G_IO_HUP
                 then [("procman deputy: detected G_IO_HUP.  end of output" ++ LF)%string]
                 else [])
             ++ (if has_condition condition G_IO_NVAL
                 then [("procman deputy: detected G_IO_NVAL.  end of output" ++ LF)%string]
                 else [])
             ++ (if has_condition condition G_IO_PRI
                 then [("procman deputy: unexpected G_IO_PRI... wtf?" ++ LF)%string]
                 else [])
             ++ (if has_condition condition G_IO_OUT
                 then [("procman deputy: unexpected G_IO_OUT... wtf?" ++ LF)%string]
                 else [])
        /\ (readable = false -> read_lines = [])
        /\ (readable = true -> bytes_read < 0 -> read_lines = [buf])
        /\ (readable = true -> bytes_read = 0 -> read_lines = [])
        /\ (readable = true -> 0 < bytes_read ->
            exists text,
              read_lines = [text]
              /\ c_string_of (substring 0 (Z.to_nat bytes_read) data) text)).
Proof.
  intros r bytes_read data errno buf readable. split; [|split].
  - subst r. rewrite pipe_data_ready_keep.
    destruct (has_condition condition G_IO_HUP), (has_condition condition G_IO_NVAL);
      cbn; intuition discriminate.
  - destruct (pipe_data_ready_spec os condition cmd m) as (l & _ & _ & _ & P).
    exact P.
  - destruct (pipe_data_ready_spec os condition cmd m) as (lines & T & F & X & _).
    cbv zeta in T, X. fold bytes_read data errno in T, X. fold buf in T, X.
    fold readable in T, X.
    exists lines. eexists. split; [exact T|]. split; [exact F|].
    split; [exact X|].
    destruct readable.
    + split; [discriminate|].
      destruct (Z.ltb_spec bytes_read 0) as [Neg|NNeg].
      * split; [reflexivity|]. split; intros _ H; lia.
      * split; [intros _ H; lia|].
        destruct (Z.eqb_spec bytes_read 0) as [Zero|NZ].
        -- split; [reflexivity | intros _ H; lia].
        -- split; [intros _ H; contradiction|].
           intros _ _. eexists. split; [reflexivity | apply c_str_spec].
    + split; [reflexivity|]. repeat split; discriminate.
Qed.

Lemma pipe_output_is_relayed_witness :
  let cmd := Scenario.sleep60 101 0 0 in
  let r := pipe_data_ready Worlds.os_nul_output G_IO_IN cmd Scenario.busy in
  let failed := pipe_data_ready Worlds.os_read_error (G_IO_IN + G_IO_HUP) cmd Scenario.busy in
  fst r = true
  /\ (exists line,
        trace (snd r) = [PMD_PRINTF line]
        /\ Printf.text line = "hi" /\ tagged "H" 1 line)
  /\ fst failed = false
  /\ (exists line line',
        trace (snd failed)
        = [Dbgt ("procman [sleep 60] read: error (5)" ++ LF)%string;
           PMD_PRINTF line; PMD_PRINTF line']
        /\ Printf.text line = ("procman [sleep 60] read: error (5)" ++ LF)%string
        /\ Printf.text line'
           = ("procman deputy: detected G_IO_HUP.  end of output" ++ LF)%string).
Proof.
  intros cmd r failed.
  destruct (pipe_output_is_relayed Worlds.os_nul_output G_IO_IN cmd Scenario.busy)
    as (K & _ & (lines & read_lines & T & F & X & _ & _ & _ & D)).
  destruct (pipe_output_is_relayed Worlds.os_read_error (G_IO_IN + G_IO_HUP) cmd
              Scenario.busy)
    as (K' & _ & (lines' & read_lines' & T' & _ & X' & _ & E & _)).
  split; [apply K; split; reflexivity|]. split; [|split].
  - destruct D as (text & -> & C); [reflexivity | reflexivity|].
    assert (Hi : text = "hi").
    { apply (c_string_of_unique _ _ _ C). exact (c_str_spec _). }
    subst text. destruct lines as [|line [|]]; try discriminate X.
    exists line. split; [exact T|]. split; [|inversion F; assumption].
    injection X as X. exact X.
  - destruct (fst failed) eqn:Kept; [|reflexivity].
    destruct (proj1 K' Kept) as (H & _). discriminate H.
  - rewrite E in X' by reflexivity.
    destruct lines' as [|line [|line' [|]]]; try discriminate X'.
    exists line, line'. split; [exact T'|].
    injection X' as X1 X2. split; assumption.
Defined.

(** ** The report of each second *)

Lemma for_each_cmd_Forall2 (R : procman_cmd_t -> procman_cmd_t -> Prop) body :
  (forall p m, exists p', fst (body p m) = Some p' /\ R p p') ->
  forall cmds m, Forall2 R cmds (fst (for_each_cmd body cmds m)).
Proof.
  intros Hb. induction cmds as [|p rest IH]; intros m; cbn [for_each_cmd].
  - constructor.
  - rewrite !bind_eq. destruct (Hb p m) as (p' & E & Hr). rewrite E. cbn [fst ret].
    constructor; [exact Hr | apply IH].
Qed.

Lemma Forall2_map_right {A B C : Type} (R : A -> C -> Prop) (f : B -> C) l l' :
  Forall2 (fun a b => R a (f b)) l l' -> Forall2 R l (map f l').
Proof. induction 1; cbn; constructor; assumption. Qed.

Lemma sample_cmd_listed os bits ellapsed p m :
  exists p', fst (sample_cmd os bits ellapsed p m) = Some p'
             /\ listed_as p (deputy_cmd_of p').
Proof.
  unfold sample_cmd. rewrite bind_eq. cbn [fst ret].
  match goal with
  | |- context [fst (?c m)] =>
      assert (I : exists t0 t1 u,
                 fst (c m) = set_cpu (user p) t0 t1 u
                 /\ (pid p = 0 -> Proc.vsize t1 = 0 /\ Proc.rss t1 = 0 /\ u = 0%Q))
  end.
  { destruct (Z.eqb_spec (pid p) 0) as [Z|NZ]; cbn [negb].
    - eexists _, _, _. split; [reflexivity|]. intros _. repeat split.
    - rewrite bind_eq. destruct (fst (ask os OS.read_proc_cpu_mem m)) as [status fill].
      destruct (negb (status =? 0)); [|destruct (_ || _)];
        (eexists _, _, _; split; [reflexivity|]; intros Z; contradiction). }
  destruct I as (t0 & t1 & u & E & Z). rewrite E.
  eexists. split; [reflexivity|]. unfold listed_as, deputy_cmd_of. cbn.
  repeat (split; [reflexivity|]). intros H. destruct (Z H) as (Z1 & Z2 & Z3). auto.
Qed.

Lemma filter_any_event l : filter any_event l = l.
Proof. induction l as [|e l IH]; [reflexivity|]. cbn. rewrite IH. reflexivity. Qed.

(** X9. Each second the deputy samples and then publishes one PMD_INFO
    message and nothing else.  The message has the name of the deputy, the
    load and the memory figures just sampled, and one entry for each handle
    of the command list, in list order, with the name, nickname, group,
    sheriff_id, run id, pid and exit code of the handle as they were; the
    usage and the memory of a handle that does not run are 0.  The previous
    sample of the system counters is the one just taken. *)
Theorem every_second_is_reported os bits m :
  let m' := snd (one_second_timeout os bits m) in
  exists info,
    trace m' = trace m ++ [PMD_INFO info]
    /\ Info.host info = hostname (pmd m)
    /\ Info.cpu_load info = cpu_load (pmd m')
    /\ Info.phys_mem_total_bytes info = Sys.memtotal (sys_cpu_time1 (pmd m'))
    /\ Info.phys_mem_free_bytes info = Sys.memfree (sys_cpu_time1 (pmd m'))
    /\ Info.swap_total_bytes info = Sys.swaptotal (sys_cpu_time1 (pmd m'))
    /\ Info.swap_free_bytes info = Sys.swapfree (sys_cpu_time1 (pmd m'))
    /\ Info.cmds info = map deputy_cmd_of (pm (pmd m'))
    /\ Forall2 listed_as (pm (pmd m)) (Info.cmds info)
    /\ sys_cpu_time0 (pmd m') = sys_cpu_time1 (pmd m')
    /\ sys_cpu_time1 (pmd m')
       = snd (OS.read_sys_cpu_mem os (os_calls m)) (sys_cpu_time1 (pmd m)).
Proof.
  intros m'. subst m'. unfold one_second_timeout. rewrite bind_eq.
  set (m1 := snd (update_cpu_times os bits m)).
  assert (T : trace m1 = trace m).
  { pose proof (silent_update_cpu_times any_event os bits m) as S.
    rewrite !filter_any_event in S. exact S. }
  assert (H : hostname (pmd m1) = hostname (pmd m)).
  { apply (preserves_update_cpu_times hostname hostname_set_pm hostname_set_sys_cpu). }
  destruct (update_cpu_times_eq os bits m) as (_ & U2 & U3 & U4). fold m1 in U2, U3, U4.
  unfold transmit_proc_info. rewrite !bind_eq. unfold get_pmd.
  rewrite timestamp_now_eq. unfold emit. cbn [fst snd trace pmd asked].
  eexists. split; [rewrite T; reflexivity|]. cbn.
  split; [exact H|]. repeat (split; [reflexivity|]).
  split; [|split; [congruence | exact U3]].
  rewrite U4. apply Forall2_map_right, for_each_cmd_Forall2.
  intros p m0. apply sample_cmd_listed.
Qed.

(** ** The sheriffs seen *)

Lemma carried_out_preserves {X : Type} (proj : procman_deputy_t -> X) os orders :
  (forall s l, proj (set_pm s l) = proj s) -> preserves proj (carried_out os orders).
Proof.
  intros Hpm. unfold carried_out.
  apply preserves_bind; [apply preserves_carry_out_all; exact Hpm|intros a].
  apply preserves_bind; [apply preserves_get_pmd|intros s].
  apply preserves_bind;
    [apply preserves_for_each_cmd; intros p; apply preserves_cull|intros l].
  apply preserves_bind; [apply preserves_modify_pmd; intros s0; apply Hpm|intros _].
  apply preserves_when, preserves_transmit_proc_info.
Qed.

(** What the handlers other than the reconciler and the introspection
    timer leave alone. *)
Lemma dispatch_preserves {X : Type} (proj : procman_deputy_t -> X) os max_age bits i :
  (forall s l, proj (set_pm s l) = proj s) ->
  (forall s t0 t1 load, proj (set_sys_cpu s t0 t1 load) = proj s) ->
  (forall s l, proj (set_unrecorded s l) = proj s) ->
  (forall orders, i <> OrdersMsg orders) -> i <> Introspection ->
  preserves proj (dispatch os max_age bits i).
Proof.
  intros Hpm Hcpu Hun Ho Hi.
  destruct i as [orders|signum| | |source condition]; cbn [dispatch].
  - contradiction (Ho orders eq_refl).
  - unfold glib_handle_signal. destruct (signum =? SIGCHLD).
    + apply preserves_check_for_dead_children; exact Hpm.
    + apply preserves_bind; [apply preserves_remove_all_cmds; assumption|intros _].
      apply preserves_bind; [apply preserves_emit|intros _]. intros m. reflexivity.
  - unfold one_second_timeout.
    apply preserves_bind; [apply preserves_update_cpu_times; assumption|intros _].
    apply preserves_transmit_proc_info.
  - contradiction Hi. reflexivity.
  - apply preserves_bind; [apply preserves_get_pmd|intros s].
    destruct (find (watched_by source) (pm s)); [|apply preserves_ret].
    apply preserves_bind; [apply preserves_pipe_data_ready|intros keep].
    apply preserves_when, preserves_emit.
Qed.

Lemma observe_sheriff_seen name s :
  let s' := observe_sheriff name s in
  (forall n, In n (observed_sheriffs_slm s')
             <-> n = name \/ In n (observed_sheriffs_slm s))
  /\ last_sheriff_name s' = Some name
  /\ (NoDup (observed_sheriffs_slm s) -> NoDup (observed_sheriffs_slm s')).
Proof.
  unfold observe_sheriff. cbn [observed_sheriffs_slm last_sheriff_name set_sheriffs].
  split; [|split].
  - intros n. destruct (existsb (String.eqb name) (observed_sheriffs_slm s)) eqn:E.
    + split; [intros H; right; exact H|]. intros [->|H]; [|exact H].
      apply existsb_exists in E. destruct E as (x & Hx & Ex).
      apply String.eqb_eq in Ex. subst x. exact Hx.
    + cbn. split; intros [H|H]; auto.
  - destruct (last_sheriff_name s) as [l|]; [|reflexivity].
    destruct (String.eqb_spec name l) as [->|_]; reflexivity.
  - intros U. destruct (existsb (String.eqb name) (observed_sheriffs_slm s)) eqn:E;
      [exact U|].
    constructor; [|exact U]. intros Hin.
    assert (T : existsb (String.eqb name) (observed_sheriffs_slm s) = true).
    { apply existsb_exists. exists name. split; [exact Hin | apply String.eqb_refl]. }
    congruence.
Qed.

Lemma sheriffs_set_pm s l : sheriffs (set_pm s l) = sheriffs s.
Proof. reflexivity. Qed.

Lemma sheriffs_set_sys_cpu s t0 t1 load : sheriffs (set_sys_cpu s t0 t1 load) = sheriffs s.
Proof. reflexivity. Qed.

Lemma sheriffs_set_unrecorded s l : sheriffs (set_unrecorded s l) = sheriffs s.
Proof. reflexivity. Qed.

Lemma order_sheriffs os max_age orders m :
  sheriffs (pmd (snd (procman_deputy_order_received os max_age orders m)))
  = if for_me orders m && negb (stale os max_age orders m)
    then sheriffs (observe_sheriff (Orders.sheriff_name orders) (pmd m))
    else sheriffs (pmd m).
Proof.
  destruct (for_me orders m) eqn:Hme.
  - destruct (stale os max_age orders m) eqn:Hst; cbn [andb negb].
    + rewrite (order_stale os max_age orders m Hme Hst). cbv zeta.
      rewrite report_stale_eq. reflexivity.
    + rewrite (order_fresh os max_age orders m Hme Hst).
      rewrite (carried_out_preserves sheriffs os orders sheriffs_set_pm). reflexivity.
  - rewrite (order_for_other os max_age orders m Hme). reflexivity.
Qed.

Lemma step_sheriffs_unique os max_age bits m i :
  NoDup (observed_sheriffs_slm (pmd m)) ->
  NoDup (observed_sheriffs_slm (pmd (step os max_age bits m i))).
Proof.
  intros U. unfold step. destruct (quit m); [exact U|].
  destruct i as [orders|signum| | |source condition].
  - cbn [dispatch].
    pose proof (f_equal fst (order_sheriffs os max_age orders m)) as E.
    cbn [sheriffs fst] in E. rewrite E.
    destruct (_ && _); [|exact U].
    cbn [fst]. apply observe_sheriff_seen. exact U.
  - pose proof (f_equal fst (dispatch_preserves sheriffs os max_age bits (Signal signum)
                               sheriffs_set_pm sheriffs_set_sys_cpu sheriffs_set_unrecorded
                               ltac:(intros o Ho; discriminate Ho)
                               ltac:(discriminate) m)) as E.
    cbn [sheriffs fst] in E. rewrite E. exact U.
  - pose proof (f_equal fst (dispatch_preserves sheriffs os max_age bits OneSecond
                               sheriffs_set_pm sheriffs_set_sys_cpu sheriffs_set_unrecorded
                               ltac:(intros o Ho; discriminate Ho)
                               ltac:(discriminate) m)) as E.
    cbn [sheriffs fst] in E. rewrite E. exact U.
  - constructor.
  - pose proof (f_equal fst (dispatch_preserves sheriffs os max_age bits
                               (PipeReady source condition)
                               sheriffs_set_pm sheriffs_set_sys_cpu sheriffs_set_unrecorded
                               ltac:(intros o Ho; discriminate Ho)
                               ltac:(discriminate) m)) as E.
    cbn [sheriffs fst] in E. rewrite E. exact U.
Qed.

(** X10. The deputy keeps each sheriff it has seen only once.  An order
    that is carried out adds the name of its sheriff to the sheriffs seen
    unless it is there, and makes it the last sheriff; an order for another
    host and a stale order leave both as they are, the introspection timer
    empties the sheriffs seen and keeps the last sheriff, and no other
    handler touches them.  So no name is twice among the sheriffs seen at
    any point of a run. *)
Theorem sheriffs_are_seen_once os max_age bits :
  (forall orders m,
     for_me orders m = true -> stale os max_age orders m = false ->
     let s' := pmd (snd (procman_deputy_order_received os max_age orders m)) in
     (forall n, In n (observed_sheriffs_slm s')
                <-> n = Orders.sheriff_name orders \/ In n (observed_sheriffs_slm (pmd m)))
     /\ last_sheriff_name s' = Some (Orders.sheriff_name orders))
  /\ (forall orders m,
        for_me orders m = false \/ stale os max_age orders m = true ->
        sheriffs (pmd (snd (procman_deputy_order_received os max_age orders m)))
        = sheriffs (pmd m))
  /\ (forall m,
        sheriffs (pmd (snd (introspection_timeout os m)))
        = ([], last_sheriff_name (pmd m)))
  /\ (forall i m,
        (forall orders, i <> OrdersMsg orders) -> i <> Introspection ->
        sheriffs (pmd (snd (dispatch os max_age bits i m))) = sheriffs (pmd m))
  /\ (forall name verbosity inputs,
        NoDup (observed_sheriffs_slm
                 (pmd (run os max_age bits (boot name verbosity) inputs)))).
Proof.
  split; [|split; [|split; [|split]]].
  - intros orders m Hme Hst s'. subst s'.
    pose proof (order_sheriffs os max_age orders m) as E.
    rewrite Hme, Hst in E. cbn [andb negb] in E.
    pose proof (f_equal fst E) as E1. pose proof (f_equal snd E) as E2.
    cbn [sheriffs fst snd] in E1, E2. rewrite E1, E2.
    destruct (observe_sheriff_seen (Orders.sheriff_name orders) (pmd m)) as (A & B & _).
    split; [exact A | exact B].
  - intros orders m H. rewrite order_sheriffs.
    destruct H as [H|H]; rewrite H; [reflexivity|].
    rewrite andb_false_r. reflexivity.
  - intros m. reflexivity.
  - intros i m Ho Hi.
    exact (dispatch_preserves sheriffs os max_age bits i sheriffs_set_pm
             sheriffs_set_sys_cpu sheriffs_set_unrecorded Ho Hi m).
  - intros name verbosity inputs.
    assert (G : forall m, NoDup (observed_sheriffs_slm (pmd m)) ->
                          NoDup (observed_sheriffs_slm (pmd (run os max_age bits m inputs)))).
    { induction inputs as [|i rest IH]; intros m U; [exact U|].
      cbn [run fold_left]. apply IH, step_sheriffs_unique, U. }
    apply G. constructor.
Qed.

Lemma sheriffs_are_seen_once_witness :
  let orders := Orders.mk 1700000000000000 "H" "deputy chief"
                  [Scenario.rec_sleep "sleep 60" 1 false] in
  let s' := pmd (snd (procman_deputy_order_received Scenario.os Scenario.max_age
                        orders Scenario.busy)) in
  for_me orders Scenario.busy = true
  /\ stale Scenario.os Scenario.max_age orders Scenario.busy = false
  /\ In "deputy chief" (observed_sheriffs_slm s')
  /\ In "sheriff" (observed_sheriffs_slm s')
  /\ last_sheriff_name s' = Some "deputy chief".
Proof.
  intros orders s'.
  assert (Mine : for_me orders Scenario.busy = true) by reflexivity.
  assert (Fresh : stale Scenario.os Scenario.max_age orders Scenario.busy = false)
    by (vm_compute; reflexivity).
  split; [exact Mine|]. split; [exact Fresh|].
  destruct (proj1 (sheriffs_are_seen_once Scenario.os Scenario.max_age 32)
              orders Scenario.busy Mine Fresh) as (S & L).
  split; [apply S; left; reflexivity|].
  split; [apply S; right; left; reflexivity | exact L].
Defined.

(** ** What the other handlers leave alone *)

Lemma same_command_refl p : same_command p p.
Proof. repeat split. Qed.

Lemma same_command_trans p q r : same_command p q -> same_command q r -> same_command p r.
Proof.
  unfold same_command. intros (A1 & A2 & A3 & A4 & A5 & A6 & A7) (B1 & B2 & B3 & B4 & B5 & B6 & B7).
  repeat split; congruence.
Qed.

Lemma untouched_refl p : untouched p p.
Proof. repeat split. Qed.

Lemma untouched_trans p q r : untouched p q -> untouched q r -> untouched p r.
Proof.
  intros (A & A1 & A2) (B & B1 & B2).
  split; [exact (same_command_trans p q r A B)|]. split; congruence.
Qed.

Lemma settles_refl p : settles p p.
Proof. split; [apply same_command_refl | left; split; reflexivity]. Qed.

Lemma settles_trans p q r : settles p q -> settles q r -> settles p r.
Proof.
  intros (A & HA) (B & HB). split; [exact (same_command_trans p q r A B)|].
  destruct HB as [[B1 B2]|[B1 B2]]; [|right; split; assumption].
  destruct HA as [[A1 A2]|[A1 A2]]; [left | right]; split; congruence.
Qed.

Lemma untouched_settles p p' : untouched p p' -> settles p p'.
Proof. intros (A & B & C). split; [exact A | left; split; assumption]. Qed.

Lemma nothing_closed_any (R : procman_cmd_t -> procman_cmd_t -> Prop) p q :
  nothing p -> R p q -> nothing q.
Proof. intros []. Qed.

Lemma sample_cmd_untouched os bits ellapsed p m p' :
  fst (sample_cmd os bits ellapsed p m) = Some p' -> untouched p p'.
Proof.
  unfold sample_cmd, bind, ret, ask.
  destruct (negb (pid p =? 0)).
  - destruct (OS.read_proc_cpu_mem os (os_calls m)) as [status fill].
    destruct (negb (status =? 0)).
    + cbn. intros E. injection E as <-. repeat split.
    + destruct (_ || _); cbn; intros E; injection E as <-; repeat split.
  - cbn. intros E. injection E as <-. repeat split.
Qed.

Lemma update_cpu_times_untouched os bits m :
  evolves untouched nothing (pm (pmd m)) (pm (pmd (snd (update_cpu_times os bits m)))).
Proof.
  destruct (update_cpu_times_eq os bits m) as (_ & _ & _ & P). rewrite P.
  apply evolves_pass. intros p m0 p'. apply sample_cmd_untouched.
Qed.

Lemma stop_cmd_untouched os p m : untouched p (snd (fst (stop_cmd os p m))).
Proof.
  destruct (stop_cmd_frame os p m) as (_ & _ & _ & (n & t & F)).
  rewrite F. repeat split.
Qed.

(** What the shutdown leaves in the command list: the handles that run,
    without their records. *)
Lemma remove_cmds_kept os cmds : forall m,
  snd (fst (remove_cmds os cmds m)) = map free_user (running cmds).
Proof.
  induction cmds as [|p rest IH]; intros m; cbn [remove_cmds]; [reflexivity|].
  unfold bind, ret. unfold running. cbn [filter]. fold (running rest).
  destruct (Z.eqb_spec (pid p) 0) as [E|E].
  - specialize (IH m).
    destruct (remove_cmds os rest m) as [[ok rest'] m2]. cbn [fst snd negb] in *.
    unfold procman_remove_cmd. rewrite E. cbn. exact IH.
  - destruct (stop_cmd_untouched os p m) as (_ & P & _).
    destruct (stop_cmd_frame os p m) as (_ & _ & _ & (n & t & F)).
    destruct (stop_cmd os p m) as [[st p1] m1]. cbn [fst snd] in *.
    specialize (IH m1).
    destruct (remove_cmds os rest m1) as [[ok rest'] m2]. cbn [fst snd negb] in *.
    unfold procman_remove_cmd. rewrite P.
    destruct (Z.eqb_spec (pid p) 0); [contradiction|].
    cbn [map]. rewrite IH, F. reflexivity.
Qed.

Lemma remove_all_cmds_kept os m :
  let s' := pmd (snd (remove_all_cmds os m)) in
  pm s' = [] /\ unrecorded s' = unrecorded (pmd m) ++ map free_user (running (pm (pmd m))).
Proof.
  unfold remove_all_cmds. rewrite !bind_eq. unfold get_pmd. cbn [fst snd].
  pose proof (remove_cmds_kept os (pm (pmd m)) m) as K.
  pose proof (preserves_remove_cmds unrecorded os (pm (pmd m)) m) as U.
  destruct (remove_cmds os (pm (pmd m)) m) as [[ok kept] m1]. cbn [fst snd] in *.
  rewrite bind_eq. cbn. rewrite U, K. split; reflexivity.
Qed.

Lemma split_at_pid_found child cmds before p after :
  split_at_pid child cmds = Some (before, p, after) -> pid p = child.
Proof.
  revert before. induction cmds as [|q rest IH]; intros before H; [discriminate|].
  cbn in H. destruct (Z.eqb_spec (pid q) child) as [E|_].
  - injection H as <- <- <-. exact E.
  - destruct (split_at_pid child rest) as [[[b c] a]|]; [|discriminate].
    injection H as <- <- <-. apply (IH b). reflexivity.
Qed.

(** What the reaping answers: nothing, and the list is as it was; or the
    place of a handle that ran, which is in the list with pid 0 and its
    exit status. *)
Lemma reap_cases os m :
  let r := procman_check_for_dead_children os m in
  match fst r with
  | None => pm (pmd (snd r)) = pm (pmd m)
  | Some (before, cmd, after) =>
      exists p,
        pm (pmd m) = before ++ p :: after
        /\ pid p <> 0
        /\ cmd = set_exit_status (set_pid p 0) (snd (OS.waitpid os (os_calls m)))
        /\ pm (pmd (snd r)) = before ++ cmd :: after
  end.
Proof.
  unfold procman_check_for_dead_children, bind, ask, ret.
  destruct (OS.waitpid os (os_calls m)) as [child status].
  destruct (Z.leb_spec child 0) as [|Pos]; [reflexivity|].
  unfold get_pmd. cbn [pmd].
  destruct (split_at_pid child (pm (pmd m))) as [[[before p] after]|] eqn:E;
    [|reflexivity].
  pose proof (split_at_pid_found _ _ _ _ _ E) as Hp.
  apply split_at_pid_eq in E. cbn. exists p.
  split; [exact E|]. split; [lia|]. split; reflexivity.
Qed.

Lemma unhooked_facts os cmd m :
  let cmd' := fst (unhooked os cmd m) in
  same_command cmd cmd' /\ pid cmd' = pid cmd /\ stdout_ioc (user cmd') = None
  /\ exit_status cmd' = exit_status cmd.
Proof.
  unfold unhooked. destruct (stdout_ioc (user cmd)) eqn:E.
  - unfold bind, emit, procman_close_dead_pipes. cbn.
    destruct (stdout_fd cmd <? 0); cbn; repeat split.
  - cbn. repeat split. exact E.
Qed.

(** What [bury] leaves of the list: the handle is unwatched, or gone. *)
Lemma bury_cases os before cmd after m :
  let m' := snd (bury os before cmd after m) in
  exists cmd',
    same_command cmd cmd' /\ pid cmd' = pid cmd /\ stdout_ioc (user cmd') = None
    /\ (pm (pmd m') = before ++ cmd' :: after
        \/ (remove_requested (user cmd) = true /\ pid cmd = 0
            /\ pm (pmd m') = before ++ after)).
Proof.
  unfold bury. fold (unhooked os cmd).
  rewrite !bind_eq. unfold modify_pmd. cbn [snd pmd pm set_pm].
  match goal with |- context [unhooked os cmd ?mm] =>
    destruct (unhooked_facts os cmd mm) as (C & P & W & _);
    destruct (unhooked os cmd mm) as [cmd' m3] end.
  cbn [fst] in *. exists cmd'. repeat (split; [assumption|]).
  destruct C as (_ & _ & _ & _ & _ & _ & Rr). rewrite Rr.
  destruct (remove_requested (user cmd)); [|left; reflexivity].
  unfold procman_remove_cmd. rewrite P.
  destruct (Z.eqb_spec (pid cmd) 0); [right; repeat split; assumption | left; reflexivity].
Qed.

Lemma running_app l l' : running (l ++ l') = running l ++ running l'.
Proof. apply filter_app. Qed.

Lemma running_length l : (List.length (running l) <= List.length l)%nat.
Proof.
  unfold running. induction l as [|p l IH]; [apply le_n|]. cbn [filter].
  destruct (negb (pid p =? 0)); cbn [List.length]; lia.
Qed.

Lemma running_stopped before p after :
  pid p = 0 -> running (before ++ p :: after) = running (before ++ after).
Proof.
  intros Z. unfold running. rewrite !filter_app. cbn [filter]. rewrite Z. reflexivity.
Qed.

Lemma running_one_more before p after :
  pid p <> 0 ->
  List.length (running (before ++ p :: after))
  = S (List.length (running (before ++ after))).
Proof.
  intros NZ. unfold running. rewrite !filter_app, !length_app. cbn [filter].
  destruct (Z.eqb_spec (pid p) 0); [contradiction|]. cbn [negb List.length]. lia.
Qed.

(** The loop of [check_for_dead_children] from a reaped handle on: the
    turns the model allows are enough when they bound the handles that
    run, and then every handle the loop touched is left unwatched with pid
    0, or is gone. *)
Lemma bury_all_settles os fuel : forall before cmd after m p,
  pm (pmd m) = before ++ cmd :: after ->
  same_command p cmd -> pid cmd = 0 ->
  (List.length (running (before ++ after)) <= fuel)%nat ->
  evolves settles nothing (before ++ p :: after)
    (pm (pmd (snd (bury_all os fuel before cmd after m)))).
Proof.
  induction fuel as [|fuel IH]; intros before cmd after m p H Same Z Fuel;
    cbn [bury_all].
  all: rewrite !bind_eq.
  all: destruct (bury_cases os before cmd after m) as (cmd' & C & P & W & L).
  all: set (m1 := snd (bury os before cmd after m)) in *.
  all: assert (B : evolves settles nothing (before ++ p :: after) (pm (pmd m1))
                   /\ running (pm (pmd m1)) = running (before ++ after)).
  1, 3: destruct L as [L|(_ & _ & L)]; rewrite L;
        (split;
         [first [ apply evolves_zip_keep;
                  [exact settles_refl
                  | split; [exact (same_command_trans _ _ _ Same C)
                           | right; split; congruence] ]
                | apply evolves_zip_drop; exact settles_refl ]
         | first [ apply running_stopped; congruence | reflexivity ] ]).
  all: destruct B as [B Run].
  all: pose proof (reap_cases os m1) as Reap; cbv zeta in Reap.
  all: set (next := fst (procman_check_for_dead_children os m1)) in *.
  all: set (m2 := snd (procman_check_for_dead_children os m1)) in *.
  all: pose proof (transmit_proc_info_list os m2) as T.
  all: set (m3 := snd (transmit_proc_info os m2)) in *.
  - destruct next as [[[b c] a]|]; cbn [ret snd].
    + exfalso. destruct Reap as (q & Lq & Nq & _).
      pose proof (running_one_more b q a Nq) as One.
      rewrite <- Lq, Run in One. lia.
    + rewrite T, Reap. exact B.
  - destruct next as [[[b c] a]|]; cbn [ret snd].
    + destruct Reap as (q & Lq & Nq & Eq & L2).
      eapply evolves_trans;
        [exact settles_trans | apply nothing_closed_any | exact B |].
      rewrite Lq. apply (IH b c a m3 q).
      * rewrite T. exact L2.
      * rewrite Eq. repeat split.
      * rewrite Eq. reflexivity.
      * pose proof (running_one_more b q a Nq) as One.
        rewrite <- Lq, Run in One. lia.
    + rewrite T, Reap. exact B.
Qed.

Lemma check_for_dead_children_settles os m :
  evolves settles nothing (pm (pmd m)) (pm (pmd (snd (check_for_dead_children os m)))).
Proof.
  unfold check_for_dead_children. rewrite bind_eq.
  pose proof (reap_cases os m) as Reap. cbv zeta in Reap.
  destruct (fst (procman_check_for_dead_children os m)) as [[[b c] a]|].
  - destruct Reap as (q & Lq & Nq & Eq & L2). rewrite Lq.
    apply bury_all_settles.
    + exact L2.
    + rewrite Eq. repeat split.
    + rewrite Eq. reflexivity.
    + rewrite <- length_app. apply running_length.
  - cbn [ret snd]. rewrite Reap. apply evolves_refl. exact settles_refl.
Qed.

Lemma orderly_refl p : orderly p p.
Proof. split; [reflexivity|]. split; intros H; exact H. Qed.

Lemma orderly_trans p q r : orderly p q -> orderly q r -> orderly p r.
Proof.
  intros (A1 & A2 & A3) (B1 & B2 & B3). split; [congruence|]. split; auto.
Qed.

Lemma watched_closed p q : watched_iff_running p -> orderly p q -> watched_iff_running q.
Proof. intros W (_ & _ & H). exact (H W). Qed.

Lemma settles_orderly p p' : settles p p' -> orderly p p'.
Proof.
  intros ((_ & _ & _ & _ & S & _ & Rr) & H). split; [exact S|].
  split; [intros M; rewrite Rr; exact M|].
  unfold watched_iff_running. destruct H as [[P W]|[P W]].
  - rewrite P, W. auto.
  - intros _. rewrite P, W. split; reflexivity.
Qed.

Lemma transition_watch os cmd st p a m :
  watched_iff_running p ->
  watched_iff_running (fst (fst (transition os cmd st p a m))).
Proof.
  intros W. unfold transition. destruct st.
  - destruct (_ && _); [|exact W]. rewrite bind_eq.
    destruct (Z_le_gt_dec (fst (OS.fork os (os_calls m))) 0) as [F|F].
    + rewrite (start_cmd_fails os p _ m F). exact W.
    + rewrite (start_cmd_succeeds os p _ m ltac:(lia)). cbn.
      unfold watched_iff_running. cbn. split; [lia | discriminate].
  - destruct (_ || _); [|exact W]. rewrite bind_eq.
    destruct (stop_cmd_frame os p m) as (_ & _ & _ & (n & t & E)).
    destruct (stop_cmd os p m) as [[st p1] m1]. cbn in *. subst p1. exact W.
Qed.

Lemma transitioned_orderly os rec m :
  orderly (located os rec m) (fst (fst (transitioned os rec m))).
Proof.
  destruct (sync_identity_frame os rec (located os rec m) false)
    as (S1 & _ & _ & S4 & _ & _ & _ & S8 & S9 & _).
  fold (subject os rec m) in S1, S4, S8, S9.
  destruct (transition_identity os rec (procman_get_cmd_status (located os rec m))
              (subject os rec m) false (staged os rec m)) as (_ & _ & _ & I4).
  destruct (transition_frame os rec (procman_get_cmd_status (located os rec m))
              (subject os rec m) false (staged os rec m)) as (_ & _ & F3).
  fold (transitioned os rec m) in I4, F3.
  split; [congruence|]. split; [intros M; congruence|].
  intros W. apply transition_watch. unfold watched_iff_running in *.
  rewrite S1, S9. exact W.
Qed.

Lemma carry_out_orderly os rec a m :
  evolves orderly watched_iff_running
    (pm (pmd m)) (pm (pmd (snd (carry_out os rec a m)))).
Proof.
  destruct (carry_out_result os rec a m) as (_ & _ & _ & _ & R5). rewrite R5.
  pose proof (transitioned_orderly os rec m) as T.
  destruct (transitioned_runid os rec m) as (T1 & _).
  set (p' := fst (fst (transitioned os rec m))) in *.
  unfold staged, located in *. rewrite locate_eq in *.
  destruct (find_local_cmd (pmd m) (SheriffCmd.sheriff_id rec)) as [p0|] eqn:F;
    cbn [fst snd pmd pm set_pm] in *.
  - apply (evolves_store _ _ orderly_refl _ p0); [exact F | exact T].
  - rewrite store_app_new; [|exact F|cbn; apply Z.eqb_refl].
    apply evolves_add; [exact orderly_refl|].
    constructor; [|constructor]. apply (watched_closed (fresh_handle os rec) p'); [|exact T].
    split; reflexivity.
Qed.

Lemma carry_out_all_orderly os cmds : forall a m,
  evolves orderly watched_iff_running
    (pm (pmd m)) (pm (pmd (snd (carry_out_all os cmds a m)))).
Proof.
  induction cmds as [|c rest IH]; intros a m; cbn [carry_out_all].
  - apply evolves_refl. exact orderly_refl.
  - rewrite bind_eq.
    eapply evolves_trans;
      [exact orderly_trans | exact watched_closed | apply carry_out_orderly | apply IH].
Qed.

Lemma cull_orderly os orders p m p' :
  fst (cull os orders p m) = Some p' -> orderly p p'.
Proof.
  unfold cull. destruct (orphaned orders p); [|cbn; intros [= <-]; apply orderly_refl].
  destruct (negb (pid p =? 0)).
  - rewrite bind_eq. fold (marked p).
    destruct (stop_cmd_frame os (marked p) m) as (_ & _ & _ & (n & t & E)).
    destruct (stop_cmd os (marked p) m) as [[st p1] m1]. cbn in *. subst p1.
    intros [= <-]. split; [reflexivity|]. split; [reflexivity|]. intros W. exact W.
  - unfold procman_remove_cmd, ret. cbn.
    destruct (pid p =? 0); [discriminate|]. intros [= <-]. apply orderly_refl.
Qed.

Lemma order_received_orderly os max_age orders m :
  evolves orderly watched_iff_running
    (pm (pmd m)) (pm (pmd (snd (procman_deputy_order_received os max_age orders m)))).
Proof.
  destruct (for_me orders m) eqn:Hme.
  - destruct (stale os max_age orders m) eqn:Hst.
    + rewrite (order_stale os max_age orders m Hme Hst). cbv zeta.
      rewrite report_stale_eq. cbn. apply evolves_refl. exact orderly_refl.
    + rewrite (order_fresh os max_age orders m Hme Hst), carried_out_list.
      eapply evolves_trans;
        [exact orderly_trans | exact watched_closed
        | apply (carry_out_all_orderly os (Orders.cmds orders) false (accepted orders m))
        |].
      apply evolves_pass. intros p m0 p' E. exact (cull_orderly os orders p m0 p' E).
  - rewrite (order_for_other os max_age orders m Hme). cbn.
    apply evolves_refl. exact orderly_refl.
Qed.

(** The handlers other than the reconciler and the shutdown. *)
Lemma dispatch_settles os max_age bits i m :
  (forall orders, i <> OrdersMsg orders) ->
  (forall signum, i = Signal signum -> signum = SIGCHLD) ->
  let m' := snd (dispatch os max_age bits i m) in
  evolves settles nothing (pm (pmd m)) (pm (pmd m'))
  /\ unrecorded (pmd m') = unrecorded (pmd m)
  /\ ((forall signum, i <> Signal signum) ->
      evolves untouched nothing (pm (pmd m)) (pm (pmd m'))).
Proof.
  intros Hi Hs.
  assert (U : forall l l', evolves untouched nothing l l' -> evolves settles nothing l l').
  { intros l l'. apply evolves_mono; [|auto].
    intros p p' _. apply untouched_settles. }
  destruct i as [orders|signum| | |source condition]; cbn [dispatch]; cbv zeta.
  - exfalso. exact (Hi orders eq_refl).
  - rewrite (Hs signum eq_refl). unfold glib_handle_signal. cbn [Z.eqb SIGCHLD Pos.eqb].
    split; [apply check_for_dead_children_settles|].
    split; [apply (preserves_check_for_dead_children unrecorded); reflexivity|].
    intros H. contradiction (H SIGCHLD). reflexivity.
  - unfold one_second_timeout. rewrite bind_eq, transmit_proc_info_list.
    rewrite (preserves_transmit_proc_info unrecorded).
    split; [apply U, update_cpu_times_untouched|].
    split; [apply (preserves_update_cpu_times unrecorded); reflexivity|].
    intros _. apply update_cpu_times_untouched.
  - split; [apply evolves_refl; exact settles_refl|]. split; [reflexivity|].
    intros _. apply evolves_refl. exact untouched_refl.
  - rewrite bind_eq. cbn [get_pmd fst snd].
    assert (E : pmd (snd ((match find (watched_by source) (pm (pmd m)) with
                           | Some cmd =>
                               keep <- pipe_data_ready os condition cmd ;;
                               when (negb keep) (emit (WatchRemoved source))
                           | None => ret tt
                           end) m)) = pmd m).
    { destruct (find (watched_by source) (pm (pmd m))); [|reflexivity].
      apply (preserves_bind (fun s => s)); [apply preserves_pipe_data_ready|intros keep].
      apply preserves_when, preserves_emit. }
    rewrite E.
    split; [apply evolves_refl; exact settles_refl|]. split; [reflexivity|].
    intros _. apply evolves_refl. exact untouched_refl.
Qed.

(** The shutdown leaves no handle with its record: those that run stay
    with the process manager, bare. *)
Lemma shutdown_frees os signum m :
  signum <> SIGCHLD ->
  let m' := snd (glib_handle_signal os signum m) in
  pm (pmd m') = []
  /\ exists kept,
       unrecorded (pmd m') = unrecorded (pmd m) ++ kept
       /\ Forall2 bare_of (running (pm (pmd m))) kept.
Proof.
  intros NE. cbv zeta. unfold glib_handle_signal.
  destruct (Z.eqb_spec signum SIGCHLD) as [|_]; [contradiction|].
  rewrite !bind_eq. cbn [snd pmd emit].
  destruct (remove_all_cmds_kept os m) as [L K]. cbv zeta in L, K.
  split; [exact L|]. exists (map free_user (running (pm (pmd m)))). split; [exact K|].
  generalize (running (pm (pmd m))) as l.
  induction l as [|p l IH]; cbn [map]; constructor; [repeat split | exact IH].
Qed.

Lemma step_orderly os max_age bits m i :
  evolves orderly watched_iff_running (pm (pmd m)) (pm (pmd (step os max_age bits m i))).
Proof.
  unfold step. destruct (quit m); [apply evolves_refl; exact orderly_refl|].
  assert (S : (forall orders, i <> OrdersMsg orders) ->
              (forall signum, i = Signal signum -> signum = SIGCHLD) ->
              evolves orderly watched_iff_running
                (pm (pmd m)) (pm (pmd (snd (dispatch os max_age bits i m))))).
  { intros Hi Hs. destruct (dispatch_settles os max_age bits i m Hi Hs) as [S _].
    revert S. apply evolves_mono; [|intros p []].
    intros p p' _. apply settles_orderly. }
  destruct i as [orders|signum| | |source condition];
    [apply order_received_orderly| |apply S; intros o Ho; discriminate Ho..].
  destruct (Z.eq_dec signum SIGCHLD) as [->|NE].
  - apply S; [intros o Ho; discriminate Ho | intros s0 E; injection E as <-; reflexivity].
  - cbn [dispatch]. rewrite (proj1 (shutdown_frees os signum m NE)).
    apply evolves_drop_all.
Qed.

Lemma run_watched os max_age bits inputs : forall m,
  Forall watched_iff_running (pm (pmd m)) ->
  Forall watched_iff_running (pm (pmd (run os max_age bits m inputs))).
Proof.
  induction inputs as [|i rest IH]; intros m W; [exact W|].
  cbn [run fold_left]. apply IH.
  exact (evolves_all_new orderly watched_iff_running watched_closed _ _ W
           (step_orderly os max_age bits m i)).
Qed.

(** X11. A handle that has its record has a stdout watch exactly when it
    has a process: this holds of the empty command list of [main] and every
    turn of the main loop keeps it, so it holds at any point of a run.  A
    signal other than SIGCHLD leaves no handle with a record: [pm] is empty
    once the shutdown has freed the records, so nothing is said of the
    handles the process manager keeps then.  (The loop of
    [check_for_dead_children] takes one turn for each child reaped, which
    the bound of its model allows.) *)
Theorem watched_while_running os max_age bits :
  (forall m i,
     Forall watched_iff_running (pm (pmd m)) ->
     Forall watched_iff_running (pm (pmd (step os max_age bits m i))))
  /\ (forall name verbosity inputs,
        Forall watched_iff_running
          (pm (pmd (run os max_age bits (boot name verbosity) inputs))))
  /\ (forall m signum,
        quit m = false -> signum <> SIGCHLD ->
        pm (pmd (step os max_age bits m (Signal signum))) = []).
Proof.
  split; [|split].
  - intros m i W.
    exact (evolves_all_new orderly watched_iff_running watched_closed _ _ W
             (step_orderly os max_age bits m i)).
  - intros name verbosity inputs. apply run_watched. constructor.
  - intros m signum Q NE. unfold step. rewrite Q. cbn [dispatch].
    exact (proj1 (shutdown_frees os signum m NE)).
Qed.

Lemma watched_while_running_witness :
  Forall watched_iff_running (pm (pmd Scenario.busy))
  /\ Forall watched_iff_running
       (pm (pmd (step Scenario.os Scenario.max_age 32 Scenario.busy
                   (OrdersMsg (Scenario.order [Scenario.rec_sleep "sleep 60" 2 false])))))
  /\ pm (pmd (step Scenario.os Scenario.max_age 32 Scenario.busy (Signal SIGTERM))) = [].
Proof.
  assert (W : Forall watched_iff_running (pm (pmd Scenario.busy))).
  { repeat constructor; intros H; discriminate H. }
  split; [exact W|]. split.
  - exact (proj1 (watched_while_running Scenario.os Scenario.max_age 32) _ _ W).
  - apply (proj2 (proj2 (watched_while_running Scenario.os Scenario.max_age 32)));
      [reflexivity | discriminate].
Defined.

(** X12. No handler but the reconciler adds a handle to the command list.
    The timers, the pipe handler and the handler of SIGCHLD do not change
    the name, the arguments, the nickname, the group, the sheriff_id, the
    run id or the removal mark of a handle, and free no record; the timers
    and the pipe handler leave the pid and the watch of every handle as they
    are as well, while the handler of SIGCHLD leaves them as they are or
    leaves the handle with pid 0 and no watch.  A signal other than SIGCHLD
    frees the record of every handle (lines 301-304): no handle with a
    record is left, and the handles that ran stay with the process manager
    without one, with the name, arguments, pid, pipe and exit status they
    had, in list order. *)
Theorem other_handlers_keep_commands os max_age bits i m
  (no_order : forall orders, i <> OrdersMsg orders) :
  let m' := snd (dispatch os max_age bits i m) in
  ((forall signum, i = Signal signum -> signum = SIGCHLD) ->
   evolves settles nothing (pm (pmd m)) (pm (pmd m'))
   /\ unrecorded (pmd m') = unrecorded (pmd m))
  /\ ((forall signum, i <> Signal signum) ->
      evolves untouched nothing (pm (pmd m)) (pm (pmd m')))
  /\ (forall signum,
        i = Signal signum -> signum <> SIGCHLD ->
        pm (pmd m') = []
        /\ exists kept,
             unrecorded (pmd m') = unrecorded (pmd m) ++ kept
             /\ Forall2 bare_of (running (pm (pmd m))) kept).
Proof.
  intros m'. split; [|split].
  - intros Hs. destruct (dispatch_settles os max_age bits i m no_order Hs) as (S & U & _).
    split; [exact S | exact U].
  - intros Hs. apply (dispatch_settles os max_age bits i m no_order); [|exact Hs].
    intros signum E. contradiction (Hs signum E).
  - intros signum -> NE. exact (shutdown_frees os signum m NE).
Qed.

Lemma other_handlers_keep_commands_witness :
  let m' := snd (dispatch Scenario.os Scenario.max_age 32 (Signal SIGTERM) Scenario.busy) in
  (forall orders, OneSecond <> OrdersMsg orders)
  /\ evolves untouched nothing (pm (pmd Scenario.busy))
       (pm (pmd (snd (dispatch Scenario.os Scenario.max_age 32 OneSecond Scenario.busy))))
  /\ (forall orders, Signal SIGTERM <> OrdersMsg orders)
  /\ pm (pmd m') = []
  /\ exists b b',
       unrecorded (pmd m') = [b; b']
       /\ bare_str b = "sleep 60" /\ bare_pid b = 101
       /\ bare_str b' = "top" /\ bare_pid b' = 102.
Proof.
  intros m'.
  assert (N : forall orders, OneSecond <> OrdersMsg orders)
    by (intros o Ho; discriminate Ho).
  assert (N' : forall orders, Signal SIGTERM <> OrdersMsg orders)
    by (intros o Ho; discriminate Ho).
  split; [exact N|]. split.
  { apply (proj1 (proj2 (other_handlers_keep_commands Scenario.os Scenario.max_age 32
                           OneSecond Scenario.busy N))).
    intros signum E. discriminate E. }
  split; [exact N'|].
  destruct (proj2 (proj2 (other_handlers_keep_commands Scenario.os Scenario.max_age 32
                            (Signal SIGTERM) Scenario.busy N')) SIGTERM eq_refl)
    as (L & kept & K & F); [discriminate|].
  split; [exact L|].
  change (running (pm (pmd Scenario.busy)))
    with [Scenario.sleep60 101 0 0; Scenario.top] in F.
  inversion F as [|p b l1 l2 (S1 & _ & P1 & _) F']; subst.
  inversion F' as [|p' b' l1' l2' (S2 & _ & P2 & _) F'']; subst.
  inversion F''; subst.
  exists b, b'. split; [exact K|]. repeat split; assumption.
Defined.

(** X13. The removal mark of a handle is never cleared.  Handles are told
    apart by their sheriff_id, which no two of the list share: a handle of
    the list after a turn of the main loop whose sheriff_id had a handle
    before the turn has the removal mark if that one had it, also when the
    turn carries out an order that names the command again. *)
Theorem removal_mark_is_kept os max_age bits m i p p'
  (unique : NoDup (sids (pm (pmd m))))
  (before : find_local_cmd (pmd m) (sheriff_id (user p')) = Some p)
  (after : In p' (pm (pmd (step os max_age bits m i))))
  (marked : remove_requested (user p) = true) :
  remove_requested (user p') = true.
Proof.
  set (R := fun p q : procman_cmd_t =>
              sheriff_id (user q) = sheriff_id (user p)
              /\ (remove_requested (user p) = true -> remove_requested (user q) = true)).
  assert (Ro : forall p q, orderly p q -> R p q)
    by (intros a b (S & M & _); split; assumption).
  assert (T : forall q, In q (pm (pmd (step os max_age bits m i))) ->
              match find_local_cmd (pmd m) (sheriff_id (user q)) with
              | Some p => R p q
              | None =>
                  exists orders p1,
                    carries_out os max_age m i orders
                    /\ find_local_cmd
                         (pmd (snd (carry_out_all os (Orders.cmds orders) false
                                      (accepted orders m))))
                         (sheriff_id (user q)) = Some p1
                    /\ R p1 q
              end).
  { apply (step_tracks R os max_age bits m i); try assumption.
    - intros a. split; [reflexivity | auto].
    - intros a b c [S1 M1] [S2 M2]. split; [congruence | auto].
    - intros a b [S _]. exact S.
    - intros orders rec m0 _ _. apply Ro, transitioned_orderly.
    - intros orders a m0 b _ E. apply Ro. exact (cull_orderly os orders a m0 b E).
    - intros Hi. destruct i as [orders|signum| | |source condition].
      + contradiction (Hi orders). reflexivity.
      + destruct (Z.eq_dec signum SIGCHLD) as [->|NE].
        * generalize (proj1 (dispatch_settles os max_age bits (Signal SIGCHLD) m Hi
                               ltac:(intros s0 E; injection E as <-; reflexivity))).
          apply evolves_mono; [|intros a []]. intros a b _ H. apply Ro, settles_orderly, H.
        * cbn [dispatch]. rewrite (proj1 (shutdown_frees os signum m NE)).
          apply evolves_drop_all.
      + generalize (proj1 (dispatch_settles os max_age bits OneSecond m Hi
                             ltac:(intros s0 E; discriminate E))).
        apply evolves_mono; [|intros a []]. intros a b _ H. apply Ro, settles_orderly, H.
      + generalize (proj1 (dispatch_settles os max_age bits Introspection m Hi
                             ltac:(intros s0 E; discriminate E))).
        apply evolves_mono; [|intros a []]. intros a b _ H. apply Ro, settles_orderly, H.
      + generalize (proj1 (dispatch_settles os max_age bits (PipeReady source condition)
                             m Hi ltac:(intros s0 E; discriminate E))).
        apply evolves_mono; [|intros a []]. intros a b _ H. apply Ro, settles_orderly, H. }
  specialize (T p' after).
  rewrite before in T. exact (proj2 T marked).
Qed.

Lemma removal_mark_is_kept_witness :
  let culled :=
    step Scenario.os Scenario.max_age 32 Scenario.busy
      (OrdersMsg (Scenario.order [Scenario.rec_sleep "sleep 60" 1 false])) in
  let again :=
    OrdersMsg (Scenario.order [Scenario.rec_sleep "sleep 60" 1 false;
                               SheriffCmd.mk "top" "t" "g" 1 false 2]) in
  let named_again := step Scenario.os Scenario.max_age 32 culled again in
  map (fun p => (sheriff_id (user p), remove_requested (user p))) (pm (pmd culled))
  = [(1, false); (2, true)]
  /\ NoDup (sids (pm (pmd culled)))
  /\ forall p',
       In p' (pm (pmd named_again)) -> sheriff_id (user p') = 2 ->
       remove_requested (user p') = true.
Proof.
  intros culled again named_again.
  assert (L : map (fun p => (sheriff_id (user p), remove_requested (user p)))
                (pm (pmd culled)) = [(1, false); (2, true)])
    by (vm_compute; reflexivity).
  assert (U : NoDup (sids (pm (pmd culled)))).
  { replace (sids (pm (pmd culled))) with [1; 2] by (vm_compute; reflexivity).
    repeat (constructor; [cbn; intuition discriminate|]). constructor. }
  split; [exact L|]. split; [exact U|].
  intros p' Hin Hs.
  destruct (find_local_cmd (pmd culled) 2) as [p|] eqn:F; [|vm_compute in F; discriminate F].
  apply (removal_mark_is_kept Scenario.os Scenario.max_age 32 culled again p p' U).
  - rewrite Hs. exact F.
  - exact Hin.
  - vm_compute in F. injection F as <-. reflexivity.
Defined.

(** ** Dead children *)

Lemma printf_and_transmit_line os sid text m :
  text <> EmptyString ->
  printf_and_transmit os sid text m =
  (tt, emitted (asked m)
         [PMD_PRINTF (Printf.mk (hostname (pmd m)) sid (vsnprintf_256 text)
                        (clock os (os_calls m)))]).
Proof.
  intros H. destruct text as [|c rest]; [contradiction|]. apply printf_and_transmit_eq.
Qed.

Lemma line_not_empty s : (s ++ LF)%string <> EmptyString.
Proof. destruct s; discriminate. Qed.

Lemma unhooked_trace os cmd m :
  trace (snd (unhooked os cmd m)) = trace m ++ unhooking cmd
  /\ pmd (snd (unhooked os cmd m)) = pmd m
  /\ (stdout_ioc (user cmd) <> None -> stdout_fd (fst (unhooked os cmd m)) < 0)
  /\ (stdout_ioc (user cmd) = None -> fst (unhooked os cmd m) = cmd).
Proof.
  unfold unhooked, unhooking. destruct (stdout_ioc (user cmd)) eqn:E.
  - rewrite bind_eq. unfold emit, procman_close_dead_pipes. cbn [fst snd stdout_fd set_user].
    destruct (Z.ltb_spec (stdout_fd cmd) 0).
    + cbn. repeat split; first [discriminate | intros _; assumption].
    + cbn. rewrite <- app_assoc. repeat split; discriminate.
  - cbn. rewrite app_nil_r. repeat split. intros H. contradiction.
Qed.

Lemma death_notice_lines os cmd m :
  let sid := sheriff_id (user cmd) in
  let st := exit_status cmd in
  let c :=
    when (WIFSIGNALED st)
      (printf_and_transmit os sid (OS.strsignal os (WTERMSIG st) ++ LF) ;;
       when (WCOREDUMP st) (printf_and_transmit os sid ("Core dumped." ++ LF))) in
  exists lines,
    trace (snd (c m)) = trace m ++ map PMD_PRINTF lines
    /\ Forall (tagged (hostname (pmd m)) sid) lines
    /\ map Printf.text lines = death_notice os st
    /\ pmd (snd (c m)) = pmd m.
Proof.
  cbv zeta. unfold death_notice, when.
  destruct (WIFSIGNALED (exit_status cmd)).
  - rewrite bind_eq, (printf_and_transmit_line _ _ _ _ (line_not_empty _)).
    cbn [fst snd]. destruct (WCOREDUMP (exit_status cmd)).
    + rewrite (printf_and_transmit_line _ _ _ _ (line_not_empty _)).
      cbn [snd emitted asked trace pmd]. rewrite <- app_assoc.
      eexists [_; _]. split; [reflexivity|].
      split; [repeat constructor|]. split; reflexivity.
    + cbn [ret snd emitted asked trace pmd].
      eexists [_]. split; [reflexivity|].
      split; [repeat constructor|]. split; reflexivity.
  - exists []. cbn. rewrite app_nil_r. repeat split. constructor.
Qed.

(** X14. What [check_for_dead_children] does with one reaped child.  If
    the poll says that there is something to read, it reads the pipe once
    and publishes what [pipe_data_ready] makes of it: the C string at the
    start of the bytes read, or nothing if there are none, or the line of
    the read error, which is first handed to [dbgt] as its format.  If the
    child was ended by a signal, it publishes one line with the name of the
    signal, and one more line "Core dumped." if the core flag is set.  All
    these lines go out under the sheriff_id of the command, in this order,
    and nothing else does.  Then a watch, if the handle has one, is removed
    and the pipe closed.  The handle stays in its place of the command
    list, the same command with the same exit status and no watch, unless
    it is marked for removal: then it is gone. *)
Theorem dead_child_is_buried os before cmd after m
  (reaped : pid cmd = 0) :
  let m' := snd (bury os before cmd after m) in
  let readable := OS.poll_in os (os_calls m) in
  let bytes_read := fst (fst (OS.read os (S (os_calls m)))) in
  let data := snd (fst (OS.read os (S (os_calls m)))) in
  let errno := snd (OS.read os (S (os_calls m))) in
  let buf :=
    substring 0 1023
      ("procman [" ++ cmd_str cmd ++ "] read: " ++ OS.strerror os errno
       ++ " (" ++ fmt_d errno ++ ")" ++ LF) in
  exists lines output cmd',
    trace m'
    = trace m
      ++ (if readable && (bytes_read <? 0) then [Dbgt buf] else [])
      ++ map PMD_PRINTF lines ++ unhooking cmd
    /\ Forall (tagged (hostname (pmd m)) (sheriff_id (user cmd))) lines
    /\ map Printf.text lines = output ++ death_notice os (exit_status cmd)
    /\ (readable = false -> output = [])
    /\ (readable = true -> bytes_read < 0 -> output = [buf])
    /\ (readable = true -> bytes_read = 0 -> output = [])
    /\ (readable = true -> 0 < bytes_read ->
        exists text,
          output = [text]
          /\ c_string_of (substring 0 (Z.to_nat bytes_read) data) text)
    /\ same_command cmd cmd'
    /\ pid cmd' = 0 /\ exit_status cmd' = exit_status cmd
    /\ stdout_ioc (user cmd') = None
    /\ (stdout_ioc (user cmd) <> None -> stdout_fd cmd' < 0)
    /\ (stdout_ioc (user cmd) = None -> cmd' = cmd)
    /\ pm (pmd m')
       = if remove_requested (user cmd) then before ++ after
         else before ++ cmd' :: after.
Proof.
  intros m' readable bytes_read data errno buf.
  subst m'. unfold bury. fold (unhooked os cmd). rewrite bind_eq.
  change (fst (ask os OS.poll_in m)) with readable.
  change (snd (ask os OS.poll_in m)) with (asked m).
  rewrite bind_eq.
  set (piped := when readable (_ <- pipe_data_ready os G_IO_IN cmd ;; ret tt)).
  assert (P : exists l1,
             trace (snd (piped (asked m)))
             = trace m
               ++ (if readable && (bytes_read <? 0) then [Dbgt buf] else [])
               ++ map PMD_PRINTF l1
             /\ Forall (tagged (hostname (pmd m)) (sheriff_id (user cmd))) l1
             /\ pmd (snd (piped (asked m))) = pmd m
             /\ map Printf.text l1
                = if readable
                  then if bytes_read <? 0 then [buf]
                       else if bytes_read =? 0 then []
                       else [c_str (substring 0 (Z.to_nat bytes_read) data)]
                  else []).
  { subst piped. destruct readable; cbn [andb when].
    - rewrite bind_eq. cbn [ret snd].
      destruct (pipe_data_ready_spec os G_IO_IN cmd (asked m)) as (l1 & T & F & X & Q).
      cbv zeta in T, X.
      change (has_condition G_IO_IN G_IO_IN) with true in T, X.
      change (has_condition G_IO_IN G_IO_ERR) with false in X.
      change (has_condition G_IO_IN G_IO_HUP) with false in X.
      change (has_condition G_IO_IN G_IO_NVAL) with false in X.
      change (has_condition G_IO_IN G_IO_PRI) with false in X.
      change (has_condition G_IO_IN G_IO_OUT) with false in X.
      cbn [app andb] in T, X. rewrite app_nil_r in X.
      exists l1. split; [exact T|]. split; [exact F|]. split; [exact Q | exact X].
    - exists []. cbn. rewrite app_nil_r. repeat split. constructor. }
  destruct P as (l1 & T1 & F1 & P1 & X1).
  set (m1 := snd (piped (asked m))) in *.
  rewrite bind_eq.
  destruct (death_notice_lines os cmd m1) as (l2 & T2 & F2 & N2 & P2).
  cbv zeta in T2, P2.
  rewrite bind_eq.
  match goal with |- context [unhooked os cmd ?mm] => set (m2 := mm) in * end.
  destruct (unhooked_trace os cmd m2) as (T3 & P3 & Fd & Same).
  destruct (unhooked_facts os cmd m2) as (C & Pid & W & Ex).
  set (cmd' := fst (unhooked os cmd m2)) in *.
  exists (l1 ++ l2), (map Printf.text l1), cmd'.
  unfold modify_pmd. cbn [snd trace pmd pm set_pm].
  rewrite T3, T2, T1, !map_app, <- !app_assoc.
  split; [reflexivity|].
  split; [apply Forall_app; split; [exact F1|]; rewrite <- P1; exact F2|].
  split; [rewrite N2; reflexivity|].
  rewrite X1.
  split; [intros ->; reflexivity|].
  split; [intros -> Neg; destruct (Z.ltb_spec bytes_read 0); [reflexivity | lia]|].
  split; [intros -> ->; reflexivity|].
  split.
  { intros -> Pos. destruct (Z.ltb_spec bytes_read 0); [lia|].
    destruct (Z.eqb_spec bytes_read 0); [lia|].
    eexists. split; [reflexivity | apply c_str_spec]. }
  split; [exact C|]. split; [congruence|]. split; [exact Ex|]. split; [exact W|].
  split; [exact Fd|]. split; [exact Same|].
  destruct C as (_ & _ & _ & _ & _ & _ & Rr). rewrite Rr.
  destruct (remove_requested (user cmd)); [|reflexivity].
  unfold procman_remove_cmd. rewrite Pid, reaped. reflexivity.
Qed.

Lemma dead_child_is_buried_witness :
  let m' := snd (bury Worlds.os_read_error [] Worlds.crashed [Scenario.top; Scenario.ls]
                   Worlds.mourning) in
  pid Worlds.crashed = 0
  /\ exists lines cmd',
       trace m'
       = Dbgt ("procman [sleep 60] read: error (5)" ++ LF)%string
         :: map PMD_PRINTF lines ++ [WatchRemoved 2; PipeClosed 7]
       /\ map Printf.text lines
          = [("procman [sleep 60] read: error (5)" ++ LF)%string;
             ("signal" ++ LF)%string; ("Core dumped." ++ LF)%string]
       /\ pm (pmd m') = [cmd'; Scenario.top; Scenario.ls]
       /\ stdout_ioc (user cmd') = None.
Proof.
  intros m'.
  assert (Z : pid Worlds.crashed = 0) by reflexivity.
  split; [exact Z|].
  destruct (dead_child_is_buried Worlds.os_read_error [] Worlds.crashed
              [Scenario.top; Scenario.ls] Worlds.mourning Z)
    as (lines & output & cmd' & T & _ & N & _ & E & _ & _ & _ & _ & _ & W & _ & _ & L).
  exists lines, cmd'. split; [exact T|].
  split; [rewrite N, E by reflexivity; reflexivity|].
  split; [exact L | exact W].
Defined.

(** ** Shutdown *)

Lemma remove_cmds_signals os cmds : forall m,
  exists sigs,
    signals_sent (trace (snd (remove_cmds os cmds m))) = signals_sent (trace m) ++ sigs
    /\ incl sigs (map kill_of (running cmds))
    /\ (List.length sigs <= List.length (running cmds))%nat
    /\ (Forall (fun p => last_kill_time (user p) = 0) (running cmds) ->
        sigs = map kill_of (running cmds)).
Proof.
  induction cmds as [|p rest IH]; intros m; cbn [remove_cmds].
  - exists []. cbn. rewrite app_nil_r. repeat split; [intros x [] | lia].
  - rewrite bind_eq. unfold running. cbn [filter]. fold (running rest).
    destruct (Z.eqb_spec (pid p) 0) as [Z|NZ]; cbn [negb].
    + cbn [ret fst snd]. rewrite bind_eq.
      destruct (IH m) as (sigs & S & I & L & F).
      destruct (remove_cmds os rest m) as [[ok rest'] m2]. cbn [fst snd ret] in *.
      exists sigs. repeat split; assumption.
    + destruct (rate_limited os p m) eqn:Lim.
      * rewrite (stop_cmd_limited os p m NZ Lim). cbn [fst snd]. rewrite bind_eq.
        destruct (IH (asked m)) as (sigs & S & I & L & F).
        destruct (remove_cmds os rest (asked m)) as [[ok rest'] m2].
        cbn [fst snd ret] in *.
        exists sigs. split; [exact S|]. split; [|split].
        -- intros x Hx. right. apply I. exact Hx.
        -- cbn [List.length]. lia.
        -- intros Fr. inversion Fr as [|? ? Hp _]; subst.
           unfold rate_limited in Lim. rewrite Hp in Lim. discriminate.
      * destruct (stop_cmd_step os p m NZ Lim) as (st & m1 & E & Sg & _).
        rewrite E. cbn [fst snd]. rewrite bind_eq.
        destruct (IH m1) as (sigs & S & I & L & F).
        destruct (remove_cmds os rest m1) as [[ok rest'] m2].
        cbn [fst snd ret] in *.
        exists (kill_of p :: sigs). rewrite S, Sg, <- app_assoc.
        split; [reflexivity|]. split; [|split].
        -- intros x [<-|Hx]; [left; reflexivity | right; apply I; exact Hx].
        -- cbn [List.length]. lia.
        -- intros Fr. inversion Fr as [|? ? _ Fr']; subst. cbn [map].
           rewrite (F Fr'). reflexivity.
Qed.

(** X15. A signal other than SIGCHLD shuts the deputy down.  The signals
    it sends are signals [stop_cmd] picks for handles that run, no more of
    them than there are such handles; if none of these handles was sent a
    signal before, each gets one signal, SIGTERM or SIGKILL by its kill
    count, in list order.  Apart from the signals and the lines for kills
    that failed, the shutdown lets nothing out but the stop of the main
    loop, which comes last. *)
Theorem shutdown_stops_children os signum m
  (quit_signal : signum <> SIGCHLD) :
  let m' := snd (glib_handle_signal os signum m) in
  let children := running (pm (pmd m)) in
  let other e := negb (is_kill e) && negb (is_printf e) in
  quit m' = true
  /\ (exists earlier,
        trace m' = earlier ++ [MainLoopQuit]
        /\ filter other earlier = filter other (trace m))
  /\ (exists sigs,
        signals_sent (trace m') = signals_sent (trace m) ++ sigs
        /\ incl sigs (map kill_of children)
        /\ (List.length sigs <= List.length children)%nat
        /\ (Forall (fun p => last_kill_time (user p) = 0) children ->
            sigs = map kill_of children)).
Proof.
  intros m' children other. subst m'. unfold glib_handle_signal.
  destruct (Z.eqb_spec signum SIGCHLD) as [|_]; [contradiction|].
  rewrite !bind_eq. unfold emit. cbn [snd quit trace].
  split; [reflexivity|].
  assert (T : trace (snd (remove_all_cmds os m))
              = trace (snd (remove_cmds os (pm (pmd m)) m))).
  { unfold remove_all_cmds. rewrite !bind_eq. unfold get_pmd. cbn [fst snd].
    destruct (remove_cmds os (pm (pmd m)) m) as [[ok cmds] m1]. cbn [fst snd].
    rewrite bind_eq. reflexivity. }
  rewrite T. split.
  - eexists. split; [reflexivity|].
    apply (silent_remove_cmds other); intros; reflexivity.
  - destruct (remove_cmds_signals os (pm (pmd m)) m) as (sigs & S & I & L & F).
    exists sigs. rewrite signals_sent_app. cbn [signals_sent]. rewrite app_nil_r.
    repeat split; assumption.
Qed.

Lemma shutdown_stops_children_witness :
  let m' := snd (glib_handle_signal Scenario.os SIGTERM Scenario.busy) in
  SIGTERM <> SIGCHLD
  /\ Forall (fun p => last_kill_time (user p) = 0) (running (pm (pmd Scenario.busy)))
  /\ quit m' = true
  /\ signals_sent (trace m') = [(101, SIGTERM); (102, SIGTERM)].
Proof.
  intros m'.
  assert (Q : SIGTERM <> SIGCHLD) by discriminate.
  assert (F : Forall (fun p => last_kill_time (user p) = 0)
                (running (pm (pmd Scenario.busy))))
    by (repeat constructor).
  split; [exact Q|]. split; [exact F|].
  destruct (shutdown_stops_children Scenario.os SIGTERM Scenario.busy Q)
    as (H & _ & (sigs & S & _ & _ & A)).
  split; [exact H|]. unfold m'. rewrite S, (A F). reflexivity.
Defined.

(** ** The log lines of the deputy *)

Lemma substring_0_length n : forall s,
  String.length (substring 0 n s) = Nat.min n (String.length s).
Proof.
  induction n as [|n IH]; intros s; destruct s as [|c s]; cbn; try reflexivity.
  rewrite IH. reflexivity.
Qed.

Lemma substring_0_prefix n : forall s, prefix (substring 0 n s) s = true.
Proof.
  induction n as [|n IH]; intros s; destruct s as [|c s]; cbn; try reflexivity.
  destruct (ascii_dec c c) as [_|N]; [apply IH | contradiction N; reflexivity].
Qed.

Lemma substring_0_all n : forall s,
  (String.length s <= n)%nat -> substring 0 n s = s.
Proof.
  induction n as [|n IH]; intros s H; destruct s as [|c s]; cbn in *;
    try reflexivity; [lia|].
  rewrite IH by lia. reflexivity.
Qed.

(** X16. A line the deputy composes itself goes through a buffer of 256
    bytes: [printf_and_transmit] publishes one PMD_PRINTF message, under the
    sheriff_id given and with the name and the clock of the deputy, whose
    text is the formatted text cut to its first 255 bytes, so the text as it
    is when that has at most 255 bytes; and it publishes nothing, and does
    not read the clock, when the formatted text is empty. *)
Theorem log_lines_fit_the_buffer os sid text m :
  let m' := snd (printf_and_transmit os sid text m) in
  (text = EmptyString -> m' = m)
  /\ (text <> EmptyString ->
      exists line,
        trace m' = trace m ++ [PMD_PRINTF line]
        /\ tagged (hostname (pmd m)) sid line
        /\ Printf.utime line = clock os (os_calls m)
        /\ (String.length (Printf.text line) <= 255)%nat
        /\ prefix (Printf.text line) text = true
        /\ ((String.length text <= 255)%nat -> Printf.text line = text)
        /\ pmd m' = pmd m /\ os_calls m' = S (os_calls m)).
Proof.
  intros m'. subst m'. split.
  - intros ->. reflexivity.
  - intros NE. rewrite (printf_and_transmit_line os sid text m NE).
    cbn [snd emitted asked trace pmd os_calls].
    eexists. split; [reflexivity|]. cbn [Printf.text Printf.utime].
    split; [split; reflexivity|]. split; [reflexivity|]. unfold vsnprintf_256.
    split; [rewrite substring_0_length; lia|].
    split; [apply substring_0_prefix|].
    split; [apply substring_0_all|]. split; reflexivity.
Qed.

Lemma log_lines_fit_the_buffer_witness :
  let text := ("ERROR!  couldn't start [sleep 60]" ++ LF)%string in
  let m' := snd (printf_and_transmit Scenario.os 1 text Scenario.busy) in
  text <> EmptyString
  /\ (String.length text <= 255)%nat
  /\ exists line, trace m' = [PMD_PRINTF line] /\ Printf.text line = text.
Proof.
  intros text m'.
  assert (NE : text <> EmptyString) by discriminate.
  assert (Short : (String.length text <= 255)%nat) by (vm_compute; lia).
  split; [exact NE|]. split; [exact Short|].
  destruct (proj2 (log_lines_fit_the_buffer Scenario.os 1 text Scenario.busy) NE)
    as (line & T & _ & _ & _ & _ & A & _).
  exists line. split; [exact T | exact (A Short)].
Defined.

(** ** One record, twice *)

(** X17. A command record that met a handle that did not run (or no
    handle) leaves it so that the same record, carried out again, changes
    nothing and lets nothing out: the handle has the run id the record asks
    for whether or not a start was attempted and whether or not it
    succeeded.  So a start that failed is not tried again when the record
    comes again, whatever the environment then answers. *)
Theorem start_is_attempted_once os rec a m
  (stopped : pid (located os rec m) = 0) :
  let m1 := snd (carry_out os rec a m) in
  (exists p1,
     find_local_cmd (pmd m1) (SheriffCmd.sheriff_id rec) = Some p1
     /\ settled rec p1)
  /\ (forall os' a', carry_out os' rec a' m1 = (a', m1)).
Proof.
  intros m1.
  assert (S : exists p1,
             find_local_cmd (pmd m1) (SheriffCmd.sheriff_id rec) = Some p1
             /\ settled rec p1).
  { destruct (carry_out_follows os rec a m) as (p1 & F & Fo & _).
    exists p1. split; [exact F|]. split; [exact Fo|].
    destruct (carry_out_result os rec a m) as (R1 & _).
    cbv zeta in R1. unfold m1 in F. rewrite F in R1. injection R1 as ->.
    destruct (transitioned_runid os rec m) as (_ & _ & T3).
    split; [exact (T3 stopped)|].
    rewrite transitioned_cases. rewrite subject_pid, stopped. cbn [Z.eqb].
    destruct (negb (actual_runid (user (subject os rec m)) =? SheriffCmd.desired_runid rec))
      ; cbn [andb].
    - destruct (SheriffCmd.force_quit rec); [|reflexivity]. cbn [negb fst].
      cbn. rewrite subject_pid. intros H. contradiction.
    - cbn. rewrite subject_pid. intros H. contradiction. }
  split; [exact S|]. intros os' a'. destruct S as (p1 & F & St).
  exact (carry_out_settled os' rec a' m1 p1 F St).
Qed.

Lemma start_is_attempted_once_witness :
  let rec := SheriffCmd.mk "ls" "l" "g" 2 false 3 in
  let m1 := snd (carry_out Scenario.os_no_fork rec false Scenario.busy) in
  pid (located Scenario.os_no_fork rec Scenario.busy) = 0
  /\ spawns (trace m1) = [("ls", -1)]
  /\ carry_out Scenario.os rec false m1 = (false, m1).
Proof.
  intros rec m1.
  assert (Z : pid (located Scenario.os_no_fork rec Scenario.busy) = 0) by reflexivity.
  split; [exact Z|]. split; [vm_compute; reflexivity|].
  exact (proj2 (start_is_attempted_once Scenario.os_no_fork rec false Scenario.busy Z)
           Scenario.os false).
Defined.

(** ** The report of the reaping *)

Lemma reap_none os m :
  fst (procman_check_for_dead_children os m) = None ->
  pmd (snd (procman_check_for_dead_children os m)) = pmd m.
Proof.
  unfold procman_check_for_dead_children, bind, ask, ret.
  destruct (OS.waitpid os (os_calls m)) as [child status].
  destruct (child <=? 0); [reflexivity|].
  unfold get_pmd. cbn [pmd].
  destruct (split_at_pid child (pm (pmd m))) as [[[before p] after]|];
    [discriminate | reflexivity].
Qed.

Lemma bury_all_reports os fuel : forall before cmd after m,
  pm (pmd m) = before ++ cmd :: after ->
  pid cmd = 0 ->
  (List.length (running (before ++ after)) <= fuel)%nat ->
  let m' := snd (bury_all os fuel before cmd after m) in
  reports_and_children m' = S (reports_and_children m)
  /\ exists earlier info,
       trace m' = earlier ++ [PMD_INFO info]
       /\ Info.cmds info = map deputy_cmd_of (pm (pmd m')).
Proof.
  induction fuel as [|fuel IH]; intros before cmd after m H Z Fuel;
    cbn [bury_all]; cbv zeta.
  all: rewrite !bind_eq.
  all: destruct (bury_cases os before cmd after m) as (cmd' & C & P & W & L).
  all: pose proof (silent_bury is_info (fun _ => eq_refl) (fun _ => eq_refl)
                     (fun _ => eq_refl) (fun _ => eq_refl) os before cmd after m) as Sb.
  all: set (m1 := snd (bury os before cmd after m)) in *.
  all: assert (Run : running (pm (pmd m1)) = running (before ++ after))
         by (destruct L as [L|(_ & _ & L)]; rewrite L;
             [apply running_stopped; congruence | reflexivity]).
  all: assert (Run0 : running (pm (pmd m)) = running (before ++ after))
         by (rewrite H; apply running_stopped; exact Z).
  all: pose proof (reap_cases os m1) as Reap; cbv zeta in Reap.
  all: pose proof (silent_reap is_info os m1) as Sr.
  all: set (next := fst (procman_check_for_dead_children os m1)) in *.
  all: set (m2 := snd (procman_check_for_dead_children os m1)) in *.
  all: rewrite (transmit_proc_info_eq os m2).
  all: cbn [snd].
  all: set (m3 := emitted (asked m2) _).
  all: assert (T3 : filter is_info (trace m3)
                    = filter is_info (trace m) ++ [PMD_INFO
            (Info.mk (clock os (os_calls m2)) (hostname (pmd m2)) (cpu_load (pmd m2))
               (Sys.memtotal (sys_cpu_time1 (pmd m2))) (Sys.memfree (sys_cpu_time1 (pmd m2)))
               (Sys.swaptotal (sys_cpu_time1 (pmd m2))) (Sys.swapfree (sys_cpu_time1 (pmd m2)))
               (map deputy_cmd_of (pm (pmd m2))))])
         by (subst m3; cbn [trace emitted asked]; rewrite filter_app, Sr, Sb; reflexivity).
  all: assert (Done : next = None ->
                 reports_and_children m3 = S (reports_and_children m)
                 /\ exists earlier info,
                      trace m3 = earlier ++ [PMD_INFO info]
                      /\ Info.cmds info = map deputy_cmd_of (pm (pmd m3))).
  1, 3: intros N; rewrite N in Reap; split;
        [ unfold reports_and_children; rewrite T3, length_app;
          change (pm (pmd m3)) with (pm (pmd m2)); rewrite Reap, Run, Run0;
          cbn [List.length]; lia
        | eexists _, _; split; reflexivity ].
  - destruct next as [[[b c] a]|] eqn:N; cbn [ret snd]; [|apply Done; reflexivity].
    exfalso. destruct Reap as (q & Lq & Nq & _).
    pose proof (running_one_more b q a Nq) as One.
    rewrite <- Lq, Run in One. lia.
  - destruct next as [[[b c] a]|] eqn:N; cbn [ret snd]; [|apply Done; reflexivity].
    destruct Reap as (q & Lq & Nq & Eq & L2).
    pose proof (running_one_more b q a Nq) as One. rewrite <- Lq, Run in One.
    destruct (IH b c a m3) as (I1 & I2).
    + exact L2.
    + rewrite Eq. reflexivity.
    + lia.
    + split; [|exact I2]. rewrite I1. f_equal.
      unfold reports_and_children. rewrite T3, length_app.
      change (pm (pmd m3)) with (pm (pmd m2)). rewrite L2, Run0.
      rewrite (running_stopped b c a) by (rewrite Eq; reflexivity).
      cbn [List.length]. lia.
Qed.

(** X18. The handler of SIGCHLD publishes one PMD_INFO message for each
    child it reaps, after the child is buried: the PMD_INFO messages of the
    trace and the handles that run, counted together, are as many after the
    handler as before.  When it reaps no child it changes nothing and lets
    nothing out; when it reaps one, the last thing it does is to publish a
    PMD_INFO message that lists the command list as it leaves it. *)
Theorem reaping_is_reported os m :
  let m' := snd (check_for_dead_children os m) in
  let first := fst (procman_check_for_dead_children os m) in
  reports_and_children m' = reports_and_children m
  /\ (first = None -> trace m' = trace m /\ pmd m' = pmd m)
  /\ (first <> None ->
      exists earlier info,
        trace m' = earlier ++ [PMD_INFO info]
        /\ Info.cmds info = map deputy_cmd_of (pm (pmd m'))).
Proof.
  intros m' first. subst m' first. unfold check_for_dead_children. rewrite bind_eq.
  pose proof (reap_cases os m) as Reap. cbv zeta in Reap.
  pose proof (silent_reap is_info os m) as Sr.
  pose proof (silent_reap any_event os m) as Sa. rewrite !filter_any_event in Sa.
  pose proof (reap_none os m) as Rn.
  destruct (fst (procman_check_for_dead_children os m)) as [[[b c] a]|].
  - destruct Reap as (q & Lq & Nq & Eq & L2).
    pose proof (running_one_more b q a Nq) as One. rewrite <- Lq in One.
    destruct (bury_all_reports os (List.length b + List.length a) b c a
                (snd (procman_check_for_dead_children os m)) L2) as (I1 & I2).
    + rewrite Eq. reflexivity.
    + rewrite <- length_app. apply running_length.
    + split; [|split; [discriminate | intros _; exact I2]].
      rewrite I1. unfold reports_and_children. rewrite Sr, L2.
      rewrite (running_stopped b c a) by (rewrite Eq; reflexivity). lia.
  - cbn [ret snd]. split; [|split; [|intros N; contradiction N; reflexivity]].
    + unfold reports_and_children. rewrite Sr, Reap. reflexivity.
    + intros _. split; [exact Sa | exact (Rn eq_refl)].
Qed.

Lemma reaping_is_reported_witness :
  let m' := snd (check_for_dead_children Worlds.os_child_died Scenario.busy) in
  fst (procman_check_for_dead_children Worlds.os_child_died Scenario.busy) <> None
  /\ List.length (filter is_info (trace m')) = 1%nat
  /\ exists earlier info,
       trace m' = earlier ++ [PMD_INFO info]
       /\ map DeputyCmd.pid (Info.cmds info) = [0; 102; 0].
Proof.
  intros m'.
  assert (N : fst (procman_check_for_dead_children Worlds.os_child_died Scenario.busy)
              <> None) by discriminate.
  split; [exact N|]. split; [vm_compute; reflexivity|].
  destruct (proj2 (proj2 (reaping_is_reported Worlds.os_child_died Scenario.busy)) N)
    as (earlier & info & T & C).
  exists earlier, info. split; [exact T|]. rewrite C. vm_compute. reflexivity.
Defined.

(** ** What the deputy never does *)

Lemma foul_signal_fair p signum :
  p <> 0 -> signum = SIGTERM \/ signum = SIGKILL -> foul_signal (Killed p signum) = false.
Proof.
  intros NZ H. cbn. destruct (Z.eqb_spec p 0); [contradiction|].
  destruct H as [->| ->]; reflexivity.
Qed.

Lemma fair_signals evs :
  filter foul_signal evs = [] <-> Forall fair_signal (signals_sent evs).
Proof.
  induction evs as [|e evs IH]; [split; [constructor | reflexivity]|].
  destruct e as [msg|msg|name result|p signum|fd source|source|fd| |fmt];
    cbn [filter foul_signal signals_sent]; try exact IH.
  destruct (Z.eqb_spec p 0) as [Zp|NZ]; cbn [orb].
  - split; [discriminate|]. intros F. inversion F as [|? ? [H _] _]; subst.
    contradiction.
  - destruct (Z.eqb_spec signum SIGTERM) as [T|NT]; cbn [orb negb].
    + rewrite IH. split.
      * intros F. constructor; [split; [exact NZ | left; exact T] | exact F].
      * intros F. inversion F; subst. assumption.
    + destruct (Z.eqb_spec signum SIGKILL) as [K|NK]; cbn [negb].
      * rewrite IH. split.
        -- intros F. constructor; [split; [exact NZ | right; exact K] | exact F].
        -- intros F. inversion F; subst. assumption.
      * split; [discriminate|]. intros F. inversion F as [|? ? [_ [H|H]] _]; subst;
          contradiction.
Qed.

(** X19. The deputy never sends a signal to pid 0, and the only signals
    it sends are SIGTERM and SIGKILL: a turn of the main loop adds no other
    signal to those sent, so none was sent at any point of a run. *)
Theorem signals_are_fair os max_age bits :
  (forall m i,
     Forall fair_signal (signals_sent (trace m)) ->
     Forall fair_signal (signals_sent (trace (step os max_age bits m i))))
  /\ (forall name verbosity inputs,
        Forall fair_signal
          (signals_sent (trace (run os max_age bits (boot name verbosity) inputs)))).
Proof.
  assert (S : forall m i,
             filter foul_signal (trace (step os max_age bits m i))
             = filter foul_signal (trace m)).
  { intros m i. apply silent_step; try reflexivity. exact foul_signal_fair. }
  split.
  - intros m i F. apply fair_signals. rewrite S. apply fair_signals. exact F.
  - intros name verbosity inputs. apply fair_signals.
    rewrite silent_run; try reflexivity. exact foul_signal_fair.
Qed.

Lemma signals_are_fair_witness :
  let m' := step Scenario.os Scenario.max_age 32 Scenario.busy (Signal SIGTERM) in
  Forall fair_signal (signals_sent (trace Scenario.busy))
  /\ signals_sent (trace m') = [(101, SIGTERM); (102, SIGTERM)]
  /\ Forall fair_signal (signals_sent (trace m')).
Proof.
  intros m'.
  assert (F : Forall fair_signal (signals_sent (trace Scenario.busy))) by constructor.
  split; [exact F|]. split; [vm_compute; reflexivity|].
  exact (proj1 (signals_are_fair Scenario.os Scenario.max_age 32) Scenario.busy
           (Signal SIGTERM) F).
Defined.

Lemma spawns_filter evs : spawns (filter is_fork evs) = spawns evs.
Proof.
  induction evs as [|e evs IH]; [reflexivity|].
  destruct e; cbn [filter is_fork spawns]; rewrite ?IH; reflexivity.
Qed.

Lemma watches_added_filter evs : watches_added (filter is_new_watch evs) = watches_added evs.
Proof.
  induction evs as [|e evs IH]; [reflexivity|].
  destruct e; cbn [filter is_new_watch watches_added]; rewrite ?IH; reflexivity.
Qed.

Lemma signals_sent_filter evs : signals_sent (filter is_kill evs) = signals_sent evs.
Proof.
  induction evs as [|e evs IH]; [reflexivity|].
  destruct e; cbn [filter is_kill signals_sent]; rewrite ?IH; reflexivity.
Qed.

(** X20. Only an order makes the deputy start a process: no timer, no
    pipe event and no signal spawns anything or adds a stdout watch.  The
    timers, the pipe events and SIGCHLD send no signal either, and do not
    stop the main loop. *)
Theorem only_orders_spawn os max_age bits i m
  (no_order : forall orders, i <> OrdersMsg orders) :
  let m' := snd (dispatch os max_age bits i m) in
  spawns (trace m') = spawns (trace m)
  /\ watches_added (trace m') = watches_added (trace m)
  /\ ((forall signum, i = Signal signum -> signum = SIGCHLD) ->
      signals_sent (trace m') = signals_sent (trace m)
      /\ filter is_quit (trace m') = filter is_quit (trace m)).
Proof.
  intros m'. subst m'. split; [|split].
  - rewrite <- spawns_filter, <- (spawns_filter (trace m)). f_equal.
    apply (silent_dispatch_other is_fork); try reflexivity. exact no_order.
  - rewrite <- watches_added_filter, <- (watches_added_filter (trace m)). f_equal.
    apply (silent_dispatch_other is_new_watch); try reflexivity. exact no_order.
  - intros passive. split.
    + rewrite <- signals_sent_filter, <- (signals_sent_filter (trace m)). f_equal.
      apply (silent_dispatch_passive is_kill); try reflexivity; assumption.
    + apply silent_dispatch_passive; try reflexivity; assumption.
Qed.

Lemma only_orders_spawn_witness :
  let m' := snd (dispatch Worlds.os_child_died Scenario.max_age 32 (Signal SIGCHLD)
                   Scenario.busy) in
  (forall orders, Signal SIGCHLD <> OrdersMsg orders)
  /\ (forall signum, Signal SIGCHLD = Signal signum -> signum = SIGCHLD)
  /\ spawns (trace m') = [] /\ signals_sent (trace m') = []
  /\ List.length (trace m') = 4%nat.
Proof.
  intros m'.
  assert (N : forall orders, Signal SIGCHLD <> OrdersMsg orders)
    by (intros o Ho; discriminate Ho).
  assert (P : forall signum, Signal SIGCHLD = Signal signum -> signum = SIGCHLD)
    by (intros s Hs; injection Hs as <-; reflexivity).
  split; [exact N|]. split; [exact P|].
  destruct (only_orders_spawn Worlds.os_child_died Scenario.max_age 32 (Signal SIGCHLD)
              Scenario.busy N) as (S & _ & K).
  split; [exact S|]. split; [exact (proj1 (K P))|]. vm_compute. reflexivity.
Defined.
